(* ===== verification/_CoqProject ===== *)
-Q . S2P
Prelude.v
Errors.v
Logic.v
GoLib.v
Codecs.v
Types.v
Validation.v
Identifiers.v
MemoryState.v
MemoryIdempotency.v
MemoryNamespace.v
MemoryUploads.v
MemoryGovernance.v
MemoryGroups.v
MemoryStorage.v
Ports.v
Service.v
ServiceNamespace.v
ServiceUploads.v
ServiceGovernance.v
MaintenanceLoop.v
WorldLogic.v
MemoryFrame.v
Tree.v
TreeInvariant.v
TreeOperations.v
TreeRecycle.v
Members.v
MemorySteps.v
Sessions.v
Demo.v
NamespaceProperties.v
UploadProperties.v
GovernanceProperties.v
Paging.v
ValueProperties.v
IdempotencyProperties.v
StagingBundle.v
Staging.v
StagingTrace.v
StagingSteps.v
StagingProperties.v
Auth.v
OIDC.v
AuthProperties.v
ServerWire.v
ServerAPI.v
Server.v
ServerProperties.v
AuditProperties.v
S3Store.v
S3Properties.v
ConfigText.v
Config.v
ConfigProperties.v
Recovery.v
RecoveryProperties.v
PgCore.v
PgSchema.v
PgRepository.v
PgIdempotency.v
PgNamespace.v
PgUploads.v
PgMaintenance.v
PgGovernance.v
PgGroups.v
PgLogic.v
PgWrites.v
PgMethods.v
PgConstraints.v
PgTree.v
PgRefinement.v
PgInvariant.v
PgAtomic.v
PgOwners.v
PgSessions.v
PgAccess.v
PgProperties.v
PgOperations.v
ReleaseChecks.v
