(* ===== verification/Prelude.v ===== *)
(** * Asteria Drive: verification of the control plane

    The program (src/internal/) is the server of a multi-tenant file store: a
    domain package [drive] with its service, ports and types; adapters for the
    ports (in memory, PostgreSQL, S3); an HTTP server; authentication; a
    maintenance loop; and the controller of the staging environment. The library
    is a shallow embedding of the domain, of its in-memory and PostgreSQL adapters
    and of everything in front of and behind them that is not input or output.

    ** How code becomes a definition

    A method is a function in the monad [GoM S] of Errors.v: from a state it gives
    a value, an error, a panic or divergence, and the state reached then; an error
    undoes nothing. A Go struct is a record with the fields of the struct, updated
    by [r <| f := v |>]; a map is a [gmap], a range over a map goes through the
    parameter [MapRange], any function that lists the entries in some order which
    may differ at every call; [int64] is a [Z] in its range with [wrap64] where
    the code can overflow; [time.Time] and [time.Duration] are nanoseconds.
    A critical section under the mutex of the repository is one step: methods
    hold the lock from the first to the last line, so concurrent callers
    interleave by whole methods, and a path of the step relation of MemorySteps.v
    is such an interleaving. Loops over the tree carry fuel [node_fuel], the
    number of nodes and two more, after which they give [Diverged];
    [namespace_walks_end] shows that no reachable state exhausts it. The export
    of the audit trail has fuel for eleven pages ([audit_export_complete]), the
    recovery verifier needs fuel for one page more than there are blobs
    ([recovery_report_is_exact]), the loops over runes have one unit for each byte.

    What is outside src/, or is a codec, a clock or a network, is a class whose
    instance is a parameter: [Platform] (hashes, Unicode normalisation, media types),
    [Runtime] (clock and entropy, with the laws of their documentation),
    [CursorJSON], [TokenJSON], [BodyDecoders] (what a JSON decoder reads),
    [Provider] (the HTTP fetches of the OIDC provider), [Signatures], [URLParser],
    [TimeParser], [ConfigEnv], [FloatMath], [S3Client], [Catalog], [Schedule],
    [StagingPorts] (host, lock and record store), [BundleFiles], [ScriptRunner]
    (what a migration does to the database), [Documents] and [ReportJSON] (the YAML
    and JSON the release gates read).
    The properties hold for every instance; the examples give one.

    ** The PostgreSQL repository

    The state [Pg] is the committed database, the view of the open transaction and
    the number of statements run. The database [DB] has a map for each table of
    migrations/*.sql, keyed by its primary key. A statement of the code is a
    function in the monad [Stmt DB]: it reads and replaces tables, or is refused
    with the error of the server; INSERT, UPDATE and DELETE test the CHECK
    constraints, the unique indexes and the foreign keys of the migrations, and a
    commit tests the deferred ones. A method is a body in [GoM Pg] in the order of
    the code, its errors through [mapError].
    Parameters: [PgEngine], what the server computes (the text form of a uuid, the
    order of texts, jsonb, the order of rows where a query gives none), with the
    laws [PgEngineLaws]; and [PgEnv], what happens to each statement: a fault in
    place of its answer, for a COMMIT or a statement of the pool with or without
    its effect, the clock, the rows other transactions have locked where the code
    skips them, gaps in a sequence. A text the server refuses (a NUL byte, an
    invalid encoding) is such a fault. Times are stored in microseconds.
    A transaction is one step: its isolation is what the locks of the code are
    there for, and concurrent transactions are ordered by their commits. A table
    of char(64) does not pad, as the code writes 64 digits only. The fuel of a
    [WITH RECURSIVE] is one round more than there are rows; [pg_calls_end] shows
    that no reachable database exhausts it.

    ** Files

    - Prelude.v, Errors.v, Logic.v, GoLib.v, Codecs.v: record update,
      machine integers, sorting, the monad and its rules [wp], the functions of
      Go's library the program computes with, and their round trips.
    - Types.v, Validation.v, with Identifiers.v for their laws:
      drive/types.go, ports.go, errors.go, util.go, idempotency.go, cursor.go, audit.go.
    - MemoryState.v, MemoryIdempotency.v, MemoryNamespace.v, MemoryUploads.v,
      MemoryGovernance.v, MemoryGroups.v: the repository of memory/repository.go,
      idempotency.go, governance.go and maintenance.go, a record [Repository] with
      one map per map of the struct. MemoryStorage.v: memory/storage.go.
    - Ports.v: the interfaces of drive/ports.go as classes [RepositoryPort] and
      [StorageProvider], with the in-memory adapters as instances.
    - Service.v, ServiceNamespace.v, ServiceUploads.v, ServiceGovernance.v:
      drive/service.go and governance_service.go over any instance of the ports.
      MaintenanceLoop.v: maintenance/loop.go over the same ports.
    - Auth.v, OIDC.v: auth/trusted.go and auth/oidc.go.
    - ServerWire.v, ServerAPI.v, Server.v: the responses, handlers, routes and
      middleware of server/api.go and server/server.go over the service.
    - StagingBundle.v, Staging.v: staging/bundle.go and staging/controller.go.
    - ConfigText.v, Config.v: config/config.go, and what
      cmd/asteria-server/main.go makes of a configuration.
    - S3Store.v: s3store/provider.go over the client of the SDK, a second instance
      of [StorageProvider]. Recovery.v: recovery/verifier.go over a catalog and a store.
    - PgCore.v: statements, tables and recursive queries. PgSchema.v: the rows and
      constraints of migrations/*.sql. PgRepository.v: postgres/repository.go, scan.go,
      locking.go. PgIdempotency.v, PgNamespace.v, PgUploads.v, PgMaintenance.v,
      PgGovernance.v, PgGroups.v: the methods of idempotency.go, namespace.go and
      recycle.go, upload.go, maintenance.go, identity.go and governance.go.
    - PgLogic.v: rules for statements and methods. PgWrites.v: the writes a
      statement can make. PgMethods.v: the adapter as a [RepositoryPort], and the
      writes of each method. PgConstraints.v: the constraints, and the transition
      relation. PgTree.v: the tables as the maps of the in-memory repository.
      PgRefinement.v, PgInvariant.v, PgAtomic.v, PgOwners.v, PgSessions.v,
      PgAccess.v: the lemmas of the properties.
    - PgOperations.v: the runner of the migrations of postgres/migrate.go, and the
      catalog of recovery/postgres.go, an instance of the [Catalog] of Recovery.v
      on the tables of PgSchema.v.
    - ReleaseChecks.v: cicheck/openapi_compat.go and cicheck/integration_report.go.
    - Tree.v, TreeInvariant.v, TreeOperations.v, TreeRecycle.v: the namespace as a
      forest. MemoryFrame.v: what methods leave alone.
      MemorySteps.v: the transition relation of the repository, a constructor for
      each method, and the audit trail along it. Members.v, Sessions.v, Paging.v, StagingTrace.v, StagingSteps.v:
      the lemmas on members, sessions, listings and the staging controller.
    - Demo.v: a small tenant built by the operations themselves,
      where the examples of the properties start.

    ** Theorems

    - NamespaceProperties.v: reachable states are forests with unique names (C1),
      moves are refused exactly below the node (C2), recycling marks the
      visible subtree (C3) and restoring undoes it (C4), the walks end (C5), the
      access decision is that of the lists on the ancestors.
    - UploadProperties.v: sessions follow their state machine, commits are
      final but for a maintenance worker that claimed the session before (C19), visible and downloadable (C20), a completion binds its digest.
    - GovernanceProperties.v: a tenant keeps an owner, members change only
      by a manager, a removed member is locked out, a grant reaches the node and
      everything below it.
    - Paging.v: listings do not depend on the map iteration, and
      pages enumerate every child once (C21).
    - ValueProperties.v: identifiers, names (C22), cursors (C23).
    - IdempotencyProperties.v: claims exclude, stale claims are fenced
      (C24), creations are replayed.
    - StagingProperties.v: saves follow the transition table (C25), active records
      are verified (C26), switches are announced (C27) and settle, when a
      save fails in a record that blocks (C28), a blocked record refuses (C29), loaded bundles are approved.
    - AuthProperties.v: configured tokens, signed tokens (C30), principals
      bound to token and tenant (C31).
    - ServerProperties.v: requests change nothing without the permission of the
      route or, where it is elevated, a grant on every node (C32), error
      responses hide causes (C33), entity tags and limits (C34).
    - AuditProperties.v: the trail is append-only; exports are complete over any
      repository that lists its trail, the one in memory with the upper bound (C35).
    - ConfigProperties.v: production is hardened (C36) but for
      inline secrets that no part uses; the parts that need no connection start from a
      loaded configuration, the S3 store but for half a pair of keys (C37).
    - S3Properties.v: part listings are bounded, and complete for an honest service
      (C38). RecoveryProperties.v: a recovery report
      is exact, over any catalog that lists its blobs.
    - PgProperties.v: the namespace on PostgreSQL refines the one in memory
      (C6) and is a forest (C7), failed calls change nothing,
      with three exceptions (C8), the access decision (C9), owners (C10) and sessions
      (C11) as in memory, calls end (C13),
      leases (C14) and claims (C15) exclude, the trail is append-only
      (C16); [FinishUploadMaintenance] always fails.
    - PgOperations.v: a verification of a PostgreSQL database is exact
      (C17); interrupted migrations are resumed to the same
      database (C18); an export of the audit trail is complete and
      excludes the upper bound (C12).
    - ReleaseChecks.v: what the gates of the continuous integration accept, of the
      documents what stands at their paths (C39), (C40).

    ** Not modelled

    The connection pool and the row locks of PostgreSQL. The listener, the mux and
    the logging of the server and the metrics (internal/observability). The file
    store and the command line of the staging controller. The load generators
    (internal/loadtest), the programs of cmd/ but for what Config.v takes of the
    server, those of tools/, the redaction of logs of internal/cicheck, whose work
    is done by regular expressions, the archives of internal/release, the web
    client, the deployment scripts and manifests. Context cancellation is modelled
    nowhere: a method runs to its end. *)
From Stdlib Require Export ZArith Lia.
From stdpp Require Export base gmap strings sorting option.
From stdpp Require Export list.

Declare Scope go_scope.
Delimit Scope go_scope with go.
Open Scope go_scope.
Open Scope Z_scope.

(** ** Record update

    [r <| f := v |>] is the struct value [r] after the assignment [r.f = v].
    A record type declares its eta expansion once ([Eta]); the setter of each
    field is derived from it by [solve_setter]. *)

Class Eta (R : Type) := eta_expand : R → R.

Class Setter {R T : Type} (proj : R → T) := set_field : (T → T) → R → R.
Arguments set_field {R T} proj {_} g r /.

Ltac solve_setter :=
  lazymatch goal with
  | |- @Setter ?R ?T ?p =>
      let h := constr:(_ : Eta R) in
      let h := lazymatch h with ?x => x end in
      let hb := eval cbv delta [h] in h in
      let g := fresh "g" in
      let r := fresh "r" in
      unfold Setter; intros g r;
      let e := eval cbv beta in (hb r) in
      let e1 := eval pattern (p r) in e in
      lazymatch e1 with
      | ?k _ => let e2 := eval cbv beta in (k (g (p r))) in exact e2
      end
  end.

#[export] Hint Extern 1 (Setter _) => solve_setter : typeclass_instances.

Notation "r <| f := v |>" := (set_field f (λ _, v) r)
  (at level 1, left associativity, f at level 1, v at level 200,
   format "r <| f  :=  v |>") : go_scope.

(** ** Go values

    Equality of comparable values, the zero value of a type, and the lookup
    [m[k]], which yields the zero value for a missing key. *)

Notation "x == y" := (bool_decide (x = y)) (at level 70, no associativity) : go_scope.
Notation "x != y" := (negb (bool_decide (x = y))) (at level 70, no associativity) : go_scope.

Class GoZero (A : Type) := go_zero : A.
#[export] Instance zero_string : GoZero string := "".
#[export] Instance zero_Z : GoZero Z := 0.
#[export] Instance zero_bool : GoZero bool := false.
#[export] Instance zero_option A : GoZero (option A) := None.
#[export] Instance zero_list A : GoZero (list A) := [].
#[export] Instance zero_gmap A : GoZero (gmap string A) := (∅ : gmap string A).

Definition map_get {A : Type} `{GoZero A} (m : gmap string A) (k : string) : A :=
  default go_zero (m !! k).

(** [time.Time] is the number of nanoseconds since the zero time
    [time.Time{}] (January 1, year 1, UTC); [time.Duration] is the number of
    nanoseconds of the interval. *)

Abbreviation Time := Z (only parsing).
Abbreviation Duration := Z (only parsing).

Definition IsZero (t : Time) : bool := t =? 0.
Definition After (t u : Time) : bool := u <? t.
Definition Before (t u : Time) : bool := t <? u.
Definition AddTime (t : Time) (d : Duration) : Time := t + d.
(** [t.Sub(u)] saturates at the bounds of a [time.Duration]. *)
Definition SubTime (t u : Time) : Duration := Z.max (- 2 ^ 63) (Z.min (2 ^ 63 - 1) (t - u)).

Definition Millisecond : Duration := 1000000.
Definition Second : Duration := 1000 * Millisecond.
Definition Minute : Duration := 60 * Second.
Definition Hour : Duration := 60 * Minute.

(** ** Machine integers: [int64] and [int] are 64 bits wide and wrap around. *)

Definition wrap64 (z : Z) : Z := (z + 2 ^ 63) mod 2 ^ 64 - 2 ^ 63.
Definition in_int64 (z : Z) : Prop := - 2 ^ 63 ≤ z < 2 ^ 63.

Lemma wrap64_id z : in_int64 z → wrap64 z = z.
Proof. unfold in_int64, wrap64. intros. rewrite Z.mod_small; lia. Qed.

Lemma wrap64_range z : in_int64 (wrap64 z).
Proof.
  unfold in_int64, wrap64. pose proof (Z.mod_pos_bound (z + 2 ^ 63) (2 ^ 64)). lia.
Qed.

(** ** Ranging over a Go map

    The iteration order of [for k, v := range m] is unspecified and may change
    from one loop to the next. An instance of [MapRange] is one behaviour of
    the runtime: the list of entries the [n]-th loop over [m] visits. Every
    operation takes the behaviour as an argument, and every theorem holds for
    all of them. *)

Class MapRange := {
  map_range : ∀ {A : Type}, nat → gmap string A → list (string * A);
  map_range_perm : ∀ (A : Type) n (m : gmap string A), map_range n m ≡ₚ map_to_list m
}.

Definition range_values `{!MapRange} {A : Type} (n : nat) (m : gmap string A) : list A :=
  (map_range n m).*2.
Definition range_keys `{!MapRange} {A : Type} (n : nat) (m : gmap string A) : list string :=
  (map_range n m).*1.

(** Two concrete behaviours, used to evaluate the model. *)
Definition canonical_range : MapRange.
Proof. refine {| map_range A n m := map_to_list m |}. done. Defined.

Definition reversed_range : MapRange.
Proof.
  refine {| map_range A n m := reverse (map_to_list m) |}.
  intros. apply reverse_Permutation.
Defined.

(** ** [sort.Slice]: the slice is permuted so that no element is [less] than
    an earlier one. Applied to a slice collected in an arbitrary order, the
    stable [merge_sort] reaches every outcome the unstable library sort has. *)

Definition not_less {A : Type} (less : A → A → bool) (x y : A) : Prop := less y x = false.
#[export] Instance not_less_dec {A} (less : A → A → bool) : RelDecision (not_less less) :=
  λ x y, bool_eq_dec (less y x) false.
Definition sort_slice {A : Type} (less : A → A → bool) (l : list A) : list A :=
  merge_sort (not_less less) l.

(** [a < b] on Go strings: the bytewise lexicographic order. *)
Definition str_ltb (a b : string) : bool := negb (bool_decide (String.le b a)).

(** ** Bounded slicing: [items[:limit]] with [limit <= len(items)] panics for a
    negative [limit]. *)

Definition zlen {A : Type} (l : list A) : Z := Z.of_nat (length l).
Definition zstrlen (s : string) : Z := Z.of_nat (String.length s).


(** ** Lemmas on ranging and sorting *)

Section map_range_facts.
Context {mr : MapRange} {A : Type}.
Implicit Types (m : gmap string A) (f : A → bool).

Lemma elem_of_map_range n m k v : (k, v) ∈ map_range n m ↔ m !! k = Some v.
Proof. rewrite map_range_perm. apply elem_of_map_to_list. Qed.

Lemma NoDup_range_keys n m : NoDup (range_keys n m).
Proof. unfold range_keys. rewrite map_range_perm. apply NoDup_fst_map_to_list. Qed.

Lemma NoDup_map_range n m : NoDup (map_range n m).
Proof. eapply NoDup_fmap_1, NoDup_range_keys. Qed.

Lemma elem_of_range_values n m v : v ∈ range_values n m ↔ ∃ k, m !! k = Some v.
Proof.
  unfold range_values. rewrite list_elem_of_fmap. split.
  - intros ([k v'] & -> & Hin). exists k. by apply elem_of_map_range in Hin.
  - intros [k Hk]. exists (k, v). split; [done|]. by apply elem_of_map_range.
Qed.

Lemma elem_of_range_keys n m k : k ∈ range_keys n m ↔ is_Some (m !! k).
Proof.
  unfold range_keys. rewrite list_elem_of_fmap. split.
  - intros ([k' v] & -> & Hin). apply elem_of_map_range in Hin. eauto.
  - intros [v Hv]. exists (k, v). split; [done|]. by apply elem_of_map_range.
Qed.

Lemma range_existsb n m f :
  existsb f (range_values n m) = true ↔ ∃ k v, m !! k = Some v ∧ f v = true.
Proof.
  rewrite existsb_exists. setoid_rewrite <- list_elem_of_In.
  setoid_rewrite elem_of_range_values.
  split; [intros (v & [k Hk] & Hf) | intros (k & v & Hk & Hf)]; eauto.
Qed.

Lemma range_existsb_false n m f :
  existsb f (range_values n m) = false ↔ ∀ k v, m !! k = Some v → f v = false.
Proof.
  rewrite <- not_true_iff_false, range_existsb. split.
  - intros H k v Hk. apply not_true_iff_false. naive_solver.
  - intros H (k & v & Hk & Hf). rewrite (H k v Hk) in Hf. done.
Qed.

Lemma range_values_insert_perm n m k v :
  m !! k = None → range_values n (<[k:=v]> m) ≡ₚ v :: range_values n m.
Proof.
  intros Hk. unfold range_values.
  by rewrite !map_range_perm, map_to_list_insert.
Qed.
End map_range_facts.

(** Two behaviours of the runtime visit the same values. *)
Lemma range_values_perm (mr1 mr2 : MapRange) {A} n1 n2 (m : gmap string A) :
  @range_values mr1 A n1 m ≡ₚ @range_values mr2 A n2 m.
Proof. unfold range_values. by rewrite !map_range_perm. Qed.

Class StrictWeakOrder {A : Type} (less : A → A → bool) := {
  less_asym x y : less x y = true → less y x = false;
  less_negtrans x y z : less x y = false → less y z = false → less x z = false
}.

Section sort_facts.
Context {A : Type} (less : A → A → bool).
Implicit Types (l : list A).

Lemma sort_slice_perm l : sort_slice less l ≡ₚ l.
Proof. apply merge_sort_Permutation. Qed.

Lemma elem_of_sort_slice x l : x ∈ sort_slice less l ↔ x ∈ l.
Proof. by rewrite sort_slice_perm. Qed.

Lemma length_sort_slice l : length (sort_slice less l) = length l.
Proof. by rewrite sort_slice_perm. Qed.

Context `{!StrictWeakOrder less}.

#[local] Instance not_less_total : Total (not_less less).
Proof.
  intros x y. unfold not_less. destruct (less y x) eqn:E; [right|by left].
  by apply less_asym.
Qed.
#[local] Instance not_less_trans : Transitive (not_less less).
Proof. intros x y z Hxy Hyz. unfold not_less in *. eauto using less_negtrans. Qed.

Lemma sort_slice_sorted l : StronglySorted (not_less less) (sort_slice less l).
Proof. apply StronglySorted_merge_sort; apply _. Qed.

(** When no two distinct elements are equivalent, the result does not depend
    on the order in which the slice was collected. *)
Lemma sort_slice_unique l1 l2 :
  (∀ x y, x ∈ l1 → y ∈ l1 → less x y = false → less y x = false → x = y) →
  l1 ≡ₚ l2 → sort_slice less l1 = sort_slice less l2.
Proof.
  intros Huniq Hp.
  apply (StronglySorted_unique_strong (not_less less)); [|apply sort_slice_sorted..|].
  - intros x y Hx Hy ??. rewrite elem_of_sort_slice in Hx, Hy. rewrite <- Hp in Hy. eauto.
  - by rewrite !sort_slice_perm.
Qed.

Lemma sort_slice_id l : StronglySorted (not_less less) l →
  (∀ x y, x ∈ l → y ∈ l → less x y = false → less y x = false → x = y) →
  sort_slice less l = l.
Proof.
  intros Hs Huniq.
  apply (StronglySorted_unique_strong (not_less less));
    [|apply sort_slice_sorted|done|apply sort_slice_perm].
  intros x y Hx Hy ??. rewrite elem_of_sort_slice in Hx. eauto.
Qed.
End sort_facts.

(** ** String order *)

Lemma str_ltb_true a b : str_ltb a b = true ↔ ¬ String.le b a.
Proof. unfold str_ltb. rewrite negb_true_iff. apply bool_decide_eq_false. Qed.
Lemma str_ltb_false a b : str_ltb a b = false ↔ String.le b a.
Proof. unfold str_ltb. rewrite negb_false_iff. apply bool_decide_eq_true. Qed.

Lemma str_ltb_irrefl a : str_ltb a a = false.
Proof. by apply str_ltb_false. Qed.

Lemma str_ltb_asym a b : str_ltb a b = true → str_ltb b a = false.
Proof.
  rewrite str_ltb_true, str_ltb_false. intros H.
  destruct (String.le_total a b); [done|contradiction].
Qed.

Lemma str_ltb_trans a b c : str_ltb a b = true → str_ltb b c = true → str_ltb a c = true.
Proof.
  rewrite !str_ltb_true. intros H1 H2 H3. apply H2. etrans; [exact H3|].
  destruct (String.le_total a b); [done|contradiction].
Qed.

Lemma str_ltb_negtrans a b c :
  str_ltb a b = false → str_ltb b c = false → str_ltb a c = false.
Proof. rewrite !str_ltb_false. intros. by etrans. Qed.

Lemma str_ltb_tricho a b : str_ltb a b = false → str_ltb b a = false → a = b.
Proof. rewrite !str_ltb_false. intros. by apply (anti_symm String.le). Qed.

#[export] Instance str_ltb_swo : StrictWeakOrder str_ltb.
Proof. split; eauto using str_ltb_asym, str_ltb_negtrans. Qed.

(** Sorting by a string key. *)
#[export] Instance swo_by_key {A B} (key : A → B) (less : B → B → bool) :
  StrictWeakOrder less → StrictWeakOrder (λ x y, less (key x) (key y)).
Proof. intros [? ?]. split; eauto. Qed.

#[export] Instance Z_ltb_swo : StrictWeakOrder Z.ltb.
Proof. split; intros; lia. Qed.

Create HintDb go.
#[export] Hint Resolve str_ltb_irrefl str_ltb_asym : go.

(** ** Tactics shared by the components *)

(** Case analysis on the conditions of the code, in the order it tests them. *)
Ltac go_case :=
  match goal with
  | |- context [if ?b then _ else _] => destruct b eqn:?
  | H : context [if ?b then _ else _] |- _ => destruct b eqn:?
  | |- context [match ?o with Some _ => _ | None => _ end] => destruct o eqn:?
  | H : context [match ?o with Some _ => _ | None => _ end] |- _ => destruct o eqn:?
  end.

Ltac go_bool :=
  repeat match goal with
  | H : negb _ = true |- _ => apply negb_true_iff in H
  | H : negb _ = false |- _ => apply negb_false_iff in H
  | H : bool_decide _ = true |- _ => apply bool_decide_eq_true in H
  | H : bool_decide _ = false |- _ => apply bool_decide_eq_false in H
  | H : _ && _ = true |- _ => apply andb_true_iff in H as [? ?]
  | H : _ || _ = false |- _ => apply orb_false_iff in H as [? ?]
  end.

(** The same, with a case for each side of a disjunction. *)
Ltac go_bool_cases :=
  repeat (progress go_bool || match goal with
  | H : _ || _ = true |- _ => apply orb_true_iff in H as [H|H]
  | H : _ && _ = false |- _ => apply andb_false_iff in H as [H|H]
  end).
