(* ===== verification/Errors.v ===== *)
(** * Errors and the effects of an operation (src/internal/drive/errors.go)

    [GoError] is a non-nil Go error, [option GoError] a Go [error]. [GoM S A] is
    a method body that reads and writes a state [S]: it returns a value,
    returns an error, panics, or loops for ever ([Diverged]), and the state it leaves is the one reached at
    that point (an error does not undo earlier writes). *)
From S2P Require Import Prelude.

(** ** Error codes *)

Definition ErrorCode : Type := string.
Definition CodeInvalidRequest : ErrorCode := "invalid_request".
Definition CodeInvalidCursor : ErrorCode := "invalid_cursor".
Definition CodeUnauthenticated : ErrorCode := "unauthenticated".
Definition CodeForbidden : ErrorCode := "forbidden".
Definition CodeNotFound : ErrorCode := "not_found".
Definition CodeNameConflict : ErrorCode := "name_conflict".
Definition CodeInvalidState : ErrorCode := "invalid_state".
Definition CodeIdempotencyConflict : ErrorCode := "idempotency_conflict".
Definition CodeRestoreConflict : ErrorCode := "restore_conflict".
Definition CodeRevisionMismatch : ErrorCode := "revision_mismatch".
Definition CodeRequestTooLarge : ErrorCode := "request_too_large".
Definition CodeUnsupportedMediaType : ErrorCode := "unsupported_media_type".
Definition CodeDependencyUnavailable : ErrorCode := "dependency_unavailable".
Definition CodeInternal : ErrorCode := "internal_error".

(** A domain error ([*drive.Error]), an error that wraps another one
    ([fmt.Errorf] with [%w]), or any other error value. *)
Inductive GoError : Type :=
| DomainError (Code : ErrorCode) (Message : string) (Retryable : bool) (Cause : option GoError)
| WrapError (Message : string) (Inner : GoError)
| PlainError (Message : string).

(** [(e *Error) Error()], with the conversions [fmt] applies to the cause. *)
Fixpoint ErrorString (e : GoError) : string :=
  match e with
  | DomainError code message _ None => code +:+ ": " +:+ message
  | DomainError code message _ (Some cause) =>
      code +:+ ": " +:+ message +:+ ": " +:+ ErrorString cause
  | WrapError message inner => message +:+ ": " +:+ ErrorString inner
  | PlainError message => message
  end.

(** [(e *Error) Unwrap()] and the [Unwrap] of a wrapping error. *)
Definition Unwrap (e : GoError) : option GoError :=
  match e with
  | DomainError _ _ _ cause => cause
  | WrapError _ inner => Some inner
  | PlainError _ => None
  end.

Definition E (code : ErrorCode) (message : string) : GoError := DomainError code message false None.
(** [E] with a cause; the cause may be the nil error. *)
Definition EC (code : ErrorCode) (message : string) (cause : option GoError) : GoError :=
  DomainError code message false cause.
Definition Retryable (code : ErrorCode) (message : string) (cause : option GoError) : GoError :=
  DomainError code message true cause.

(** [errors.As(err, &domainErr)]: the first domain error of the chain. *)
Fixpoint AsDomain (e : GoError) : option GoError :=
  match e with
  | DomainError _ _ _ _ => Some e
  | WrapError _ inner => AsDomain inner
  | PlainError _ => None
  end.

Definition CodeOf (err : option GoError) : ErrorCode :=
  match err ≫= AsDomain with
  | Some (DomainError code _ _ _) => code
  | _ => CodeInternal
  end.

(** ** Method bodies *)

Inductive Outcome (A : Type) : Type :=
| Ok (a : A)
| Err (e : GoError)
| Panicked (message : string)
| Diverged.
Arguments Ok {A} a.
Arguments Err {A} e.
Arguments Panicked {A} message.
Arguments Diverged {A}.

Definition GoM (S A : Type) : Type := S → Outcome A * S.

#[export] Instance GoM_ret S : MRet (GoM S) := λ A a s, (Ok a, s).
#[export] Instance GoM_bind S : MBind (GoM S) := λ A B f m s,
  match m s with
  | (Ok a, s') => f a s'
  | (Err e, s') => (Err e, s')
  | (Panicked p, s') => (Panicked p, s')
  | (Diverged, s') => (Diverged, s')
  end.

Definition ret {S A} (a : A) : GoM S A := λ s, (Ok a, s).
Definition throw {S A} (e : GoError) : GoM S A := λ s, (Err e, s).
Definition panic {S A} (message : string) : GoM S A := λ s, (Panicked message, s).
Definition getS {S} : GoM S S := λ s, (Ok s, s).
Definition putS {S} (s : S) : GoM S unit := λ _, (Ok tt, s).
Definition modS {S} (f : S → S) : GoM S unit := λ s, (Ok tt, f s).

(** Pure code that returns a value or an error. *)
#[export] Instance Outcome_ret : MRet Outcome := λ A a, Ok a.
#[export] Instance Outcome_bind : MBind Outcome := λ A B f o,
  match o with Ok a => f a | Err e => Err e | Panicked p => Panicked p | Diverged => Diverged end.
Definition lift {S A} (o : Outcome A) : GoM S A := λ s, (o, s).

(** [if err != nil { return err }] for a call that returns only an error. *)
Definition check_err {S} (err : option GoError) : GoM S unit :=
  match err with Some e => throw e | None => ret tt end.

(** A call whose error the caller inspects instead of returning it. *)
Definition try_ {S A} (m : GoM S A) : GoM S (GoError + A) := λ s,
  match m s with
  | (Ok a, s') => (Ok (inr a), s')
  | (Err e, s') => (Ok (inl e), s')
  | (Panicked p, s') => (Panicked p, s')
  | (Diverged, s') => (Diverged, s')
  end.

(** [items[:limit]], reached when [len(items) > limit]. *)
Definition slice_to {S A} (l : list A) (limit : Z) : GoM S (list A) :=
  if limit <? 0 then panic "slice bounds out of range" else ret (take (Z.to_nat limit) l).

(** [for _, x := range l { body x }], left by the first error. *)
Fixpoint for_range {S A} (l : list A) (body : A → GoM S unit) : GoM S unit :=
  match l with
  | [] => ret tt
  | x :: l => _ ← body x; for_range l body
  end.

Definition error_of {S A} (m : GoM S A) (s : S) : option ErrorCode :=
  match (m s).1 with Err e => Some (CodeOf (Some e)) | _ => None end.

(** ** Laws *)

Lemma bind_ret {S A B} (a : A) (f : A → GoM S B) s : (ret a ≫= f) s = f a s.
Proof. done. Qed.
Lemma bind_get {S B} (f : S → GoM S B) s : (getS ≫= f) s = f s s.
Proof. done. Qed.
Lemma bind_put {S B} s' (f : unit → GoM S B) s : (putS s' ≫= f) s = f tt s'.
Proof. done. Qed.
Lemma bind_mod {S B} g (f : unit → GoM S B) s : (modS g ≫= f) s = f tt (g s).
Proof. done. Qed.
Lemma bind_lift_ok {S A B} (a : A) (f : A → GoM S B) s : (lift (Ok a) ≫= f) s = f a s.
Proof. done. Qed.
Lemma bind_throw {S A B} e (f : A → GoM S B) s : (throw e ≫= f) s = (Err e, s).
Proof. done. Qed.

Lemma bind_ok {S A B} (m : GoM S A) (f : A → GoM S B) s b s' :
  (m ≫= f) s = (Ok b, s') ↔ ∃ a s1, m s = (Ok a, s1) ∧ f a s1 = (Ok b, s').
Proof.
  unfold mbind, GoM_bind. destruct (m s) as [[a|e|p|] s1] eqn:Hm; split.
  - intros. eauto.
  - intros (?&?&?&?). by simplify_eq.
  - done.
  - intros (?&?&?&?). done.
  - done.
  - intros (?&?&?&?). done.
  - done.
  - intros (?&?&?&?). done.
Qed.

Lemma CodeOf_E code msg : CodeOf (Some (E code msg)) = code.
Proof. done. Qed.
Lemma CodeOf_Retryable code msg cause : CodeOf (Some (Retryable code msg cause)) = code.
Proof. done. Qed.

(** Wrapping never changes the code a caller sees. *)
Lemma CodeOf_wrap msg e : CodeOf (Some (WrapError msg e)) = CodeOf (Some e).
Proof. done. Qed.

(** Unfolds one step of a method body applied to a state. *)
Ltac go_step :=
  first [ rewrite bind_get | rewrite bind_put | rewrite bind_mod | rewrite bind_ret | rewrite bind_throw ].
