(* ===== verification/Logic.v ===== *)
(** * Reasoning about method bodies

    [wp m Q s] says that running [m] from [s] ends in an outcome and a state that
    satisfy [Q]; the rules below follow the structure of a body, and [wp_auto]
    applies them. *)
From S2P Require Import Prelude Errors.

Definition wp {S A} (m : GoM S A) (Q : Outcome A → S → Prop) (s : S) : Prop := Q (m s).1 (m s).2.

(** What must hold after [m] for [Q] to hold after [m ≫= f]. *)
Definition bind_post {S A B} (f : A → GoM S B) (Q : Outcome B → S → Prop) (o : Outcome A) (s : S) : Prop :=
  match o with
  | Ok a => wp (f a) Q s
  | Err e => Q (Err e) s
  | Panicked p => Q (Panicked p) s
  | Diverged => Q Diverged s
  end.

(** The postcondition of a body whose value is dropped. *)
Definition try_post {S A} (Q : Outcome (GoError + A) → S → Prop) (o : Outcome A) (s : S) : Prop :=
  match o with
  | Ok a => Q (Ok (inr a)) s
  | Err e => Q (Ok (inl e)) s
  | Panicked p => Q (Panicked p) s
  | Diverged => Q Diverged s
  end.

Section rules.
Context {S : Type}.
Implicit Types (s : S).

Lemma wp_bind {A B} (m : GoM S A) (f : A → GoM S B) Q s :
  wp m (bind_post f Q) s → wp (m ≫= f) Q s.
Proof. unfold wp, mbind, GoM_bind. destruct (m s) as [[]?]; exact id. Qed.

Lemma wp_ret {A} (a : A) (Q : Outcome A → S → Prop) s : Q (Ok a) s → wp (ret a) Q s.
Proof. exact id. Qed.
Lemma wp_throw {A} e (Q : Outcome A → S → Prop) s : Q (Err e) s → wp (throw e) Q s.
Proof. exact id. Qed.
Lemma wp_panic {A} p (Q : Outcome A → S → Prop) s : Q (Panicked p) s → wp (panic p) Q s.
Proof. exact id. Qed.
Lemma wp_get (Q : Outcome S → S → Prop) s : Q (Ok s) s → wp getS Q s.
Proof. exact id. Qed.
Lemma wp_put s' (Q : Outcome unit → S → Prop) s : Q (Ok tt) s' → wp (putS s') Q s.
Proof. exact id. Qed.
Lemma wp_mod g (Q : Outcome unit → S → Prop) s : Q (Ok tt) (g s) → wp (modS g) Q s.
Proof. exact id. Qed.
Lemma wp_lift {A} (o : Outcome A) Q s : Q o s → wp (lift o) Q s.
Proof. exact id. Qed.
Lemma wp_check (err : option GoError) (Q : Outcome unit → S → Prop) s :
  match err with Some e => Q (Err e) s | None => Q (Ok tt) s end → wp (check_err err) Q s.
Proof. destruct err; exact id. Qed.
Lemma wp_try {A} (m : GoM S A) Q s : wp m (try_post Q) s → wp (try_ m) Q s.
Proof. unfold wp, try_. destruct (m s) as [[]?]; exact id. Qed.

Lemma wp_mono {A} (m : GoM S A) (Q Q' : Outcome A → S → Prop) s :
  wp m Q s → (∀ o s', Q o s' → Q' o s') → wp m Q' s.
Proof. unfold wp. eauto. Qed.

Lemma wp_slice_to {A} (l : list A) limit (Q : Outcome (list A) → S → Prop) s :
  (limit < 0 → Q (Panicked "slice bounds out of range") s) →
  (0 ≤ limit → Q (Ok (take (Z.to_nat limit) l)) s) → wp (slice_to l limit) Q s.
Proof. intros H1 H2. unfold slice_to. case_match; [apply H1|apply H2]; lia. Qed.

(** A loop keeps what its body keeps. *)
Lemma wp_for_range {A} (l : list A) (body : A → GoM S unit) (I : S → Prop) s :
  I s → (∀ x s', x ∈ l → I s' → wp (body x) (λ _ s'', I s'') s') →
  wp (for_range l body) (λ _ s', I s') s.
Proof.
  revert s. induction l as [|x l IH]; intros s Hs Hbody; simpl; [by apply wp_ret|].
  apply wp_bind. eapply wp_mono; [apply Hbody; [by left|done]|].
  intros [] s' Hs'; simpl; try done.
  apply IH; [done|]. intros y s'' Hy. apply Hbody. by right.
Qed.

(** From the equation of a run to its postcondition, and back. *)
Lemma wp_run {A} (m : GoM S A) Q s o s' : wp m Q s → m s = (o, s') → Q o s'.
Proof. unfold wp. intros H Hm. by rewrite Hm in H. Qed.
Lemma wp_of_run {A} (m : GoM S A) (Q : Outcome A → S → Prop) s :
  (∀ o s', m s = (o, s') → Q o s') → wp m Q s.
Proof. intros H. unfold wp. apply H. by destruct (m s). Qed.

(** A body whose run is known. *)
Lemma wp_eq {A} (m : GoM S A) (Q : Outcome A → S → Prop) s o s' : m s = (o, s') → Q o s' → wp m Q s.
Proof. unfold wp. by intros ->. Qed.

(** Case analysis on a known run of [m]. *)
Lemma wp_inv {A} (m : GoM S A) s o s' (G : Prop) : m s = (o, s') →
  wp m (λ o1 s1, o1 = o → s1 = s' → G) s → G.
Proof. unfold wp. intros -> H. by apply H. Qed.

(** [I] holds after [m], whatever its outcome, when it holds before. *)
Definition keeps {A} (I : S → Prop) (m : GoM S A) : Prop := ∀ s, I s → wp m (λ _ s', I s') s.
End rules.

Ltac wp_step :=
  lazymatch goal with
  | |- wp (mbind _ _) _ _ => apply wp_bind
  | |- wp (ret _) _ _ => apply wp_ret
  | |- wp (throw _) _ _ => apply wp_throw
  | |- wp (panic _) _ _ => apply wp_panic
  | |- wp getS _ _ => apply wp_get
  | |- wp (putS _) _ _ => apply wp_put
  | |- wp (modS _) _ _ => apply wp_mod
  | |- wp (lift _) _ _ => apply wp_lift
  | |- wp (check_err _) _ _ => apply wp_check
  | |- wp (try_ _) _ _ => apply wp_try
  | |- wp (slice_to _ _) _ _ => apply wp_slice_to; intros ?
  | |- wp (let x := ?a in @?b x) ?Q ?s =>
      let y := fresh x in pose (y := a); change (wp (b y) Q s)
  | |- wp (match ?x with _ => _ end) _ _ => destruct x eqn:?
  | |- bind_post _ _ ?o _ => first [progress cbn [bind_post] | destruct o eqn:?]
  | |- try_post _ ?o _ => first [progress cbn [try_post] | destruct o eqn:?]
  | |- match ?x with _ => _ end => destruct x eqn:?
  end.
Ltac wp_go := repeat (cbv beta iota; wp_step).

(** Evaluates the conditions of a body that follow from the context. *)
Ltac go_decide :=
  match goal with
  | |- context [bool_decide ?P] =>
    first [ rewrite (bool_decide_eq_true_2 P) by (done || congruence)
          | rewrite (bool_decide_eq_false_2 P) by (done || discriminate || congruence) ]
  end; cbn [negb andb orb]; cbv iota.
