(* ===== verification/GoLib.v ===== *)
(** * The part of the Go standard library the program computes with

    Byte strings, UTF-8 decoding and the loop [for i, r := range s], white space
    trimming, hexadecimal and base64 codecs, the string encoder of
    [encoding/json], percent escaping, decimal integers. What the model does not
    compute is the class [Platform]: SHA-256 and HMAC, the Unicode tables behind
    [norm.NFC] and [strings.ToLower], [mime.ParseMediaType] and the layout of
    RFC 3339 times. *)
From stdpp Require Import pretty.
From S2P Require Import Prelude.

(** ** Bytes *)

Definition byte_val (c : Ascii.ascii) : Z := Z.of_N (Ascii.N_of_ascii c).
Definition byte_chr (b : Z) : Ascii.ascii := Ascii.ascii_of_N (Z.to_N b).
Definition chars (s : string) : list Ascii.ascii := String.list_ascii_of_string s.
Definition of_chars (l : list Ascii.ascii) : string := String.string_of_list_ascii l.
Definition bytes (s : string) : list Z := byte_val <$> chars s.
Definition of_bytes (l : list Z) : string := of_chars (byte_chr <$> l).
Definition is_byte (b : Z) : Prop := 0 ≤ b < 256.

(** ** UTF-8 ([unicode/utf8], and ranging over a string) *)

Definition RuneError : Z := 65533.
Definition in_range (lo hi b : Z) : bool := (lo <=? b) && (b <=? hi).
Definition continuation (b : Z) : bool := in_range 128 191 b.

(** The range of the second byte that the first byte admits. *)
Definition second_range (b0 : Z) : Z * Z :=
  if b0 =? 224 then (160, 191) else if b0 =? 237 then (128, 159)
  else if b0 =? 240 then (144, 191) else if b0 =? 244 then (128, 143)
  else (128, 191).

(** [utf8.DecodeRuneInString]: the first rune and its width; an invalid or
    truncated encoding is [RuneError] of width 1. *)
Definition DecodeRune (l : list Z) : Z * nat :=
  match l with
  | [] => (RuneError, 0%nat)
  | b0 :: l1 =>
    if b0 <? 128 then (b0, 1%nat)
    else if in_range 194 223 b0 then
      match l1 with
      | b1 :: _ => if continuation b1
                   then ((b0 - 192) * 64 + (b1 - 128), 2%nat) else (RuneError, 1%nat)
      | _ => (RuneError, 1%nat)
      end
    else if in_range 224 239 b0 then
      match l1 with
      | b1 :: b2 :: _ =>
        if in_range (second_range b0).1 (second_range b0).2 b1 && continuation b2
        then ((b0 - 224) * 4096 + (b1 - 128) * 64 + (b2 - 128), 3%nat) else (RuneError, 1%nat)
      | _ => (RuneError, 1%nat)
      end
    else if in_range 240 244 b0 then
      match l1 with
      | b1 :: b2 :: b3 :: _ =>
        if in_range (second_range b0).1 (second_range b0).2 b1 && continuation b2 && continuation b3
        then ((b0 - 240) * 262144 + (b1 - 128) * 4096 + (b2 - 128) * 64 + (b3 - 128), 4%nat)
        else (RuneError, 1%nat)
      | _ => (RuneError, 1%nat)
      end
    else (RuneError, 1%nat)
  end.

(** The iterations of [for index, r := range s], [index] counted from [i]; the
    width is kept to tell an encoded U+FFFD from an invalid byte. Every
    iteration consumes a byte, so the length is enough fuel. *)
Fixpoint runes_from (fuel : nat) (i : Z) (l : list Z) : list (Z * Z * nat) :=
  match fuel, l with
  | S fuel, _ :: _ =>
      let '(r, w) := DecodeRune l in
      (i, r, w) :: runes_from fuel (i + Z.of_nat w) (drop w l)
  | _, _ => []
  end.
Definition range_string (s : string) : list (Z * Z * nat) :=
  runes_from (String.length s) 0 (bytes s).

Definition ValidString (s : string) : bool :=
  forallb (λ '(_, r, w), negb ((r =? RuneError) && (Nat.eqb w 1))) (range_string s).

(** ** [unicode.IsSpace], [unicode.IsControl], [strings.TrimSpace] *)

Definition IsSpace (r : Z) : bool :=
  in_range 9 13 r || (r =? 32) || (r =? 133) || (r =? 160) || (r =? 5760) ||
  in_range 8192 8202 r || (r =? 8232) || (r =? 8233) || (r =? 8239) || (r =? 8287) || (r =? 12288).
Definition IsControl (r : Z) : bool := in_range 0 31 r || in_range 127 159 r.

(** [utf8.DecodeLastRuneInString], on the reversed bytes: step back over at most
    three continuation bytes, and decode forward from there. *)
Fixpoint last_start (n : nat) (rl acc : list Z) : list Z :=
  match n, rl with
  | S n, b :: rl => if continuation b then last_start n rl (b :: acc) else b :: acc
  | _, _ => acc
  end.
Definition DecodeLastRune (rl : list Z) : Z * nat :=
  match rl with
  | [] => (RuneError, 0%nat)
  | b :: _ =>
    if b <? 128 then (b, 1%nat)
    else let tail := last_start 4 rl [] in
         let '(r, w) := DecodeRune tail in
         if Nat.eqb w (length tail) then (r, w) else (RuneError, 1%nat)
  end.

Fixpoint trim_left (fuel : nat) (l : list Z) : list Z :=
  match fuel, l with
  | S fuel, _ :: _ => let '(r, w) := DecodeRune l in
                      if IsSpace r then trim_left fuel (drop w l) else l
  | _, _ => l
  end.
Fixpoint trim_right (fuel : nat) (rl : list Z) : list Z :=
  match fuel, rl with
  | S fuel, _ :: _ => let '(r, w) := DecodeLastRune rl in
                      if IsSpace r then trim_right fuel (drop w rl) else rl
  | _, _ => rl
  end.
Definition TrimSpace (s : string) : string :=
  let l := trim_left (String.length s) (bytes s) in
  of_bytes (reverse (trim_right (length l) (reverse l))).

(** ** [encoding/hex] *)

Definition hex_char (v : Z) : Ascii.ascii := byte_chr (if v <? 10 then 48 + v else 87 + v).
Definition hex_val (c : Ascii.ascii) : option Z :=
  let b := byte_val c in
  if in_range 48 57 b then Some (b - 48)
  else if in_range 97 102 b then Some (b - 87)
  else if in_range 65 70 b then Some (b - 55)
  else None.
Definition hex_encode (l : list Z) : list Ascii.ascii :=
  l ≫= λ b, [hex_char (b / 16); hex_char (b mod 16)].
Definition HexEncodeToString (s : string) : string := of_chars (hex_encode (bytes s)).
Fixpoint hex_decode (l : list Ascii.ascii) : option (list Z) :=
  match l with
  | [] => Some []
  | c1 :: c2 :: l =>
      v1 ← hex_val c1; v2 ← hex_val c2; rest ← hex_decode l; Some (v1 * 16 + v2 :: rest)
  | [_] => None
  end.
Definition HexDecodeString (s : string) : option string := of_bytes <$> hex_decode (chars s).

(** ** [encoding/base64] *)

(** The two characters that distinguish the standard and the URL alphabet. *)
Record Base64Alphabet := mkAlphabet { c62 : Z; c63 : Z }.
Definition StdAlphabet : Base64Alphabet := mkAlphabet 43 47.
Definition URLAlphabet : Base64Alphabet := mkAlphabet 45 95.

Definition b64_char (a : Base64Alphabet) (v : Z) : Ascii.ascii :=
  byte_chr (if v <? 26 then 65 + v else if v <? 52 then 71 + v else if v <? 62 then v - 4
            else if v =? 62 then c62 a else c63 a).
Definition b64_val (a : Base64Alphabet) (c : Ascii.ascii) : option Z :=
  let b := byte_val c in
  if in_range 65 90 b then Some (b - 65) else if in_range 97 122 b then Some (b - 71)
  else if in_range 48 57 b then Some (b + 4) else if b =? c62 a then Some 62
  else if b =? c63 a then Some 63 else None.
Definition pad_char : Ascii.ascii := byte_chr 61.

Fixpoint b64_encode (a : Base64Alphabet) (pad : bool) (l : list Z) : list Ascii.ascii :=
  match l with
  | [] => []
  | [x] =>
      let v := x * 2 ^ 16 in
      [b64_char a (v / 2 ^ 18); b64_char a (v / 2 ^ 12 mod 64)] ++
      (if pad then [pad_char; pad_char] else [])
  | [x; y] =>
      let v := x * 2 ^ 16 + y * 2 ^ 8 in
      [b64_char a (v / 2 ^ 18); b64_char a (v / 2 ^ 12 mod 64); b64_char a (v / 2 ^ 6 mod 64)] ++
      (if pad then [pad_char] else [])
  | x :: y :: z :: l =>
      let v := x * 2 ^ 16 + y * 2 ^ 8 + z in
      b64_char a (v / 2 ^ 18) :: b64_char a (v / 2 ^ 12 mod 64) ::
      b64_char a (v / 2 ^ 6 mod 64) :: b64_char a (v mod 64) :: b64_encode a pad l
  end.

(** The decoder skips line breaks and does not look at the unused trailing bits. *)
Definition is_newline (c : Ascii.ascii) : bool := (byte_val c =? 10) || (byte_val c =? 13).
Fixpoint b64_decode (a : Base64Alphabet) (pad : bool) (l : list Ascii.ascii) : option (list Z) :=
  match l with
  | [] => Some []
  | ch0 :: ch1 :: ch2 :: ch3 :: l =>
      v0 ← b64_val a ch0; v1 ← b64_val a ch1;
      match b64_val a ch2 with
      | Some v2 =>
          match b64_val a ch3 with
          | Some v3 =>
              let v := v0 * 2 ^ 18 + v1 * 2 ^ 12 + v2 * 2 ^ 6 + v3 in
              rest ← b64_decode a pad l;
              Some (v / 2 ^ 16 :: v / 2 ^ 8 mod 256 :: v mod 256 :: rest)
          | None =>
              if pad && (ch3 == pad_char) && (l == []) then
                let v := v0 * 2 ^ 18 + v1 * 2 ^ 12 + v2 * 2 ^ 6 in
                Some [v / 2 ^ 16; v / 2 ^ 8 mod 256]
              else None
          end
      | None =>
          if pad && (ch2 == pad_char) && (ch3 == pad_char) && (l == []) then
            let v := v0 * 2 ^ 18 + v1 * 2 ^ 12 in Some [v / 2 ^ 16]
          else None
      end
  | [ch0; ch1; ch2] =>
      if pad then None else
      v0 ← b64_val a ch0; v1 ← b64_val a ch1; v2 ← b64_val a ch2;
      let v := v0 * 2 ^ 18 + v1 * 2 ^ 12 + v2 * 2 ^ 6 in
      Some [v / 2 ^ 16; v / 2 ^ 8 mod 256]
  | [ch0; ch1] =>
      if pad then None else
      v0 ← b64_val a ch0; v1 ← b64_val a ch1;
      let v := v0 * 2 ^ 18 + v1 * 2 ^ 12 in Some [v / 2 ^ 16]
  | [_] => None
  end.

Definition StdEncodeToString (s : string) : string := of_chars (b64_encode StdAlphabet true (bytes s)).
Definition StdDecodeString (s : string) : option string :=
  of_bytes <$> b64_decode StdAlphabet true (filter (λ c, is_newline c = false) (chars s)).
Definition RawURLEncodeToString (s : string) : string := of_chars (b64_encode URLAlphabet false (bytes s)).
Definition RawURLDecodeString (s : string) : option string :=
  of_bytes <$> b64_decode URLAlphabet false (filter (λ c, is_newline c = false) (chars s)).

(** ** Strings in JSON: the encoder of [encoding/json], HTML escaping on. *)

Definition dquote : string := of_bytes [34].
Definition backslash : string := of_bytes [92].
Definition hex4 (r : Z) : string :=
  of_chars [hex_char (r / 4096); hex_char (r / 256 mod 16); hex_char (r / 16 mod 16); hex_char (r mod 16)].
Definition json_escape (r : Z) : string :=
  if (r =? 34) || (r =? 92) then backslash +:+ of_bytes [r]
  else if r =? 8 then backslash +:+ "b" else if r =? 12 then backslash +:+ "f"
  else if r =? 10 then backslash +:+ "n" else if r =? 13 then backslash +:+ "r"
  else if r =? 9 then backslash +:+ "t"
  else backslash +:+ "u" +:+ hex4 r.
Definition json_plain (r : Z) : bool :=
  (32 <=? r) && negb ((r =? 34) || (r =? 92) || (r =? 60) || (r =? 62) || (r =? 38)).
Fixpoint json_chars (fuel : nat) (l : list Z) : string :=
  match fuel, l with
  | S fuel, b :: _ =>
      let '(r, w) := DecodeRune l in
      (if r <? 128 then if json_plain r then of_bytes [r] else json_escape r
       else if (r =? RuneError) && Nat.eqb w 1 then json_escape RuneError
       else if (r =? 8232) || (r =? 8233) then json_escape r
       else of_bytes (take w l)) +:+ json_chars fuel (drop w l)
  | _, _ => ""
  end.
Definition json_string (s : string) : string :=
  dquote +:+ json_chars (String.length s) (bytes s) +:+ dquote.
Definition json_int (z : Z) : string := pretty z.
Definition json_field (name value : string) : string := dquote +:+ name +:+ dquote +:+ ":" +:+ value.
Definition json_join (open close : string) (items : list string) : string :=
  open +:+ String.concat "," items +:+ close.
Definition json_object (fields : list string) : string := json_join "{" "}" fields.
Definition json_array (items : list string) : string := json_join "[" "]" items.

(** [json.Marshal] of a [map[string]string]: the keys in increasing order. *)
Definition json_string_map `{!MapRange} (m : gmap string string) : string :=
  json_object ((λ '(k, v), json_string k +:+ ":" +:+ json_string v) <$>
    sort_slice (λ x y : string * string, str_ltb x.1 y.1) (map_range 0 m)).

(** ** Percent escaping ([net/url]) *)

Definition unreserved (b : Z) : bool :=
  in_range 48 57 b || in_range 65 90 b || in_range 97 122 b ||
  (b =? 45) || (b =? 46) || (b =? 95) || (b =? 126).
Definition path_safe (b : Z) : bool :=
  unreserved b || (b =? 36) || (b =? 38) || (b =? 43) || (b =? 61) || (b =? 58) || (b =? 64).
Definition upper_hex (v : Z) : Z := if v <? 10 then 48 + v else 55 + v.
Definition percent (b : Z) : list Z := [37; upper_hex (b / 16); upper_hex (b mod 16)].
Definition PathEscape (s : string) : string :=
  of_bytes (bytes s ≫= λ b, if path_safe b then [b] else percent b).
Definition QueryEscape (s : string) : string :=
  of_bytes (bytes s ≫= λ b, if unreserved b then [b] else if b =? 32 then [43] else percent b).
(** [url.Values.Encode], the pairs given in increasing order of their keys. *)
Definition QueryEncode (pairs : list (string * string)) : string :=
  String.concat "&" ((λ '(k, v), QueryEscape k +:+ "=" +:+ QueryEscape v) <$> pairs).

(** [strings.Join]. *)
Definition StringsJoin (items : list string) (sep : string) : string := String.concat sep items.
(** [strings.HasPrefix] and [strings.Contains]. *)
Definition HasPrefix (s prefix : string) : bool := String.prefix prefix s.
Definition Contains (s sub : string) : bool :=
  match String.index 0 sub s with Some _ => true | None => false end.

(** [rand.Read] of a fixed number of bytes: it fills the slice, or fails. *)
Abbreviation RandRead := (option (list Z)) (only parsing).

(** ** What is not computed *)

Class Platform := {
  sha256 : string → string;
  hmac_sha256 : string → string → string;
  norm_NFC : string → string;
  strings_ToLower : string → string;
  ParseMediaType : string → option string;
  FormatRFC3339 : Time → string;
  (** [unicode.IsPrint] of a rune above the ASCII range *)
  IsPrint_above : Z → bool
}.

Class PlatformLaws (P : Platform) := {
  length_sha256 s : String.length (sha256 s) = 32%nat;
  length_hmac_sha256 k s : String.length (hmac_sha256 k s) = 32%nat
}.

(** A concrete platform on which the model evaluates. *)
Definition toy_digest (s : string) : string :=
  of_bytes (take 32 (Z.of_nat (String.length s) :: bytes s ++ replicate 32 0)).
#[export] Instance example_platform : Platform := {|
  sha256 := toy_digest;
  hmac_sha256 k s := toy_digest (k +:+ s);
  norm_NFC s := s;
  strings_ToLower s := of_bytes ((λ b, if in_range 65 90 b then b + 32 else b) <$> bytes s);
  ParseMediaType s := Some s;
  FormatRFC3339 t := pretty t;
  IsPrint_above _ := true
|}.

(** ** [strconv.Quote], the verb [%q] *)

Section quote.
Context `{!Platform}.

Definition IsPrint (r : Z) : bool := if r <? 128 then in_range 32 126 r else IsPrint_above r.
Definition hex2 (r : Z) : string := of_chars [hex_char (r / 16); hex_char (r mod 16)].
Definition quote_escape (r : Z) : string :=
  backslash +:+
  (if r =? 7 then "a" else if r =? 8 then "b" else if r =? 12 then "f" else if r =? 10 then "n"
   else if r =? 13 then "r" else if r =? 9 then "t" else if r =? 11 then "v"
   else if (r <? 32) || (r =? 127) then "x" +:+ hex2 r
   else if r <? 65536 then "u" +:+ hex4 r
   else "U" +:+ hex4 (r / 65536) +:+ hex4 (r mod 65536)).
Fixpoint quote_chars (fuel : nat) (l : list Z) : string :=
  match fuel, l with
  | S fuel, b :: _ =>
      let '(r, w) := DecodeRune l in
      (if (r =? RuneError) && Nat.eqb w 1 then backslash +:+ "x" +:+ hex2 b
       else if (r =? 34) || (r =? 92) then backslash +:+ of_bytes [r]
       else if IsPrint r then of_bytes (take w l) else quote_escape r) +:+ quote_chars fuel (drop w l)
  | _, _ => ""
  end.
Definition Quote (s : string) : string :=
  dquote +:+ quote_chars (String.length s) (bytes s) +:+ dquote.
End quote.
