(* ===== verification/Codecs.v ===== *)
(** * Round trips of the codecs of the Go library

    Byte strings, hexadecimal, base64 with and without padding, and the loop over
    the runes of an ASCII string. *)
From stdpp Require Import pretty.
From S2P Require Import Prelude Errors GoLib.

(** A property of the integers of a small range, checked one by one. *)
Lemma forallb_seqZ (P : Z → bool) n v : forallb P (seqZ 0 n) = true → 0 ≤ v < n → P v = true.
Proof.
  intros H Hv. rewrite forallb_forall in H. apply H, list_elem_of_In, elem_of_seqZ. lia.
Qed.

(** ** Bytes *)

Lemma byte_val_range c : is_byte (byte_val c).
Proof. unfold is_byte, byte_val. pose proof (Ascii.N_ascii_bounded c). lia. Qed.
Lemma byte_chr_val c : byte_chr (byte_val c) = c.
Proof. unfold byte_chr, byte_val. by rewrite N2Z.id, Ascii.ascii_N_embedding. Qed.
Lemma byte_val_chr b : is_byte b → byte_val (byte_chr b) = b.
Proof.
  unfold is_byte, byte_val, byte_chr. intros Hb. rewrite Ascii.N_ascii_embedding by lia. lia.
Qed.

Lemma chars_of_chars l : chars (of_chars l) = l.
Proof. apply String.list_ascii_of_string_of_list_ascii. Qed.
Lemma of_chars_chars s : of_chars (chars s) = s.
Proof. apply String.string_of_list_ascii_of_string. Qed.
Lemma bytes_of_bytes l : Forall is_byte l → bytes (of_bytes l) = l.
Proof.
  unfold bytes, of_bytes. rewrite chars_of_chars. induction 1 as [|b l Hb Hl IH]; [done|].
  by rewrite !fmap_cons, byte_val_chr, IH.
Qed.
Lemma of_bytes_bytes s : of_bytes (bytes s) = s.
Proof.
  unfold bytes, of_bytes. rewrite <- list_fmap_compose, (list_fmap_ext _ id).
  - by rewrite list_fmap_id, of_chars_chars.
  - intros _ c _. apply byte_chr_val.
Qed.
Lemma bytes_range s : Forall is_byte (bytes s).
Proof. unfold bytes. apply Forall_fmap, Forall_true. intros c. apply byte_val_range. Qed.
Lemma length_chars s : length (chars s) = String.length s.
Proof. unfold chars. induction s as [|c s IH]; simpl; [done|]. by f_equal. Qed.
Lemma length_bytes s : length (bytes s) = String.length s.
Proof. unfold bytes. by rewrite length_fmap, length_chars. Qed.
Lemma zstrlen_of_bytes l : zstrlen (of_bytes l) = zlen l.
Proof.
  unfold zstrlen, zlen. rewrite <- length_chars. unfold of_bytes. by rewrite chars_of_chars, length_fmap.
Qed.

Lemma chars_app s t : chars (s +:+ t) = chars s ++ chars t.
Proof. unfold chars. induction s as [|a s IH]; simpl; [done|]. by f_equal. Qed.
Lemma chars_inj s t : chars s = chars t → s = t.
Proof.
  unfold chars. intros E. rewrite <- (String.string_of_list_ascii_of_string s),
    <- (String.string_of_list_ascii_of_string t). by f_equal.
Qed.

Lemma length_append s t : String.length (s +:+ t) = (String.length s + String.length t)%nat.
Proof. by rewrite <- !length_chars, chars_app, length_app. Qed.

(** ** Hexadecimal *)

Lemma hex_val_char v : 0 ≤ v < 16 → hex_val (hex_char v) = Some v.
Proof.
  assert (E : forallb (λ v, bool_decide (hex_val (hex_char v) = Some v)) (seqZ 0 16) = true)
    by (vm_compute; reflexivity).
  intros Hv. pose proof (forallb_seqZ _ _ v E Hv) as Ev. by apply bool_decide_eq_true in Ev.
Qed.

Lemma hex_decode_encode l : Forall is_byte l → hex_decode (hex_encode l) = Some l.
Proof.
  induction 1 as [|b l Hb Hl IH]; [done|]. unfold is_byte in Hb.
  change (hex_encode (b :: l)) with (hex_char (b / 16) :: hex_char (b mod 16) :: hex_encode l). simpl hex_decode.
  rewrite !hex_val_char by (pose proof (Z.mod_pos_bound b 16); pose proof (Z.div_lt_upper_bound b 16 16);
    pose proof (Z.div_pos b 16); lia).
  simpl. rewrite IH. simpl. do 2 f_equal. pose proof (Z.div_mod b 16). lia.
Qed.

Lemma HexDecode_Encode s : HexDecodeString (HexEncodeToString s) = Some s.
Proof.
  unfold HexDecodeString, HexEncodeToString. rewrite chars_of_chars, hex_decode_encode by apply bytes_range.
  simpl. by rewrite of_bytes_bytes.
Qed.
Lemma length_hex_encode l : length (hex_encode l) = (2 * length l)%nat.
Proof.
  induction l as [|b l IH]; [done|].
  change (hex_encode (b :: l)) with (hex_char (b / 16) :: hex_char (b mod 16) :: hex_encode l). simpl. lia.
Qed.

(** ** Base64 *)

(** What the two alphabets have in common. *)
Record good_alphabet (a : Base64Alphabet) : Prop := {
  ga_val v : 0 ≤ v < 64 → b64_val a (b64_char a v) = Some v;
  ga_pad : b64_val a pad_char = None;
  ga_line v : 0 ≤ v < 64 → is_newline (b64_char a v) = false
}.

Lemma good_alphabet_check a :
  forallb (λ v, bool_decide (b64_val a (b64_char a v) = Some v) && negb (is_newline (b64_char a v)))
    (seqZ 0 64) = true → b64_val a pad_char = None → good_alphabet a.
Proof.
  intros H Hpad. assert (∀ v, 0 ≤ v < 64 → b64_val a (b64_char a v) = Some v ∧ is_newline (b64_char a v) = false)
    as Hv.
  { intros v Hv. pose proof (forallb_seqZ _ _ v H Hv) as E. simpl in E. by go_bool. }
  split; [|done|]; intros v E; by apply Hv.
Qed.
Lemma std_good : good_alphabet StdAlphabet.
Proof. apply good_alphabet_check; vm_compute; reflexivity. Qed.
Lemma url_good : good_alphabet URLAlphabet.
Proof. apply good_alphabet_check; vm_compute; reflexivity. Qed.

Section base64.
Context (a : Base64Alphabet) (Ha : good_alphabet a) (pad : bool).

(** The four sextets of three bytes, and back. *)
Lemma sextets x y z v : is_byte x → is_byte y → is_byte z → v = x * 2 ^ 16 + y * 2 ^ 8 + z →
  (0 ≤ v / 2 ^ 18 < 64) ∧ (0 ≤ v / 2 ^ 12 mod 64 < 64) ∧ (0 ≤ v / 2 ^ 6 mod 64 < 64) ∧ (0 ≤ v mod 64 < 64) ∧
  v / 2 ^ 18 * 2 ^ 18 + v / 2 ^ 12 mod 64 * 2 ^ 12 + v / 2 ^ 6 mod 64 * 2 ^ 6 + v mod 64 = v ∧
  v / 2 ^ 16 = x ∧ v / 2 ^ 8 mod 256 = y ∧ v mod 256 = z.
Proof. unfold is_byte. intros Hx Hy Hz ->. repeat split; Z.to_euclidean_division_equations; lia. Qed.

Lemma b64_encode_three x y z l : b64_encode a pad (x :: y :: z :: l) =
  b64_char a ((x * 2 ^ 16 + y * 2 ^ 8 + z) / 2 ^ 18) ::
  b64_char a ((x * 2 ^ 16 + y * 2 ^ 8 + z) / 2 ^ 12 mod 64) ::
  b64_char a ((x * 2 ^ 16 + y * 2 ^ 8 + z) / 2 ^ 6 mod 64) ::
  b64_char a ((x * 2 ^ 16 + y * 2 ^ 8 + z) mod 64) :: b64_encode a pad l.
Proof. done. Qed.

(** One byte fills two sextets, two bytes three; the other bits are zero. *)
Lemma sextets_1 x v : is_byte x → v = x * 2 ^ 16 →
  (0 ≤ v / 2 ^ 18 < 64) ∧ (0 ≤ v / 2 ^ 12 mod 64 < 64) ∧
  (v / 2 ^ 18 * 2 ^ 18 + v / 2 ^ 12 mod 64 * 2 ^ 12) / 2 ^ 16 = x.
Proof. unfold is_byte. intros Hx ->. repeat split; Z.to_euclidean_division_equations; lia. Qed.
Lemma sextets_2 x y v : is_byte x → is_byte y → v = x * 2 ^ 16 + y * 2 ^ 8 →
  (0 ≤ v / 2 ^ 18 < 64) ∧ (0 ≤ v / 2 ^ 12 mod 64 < 64) ∧ (0 ≤ v / 2 ^ 6 mod 64 < 64) ∧
  let w := v / 2 ^ 18 * 2 ^ 18 + v / 2 ^ 12 mod 64 * 2 ^ 12 + v / 2 ^ 6 mod 64 * 2 ^ 6 in
  w / 2 ^ 16 = x ∧ w / 2 ^ 8 mod 256 = y.
Proof. unfold is_byte. intros Hx Hy ->. repeat split; Z.to_euclidean_division_equations; lia. Qed.

Lemma b64_decode_encode l : Forall is_byte l → b64_decode a pad (b64_encode a pad l) = Some l.
Proof.
  remember (length l) as n eqn:Hn. revert l Hn. induction (lt_wf n) as [n _ IH]. intros l -> Hl.
  destruct l as [|x [|y [|z l]]]; [done|apply Forall_cons in Hl as [Hx Hl]..].
  - destruct (sextets_1 x _ Hx eq_refl) as (H0 & H1 & Hv).
    simpl b64_encode. destruct pad; simpl; rewrite !(ga_val a Ha) by done; simpl; rewrite ?(ga_pad a Ha); simpl;
      by rewrite Hv.
  - apply Forall_cons in Hl as [Hy Hl]. destruct (sextets_2 x y _ Hx Hy eq_refl) as (H0 & H1 & H2 & Hv1 & Hv2).
    simpl b64_encode. destruct pad; simpl; rewrite !(ga_val a Ha) by done; simpl; rewrite ?(ga_pad a Ha); simpl;
      by rewrite Hv1, Hv2.
  - apply Forall_cons in Hl as [Hy Hl]. apply Forall_cons in Hl as [Hz Hl].
    destruct (sextets x y z _ Hx Hy Hz eq_refl) as (H0 & H1 & H2 & H3 & Hv & Hv0 & Hv1 & Hv2).
    rewrite b64_encode_three. cbn [b64_decode]. rewrite !(ga_val a Ha) by done. cbn [mbind option_bind]. rewrite Hv, Hv0, Hv1, Hv2.
    cbn [mbind option_bind]. by rewrite (IH (length l)) by (simpl; done || lia).
Qed.

(** Every character of the text is one of the alphabet, or padding. *)
Lemma b64_encode_chars (P : Ascii.ascii → Prop) l : (∀ v, 0 ≤ v < 64 → P (b64_char a v)) →
  (pad = true → P pad_char) → Forall is_byte l → Forall P (b64_encode a pad l).
Proof.
  intros HP Hpad. remember (length l) as n eqn:Hn. revert l Hn.
  induction (lt_wf n) as [n _ IH]. intros l -> Hl.
  destruct l as [|x [|y [|z l]]]; [constructor|apply Forall_cons in Hl as [Hx Hl]..].
  - destruct (sextets_1 x _ Hx eq_refl) as (H0 & H1 & _). simpl. destruct pad; repeat constructor; auto.
  - apply Forall_cons in Hl as [Hy Hl]. destruct (sextets_2 x y _ Hx Hy eq_refl) as (H0 & H1 & H2 & _). simpl.
    destruct pad; repeat constructor; auto.
  - apply Forall_cons in Hl as [Hy Hl]. apply Forall_cons in Hl as [Hz Hl].
    destruct (sextets x y z _ Hx Hy Hz eq_refl) as (H0 & H1 & H2 & H3 & _).
    rewrite b64_encode_three. repeat (constructor; [by apply HP|]). apply (IH (length l)); simpl; done || lia.
Qed.

(** The decoder finds no line break to skip. *)
Lemma b64_encode_lines l : Forall is_byte l → Forall (λ c, is_newline c = false) (b64_encode a pad l).
Proof. intros Hl. apply b64_encode_chars; [apply Ha|done|done]. Qed.

Lemma b64_round_trip s :
  of_bytes <$> b64_decode a pad (filter (λ c, is_newline c = false)
    (chars (of_chars (b64_encode a pad (bytes s))))) = Some s.
Proof.
  assert (E : filter (λ c, is_newline c = false) (b64_encode a pad (bytes s)) = b64_encode a pad (bytes s)).
  { pose proof (b64_encode_lines (bytes s) (bytes_range s)) as HF.
    induction HF as [|c l Hc _ IH]; [done|]. by rewrite filter_cons, decide_True, IH. }
  rewrite chars_of_chars, E, b64_decode_encode by apply bytes_range. simpl. by rewrite of_bytes_bytes.
Qed.
End base64.

Lemma StdDecode_Encode s : StdDecodeString (StdEncodeToString s) = Some s.
Proof. apply (b64_round_trip _ std_good). Qed.
Lemma RawURLDecode_Encode s : RawURLDecodeString (RawURLEncodeToString s) = Some s.
Proof. apply (b64_round_trip _ url_good). Qed.

(** ** The runes of an ASCII string are its bytes *)

Lemma runes_from_ascii fuel i l : Forall (λ b, 0 ≤ b < 128) l → fuel = length l →
  runes_from fuel i l = imap (λ k b, (i + Z.of_nat k, b, 1%nat)) l.
Proof.
  intros Hl ->. revert i. induction Hl as [|b l Hb Hl IH]; intros i; [done|]. cbn [length runes_from].
  unfold DecodeRune. destruct (b <? 128) eqn:E; [|lia]. cbn [drop]. rewrite IH. simpl.
  f_equal; [do 2 f_equal; lia|]. apply imap_ext. intros k x _. simpl. do 2 f_equal. lia.
Qed.

Lemma range_string_ascii s : Forall (λ b, 0 ≤ b < 128) (bytes s) →
  range_string s = imap (λ k b, (Z.of_nat k, b, 1%nat)) (bytes s).
Proof.
  intros Hs. unfold range_string. rewrite (runes_from_ascii _ 0 (bytes s)) by (done || by rewrite length_bytes).
  apply imap_ext. intros k b _. done.
Qed.

(** ** Decimal integers of [strconv]

    [strconv.ParseInt(s, 10, 64)] and [strconv.Atoi] on a 64-bit platform, and
    that they read back what [%d] prints. *)

Definition digit_val (ch : Ascii.ascii) : option Z :=
  let b := byte_val ch in if in_range 48 57 b then Some (b - 48) else None.
Fixpoint parse_digits (acc : Z) (l : list Ascii.ascii) : option Z :=
  match l with
  | [] => Some acc
  | ch :: l => v ← digit_val ch; parse_digits (acc * 10 + v) l
  end.

(** An optional sign, at least one digit, and a value that fits in 64 bits. *)
Definition split_sign (l : list Ascii.ascii) : bool * list Ascii.ascii :=
  match l with
  | ch :: rest => if byte_val ch =? 45 then (true, rest)
                  else if byte_val ch =? 43 then (false, rest) else (false, l)
  | [] => (false, [])
  end.
Definition ParseInt (s : string) : option Z :=
  let '(negative, digits) := split_sign (chars s) in
  if bool_decide (digits = []) then None else
  magnitude ← parse_digits 0 digits;
  let v := if negative then - magnitude else magnitude in
  if (- 2 ^ 63 <=? v) && (v <? 2 ^ 63) then Some v else None.
Definition Atoi : string → option Z := ParseInt.

(** ** Round trip *)

Definition digit_string (x : N) : list Ascii.ascii := chars (pretty_N_go x "").

Lemma digit_val_pretty x : (x < 10)%N → digit_val (pretty_N_char x) = Some (Z.of_N x).
Proof.
  assert (forallb (λ v, bool_decide (digit_val (pretty_N_char (Z.to_N v)) = Some v)) (seqZ 0 10) = true) as Hall
    by (vm_compute; reflexivity).
  intros Hx. pose proof (forallb_seqZ _ _ (Z.of_N x) Hall) as Hv. simpl in Hv.
  rewrite N2Z.id in Hv. specialize (Hv ltac:(lia)). by apply bool_decide_eq_true in Hv.
Qed.

Lemma parse_digits_pretty x s :
  parse_digits 0 (chars (pretty_N_go x s)) = parse_digits (Z.of_N x) (chars s).
Proof.
  revert s. induction (N.lt_wf_0 x) as [x _ IH]; intros s.
  destruct (decide (x = 0%N)) as [->|Hx]; [by rewrite pretty_N_go_0|].
  rewrite pretty_N_go_step by lia. rewrite IH by (apply N.div_lt; lia).
  change (chars (String ?c s)) with (c :: chars s). simpl.
  rewrite digit_val_pretty by (apply N.mod_lt; lia). simpl. f_equal.
  rewrite N2Z.inj_div, N2Z.inj_mod. pose proof (Z.div_mod (Z.of_N x) 10). lia.
Qed.

Lemma pretty_N_go_digits x : (0 < x)%N → digit_string x ≠ [] ∧
  split_sign (digit_string x) = (false, digit_string x).
Proof.
  intros Hx. unfold digit_string. 
  assert (∀ s, (∀ ch, head (chars s) = Some ch → is_Some (digit_val ch)) → 
    ∀ x, (x ≠ 0)%N ∨ chars s ≠ [] → ∃ ch l, chars (pretty_N_go x s) = ch :: l ∧ is_Some (digit_val ch)) as Hgo.
  { intros s Hs y. revert s Hs. induction (N.lt_wf_0 y) as [y _ IH]; intros s Hs Hy.
    destruct (decide (y = 0%N)) as [->|Hy0].
    - rewrite pretty_N_go_0. destruct (chars s) as [|ch l]; [by destruct Hy|]. exists ch, l. auto.
    - rewrite pretty_N_go_step by lia. apply IH; [apply N.div_lt; lia| |right; done].
      intros ch [= <-]. rewrite digit_val_pretty by (apply N.mod_lt; lia). done. }
  destruct (Hgo "" ltac:(done) x) as (ch & l & -> & [v Hv]); [left; lia|].
  split; [done|]. unfold digit_val in Hv. destruct (in_range 48 57 _) eqn:Hr; [|done].
  unfold in_range in Hr. simpl. replace (byte_val ch =? 45) with false by lia.
  by replace (byte_val ch =? 43) with false by lia.
Qed.

Lemma ParseInt_json_int z : in_int64 z → 0 ≤ z → ParseInt (json_int z) = Some z.
Proof.
  intros Hz Hpos. unfold in_int64 in Hz.
  assert (chars (json_int z) = if decide (z = 0) then [byte_chr 48] else digit_string (Z.to_N z)) as Hchars.
  { unfold json_int, pretty, pretty_Z. destruct z as [|p|p]; [done|simpl|lia].
    unfold pretty, pretty_N. by destruct (decide (N.pos p = 0%N)). }
  unfold ParseInt. rewrite Hchars. destruct (decide (z = 0)) as [->|Hne]; [done|].
  destruct (pretty_N_go_digits (Z.to_N z)) as [Hnil ->]; [lia|].
  rewrite bool_decide_eq_false_2 by done.
  unfold digit_string. rewrite parse_digits_pretty. simpl. rewrite Z2N.id by lia.
  replace ((- 2 ^ 63 <=? z) && (z <? 2 ^ 63)) with true by lia. done.
Qed.

(** A parsed value is in range. *)
Lemma ParseInt_range s z : ParseInt s = Some z → in_int64 z.
Proof.
  unfold ParseInt, in_int64. destruct (split_sign _) as [negative digits]. case_bool_decide; [done|].
  destruct (parse_digits 0 digits); [|done]. simpl. intros Hv. destruct (_ && _) eqn:Hr; [|done].
  simplify_eq. lia.
Qed.
