(* ===== verification/Types.v ===== *)
(** * The domain types (src/internal/drive/types.go, ports.go, audit.go)

    One record per struct, its fields in the order of the source and prefixed
    with the name of the struct; one string constant per enumerator (a Go
    [type X string] admits every string, and the code tests membership with the
    [Valid...] functions). A pointer field is an [option]; a nil map or slice is
    the empty one. Each record comes with its zero value. *)
From S2P Require Import Prelude.

Record Identity := mkIdentity {
  Identity_TenantID : string;
  Identity_PrincipalID : string
}.
#[export] Instance eta_Identity : Eta Identity := λ r,
  mkIdentity (Identity_TenantID r) (Identity_PrincipalID r).
#[export] Instance zero_Identity : GoZero Identity :=
  mkIdentity go_zero go_zero.

Definition AccessRole : Type := string.
Definition RoleOwner : AccessRole := "owner".
Definition RoleAdmin : AccessRole := "admin".
Definition RoleEditor : AccessRole := "editor".
Definition RoleViewer : AccessRole := "viewer".

Definition Permission : Type := string.
Definition PermissionTenantRead : Permission := "tenant:read".
Definition PermissionMembersRead : Permission := "tenant:members:read".
Definition PermissionMembersManage : Permission := "tenant:members:manage".
Definition PermissionGroupsManage : Permission := "tenant:groups:manage".
Definition PermissionAuditRead : Permission := "tenant:audit:read".
Definition PermissionFilesRead : Permission := "files:read".
Definition PermissionFilesWrite : Permission := "files:write".
Definition PermissionFilesDelete : Permission := "files:delete".

Definition MemberStatus : Type := string.
Definition MemberStatusActive : MemberStatus := "active".
Definition MemberStatusSuspended : MemberStatus := "suspended".

Record PrincipalRecord := mkPrincipalRecord {
  PrincipalRecord_Identity : Identity;
  PrincipalRecord_Issuer : string;
  PrincipalRecord_Subject : string;
  PrincipalRecord_DisplayName : string;
  PrincipalRecord_TenantDisplayName : string;
  PrincipalRecord_Role : AccessRole;
  PrincipalRecord_Status : MemberStatus
}.
#[export] Instance eta_PrincipalRecord : Eta PrincipalRecord := λ r,
  mkPrincipalRecord (PrincipalRecord_Identity r) (PrincipalRecord_Issuer r) (PrincipalRecord_Subject r) (PrincipalRecord_DisplayName r) (PrincipalRecord_TenantDisplayName r) (PrincipalRecord_Role r) (PrincipalRecord_Status r).
#[export] Instance zero_PrincipalRecord : GoZero PrincipalRecord :=
  mkPrincipalRecord go_zero go_zero go_zero go_zero go_zero go_zero go_zero.

Record OIDCMemberSeed := mkOIDCMemberSeed {
  OIDCMemberSeed_PrincipalID : string;
  OIDCMemberSeed_TenantID : string;
  OIDCMemberSeed_Issuer : string;
  OIDCMemberSeed_Subject : string;
  OIDCMemberSeed_DisplayName : string;
  OIDCMemberSeed_Role : AccessRole;
  OIDCMemberSeed_Now : Time
}.
#[export] Instance eta_OIDCMemberSeed : Eta OIDCMemberSeed := λ r,
  mkOIDCMemberSeed (OIDCMemberSeed_PrincipalID r) (OIDCMemberSeed_TenantID r) (OIDCMemberSeed_Issuer r) (OIDCMemberSeed_Subject r) (OIDCMemberSeed_DisplayName r) (OIDCMemberSeed_Role r) (OIDCMemberSeed_Now r).
#[export] Instance zero_OIDCMemberSeed : GoZero OIDCMemberSeed :=
  mkOIDCMemberSeed go_zero go_zero go_zero go_zero go_zero go_zero go_zero.

Record UpdateMemberCommand := mkUpdateMemberCommand {
  UpdateMemberCommand_TenantID : string;
  UpdateMemberCommand_PrincipalID : string;
  UpdateMemberCommand_ActorPrincipalID : string;
  UpdateMemberCommand_ActorRole : AccessRole;
  UpdateMemberCommand_Role : option AccessRole;
  UpdateMemberCommand_Status : option MemberStatus;
  UpdateMemberCommand_Now : Time
}.
#[export] Instance eta_UpdateMemberCommand : Eta UpdateMemberCommand := λ r,
  mkUpdateMemberCommand (UpdateMemberCommand_TenantID r) (UpdateMemberCommand_PrincipalID r) (UpdateMemberCommand_ActorPrincipalID r) (UpdateMemberCommand_ActorRole r) (UpdateMemberCommand_Role r) (UpdateMemberCommand_Status r) (UpdateMemberCommand_Now r).
#[export] Instance zero_UpdateMemberCommand : GoZero UpdateMemberCommand :=
  mkUpdateMemberCommand go_zero go_zero go_zero go_zero go_zero go_zero go_zero.

Definition InvitationStatus : Type := string.
Definition InvitationPending : InvitationStatus := "pending".
Definition InvitationAccepted : InvitationStatus := "accepted".
Definition InvitationRevoked : InvitationStatus := "revoked".
Definition InvitationExpired : InvitationStatus := "expired".

Record TenantInvitation := mkTenantInvitation {
  TenantInvitation_ID : string;
  TenantInvitation_TenantID : string;
  TenantInvitation_Issuer : string;
  TenantInvitation_Subject : string;
  TenantInvitation_DisplayName : string;
  TenantInvitation_Role : AccessRole;
  TenantInvitation_Status : InvitationStatus;
  TenantInvitation_AcceptedPrincipalID : string;
  TenantInvitation_CreatedBy : string;
  TenantInvitation_ExpiresAt : Time;
  TenantInvitation_AcceptedAt : option Time;
  TenantInvitation_RevokedAt : option Time;
  TenantInvitation_CreatedAt : Time;
  TenantInvitation_UpdatedAt : Time
}.
#[export] Instance eta_TenantInvitation : Eta TenantInvitation := λ r,
  mkTenantInvitation (TenantInvitation_ID r) (TenantInvitation_TenantID r) (TenantInvitation_Issuer r) (TenantInvitation_Subject r) (TenantInvitation_DisplayName r) (TenantInvitation_Role r) (TenantInvitation_Status r) (TenantInvitation_AcceptedPrincipalID r) (TenantInvitation_CreatedBy r) (TenantInvitation_ExpiresAt r) (TenantInvitation_AcceptedAt r) (TenantInvitation_RevokedAt r) (TenantInvitation_CreatedAt r) (TenantInvitation_UpdatedAt r).
#[export] Instance zero_TenantInvitation : GoZero TenantInvitation :=
  mkTenantInvitation go_zero go_zero go_zero go_zero go_zero go_zero go_zero go_zero go_zero go_zero go_zero go_zero go_zero go_zero.

Record CreateInvitationCommand := mkCreateInvitationCommand {
  CreateInvitationCommand_ID : string;
  CreateInvitationCommand_TenantID : string;
  CreateInvitationCommand_ActorPrincipalID : string;
  CreateInvitationCommand_ActorRole : AccessRole;
  CreateInvitationCommand_Issuer : string;
  CreateInvitationCommand_Subject : string;
  CreateInvitationCommand_DisplayName : string;
  CreateInvitationCommand_Role : AccessRole;
  CreateInvitationCommand_TokenHash : string;
  CreateInvitationCommand_ExpiresAt : Time;
  CreateInvitationCommand_Now : Time
}.
#[export] Instance eta_CreateInvitationCommand : Eta CreateInvitationCommand := λ r,
  mkCreateInvitationCommand (CreateInvitationCommand_ID r) (CreateInvitationCommand_TenantID r) (CreateInvitationCommand_ActorPrincipalID r) (CreateInvitationCommand_ActorRole r) (CreateInvitationCommand_Issuer r) (CreateInvitationCommand_Subject r) (CreateInvitationCommand_DisplayName r) (CreateInvitationCommand_Role r) (CreateInvitationCommand_TokenHash r) (CreateInvitationCommand_ExpiresAt r) (CreateInvitationCommand_Now r).
#[export] Instance zero_CreateInvitationCommand : GoZero CreateInvitationCommand :=
  mkCreateInvitationCommand go_zero go_zero go_zero go_zero go_zero go_zero go_zero go_zero go_zero go_zero go_zero.

Record AcceptInvitationCommand := mkAcceptInvitationCommand {
  AcceptInvitationCommand_TokenHash : string;
  AcceptInvitationCommand_CandidatePrincipalID : string;
  AcceptInvitationCommand_Issuer : string;
  AcceptInvitationCommand_Subject : string;
  AcceptInvitationCommand_Now : Time
}.
#[export] Instance eta_AcceptInvitationCommand : Eta AcceptInvitationCommand := λ r,
  mkAcceptInvitationCommand (AcceptInvitationCommand_TokenHash r) (AcceptInvitationCommand_CandidatePrincipalID r) (AcceptInvitationCommand_Issuer r) (AcceptInvitationCommand_Subject r) (AcceptInvitationCommand_Now r).
#[export] Instance zero_AcceptInvitationCommand : GoZero AcceptInvitationCommand :=
  mkAcceptInvitationCommand go_zero go_zero go_zero go_zero go_zero.

Record RevokeInvitationCommand := mkRevokeInvitationCommand {
  RevokeInvitationCommand_TenantID : string;
  RevokeInvitationCommand_InvitationID : string;
  RevokeInvitationCommand_ActorPrincipalID : string;
  RevokeInvitationCommand_ActorRole : AccessRole;
  RevokeInvitationCommand_Now : Time
}.
#[export] Instance eta_RevokeInvitationCommand : Eta RevokeInvitationCommand := λ r,
  mkRevokeInvitationCommand (RevokeInvitationCommand_TenantID r) (RevokeInvitationCommand_InvitationID r) (RevokeInvitationCommand_ActorPrincipalID r) (RevokeInvitationCommand_ActorRole r) (RevokeInvitationCommand_Now r).
#[export] Instance zero_RevokeInvitationCommand : GoZero RevokeInvitationCommand :=
  mkRevokeInvitationCommand go_zero go_zero go_zero go_zero go_zero.

Record DeleteMemberCommand := mkDeleteMemberCommand {
  DeleteMemberCommand_TenantID : string;
  DeleteMemberCommand_PrincipalID : string;
  DeleteMemberCommand_ActorPrincipalID : string;
  DeleteMemberCommand_ActorRole : AccessRole;
  DeleteMemberCommand_Now : Time
}.
#[export] Instance eta_DeleteMemberCommand : Eta DeleteMemberCommand := λ r,
  mkDeleteMemberCommand (DeleteMemberCommand_TenantID r) (DeleteMemberCommand_PrincipalID r) (DeleteMemberCommand_ActorPrincipalID r) (DeleteMemberCommand_ActorRole r) (DeleteMemberCommand_Now r).
#[export] Instance zero_DeleteMemberCommand : GoZero DeleteMemberCommand :=
  mkDeleteMemberCommand go_zero go_zero go_zero go_zero go_zero.

Record TenantGroup := mkTenantGroup {
  TenantGroup_ID : string;
  TenantGroup_TenantID : string;
  TenantGroup_DisplayName : string;
  TenantGroup_NormalizedName : string;
  TenantGroup_CreatedBy : string;
  TenantGroup_CreatedAt : Time;
  TenantGroup_UpdatedAt : Time
}.
#[export] Instance eta_TenantGroup : Eta TenantGroup := λ r,
  mkTenantGroup (TenantGroup_ID r) (TenantGroup_TenantID r) (TenantGroup_DisplayName r) (TenantGroup_NormalizedName r) (TenantGroup_CreatedBy r) (TenantGroup_CreatedAt r) (TenantGroup_UpdatedAt r).
#[export] Instance zero_TenantGroup : GoZero TenantGroup :=
  mkTenantGroup go_zero go_zero go_zero go_zero go_zero go_zero go_zero.

Record CreateGroupCommand := mkCreateGroupCommand {
  CreateGroupCommand_ID : string;
  CreateGroupCommand_TenantID : string;
  CreateGroupCommand_ActorPrincipalID : string;
  CreateGroupCommand_ActorRole : AccessRole;
  CreateGroupCommand_DisplayName : string;
  CreateGroupCommand_NormalizedName : string;
  CreateGroupCommand_Now : Time
}.
#[export] Instance eta_CreateGroupCommand : Eta CreateGroupCommand := λ r,
  mkCreateGroupCommand (CreateGroupCommand_ID r) (CreateGroupCommand_TenantID r) (CreateGroupCommand_ActorPrincipalID r) (CreateGroupCommand_ActorRole r) (CreateGroupCommand_DisplayName r) (CreateGroupCommand_NormalizedName r) (CreateGroupCommand_Now r).
#[export] Instance zero_CreateGroupCommand : GoZero CreateGroupCommand :=
  mkCreateGroupCommand go_zero go_zero go_zero go_zero go_zero go_zero go_zero.

Record UpdateGroupCommand := mkUpdateGroupCommand {
  UpdateGroupCommand_TenantID : string;
  UpdateGroupCommand_GroupID : string;
  UpdateGroupCommand_ActorPrincipalID : string;
  UpdateGroupCommand_ActorRole : AccessRole;
  UpdateGroupCommand_DisplayName : string;
  UpdateGroupCommand_NormalizedName : string;
  UpdateGroupCommand_Now : Time
}.
#[export] Instance eta_UpdateGroupCommand : Eta UpdateGroupCommand := λ r,
  mkUpdateGroupCommand (UpdateGroupCommand_TenantID r) (UpdateGroupCommand_GroupID r) (UpdateGroupCommand_ActorPrincipalID r) (UpdateGroupCommand_ActorRole r) (UpdateGroupCommand_DisplayName r) (UpdateGroupCommand_NormalizedName r) (UpdateGroupCommand_Now r).
#[export] Instance zero_UpdateGroupCommand : GoZero UpdateGroupCommand :=
  mkUpdateGroupCommand go_zero go_zero go_zero go_zero go_zero go_zero go_zero.

Record DeleteGroupCommand := mkDeleteGroupCommand {
  DeleteGroupCommand_TenantID : string;
  DeleteGroupCommand_GroupID : string;
  DeleteGroupCommand_ActorPrincipalID : string;
  DeleteGroupCommand_ActorRole : AccessRole;
  DeleteGroupCommand_Now : Time
}.
#[export] Instance eta_DeleteGroupCommand : Eta DeleteGroupCommand := λ r,
  mkDeleteGroupCommand (DeleteGroupCommand_TenantID r) (DeleteGroupCommand_GroupID r) (DeleteGroupCommand_ActorPrincipalID r) (DeleteGroupCommand_ActorRole r) (DeleteGroupCommand_Now r).
#[export] Instance zero_DeleteGroupCommand : GoZero DeleteGroupCommand :=
  mkDeleteGroupCommand go_zero go_zero go_zero go_zero go_zero.

Record GroupMemberCommand := mkGroupMemberCommand {
  GroupMemberCommand_TenantID : string;
  GroupMemberCommand_GroupID : string;
  GroupMemberCommand_PrincipalID : string;
  GroupMemberCommand_ActorPrincipalID : string;
  GroupMemberCommand_ActorRole : AccessRole;
  GroupMemberCommand_Now : Time
}.
#[export] Instance eta_GroupMemberCommand : Eta GroupMemberCommand := λ r,
  mkGroupMemberCommand (GroupMemberCommand_TenantID r) (GroupMemberCommand_GroupID r) (GroupMemberCommand_PrincipalID r) (GroupMemberCommand_ActorPrincipalID r) (GroupMemberCommand_ActorRole r) (GroupMemberCommand_Now r).
#[export] Instance zero_GroupMemberCommand : GoZero GroupMemberCommand :=
  mkGroupMemberCommand go_zero go_zero go_zero go_zero go_zero go_zero.

Definition ACLSubjectType : Type := string.
Definition ACLSubjectPrincipal : ACLSubjectType := "principal".
Definition ACLSubjectGroup : ACLSubjectType := "group".

Definition ACLRole : Type := string.
Definition ACLReader : ACLRole := "reader".
Definition ACLContributor : ACLRole := "contributor".
Definition ACLManager : ACLRole := "manager".

Definition NodeCapability : Type := string.
Definition NodeCapabilityRead : NodeCapability := "read".
Definition NodeCapabilityWrite : NodeCapability := "write".
Definition NodeCapabilityDelete : NodeCapability := "delete".
Definition NodeCapabilityManageACL : NodeCapability := "manage_acl".

Record NodeACLEntry := mkNodeACLEntry {
  NodeACLEntry_ID : string;
  NodeACLEntry_TenantID : string;
  NodeACLEntry_NodeID : string;
  NodeACLEntry_SubjectType : ACLSubjectType;
  NodeACLEntry_SubjectID : string;
  NodeACLEntry_Role : ACLRole;
  NodeACLEntry_CreatedBy : string;
  NodeACLEntry_CreatedAt : Time;
  NodeACLEntry_UpdatedAt : Time
}.
#[export] Instance eta_NodeACLEntry : Eta NodeACLEntry := λ r,
  mkNodeACLEntry (NodeACLEntry_ID r) (NodeACLEntry_TenantID r) (NodeACLEntry_NodeID r) (NodeACLEntry_SubjectType r) (NodeACLEntry_SubjectID r) (NodeACLEntry_Role r) (NodeACLEntry_CreatedBy r) (NodeACLEntry_CreatedAt r) (NodeACLEntry_UpdatedAt r).
#[export] Instance zero_NodeACLEntry : GoZero NodeACLEntry :=
  mkNodeACLEntry go_zero go_zero go_zero go_zero go_zero go_zero go_zero go_zero go_zero.

Record SetNodeACLCommand := mkSetNodeACLCommand {
  SetNodeACLCommand_ID : string;
  SetNodeACLCommand_TenantID : string;
  SetNodeACLCommand_NodeID : string;
  SetNodeACLCommand_SubjectType : ACLSubjectType;
  SetNodeACLCommand_SubjectID : string;
  SetNodeACLCommand_Role : ACLRole;
  SetNodeACLCommand_ActorPrincipalID : string;
  SetNodeACLCommand_ActorRole : AccessRole;
  SetNodeACLCommand_Now : Time
}.
#[export] Instance eta_SetNodeACLCommand : Eta SetNodeACLCommand := λ r,
  mkSetNodeACLCommand (SetNodeACLCommand_ID r) (SetNodeACLCommand_TenantID r) (SetNodeACLCommand_NodeID r) (SetNodeACLCommand_SubjectType r) (SetNodeACLCommand_SubjectID r) (SetNodeACLCommand_Role r) (SetNodeACLCommand_ActorPrincipalID r) (SetNodeACLCommand_ActorRole r) (SetNodeACLCommand_Now r).
#[export] Instance zero_SetNodeACLCommand : GoZero SetNodeACLCommand :=
  mkSetNodeACLCommand go_zero go_zero go_zero go_zero go_zero go_zero go_zero go_zero go_zero.

Record DeleteNodeACLCommand := mkDeleteNodeACLCommand {
  DeleteNodeACLCommand_TenantID : string;
  DeleteNodeACLCommand_NodeID : string;
  DeleteNodeACLCommand_EntryID : string;
  DeleteNodeACLCommand_ActorPrincipalID : string;
  DeleteNodeACLCommand_ActorRole : AccessRole;
  DeleteNodeACLCommand_Now : Time
}.
#[export] Instance eta_DeleteNodeACLCommand : Eta DeleteNodeACLCommand := λ r,
  mkDeleteNodeACLCommand (DeleteNodeACLCommand_TenantID r) (DeleteNodeACLCommand_NodeID r) (DeleteNodeACLCommand_EntryID r) (DeleteNodeACLCommand_ActorPrincipalID r) (DeleteNodeACLCommand_ActorRole r) (DeleteNodeACLCommand_Now r).
#[export] Instance zero_DeleteNodeACLCommand : GoZero DeleteNodeACLCommand :=
  mkDeleteNodeACLCommand go_zero go_zero go_zero go_zero go_zero go_zero.

Record AuditEvent := mkAuditEvent {
  AuditEvent_Sequence : Z;
  AuditEvent_ID : string;
  AuditEvent_TenantID : string;
  AuditEvent_ActorPrincipalID : string;
  AuditEvent_Action : string;
  AuditEvent_TargetType : string;
  AuditEvent_TargetID : string;
  AuditEvent_RequestID : string;
  AuditEvent_Metadata : gmap string string;
  AuditEvent_OccurredAt : Time
}.
#[export] Instance eta_AuditEvent : Eta AuditEvent := λ r,
  mkAuditEvent (AuditEvent_Sequence r) (AuditEvent_ID r) (AuditEvent_TenantID r) (AuditEvent_ActorPrincipalID r) (AuditEvent_Action r) (AuditEvent_TargetType r) (AuditEvent_TargetID r) (AuditEvent_RequestID r) (AuditEvent_Metadata r) (AuditEvent_OccurredAt r).
#[export] Instance zero_AuditEvent : GoZero AuditEvent :=
  mkAuditEvent go_zero go_zero go_zero go_zero go_zero go_zero go_zero go_zero go_zero go_zero.

Record AuditFilter := mkAuditFilter {
  AuditFilter_TenantID : string;
  AuditFilter_AfterSequence : Z;
  AuditFilter_From : Time;
  AuditFilter_Until : Time;
  AuditFilter_Limit : Z
}.
#[export] Instance eta_AuditFilter : Eta AuditFilter := λ r,
  mkAuditFilter (AuditFilter_TenantID r) (AuditFilter_AfterSequence r) (AuditFilter_From r) (AuditFilter_Until r) (AuditFilter_Limit r).
#[export] Instance zero_AuditFilter : GoZero AuditFilter :=
  mkAuditFilter go_zero go_zero go_zero go_zero go_zero.

Definition IdempotencyScope : Type := string.
Definition IdempotencyCreateDirectory : IdempotencyScope := "create_directory".
Definition IdempotencyCreateUpload : IdempotencyScope := "create_upload".

Definition IdempotencyState : Type := string.
Definition IdempotencyPending : IdempotencyState := "pending".
Definition IdempotencyCompleted : IdempotencyState := "completed".

Record IdempotencyRequest := mkIdempotencyRequest {
  IdempotencyRequest_Identity : Identity;
  IdempotencyRequest_Scope : IdempotencyScope;
  IdempotencyRequest_KeyHash : string;
  IdempotencyRequest_RequestDigest : string;
  IdempotencyRequest_ClaimToken : string;
  IdempotencyRequest_LockedUntil : Time;
  IdempotencyRequest_ExpiresAt : Time;
  IdempotencyRequest_Now : Time
}.
#[export] Instance eta_IdempotencyRequest : Eta IdempotencyRequest := λ r,
  mkIdempotencyRequest (IdempotencyRequest_Identity r) (IdempotencyRequest_Scope r) (IdempotencyRequest_KeyHash r) (IdempotencyRequest_RequestDigest r) (IdempotencyRequest_ClaimToken r) (IdempotencyRequest_LockedUntil r) (IdempotencyRequest_ExpiresAt r) (IdempotencyRequest_Now r).
#[export] Instance zero_IdempotencyRequest : GoZero IdempotencyRequest :=
  mkIdempotencyRequest go_zero go_zero go_zero go_zero go_zero go_zero go_zero go_zero.

Record IdempotencyRecord := mkIdempotencyRecord {
  IdempotencyRecord_Identity : Identity;
  IdempotencyRecord_Scope : IdempotencyScope;
  IdempotencyRecord_KeyHash : string;
  IdempotencyRecord_RequestDigest : string;
  IdempotencyRecord_State : IdempotencyState;
  IdempotencyRecord_ClaimToken : string;
  IdempotencyRecord_ResourceID : string;
  IdempotencyRecord_LockedUntil : Time;
  IdempotencyRecord_ExpiresAt : Time;
  IdempotencyRecord_CreatedAt : Time;
  IdempotencyRecord_UpdatedAt : Time
}.
#[export] Instance eta_IdempotencyRecord : Eta IdempotencyRecord := λ r,
  mkIdempotencyRecord (IdempotencyRecord_Identity r) (IdempotencyRecord_Scope r) (IdempotencyRecord_KeyHash r) (IdempotencyRecord_RequestDigest r) (IdempotencyRecord_State r) (IdempotencyRecord_ClaimToken r) (IdempotencyRecord_ResourceID r) (IdempotencyRecord_LockedUntil r) (IdempotencyRecord_ExpiresAt r) (IdempotencyRecord_CreatedAt r) (IdempotencyRecord_UpdatedAt r).
#[export] Instance zero_IdempotencyRecord : GoZero IdempotencyRecord :=
  mkIdempotencyRecord go_zero go_zero go_zero go_zero go_zero go_zero go_zero go_zero go_zero go_zero go_zero.

Record Tenant := mkTenant {
  Tenant_ID : string;
  Tenant_DisplayName : string;
  Tenant_RootNodeID : string;
  Tenant_CreatedAt : Time
}.
#[export] Instance eta_Tenant : Eta Tenant := λ r,
  mkTenant (Tenant_ID r) (Tenant_DisplayName r) (Tenant_RootNodeID r) (Tenant_CreatedAt r).
#[export] Instance zero_Tenant : GoZero Tenant :=
  mkTenant go_zero go_zero go_zero go_zero.

Definition NodeKind : Type := string.
Definition NodeDirectory : NodeKind := "directory".
Definition NodeFile : NodeKind := "file".

Definition NodeStatus : Type := string.
Definition NodeActive : NodeStatus := "active".
Definition NodeTrashed : NodeStatus := "trashed".
Definition NodePurging : NodeStatus := "purging".

Record Node := mkNode {
  Node_ID : string;
  Node_TenantID : string;
  Node_ParentID : string;
  Node_Kind : NodeKind;
  Node_DisplayName : string;
  Node_NormalizedName : string;
  Node_CurrentVersionID : string;
  Node_Size : Z;
  Node_MimeType : string;
  Node_Status : NodeStatus;
  Node_TrashedRootID : string;
  Node_OriginalParentID : string;
  Node_Revision : Z;
  Node_CreatedAt : Time;
  Node_UpdatedAt : Time;
  Node_DeletedAt : option Time
}.
#[export] Instance eta_Node : Eta Node := λ r,
  mkNode (Node_ID r) (Node_TenantID r) (Node_ParentID r) (Node_Kind r) (Node_DisplayName r) (Node_NormalizedName r) (Node_CurrentVersionID r) (Node_Size r) (Node_MimeType r) (Node_Status r) (Node_TrashedRootID r) (Node_OriginalParentID r) (Node_Revision r) (Node_CreatedAt r) (Node_UpdatedAt r) (Node_DeletedAt r).
#[export] Instance zero_Node : GoZero Node :=
  mkNode go_zero go_zero go_zero go_zero go_zero go_zero go_zero go_zero go_zero go_zero go_zero go_zero go_zero go_zero go_zero go_zero.

Record Checksum := mkChecksum {
  Checksum_Algorithm : string;
  Checksum_Value : string
}.
#[export] Instance eta_Checksum : Eta Checksum := λ r,
  mkChecksum (Checksum_Algorithm r) (Checksum_Value r).
#[export] Instance zero_Checksum : GoZero Checksum :=
  mkChecksum go_zero go_zero.

Definition ChecksumStatus : Type := string.
Definition ChecksumVerified : ChecksumStatus := "verified".
Definition ChecksumDeclared : ChecksumStatus := "declared".
Definition ChecksumUnavailable : ChecksumStatus := "unavailable".

Definition BlobStatus : Type := string.
Definition BlobAvailable : BlobStatus := "available".
Definition BlobPendingDelete : BlobStatus := "pending_delete".
Definition BlobDeleted : BlobStatus := "deleted".

Record Blob := mkBlob {
  Blob_ID : string;
  Blob_TenantID : string;
  Blob_Bucket : string;
  Blob_ObjectKey : string;
  Blob_Size : Z;
  Blob_MimeType : string;
  Blob_Checksum : Checksum;
  Blob_ChecksumStatus : ChecksumStatus;
  Blob_Status : BlobStatus;
  Blob_ReferenceCount : Z;
  Blob_CreatedAt : Time;
  Blob_DeletedAt : option Time
}.
#[export] Instance eta_Blob : Eta Blob := λ r,
  mkBlob (Blob_ID r) (Blob_TenantID r) (Blob_Bucket r) (Blob_ObjectKey r) (Blob_Size r) (Blob_MimeType r) (Blob_Checksum r) (Blob_ChecksumStatus r) (Blob_Status r) (Blob_ReferenceCount r) (Blob_CreatedAt r) (Blob_DeletedAt r).
#[export] Instance zero_Blob : GoZero Blob :=
  mkBlob go_zero go_zero go_zero go_zero go_zero go_zero go_zero go_zero go_zero go_zero go_zero go_zero.

Record FileVersion := mkFileVersion {
  FileVersion_ID : string;
  FileVersion_TenantID : string;
  FileVersion_NodeID : string;
  FileVersion_BlobID : string;
  FileVersion_Size : Z;
  FileVersion_MimeType : string;
  FileVersion_Checksum : Checksum;
  FileVersion_CreatedBy : string;
  FileVersion_CreatedAt : Time
}.
#[export] Instance eta_FileVersion : Eta FileVersion := λ r,
  mkFileVersion (FileVersion_ID r) (FileVersion_TenantID r) (FileVersion_NodeID r) (FileVersion_BlobID r) (FileVersion_Size r) (FileVersion_MimeType r) (FileVersion_Checksum r) (FileVersion_CreatedBy r) (FileVersion_CreatedAt r).
#[export] Instance zero_FileVersion : GoZero FileVersion :=
  mkFileVersion go_zero go_zero go_zero go_zero go_zero go_zero go_zero go_zero go_zero.

Definition UploadStatus : Type := string.
Definition UploadCreated : UploadStatus := "created".
Definition UploadUploading : UploadStatus := "uploading".
Definition UploadCompleting : UploadStatus := "completing".
Definition UploadObjectCompleted : UploadStatus := "object_completed".
Definition UploadCommitted : UploadStatus := "committed".
Definition UploadAborted : UploadStatus := "aborted".
Definition UploadExpired : UploadStatus := "expired".
Definition UploadFailed : UploadStatus := "failed".

Record UploadSession := mkUploadSession {
  UploadSession_ID : string;
  UploadSession_TenantID : string;
  UploadSession_PrincipalID : string;
  UploadSession_ParentID : string;
  UploadSession_DisplayName : string;
  UploadSession_NormalizedName : string;
  UploadSession_ExpectedSize : Z;
  UploadSession_MimeType : string;
  UploadSession_DeclaredChecksum : Checksum;
  UploadSession_Bucket : string;
  UploadSession_ObjectKey : string;
  UploadSession_StorageUploadID : string;
  UploadSession_Status : UploadStatus;
  UploadSession_CompletionDigest : string;
  UploadSession_CommittedNodeID : string;
  UploadSession_FailureCode : string;
  UploadSession_PartSize : Z;
  UploadSession_ExpiresAt : Time;
  UploadSession_Revision : Z;
  UploadSession_CreatedAt : Time;
  UploadSession_UpdatedAt : Time
}.
#[export] Instance eta_UploadSession : Eta UploadSession := λ r,
  mkUploadSession (UploadSession_ID r) (UploadSession_TenantID r) (UploadSession_PrincipalID r) (UploadSession_ParentID r) (UploadSession_DisplayName r) (UploadSession_NormalizedName r) (UploadSession_ExpectedSize r) (UploadSession_MimeType r) (UploadSession_DeclaredChecksum r) (UploadSession_Bucket r) (UploadSession_ObjectKey r) (UploadSession_StorageUploadID r) (UploadSession_Status r) (UploadSession_CompletionDigest r) (UploadSession_CommittedNodeID r) (UploadSession_FailureCode r) (UploadSession_PartSize r) (UploadSession_ExpiresAt r) (UploadSession_Revision r) (UploadSession_CreatedAt r) (UploadSession_UpdatedAt r).
#[export] Instance zero_UploadSession : GoZero UploadSession :=
  mkUploadSession go_zero go_zero go_zero go_zero go_zero go_zero go_zero go_zero go_zero go_zero go_zero go_zero go_zero go_zero go_zero go_zero go_zero go_zero go_zero go_zero go_zero.

Record CompletedPart := mkCompletedPart {
  CompletedPart_PartNumber : Z;
  CompletedPart_ETag : string;
  CompletedPart_Checksum : Checksum;
  CompletedPart_Size : Z
}.
#[export] Instance eta_CompletedPart : Eta CompletedPart := λ r,
  mkCompletedPart (CompletedPart_PartNumber r) (CompletedPart_ETag r) (CompletedPart_Checksum r) (CompletedPart_Size r).
#[export] Instance zero_CompletedPart : GoZero CompletedPart :=
  mkCompletedPart go_zero go_zero go_zero go_zero.

Record PartSignature := mkPartSignature {
  PartSignature_PartNumber : Z;
  PartSignature_Size : Z;
  PartSignature_SHA256 : string
}.
#[export] Instance eta_PartSignature : Eta PartSignature := λ r,
  mkPartSignature (PartSignature_PartNumber r) (PartSignature_Size r) (PartSignature_SHA256 r).
#[export] Instance zero_PartSignature : GoZero PartSignature :=
  mkPartSignature go_zero go_zero go_zero.

Record StoredPart := mkStoredPart {
  StoredPart_PartNumber : Z;
  StoredPart_ETag : string;
  StoredPart_Size : Z;
  StoredPart_StorageChecksum : Checksum;
  StoredPart_ChecksumAttested : bool;
  StoredPart_Reusable : bool
}.
#[export] Instance eta_StoredPart : Eta StoredPart := λ r,
  mkStoredPart (StoredPart_PartNumber r) (StoredPart_ETag r) (StoredPart_Size r) (StoredPart_StorageChecksum r) (StoredPart_ChecksumAttested r) (StoredPart_Reusable r).
#[export] Instance zero_StoredPart : GoZero StoredPart :=
  mkStoredPart go_zero go_zero go_zero go_zero go_zero go_zero.

Record UploadPartListing := mkUploadPartListing {
  UploadPartListing_UploadID : string;
  UploadPartListing_Status : UploadStatus;
  UploadPartListing_PartSize : Z;
  UploadPartListing_Parts : list StoredPart;
  UploadPartListing_Complete : bool
}.
#[export] Instance eta_UploadPartListing : Eta UploadPartListing := λ r,
  mkUploadPartListing (UploadPartListing_UploadID r) (UploadPartListing_Status r) (UploadPartListing_PartSize r) (UploadPartListing_Parts r) (UploadPartListing_Complete r).
#[export] Instance zero_UploadPartListing : GoZero UploadPartListing :=
  mkUploadPartListing go_zero go_zero go_zero go_zero go_zero.

Record ObjectInfo := mkObjectInfo {
  ObjectInfo_Bucket : string;
  ObjectInfo_ObjectKey : string;
  ObjectInfo_Size : Z;
  ObjectInfo_ETag : string;
  ObjectInfo_Checksum : Checksum;
  ObjectInfo_ChecksumStatus : ChecksumStatus
}.
#[export] Instance eta_ObjectInfo : Eta ObjectInfo := λ r,
  mkObjectInfo (ObjectInfo_Bucket r) (ObjectInfo_ObjectKey r) (ObjectInfo_Size r) (ObjectInfo_ETag r) (ObjectInfo_Checksum r) (ObjectInfo_ChecksumStatus r).
#[export] Instance zero_ObjectInfo : GoZero ObjectInfo :=
  mkObjectInfo go_zero go_zero go_zero go_zero go_zero go_zero.

Record CompleteResult := mkCompleteResult {
  CompleteResult_Upload : UploadSession;
  CompleteResult_Node : Node;
  CompleteResult_Blob : Blob;
  CompleteResult_Version : FileVersion
}.
#[export] Instance eta_CompleteResult : Eta CompleteResult := λ r,
  mkCompleteResult (CompleteResult_Upload r) (CompleteResult_Node r) (CompleteResult_Blob r) (CompleteResult_Version r).
#[export] Instance zero_CompleteResult : GoZero CompleteResult :=
  mkCompleteResult go_zero go_zero go_zero go_zero.

Record CursorPosition := mkCursorPosition {
  CursorPosition_Name : string;
  CursorPosition_ID : string
}.
#[export] Instance eta_CursorPosition : Eta CursorPosition := λ r,
  mkCursorPosition (CursorPosition_Name r) (CursorPosition_ID r).
#[export] Instance zero_CursorPosition : GoZero CursorPosition :=
  mkCursorPosition go_zero go_zero.

Record RecycleEntry := mkRecycleEntry {
  RecycleEntry_Node : Node;
  RecycleEntry_OriginalParentID : string;
  RecycleEntry_DeletedAt : Time
}.
#[export] Instance eta_RecycleEntry : Eta RecycleEntry := λ r,
  mkRecycleEntry (RecycleEntry_Node r) (RecycleEntry_OriginalParentID r) (RecycleEntry_DeletedAt r).
#[export] Instance zero_RecycleEntry : GoZero RecycleEntry :=
  mkRecycleEntry go_zero go_zero go_zero.

Record PurgePlan := mkPurgePlan {
  PurgePlan_RootID : string;
  PurgePlan_Blobs : list Blob
}.
#[export] Instance eta_PurgePlan : Eta PurgePlan := λ r,
  mkPurgePlan (PurgePlan_RootID r) (PurgePlan_Blobs r).
#[export] Instance zero_PurgePlan : GoZero PurgePlan :=
  mkPurgePlan go_zero go_zero.

Record SignedPart := mkSignedPart {
  SignedPart_PartNumber : Z;
  SignedPart_Method : string;
  SignedPart_URL : string;
  SignedPart_RequiredHeaders : gmap string string;
  SignedPart_ExpiresAt : Time
}.
#[export] Instance eta_SignedPart : Eta SignedPart := λ r,
  mkSignedPart (SignedPart_PartNumber r) (SignedPart_Method r) (SignedPart_URL r) (SignedPart_RequiredHeaders r) (SignedPart_ExpiresAt r).
#[export] Instance zero_SignedPart : GoZero SignedPart :=
  mkSignedPart go_zero go_zero go_zero go_zero go_zero.

Record SignedDownload := mkSignedDownload {
  SignedDownload_Method : string;
  SignedDownload_URL : string;
  SignedDownload_ExpiresAt : Time
}.
#[export] Instance eta_SignedDownload : Eta SignedDownload := λ r,
  mkSignedDownload (SignedDownload_Method r) (SignedDownload_URL r) (SignedDownload_ExpiresAt r).
#[export] Instance zero_SignedDownload : GoZero SignedDownload :=
  mkSignedDownload go_zero go_zero go_zero.

Record UploadMaintenanceClaim := mkUploadMaintenanceClaim {
  UploadMaintenanceClaim_Upload : UploadSession;
  UploadMaintenanceClaim_Owner : string;
  UploadMaintenanceClaim_CleanupPending : bool;
  UploadMaintenanceClaim_Attempts : Z
}.
#[export] Instance eta_UploadMaintenanceClaim : Eta UploadMaintenanceClaim := λ r,
  mkUploadMaintenanceClaim (UploadMaintenanceClaim_Upload r) (UploadMaintenanceClaim_Owner r) (UploadMaintenanceClaim_CleanupPending r) (UploadMaintenanceClaim_Attempts r).
#[export] Instance zero_UploadMaintenanceClaim : GoZero UploadMaintenanceClaim :=
  mkUploadMaintenanceClaim go_zero go_zero go_zero go_zero.

Record RecycleMaintenanceClaim := mkRecycleMaintenanceClaim {
  RecycleMaintenanceClaim_Identity : Identity;
  RecycleMaintenanceClaim_RootID : string;
  RecycleMaintenanceClaim_Revision : Z;
  RecycleMaintenanceClaim_Owner : string
}.
#[export] Instance eta_RecycleMaintenanceClaim : Eta RecycleMaintenanceClaim := λ r,
  mkRecycleMaintenanceClaim (RecycleMaintenanceClaim_Identity r) (RecycleMaintenanceClaim_RootID r) (RecycleMaintenanceClaim_Revision r) (RecycleMaintenanceClaim_Owner r).
#[export] Instance zero_RecycleMaintenanceClaim : GoZero RecycleMaintenanceClaim :=
  mkRecycleMaintenanceClaim go_zero go_zero go_zero go_zero.

Record TenantSeed := mkTenantSeed {
  TenantSeed_TenantID : string;
  TenantSeed_DisplayName : string;
  TenantSeed_RootNodeID : string;
  TenantSeed_Now : Time
}.
#[export] Instance eta_TenantSeed : Eta TenantSeed := λ r,
  mkTenantSeed (TenantSeed_TenantID r) (TenantSeed_DisplayName r) (TenantSeed_RootNodeID r) (TenantSeed_Now r).
#[export] Instance zero_TenantSeed : GoZero TenantSeed :=
  mkTenantSeed go_zero go_zero go_zero go_zero.

Record CreateDirectoryCommand := mkCreateDirectoryCommand {
  CreateDirectoryCommand_Identity : Identity;
  CreateDirectoryCommand_ID : string;
  CreateDirectoryCommand_ParentID : string;
  CreateDirectoryCommand_DisplayName : string;
  CreateDirectoryCommand_NormalizedName : string;
  CreateDirectoryCommand_Now : Time;
  CreateDirectoryCommand_Idempotency : option IdempotencyRequest
}.
#[export] Instance eta_CreateDirectoryCommand : Eta CreateDirectoryCommand := λ r,
  mkCreateDirectoryCommand (CreateDirectoryCommand_Identity r) (CreateDirectoryCommand_ID r) (CreateDirectoryCommand_ParentID r) (CreateDirectoryCommand_DisplayName r) (CreateDirectoryCommand_NormalizedName r) (CreateDirectoryCommand_Now r) (CreateDirectoryCommand_Idempotency r).
#[export] Instance zero_CreateDirectoryCommand : GoZero CreateDirectoryCommand :=
  mkCreateDirectoryCommand go_zero go_zero go_zero go_zero go_zero go_zero go_zero.

Record UpdateNodeCommand := mkUpdateNodeCommand {
  UpdateNodeCommand_Identity : Identity;
  UpdateNodeCommand_NodeID : string;
  UpdateNodeCommand_DisplayName : option string;
  UpdateNodeCommand_NormalizedName : option string;
  UpdateNodeCommand_ParentID : option string;
  UpdateNodeCommand_ExpectedRevision : Z;
  UpdateNodeCommand_Now : Time
}.
#[export] Instance eta_UpdateNodeCommand : Eta UpdateNodeCommand := λ r,
  mkUpdateNodeCommand (UpdateNodeCommand_Identity r) (UpdateNodeCommand_NodeID r) (UpdateNodeCommand_DisplayName r) (UpdateNodeCommand_NormalizedName r) (UpdateNodeCommand_ParentID r) (UpdateNodeCommand_ExpectedRevision r) (UpdateNodeCommand_Now r).
#[export] Instance zero_UpdateNodeCommand : GoZero UpdateNodeCommand :=
  mkUpdateNodeCommand go_zero go_zero go_zero go_zero go_zero go_zero go_zero.

Record CreateUploadCommand := mkCreateUploadCommand {
  CreateUploadCommand_Session : UploadSession;
  CreateUploadCommand_Idempotency : option IdempotencyRequest
}.
#[export] Instance eta_CreateUploadCommand : Eta CreateUploadCommand := λ r,
  mkCreateUploadCommand (CreateUploadCommand_Session r) (CreateUploadCommand_Idempotency r).
#[export] Instance zero_CreateUploadCommand : GoZero CreateUploadCommand :=
  mkCreateUploadCommand go_zero go_zero.

Record CommitUploadCommand := mkCommitUploadCommand {
  CommitUploadCommand_Identity : Identity;
  CommitUploadCommand_SessionID : string;
  CommitUploadCommand_Digest : string;
  CommitUploadCommand_Blob : Blob;
  CommitUploadCommand_Version : FileVersion;
  CommitUploadCommand_Node : Node;
  CommitUploadCommand_Parts : list CompletedPart;
  CommitUploadCommand_Now : Time
}.
#[export] Instance eta_CommitUploadCommand : Eta CommitUploadCommand := λ r,
  mkCommitUploadCommand (CommitUploadCommand_Identity r) (CommitUploadCommand_SessionID r) (CommitUploadCommand_Digest r) (CommitUploadCommand_Blob r) (CommitUploadCommand_Version r) (CommitUploadCommand_Node r) (CommitUploadCommand_Parts r) (CommitUploadCommand_Now r).
#[export] Instance zero_CommitUploadCommand : GoZero CommitUploadCommand :=
  mkCommitUploadCommand go_zero go_zero go_zero go_zero go_zero go_zero go_zero go_zero.

(** ** Enumerations the code checks *)

Definition ValidAccessRole (role : AccessRole) : bool :=
  (role == RoleOwner) || (role == RoleAdmin) || (role == RoleEditor) || (role == RoleViewer).

Definition PermissionsForRole (role : AccessRole) : gset Permission :=
  if (role == RoleOwner) || (role == RoleAdmin) then
    {[ PermissionTenantRead; PermissionMembersRead; PermissionMembersManage;
       PermissionGroupsManage; PermissionAuditRead; PermissionFilesRead;
       PermissionFilesWrite; PermissionFilesDelete ]}
  else if role == RoleEditor then {[ PermissionFilesRead; PermissionFilesWrite ]}
  else if role == RoleViewer then {[ PermissionFilesRead ]}
  else ∅.

Definition ValidMemberStatus (status : MemberStatus) : bool :=
  (status == MemberStatusActive) || (status == MemberStatusSuspended).

Definition ValidInvitationStatus (status : InvitationStatus) : bool :=
  (status == InvitationPending) || (status == InvitationAccepted) ||
  (status == InvitationRevoked) || (status == InvitationExpired).

Definition ValidACLSubjectType (subjectType : ACLSubjectType) : bool :=
  (subjectType == ACLSubjectPrincipal) || (subjectType == ACLSubjectGroup).

Definition ValidACLRole (role : ACLRole) : bool :=
  (role == ACLReader) || (role == ACLContributor) || (role == ACLManager).

Definition ValidNodeCapability (capability : NodeCapability) : bool :=
  (capability == NodeCapabilityRead) || (capability == NodeCapabilityWrite) ||
  (capability == NodeCapabilityDelete) || (capability == NodeCapabilityManageACL).

Definition ValidIdempotencyScope (scope : IdempotencyScope) : bool :=
  (scope == IdempotencyCreateDirectory) || (scope == IdempotencyCreateUpload).

(** ** Uploads *)

Definition MaxUploadParts : Z := 10000.

Definition UploadFailureStorageRejected : string := "storage_rejected".
Definition UploadFailureSizeMismatch : string := "size_mismatch".
Definition UploadFailureChecksumMismatch : string := "checksum_mismatch".
Definition UploadFailureParentUnavailable : string := "parent_unavailable".
Definition UploadFailureNameConflict : string := "name_conflict".

Definition Terminal (s : UploadStatus) : bool :=
  (s == UploadCommitted) || (s == UploadAborted) || (s == UploadExpired) || (s == UploadFailed).

#[export] Instance Checksum_eq_dec : EqDecision Checksum.
Proof. solve_decision. Defined.

(** [Page[T]]: the items of one page and the cursor of the next. *)
Record Page (T : Type) := mkPage { Page_Items : list T; Page_NextCursor : string }.
Arguments mkPage {T} _ _.
Arguments Page_Items {T} _.
Arguments Page_NextCursor {T} _.

(** ** The request identifier carried by a context (audit.go) *)

Record Context := mkContext { Context_requestID : option string }.
Definition ContextWithRequestID (ctx : Context) (requestID : string) : Context :=
  if requestID == "" then ctx else mkContext (Some requestID).
Definition RequestIDFromContext (ctx : Context) : string := default "" (Context_requestID ctx).
