(* ===== verification/Validation.v ===== *)
(** * Identifiers, names, checksums, idempotency keys and cursors
    (src/internal/drive/util.go, idempotency.go, cursor.go) *)
From S2P Require Import Prelude Errors GoLib Types.

(** ** Identifiers *)

Definition dash : string := "-".

(** The two masked bytes of a version 4 UUID. *)
Definition uuid_bits (b : list Z) : list Z :=
  <[8%nat := Z.lor (Z.land (nth 8 b 0) 63) 128]>
    (<[6%nat := Z.lor (Z.land (nth 6 b 0) 15) 64]> b).

Definition uuid_chars (b : list Z) : list Ascii.ascii :=
  hex_encode (take 4 b) ++ chars dash ++
  hex_encode (take 2 (drop 4 b)) ++ chars dash ++
  hex_encode (take 2 (drop 6 b)) ++ chars dash ++
  hex_encode (take 2 (drop 8 b)) ++ chars dash ++
  hex_encode (take 6 (drop 10 b)).

Definition NewID (rnd : RandRead) : Outcome string :=
  match rnd with
  | None => Err (PlainError "crypto/rand: read failed")
  | Some b => Ok (of_chars (uuid_chars (uuid_bits b)))
  end.

Definition byte_at (s : string) (i : Z) : Z := nth (Z.to_nat i) (bytes s) 0.
Definition dash_index (i : Z) : bool := (i =? 8) || (i =? 13) || (i =? 18) || (i =? 23).
Definition is_hex_digit (c : Z) : bool := in_range 48 57 c || in_range 97 102 c || in_range 65 70 c.

Definition ValidID (value : string) : bool :=
  (zstrlen value =? 36) && (byte_at value 8 =? 45) && (byte_at value 13 =? 45) &&
  (byte_at value 18 =? 45) && (byte_at value 23 =? 45) &&
  forallb (λ '(index, _, _), dash_index index || is_hex_digit (byte_at value index))
    (range_string value).

(** ** Names, checksums, media types *)

Section with_platform.
Context `{!Platform}.

Definition bad_rune (r : Z) : bool := (r =? 47) || (r =? 92) || (r =? 0) || IsControl r.

Definition NormalizeName (input : string) : Outcome (string * string) :=
  if negb (ValidString input) then Err (E CodeInvalidRequest "name must be valid UTF-8") else
  let display := norm_NFC input in
  if (display == "") || (display == ".") || (display == "..") then
    Err (E CodeInvalidRequest "name is invalid") else
  if (TrimSpace display != display) || (255 <? zstrlen display) then
    Err (E CodeInvalidRequest "name is invalid") else
  if existsb (λ '(_, r, _), bad_rune r) (range_string display) then
    Err (E CodeInvalidRequest "name is invalid") else
  Ok (display, norm_NFC (strings_ToLower display)).

Definition ValidChecksum (c : Checksum) : bool :=
  if (Checksum_Algorithm c == "") && (Checksum_Value c == "") then true else
  if Checksum_Algorithm c != "sha256" then false else
  match StdDecodeString (Checksum_Value c) with
  | None => false
  | Some digest => (zstrlen digest =? 32) && (StdEncodeToString digest == Checksum_Value c)
  end.

Definition ValidMediaType (value : string) : bool :=
  match ParseMediaType value with
  | None => false
  | Some mediaType => Contains mediaType "/"
  end.

Definition sha256Hex (value : string) : string := HexEncodeToString (sha256 value).

(** ** Idempotency keys *)

Definition MaxIdempotencyKeyBytes : Z := 255.

Definition ValidateIdempotencyKey (value : string) : option GoError :=
  if (zstrlen value =? 0) || (MaxIdempotencyKeyBytes <? zstrlen value) then
    Some (E CodeInvalidRequest "Idempotency-Key must contain between 1 and 255 bytes")
  else if existsb (λ '(index, _, _), (byte_at value index <? 33) || (126 <? byte_at value index))
            (range_string value) then
    Some (E CodeInvalidRequest "Idempotency-Key must contain visible ASCII characters only")
  else None.

Definition ValidSHA256Hex (value : string) : bool :=
  if negb (zstrlen value =? 64) || (strings_ToLower value != value) then false else
  match HexDecodeString value with
  | Some decoded => zstrlen decoded =? 32
  | None => false
  end.

Definition ValidateIdempotencyRequest (request : IdempotencyRequest) : option GoError :=
  if negb (ValidID (Identity_TenantID (IdempotencyRequest_Identity request))) ||
     negb (ValidID (Identity_PrincipalID (IdempotencyRequest_Identity request))) ||
     negb (ValidIdempotencyScope (IdempotencyRequest_Scope request)) ||
     negb (ValidSHA256Hex (IdempotencyRequest_KeyHash request)) ||
     negb (ValidSHA256Hex (IdempotencyRequest_RequestDigest request)) ||
     negb (ValidID (IdempotencyRequest_ClaimToken request)) then
    Some (E CodeInvalidRequest "idempotency claim is invalid")
  else if IsZero (IdempotencyRequest_Now request) ||
     negb (After (IdempotencyRequest_LockedUntil request) (IdempotencyRequest_Now request)) ||
     negb (After (IdempotencyRequest_ExpiresAt request) (IdempotencyRequest_LockedUntil request)) then
    Some (E CodeInvalidRequest "idempotency claim lifetime is invalid")
  else None.

End with_platform.

(** ** Pagination cursors *)

Record cursorPayload := mkcursorPayload {
  cursorPayload_Version : Z;
  cursorPayload_TenantID : string;
  cursorPayload_Scope : string;
  cursorPayload_Name : string;
  cursorPayload_ID : string
}.

Definition Marshal_cursorPayload (p : cursorPayload) : string :=
  json_object [
    json_field "v" (json_int (cursorPayload_Version p));
    json_field "tenant" (json_string (cursorPayload_TenantID p));
    json_field "scope" (json_string (cursorPayload_Scope p));
    json_field "name" (json_string (cursorPayload_Name p));
    json_field "id" (json_string (cursorPayload_ID p)) ].

(** [json.Unmarshal] into a [cursorPayload]. *)
Class CursorJSON := { Unmarshal_cursorPayload : string → option cursorPayload }.

Record CursorCodec := mkCursorCodec { CursorCodec_key : string }.

Definition NewCursorCodec (key : string) : Outcome CursorCodec :=
  if zstrlen key <? 32 then Err (E CodeInvalidRequest "cursor key must be at least 32 bytes")
  else Ok (mkCursorCodec key).

Section cursor.
Context `{!Platform, !CursorJSON}.

Definition sign (c : CursorCodec) (payload : string) : string := hmac_sha256 (CursorCodec_key c) payload.

(** [json.Marshal] of a struct of an integer and strings does not fail. *)
Definition Encode (c : CursorCodec) (tenantID scope : string) (position : CursorPosition) : string :=
  let payload := Marshal_cursorPayload (mkcursorPayload 1 tenantID scope
    (CursorPosition_Name position) (CursorPosition_ID position)) in
  RawURLEncodeToString payload +:+ "." +:+ RawURLEncodeToString (sign c payload).

(** The parts before and after the first dot. *)
Definition split_dot (value : string) : string * string :=
  match String.index 0 "." value with
  | Some i => (String.substring 0 i value,
               String.substring (S i) (String.length value - S i) value)
  | None => ("", "")
  end.

Definition Decode (c : CursorCodec) (value tenantID scope : string) : Outcome CursorPosition :=
  let invalid := Err (E CodeInvalidCursor "cursor is invalid") in
  if value == "" then Ok go_zero else
  let '(payloadPart, signaturePart) := split_dot value in
  if (payloadPart == "") || (signaturePart == "") then invalid else
  match RawURLDecodeString payloadPart with
  | None => invalid
  | Some payload =>
    match RawURLDecodeString signaturePart with
    | None => invalid
    | Some signature =>
      if signature != sign c payload then invalid else
      match Unmarshal_cursorPayload payload with
      | None => invalid
      | Some decoded =>
        if negb (cursorPayload_Version decoded =? 1) || (cursorPayload_TenantID decoded != tenantID) ||
           (cursorPayload_Scope decoded != scope) || (cursorPayload_ID decoded == "") then invalid
        else Ok (mkCursorPosition (cursorPayload_Name decoded) (cursorPayload_ID decoded))
      end
    end
  end.

End cursor.

Example ValidID_example : ValidID "11111111-1111-4111-8111-111111111111" = true.
Proof. vm_compute. reflexivity. Qed.
