(* ===== verification/Identifiers.v ===== *)
(** * Identifiers, checksums and cursors: the laws of src/internal/drive/util.go
    and cursor.go *)
From S2P Require Import Prelude Errors GoLib Codecs Types Validation.

(** ** Identifiers *)

Lemma hex_char_digit v : 0 ≤ v < 16 →
  is_hex_digit (byte_val (hex_char v)) = true ∧ 0 ≤ byte_val (hex_char v) < 128.
Proof.
  assert (E : forallb (λ v, is_hex_digit (byte_val (hex_char v)) && (0 <=? byte_val (hex_char v)) &&
    (byte_val (hex_char v) <? 128)) (seqZ 0 16) = true) by (vm_compute; reflexivity).
  intros Hv. pose proof (forallb_seqZ _ _ v E Hv) as Ev. simpl in Ev. go_bool. split; [done|lia].
Qed.

Lemma nibbles b : is_byte b → 0 ≤ b / 16 < 16 ∧ 0 ≤ b mod 16 < 16.
Proof. unfold is_byte. intros. split; Z.to_euclidean_division_equations; lia. Qed.

(** The two bytes that are masked: the version 4 and the variant 10. *)
Lemma version_byte b : is_byte b → let m := Z.lor (Z.land b 15) 64 in is_byte m ∧ m / 16 = 4.
Proof.
  assert (E : forallb (λ b, let m := Z.lor (Z.land b 15) 64 in (0 <=? m) && (m <? 256) && (m / 16 =? 4))
    (seqZ 0 256) = true) by (vm_compute; reflexivity).
  intros Hb m. pose proof (forallb_seqZ _ _ b E Hb) as Ev. cbv beta zeta in Ev. fold m in Ev.
  unfold is_byte. go_bool. lia.
Qed.
Lemma variant_byte b : is_byte b → let m := Z.lor (Z.land b 63) 128 in is_byte m ∧ 8 ≤ m / 16 < 12.
Proof.
  assert (E : forallb (λ b, let m := Z.lor (Z.land b 63) 128 in
    (0 <=? m) && (m <? 256) && (8 <=? m / 16) && (m / 16 <? 12)) (seqZ 0 256) = true) by (vm_compute; reflexivity).
  intros Hb m. pose proof (forallb_seqZ _ _ b E Hb) as Ev. cbv beta zeta in Ev. fold m in Ev.
  unfold is_byte. go_bool. lia.
Qed.

Definition id_char (i : nat) (c : Ascii.ascii) : Prop :=
  0 ≤ byte_val c < 128 ∧
  if dash_index (Z.of_nat i) then byte_val c = 45 else is_hex_digit (byte_val c) = true.

Lemma bytes_of_chars l : bytes (of_chars l) = byte_val <$> l.
Proof. unfold bytes. by rewrite chars_of_chars. Qed.
Lemma zstrlen_of_chars l : zstrlen (of_chars l) = zlen l.
Proof. unfold zstrlen, zlen. by rewrite <- length_chars, chars_of_chars. Qed.

Lemma byte_at_lookup l i c : l !! i = Some c → byte_at (of_chars l) (Z.of_nat i) = byte_val c.
Proof.
  intros Hc. unfold byte_at. rewrite bytes_of_chars, Nat2Z.id. apply nth_lookup_Some.
  by rewrite list_lookup_fmap, Hc.
Qed.

Lemma nth_byte b i : Forall is_byte b → is_byte (nth i b 0).
Proof.
  intros Hb. destruct (decide (i < length b)%nat) as [Hi|Hi].
  - destruct (lookup_lt_is_Some_2 b i Hi) as [x Hx]. rewrite (nth_lookup_Some _ _ _ _ Hx).
    by eapply Forall_lookup_1.
  - rewrite nth_overflow by lia. done.
Qed.

Lemma ValidID_of_chars l : length l = 36%nat → (∀ i c, l !! i = Some c → id_char i c) →
  ValidID (of_chars l) = true.
Proof.
  intros Hlen Hl.
  assert (Hb : Forall (λ b, 0 ≤ b < 128) (bytes (of_chars l))).
  { rewrite bytes_of_chars. apply Forall_fmap, Forall_lookup. intros i c Hc. by apply (Hl i c). }
  assert (Hdash : ∀ z i, z = Z.of_nat i → dash_index z = true → (i < 36)%nat →
    (byte_at (of_chars l) z =? 45) = true).
  { intros z i -> Hi Hi36. destruct (lookup_lt_is_Some_2 l i) as [c Hc]; [lia|]. rewrite (byte_at_lookup l i c Hc).
    destruct (Hl i c Hc) as [_ Hd]. rewrite Hi in Hd. lia. }
  unfold ValidID. rewrite zstrlen_of_chars. unfold zlen. rewrite Hlen.
  rewrite (Hdash 8 8%nat), (Hdash 13 13%nat), (Hdash 18 18%nat), (Hdash 23 23%nat) by (done || lia). simpl.
  apply forallb_forall. intros [[i b] w] Hin. apply list_elem_of_In in Hin.
  rewrite range_string_ascii in Hin by done. apply elem_of_lookup_imap in Hin as (k & x & E & Hk).
  simplify_eq. rewrite bytes_of_chars, list_lookup_fmap in Hk.
  destruct (l !! k) as [c|] eqn:Hc; [|done]. destruct (Hl k c Hc) as [_ Hd].
  destruct (dash_index (Z.of_nat k)); [done|]. by rewrite (byte_at_lookup l k c Hc).
Qed.

Lemma id_char_hex i v : dash_index (Z.of_nat i) = false → 0 ≤ v < 16 → id_char i (hex_char v).
Proof. intros Hi Hv. destruct (hex_char_digit v Hv). split; [done|]. by rewrite Hi. Qed.

Lemma length_uuid_chars l : length l = 16%nat → length (uuid_chars l) = 36%nat.
Proof. intros Hl. by do 17 (destruct l as [|? l]; [try done|]). Qed.

(** The layout of the text form: two digits for each byte, dashes between groups. *)
Lemma uuid_chars_valid l : length l = 16%nat → Forall is_byte l →
  ∀ i c, uuid_chars l !! i = Some c → id_char i c.
Proof.
  intros Hlen Hl. do 17 (destruct l as [|? l]; [try done|]); [|done]. clear Hlen.
  repeat match goal with H : Forall _ (_ :: _) |- _ => apply Forall_cons in H as [?%nibbles H] end.
  intros i c Hc. do 36 (destruct i as [|i]; [
    injection Hc as <-; first [by split | apply id_char_hex; [reflexivity|tauto]] |]).
  done.
Qed.

Lemma uuid_bits_bytes b : length b = 16%nat → Forall is_byte b →
  length (uuid_bits b) = 16%nat ∧ Forall is_byte (uuid_bits b) ∧
  uuid_bits b !! 6%nat = Some (Z.lor (Z.land (nth 6 b 0) 15) 64) ∧
  uuid_bits b !! 8%nat = Some (Z.lor (Z.land (nth 8 b 0) 63) 128).
Proof.
  intros Hlen Hb. unfold uuid_bits.
  assert (Hnth : ∀ i, is_byte (nth i b 0)) by (intros; by apply nth_byte).
  destruct (version_byte (nth 6 b 0)) as [H6 _]; [done|]. destruct (variant_byte (nth 8 b 0)) as [H8 _]; [done|].
  split_and!.
  - by rewrite !length_insert.
  - apply Forall_insert; [by apply Forall_insert|done].
  - rewrite list_lookup_insert_ne by lia. by rewrite list_lookup_insert_eq by lia.
  - by rewrite list_lookup_insert_eq by (rewrite length_insert; lia).
Qed.

Lemma uuid_chars_group l x y : length l = 16%nat → l !! 6%nat = Some x → l !! 8%nat = Some y →
  uuid_chars l !! 14%nat = Some (hex_char (x / 16)) ∧ uuid_chars l !! 19%nat = Some (hex_char (y / 16)).
Proof.
  intros Hlen. do 17 (destruct l as [|? l]; [try done|]); [|done]. simpl. intros. by simplify_eq.
Qed.

(** Sixteen random bytes give a valid identifier: a UUID of version 4. *)
Lemma NewID_valid b : length b = 16%nat → Forall is_byte b →
  ∃ id, NewID (Some b) = Ok id ∧ ValidID id = true ∧ byte_at id 14 = 52 ∧
    ∃ v, 8 ≤ v < 12 ∧ byte_at id 19 = byte_val (hex_char v).
Proof.
  intros Hlen Hb. destruct (uuid_bits_bytes b Hlen Hb) as (Hl & Hbytes & H6 & H8).
  destruct (uuid_chars_group _ _ _ Hl H6 H8) as [H14 H19].
  assert (Hnth : ∀ i, is_byte (nth i b 0)) by (intros; by apply nth_byte).
  destruct (version_byte (nth 6 b 0)) as [_ Hv6]; [done|]. destruct (variant_byte (nth 8 b 0)) as [_ Hv8]; [done|].
  exists (of_chars (uuid_chars (uuid_bits b))). split; [done|]. split_and!.
  - apply ValidID_of_chars; [by apply length_uuid_chars|by apply uuid_chars_valid].
  - change 14 with (Z.of_nat 14). rewrite (byte_at_lookup _ _ _ H14), Hv6. reflexivity.
  - eexists. split; [exact Hv8|]. change 19 with (Z.of_nat 19). by rewrite (byte_at_lookup _ _ _ H19).
Qed.

(** The text form gives the sixteen bytes back: the identifier keeps every bit. *)
Lemma uuid_chars_decode l : length l = 16%nat → Forall is_byte l →
  hex_decode (filter (λ c, byte_val c ≠ 45) (uuid_chars l)) = Some l.
Proof.
  intros Hlen Hl.
  assert (Hdash : ∀ l, Forall is_byte l → filter (λ c, byte_val c ≠ 45) (hex_encode l) = hex_encode l).
  { clear l Hlen Hl. intros l. induction 1 as [|b l Hb%nibbles Hl IH]; [done|]. destruct Hb as [H1 H2].
    change (hex_encode (b :: l)) with (hex_char (b / 16) :: hex_char (b mod 16) :: hex_encode l).
    pose proof (hex_val_char _ H1) as E1. pose proof (hex_val_char _ H2) as E2.
    rewrite !filter_cons, !decide_True, IH; [done|intros E; unfold hex_val in *; rewrite E in *; done..]. }
  unfold uuid_chars. rewrite !filter_app, !Hdash by (repeat first [apply Forall_take|apply Forall_drop]; done).
  replace (filter (λ c, byte_val c ≠ 45) (chars dash)) with (@nil Ascii.ascii) by reflexivity. simpl.
  transitivity (hex_decode (hex_encode l)); [|by apply hex_decode_encode]. f_equal.
  by do 17 (destruct l as [|? l]; [try done|]).
Qed.

(** ** Checksums *)

Section with_platform.
Context `{!Platform}.

(** The accepted SHA-256 checksums are the base64 texts of 32 bytes, in the one
    canonical spelling. *)
Lemma ValidChecksum_sha256 v : ValidChecksum (mkChecksum "sha256" v) = true ↔
  ∃ digest, zstrlen digest = 32 ∧ v = StdEncodeToString digest.
Proof.
  unfold ValidChecksum. cbn [Checksum_Algorithm Checksum_Value].
  rewrite (bool_decide_eq_false_2 ("sha256" = "")), (bool_decide_eq_true_2 ("sha256" = "sha256")) by done. simpl.
  split.
  - destruct (StdDecodeString v) as [digest|]; [|done]. intros Hv. go_bool.
    exists digest. split; [lia|done].
  - intros (digest & Hlen & ->). rewrite StdDecode_Encode, Hlen. by rewrite bool_decide_eq_true_2.
Qed.

(** A digest in hexadecimal has 64 characters. *)
Lemma length_sha256Hex `{!PlatformLaws _} s : zstrlen (sha256Hex s) = 64.
Proof.
  unfold sha256Hex, HexEncodeToString. rewrite zstrlen_of_chars. unfold zlen.
  by rewrite length_hex_encode, length_bytes, length_sha256.
Qed.
End with_platform.

(** ** The two parts of a cursor *)

Definition dotless (s : string) : Prop := Ascii.ascii_of_nat 46 ∉ chars s.

Lemma index_dot a b : dotless a → String.index 0 "." (a +:+ "." +:+ b) = Some (String.length a).
Proof.
  unfold dotless. induction a as [|c a IH]; intros Hd; [by destruct b|].
  change (String c a +:+ "." +:+ b) with (String c (a +:+ "." +:+ b)). cbn [String.index String.prefix].
  destruct (Ascii.ascii_dec _ c) as [<-|Hc]; [destruct Hd; by left|].
  rewrite IH; [done|]. intros Hin. apply Hd. by right.
Qed.
Lemma substring_all b : String.substring 0 (String.length b) b = b.
Proof. induction b as [|c b IH]; simpl; [done|]. by rewrite IH. Qed.
Lemma substring_front a b : String.substring 0 (String.length a) (a +:+ b) = a.
Proof. induction a as [|c a IH]; simpl; [by destruct b|]. f_equal. exact IH. Qed.
Lemma substring_back a b n : String.substring (S (String.length a)) n (a +:+ "." +:+ b) = String.substring 0 n b.
Proof. induction a as [|c a IH]; simpl; [by destruct b|]. exact IH. Qed.

Lemma split_dot_parts a b : dotless a → split_dot (a +:+ "." +:+ b) = (a, b).
Proof.
  intros Hd. unfold split_dot. rewrite index_dot by done. f_equal; [by rewrite substring_front|].
  replace (String.length (a +:+ "." +:+ b) - S (String.length a))%nat with (String.length b).
  - by rewrite substring_back, substring_all.
  - rewrite !length_append. simpl. lia.
Qed.

Lemma b64_url_dotless s : dotless (RawURLEncodeToString s).
Proof.
  assert (E : forallb (λ v, bool_decide (b64_char URLAlphabet v ≠ Ascii.ascii_of_nat 46)) (seqZ 0 64) = true)
    by (vm_compute; reflexivity).
  unfold dotless, RawURLEncodeToString. rewrite chars_of_chars. intros Hin.
  assert (HF : Forall (λ c, c ≠ Ascii.ascii_of_nat 46) (b64_encode URLAlphabet false (bytes s))).
  { apply b64_encode_chars; [|done|apply bytes_range]. intros v Hv.
    pose proof (forallb_seqZ _ _ v E Hv) as Ev. by apply bool_decide_eq_true in Ev. }
  rewrite Forall_forall in HF. by apply (HF _ Hin).
Qed.

Lemma RawURLEncode_nonempty s : s ≠ "" → RawURLEncodeToString s ≠ "".
Proof.
  intros Hs E. apply Hs. pose proof (RawURLDecode_Encode s) as H. rewrite E in H.
  vm_compute in H. by simplify_eq.
Qed.

(** ** Cursors *)

Section cursor.
Context `{!Platform, !CursorJSON}.

Definition cursor_payload (tenantID scope : string) (position : CursorPosition) : cursorPayload :=
  mkcursorPayload 1 tenantID scope (CursorPosition_Name position) (CursorPosition_ID position).

(** What decoding makes of an encoded cursor: the signature is checked under the
    key of the reader, then the place the cursor was made for. *)
Lemma Decode_Encode c c' t s t' s' p :
  Unmarshal_cursorPayload (Marshal_cursorPayload (cursor_payload t s p)) = Some (cursor_payload t s p) →
  sign c (Marshal_cursorPayload (cursor_payload t s p)) ≠ "" → CursorPosition_ID p ≠ "" →
  Decode c' (Encode c t s p) t' s' =
    if bool_decide (sign c (Marshal_cursorPayload (cursor_payload t s p)) =
                    sign c' (Marshal_cursorPayload (cursor_payload t s p))) &&
       bool_decide (t = t') && bool_decide (s = s')
    then Ok p else Err (E CodeInvalidCursor "cursor is invalid").
Proof.
  intros Hjson Hsign Hid. unfold Encode. fold (cursor_payload t s p).
  set (payload := Marshal_cursorPayload _) in *. set (signature := sign c payload) in *.
  assert (Hpayload : payload ≠ "") by done.
  unfold Decode. rewrite bool_decide_eq_false_2.
  2:{ intros E. apply (f_equal String.length) in E. rewrite !length_append in E. simpl in E. lia. }
  rewrite split_dot_parts by apply b64_url_dotless.
  rewrite !(bool_decide_eq_false_2 (RawURLEncodeToString _ = "")) by (by apply RawURLEncode_nonempty).
  cbn [orb]. rewrite !RawURLDecode_Encode. destruct (bool_decide (signature = sign c' payload)); [|done].
  cbn [negb andb]. rewrite Hjson. cbn [cursorPayload_Version cursorPayload_TenantID cursorPayload_Scope
    cursorPayload_ID cursorPayload_Name cursor_payload]. rewrite (bool_decide_eq_false_2 _ Hid). simpl.
  destruct (bool_decide (t = t')), (bool_decide (s = s')); try done. by destruct p.
Qed.
End cursor.

(** ** Names: what a normalized name cannot contain

    Decoding never hides an ASCII byte inside a longer rune, so a test on the runes
    of a name is a test on its bytes. *)

(** A rune is one ASCII byte, or its bytes are not ASCII. *)
Lemma DecodeRune_bytes l r w : DecodeRune l = (r, w) → l ≠ [] → Forall is_byte l →
  (1 ≤ w)%nat ∧ ((∃ b l', l = b :: l' ∧ 0 ≤ b < 128 ∧ r = b ∧ w = 1%nat) ∨ Forall (λ b, 128 ≤ b) (take w l)).
Proof.
  intros HD Hne Hl. destruct l as [|b0 l1]; [done|]. apply Forall_cons in Hl as [Hb0 Hl]. unfold is_byte in Hb0.
  unfold DecodeRune in HD. destruct (b0 <? 128) eqn:E0.
  { simplify_eq. split; [lia|left]. exists r, l1. repeat split; lia. }
  apply Z.ltb_ge in E0.
  assert (Hone : (1 ≤ 1)%nat ∧ ((∃ b l', b0 :: l1 = b :: l' ∧ 0 ≤ b < 128 ∧ RuneError = b ∧ 1%nat = 1%nat) ∨
    Forall (λ b, 128 ≤ b) (take 1 (b0 :: l1)))) by (split; [lia|right; simpl; by repeat constructor]).
  unfold continuation, in_range in HD.
  repeat case_match; go_bool; simplify_eq; try exact Hone;
    (split; [lia|right]); simpl; repeat constructor; unfold second_range in *; try lia;
    repeat case_match; simpl in *; lia.
Qed.

(** An ASCII byte of a string is one of its runes. *)
Lemma runes_ascii fuel i l b : Forall is_byte l → (length l ≤ fuel)%nat → b ∈ l → b < 128 →
  ∃ k w, (k, b, w) ∈ runes_from fuel i l.
Proof.
  revert i l. induction fuel as [|fuel IH]; intros i l Hl Hfuel Hb Hsmall.
  - destruct l; [by apply not_elem_of_nil in Hb|simpl in Hfuel; lia].
  - destruct l as [|b0 l1] eqn:El; [by apply not_elem_of_nil in Hb|]. rewrite <- El in *.
    assert (Hne : l ≠ []) by (by subst).
    assert (Hrun : runes_from (S fuel) i l =
      let '(r, w) := DecodeRune l in (i, r, w) :: runes_from fuel (i + Z.of_nat w) (drop w l)) by (by subst).
    rewrite Hrun. destruct (DecodeRune l) as [r w] eqn:HD.
    destruct (DecodeRune_bytes l r w HD Hne Hl) as [Hw Hcase].
    rewrite <- (take_drop w l) in Hb. apply elem_of_app in Hb as [Hb|Hb].
    + destruct Hcase as [(b' & l' & -> & Hb' & -> & ->)|Hbig].
      * simpl in Hb. apply list_elem_of_singleton in Hb as ->. exists i, 1%nat. by left.
      * rewrite Forall_forall in Hbig. apply Hbig in Hb. lia.
    + destruct (IH (i + Z.of_nat w) (drop w l)) as (k & w' & Hin); [by apply Forall_drop| |done|done|].
      * rewrite length_drop. lia.
      * exists k, w'. by right.
Qed.

Section with_platform.
Context `{!Platform}.

(** What the normalization of names relies on: the normal form is valid UTF-8 and
    normalizing it again changes nothing. *)
Class NormLaws := {
  norm_NFC_valid s : ValidString s = true → ValidString (norm_NFC s) = true;
  norm_NFC_idem s : norm_NFC (norm_NFC s) = norm_NFC s
}.

Lemma NormalizeName_Ok input d n : NormalizeName input = Ok (d, n) ↔
  ValidString input = true ∧ d = norm_NFC input ∧ n = norm_NFC (strings_ToLower d) ∧
  d ≠ "" ∧ d ≠ "." ∧ d ≠ ".." ∧ TrimSpace d = d ∧ zstrlen d ≤ 255 ∧
  existsb (λ '(_, r, _), bad_rune r) (range_string d) = false.
Proof.
  unfold NormalizeName. split.
  - repeat case_match; intros; simplify_eq; go_bool. split_and!; try done. lia.
  - intros (-> & <- & -> & H1 & H2 & H3 & H4 & H5 & ->). simpl.
    rewrite !(bool_decide_eq_false_2 (d = _)) by done. rewrite (bool_decide_eq_true_2 _ H4).
    by rewrite (proj2 (Z.ltb_ge 255 _) H5).
Qed.

(** No byte of an accepted name is a path separator or a control character. *)
Lemma NormalizeName_bytes input d n b : NormalizeName input = Ok (d, n) → b ∈ bytes d →
  b ≠ 47 ∧ b ≠ 92 ∧ 32 ≤ b ∧ b ≠ 127.
Proof.
  intros (_ & _ & _ & _ & _ & _ & _ & _ & Hbad)%NormalizeName_Ok Hb.
  pose proof (bytes_range d) as Hr. destruct (Z.lt_ge_cases b 128) as [Hs|Hs]; [|lia].
  destruct (runes_ascii (String.length d) 0 (bytes d) b Hr) as (k & w & Hin); [by rewrite length_bytes|done|done|].
  rewrite <- not_true_iff_false, existsb_exists in Hbad.
  assert (bad_rune b = false) as Hbb.
  { apply not_true_iff_false. intros Hbb. apply Hbad. exists (k, b, w). split; [by apply list_elem_of_In|done]. }
  rewrite Forall_forall in Hr. pose proof (Hr b Hb) as Hb0. unfold is_byte in Hb0.
  unfold bad_rune, IsControl, in_range in Hbb. go_bool_cases; lia.
Qed.
End with_platform.
