(* ===== verification/MemoryState.v ===== *)
(** * The in-memory repository: its state and internal helpers
    (src/internal/memory/repository.go, governance.go, maintenance.go)

    Every exported method holds [r.mu] from its first to its last statement, so
    a method is one atomic step on a [Repository]. *)
From S2P Require Import Prelude Errors GoLib Types Validation.

Record maintenanceLease := mkLease {
  lease_owner : string;
  lease_until : Time;
  lease_notBefore : Time;
  lease_attempts : Z;
  lease_errorCode : string;
  lease_cleanupPending : bool
}.
#[export] Instance eta_maintenanceLease : Eta maintenanceLease := λ l,
  mkLease (lease_owner l) (lease_until l) (lease_notBefore l) (lease_attempts l)
    (lease_errorCode l) (lease_cleanupPending l).
#[export] Instance zero_maintenanceLease : GoZero maintenanceLease :=
  mkLease "" 0 0 0 "" false.

Record Repository := mkRepository {
  repo_tenants : gmap string Tenant;
  repo_principals : gmap string PrincipalRecord;
  repo_members : gmap string PrincipalRecord;
  repo_nodes : gmap string Node;
  repo_blobs : gmap string Blob;
  repo_versions : gmap string FileVersion;
  repo_uploads : gmap string UploadSession;
  repo_parts : gmap string (list CompletedPart);
  repo_partSignatures : gmap string (gmap Z PartSignature);
  repo_idempotency : gmap string IdempotencyRecord;
  repo_uploadMaintenance : gmap string maintenanceLease;
  repo_recycleMaintenance : gmap string maintenanceLease;
  repo_invitations : gmap string TenantInvitation;
  repo_invitationTokens : gmap string string;
  repo_groups : gmap string TenantGroup;
  repo_groupMembers : gmap string unit;
  repo_acls : gmap string NodeACLEntry;
  repo_audit : list AuditEvent;
  repo_auditSequence : Z;
  repo_readyErr : option GoError
}.
#[export] Instance eta_Repository : Eta Repository := λ r,
  mkRepository (repo_tenants r) (repo_principals r) (repo_members r) (repo_nodes r)
    (repo_blobs r) (repo_versions r) (repo_uploads r) (repo_parts r) (repo_partSignatures r)
    (repo_idempotency r) (repo_uploadMaintenance r) (repo_recycleMaintenance r)
    (repo_invitations r) (repo_invitationTokens r) (repo_groups r) (repo_groupMembers r)
    (repo_acls r) (repo_audit r) (repo_auditSequence r) (repo_readyErr r).

Definition NewRepository : Repository :=
  mkRepository ∅ ∅ ∅ ∅ ∅ ∅ ∅ ∅ ∅ ∅ ∅ ∅ ∅ ∅ ∅ ∅ ∅ [] 0 None.

Definition SetReadyError (err : option GoError) : GoM Repository unit :=
  modS (λ r, r <| repo_readyErr := err |>).
Definition Ready : GoM Repository unit := r ← getS; check_err (repo_readyErr r).

(** ** Assignments to the maps *)

Definition putNode (k : string) (v : Node) : GoM Repository unit :=
  modS (λ r, r <| repo_nodes := <[k:=v]> (repo_nodes r) |>).
Definition putUpload (k : string) (v : UploadSession) : GoM Repository unit :=
  modS (λ r, r <| repo_uploads := <[k:=v]> (repo_uploads r) |>).
Definition putBlob (k : string) (v : Blob) : GoM Repository unit :=
  modS (λ r, r <| repo_blobs := <[k:=v]> (repo_blobs r) |>).
Definition putVersion (k : string) (v : FileVersion) : GoM Repository unit :=
  modS (λ r, r <| repo_versions := <[k:=v]> (repo_versions r) |>).
Definition putMember (k : string) (v : PrincipalRecord) : GoM Repository unit :=
  modS (λ r, r <| repo_members := <[k:=v]> (repo_members r) |>).
Definition putPrincipal (k : string) (v : PrincipalRecord) : GoM Repository unit :=
  modS (λ r, r <| repo_principals := <[k:=v]> (repo_principals r) |>).
Definition putInvitation (k : string) (v : TenantInvitation) : GoM Repository unit :=
  modS (λ r, r <| repo_invitations := <[k:=v]> (repo_invitations r) |>).
Definition putGroup (k : string) (v : TenantGroup) : GoM Repository unit :=
  modS (λ r, r <| repo_groups := <[k:=v]> (repo_groups r) |>).
Definition putACL (k : string) (v : NodeACLEntry) : GoM Repository unit :=
  modS (λ r, r <| repo_acls := <[k:=v]> (repo_acls r) |>).
Definition putIdempotency (k : string) (v : IdempotencyRecord) : GoM Repository unit :=
  modS (λ r, r <| repo_idempotency := <[k:=v]> (repo_idempotency r) |>).
Definition putUploadLease (k : string) (v : maintenanceLease) : GoM Repository unit :=
  modS (λ r, r <| repo_uploadMaintenance := <[k:=v]> (repo_uploadMaintenance r) |>).
Definition putRecycleLease (k : string) (v : maintenanceLease) : GoM Repository unit :=
  modS (λ r, r <| repo_recycleMaintenance := <[k:=v]> (repo_recycleMaintenance r) |>).

(** ** Nodes *)

Definition visible (node : Node) : bool :=
  (Node_Status node == NodeActive) && (Node_TrashedRootID node == "").

Definition activeNode (r : Repository) (tenantID id : string) : option Node :=
  match repo_nodes r !! id with
  | Some node => if (Node_TenantID node == tenantID) && visible node then Some node else None
  | None => None
  end.

Definition afterPosition (node : Node) (after : CursorPosition) : bool :=
  (CursorPosition_ID after == "") ||
  str_ltb (CursorPosition_Name after) (Node_NormalizedName node) ||
  ((Node_NormalizedName node == CursorPosition_Name after) &&
   str_ltb (CursorPosition_ID after) (Node_ID node)).

Definition nodeLess (a b : Node) : bool :=
  str_ltb (Node_NormalizedName a) (Node_NormalizedName b) ||
  ((Node_NormalizedName a == Node_NormalizedName b) && str_ltb (Node_ID a) (Node_ID b)).

Definition sortNodes (nodes : list Node) : list Node := sort_slice nodeLess nodes.

Definition principalKey (issuer subject : string) : string := issuer +:+ of_bytes [0] +:+ subject.
Definition memberKey (tenantID principalID : string) : string :=
  tenantID +:+ of_bytes [0] +:+ principalID.
Definition groupMemberKey (t g p : string) : string := t +:+ "/" +:+ g +:+ "/" +:+ p.

Definition PrincipalRecord_TenantID (m : PrincipalRecord) : string :=
  Identity_TenantID (PrincipalRecord_Identity m).
Definition PrincipalRecord_PrincipalID (m : PrincipalRecord) : string :=
  Identity_PrincipalID (PrincipalRecord_Identity m).

Definition afterMemberPosition (member : PrincipalRecord) (after : CursorPosition) : bool :=
  (CursorPosition_ID after == "") ||
  str_ltb (CursorPosition_Name after) (PrincipalRecord_PrincipalID member).

(** Whether [k] starts with [t ++ "/"] and ends with [p], as the slice
    expressions of [hasMemberSuffix] test it. *)
Definition HasSuffix (s suffix : string) : bool :=
  (String.length suffix <=? String.length s)%nat &&
  (String.substring (String.length s - String.length suffix) (String.length suffix) s == suffix).
Definition hasMemberSuffix (k t p : string) : bool :=
  (zstrlen t + zstrlen p + 2 <? zstrlen k) && HasPrefix k (t +:+ "/") && HasSuffix k p.

(** The walk from [current] towards the root; [None] when it has not ended
    after [fuel] nodes. *)
Fixpoint isDescendant_loop (r : Repository) (ancestorID tenantID : string)
    (fuel : nat) (current : string) : option bool :=
  match fuel with
  | O => None
  | S fuel =>
    if current == "" then Some false else
    if current == ancestorID then Some true else
    match repo_nodes r !! current with
    | None => Some false
    | Some node =>
      if Node_TenantID node != tenantID then Some false
      else isDescendant_loop r ancestorID tenantID fuel (Node_ParentID node)
    end
  end.

(** A walk longer than the number of nodes visits some node twice and never ends. *)
Definition node_fuel (r : Repository) : nat := S (S (size (repo_nodes r))).

Definition isDescendant (r : Repository) (candidateID ancestorID tenantID : string) : option bool :=
  isDescendant_loop r ancestorID tenantID (node_fuel r) candidateID.

Section with_runtime.
Context `{!MapRange}.

Definition nameExists (r : Repository) (tenantID parentID normalizedName exceptID : string) : bool :=
  existsb (λ node, (Node_ID node != exceptID) && (Node_TenantID node == tenantID) &&
      (Node_ParentID node == parentID) && (Node_NormalizedName node == normalizedName) &&
      visible node)
    (range_values 0 (repo_nodes r)).

(** The work list of [activeSubtree]: [result[i]] is expanded by one loop over
    the nodes; [None] when the list is still growing after [fuel] rounds. *)
Fixpoint activeSubtree_loop (r : Repository) (tenantID : string)
    (fuel i : nat) (result : list string) : option (list string) :=
  match result !! i with
  | None => Some result
  | Some parent =>
    match fuel with
    | O => None
    | S fuel =>
      let children := filter (λ node,
          (Node_TenantID node == tenantID) && (Node_ParentID node == parent) && visible node = true)
        (range_values i (repo_nodes r)) in
      activeSubtree_loop r tenantID fuel (S i) (result ++ (Node_ID <$> children))
    end
  end.
Definition activeSubtree (r : Repository) (rootID tenantID : string) : option (list string) :=
  activeSubtree_loop r tenantID (node_fuel r) 0 [rootID].

Definition trashedSubtree (r : Repository) (rootID tenantID : string) : list string :=
  Node_ID <$> filter (λ node,
      (Node_TenantID node == tenantID) && (Node_TrashedRootID node == rootID) = true)
    (range_values 0 (repo_nodes r)).

Definition activeOwnerCount (r : Repository) (tenantID excludePrincipalID : string) : Z :=
  zlen (filter (λ member,
      (PrincipalRecord_TenantID member == tenantID) &&
      (PrincipalRecord_PrincipalID member != excludePrincipalID) &&
      (PrincipalRecord_Role member == RoleOwner) &&
      (PrincipalRecord_Status member == MemberStatusActive) = true)
    (range_values 0 (repo_members r))).

(** ** Audit trail *)

Definition boundedAuditMetadata (metadata : gmap string string) : Outcome (gmap string string) :=
  if existsb (λ '(key, value), (key == "") || (128 <? zstrlen key) || (2048 <? zstrlen value))
       (map_range 0 metadata) then
    Err (E CodeInvalidRequest "audit metadata is invalid")
  else if 4096 <? zstrlen (json_string_map metadata) then
    Err (E CodeInvalidRequest "audit metadata is invalid")
  else Ok metadata.

Definition appendAuditLocked (ctx : Context) (rnd : RandRead) (e : AuditEvent) : GoM Repository unit :=
  metadata ← lift (boundedAuditMetadata (AuditEvent_Metadata e));
  e ← (if AuditEvent_ID e == "" then
         match NewID rnd with
         | Ok id => ret (e <| AuditEvent_ID := id |>)
         | Err err => throw (EC CodeInternal "could not generate audit event id" (Some err))
         | Panicked p => panic p
         | Diverged => lift Diverged
         end
       else ret e);
  let e := e <| AuditEvent_Metadata := metadata |> in
  let e := if AuditEvent_RequestID e == ""
           then e <| AuditEvent_RequestID := RequestIDFromContext ctx |> else e in
  r ← getS;
  let sequence := wrap64 (repo_auditSequence r + 1) in
  putS (r <| repo_auditSequence := sequence |>
          <| repo_audit := repo_audit r ++ [e <| AuditEvent_Sequence := sequence |>] |>).

Definition AppendAudit (ctx : Context) (rnd : RandRead) (e : AuditEvent) : GoM Repository unit :=
  appendAuditLocked ctx rnd e.

(** The composite literal [drive.AuditEvent{...}] the methods build. *)
Definition newAuditEvent (tenantID actor action targetType targetID : string) (now : Time)
    (metadata : list (string * string)) : AuditEvent :=
  mkAuditEvent 0 "" tenantID actor action targetType targetID "" (list_to_map metadata) now.

(** The result is built by appending the matching events in order, until the
    limit is reached. *)
Fixpoint ListAudit_loop (f : AuditFilter) (out audit : list AuditEvent) : list AuditEvent :=
  match audit with
  | [] => out
  | e :: audit =>
    if (AuditEvent_TenantID e == AuditFilter_TenantID f) &&
       (AuditFilter_AfterSequence f <? AuditEvent_Sequence e) &&
       (IsZero (AuditFilter_From f) || negb (Before (AuditEvent_OccurredAt e) (AuditFilter_From f))) &&
       (IsZero (AuditFilter_Until f) || negb (After (AuditEvent_OccurredAt e) (AuditFilter_Until f)))
    then
      let out := out ++ [e] in
      if (0 <? AuditFilter_Limit f) && (AuditFilter_Limit f <=? zlen out) then out
      else ListAudit_loop f out audit
    else ListAudit_loop f out audit
  end.
Definition ListAudit (f : AuditFilter) : GoM Repository (list AuditEvent) :=
  r ← getS; ret (ListAudit_loop f [] (repo_audit r)).

End with_runtime.
