(* ===== verification/MemoryIdempotency.v ===== *)
(** * Idempotency claims of the in-memory repository
    (src/internal/memory/idempotency.go, and DeleteExpiredIdempotency of
    src/internal/memory/maintenance.go) *)
From S2P Require Import Prelude Errors GoLib Types Validation MemoryState.

Definition idempotencyKey (request : IdempotencyRequest) : string :=
  StringsJoin [Identity_TenantID (IdempotencyRequest_Identity request);
               Identity_PrincipalID (IdempotencyRequest_Identity request);
               IdempotencyRequest_Scope request; IdempotencyRequest_KeyHash request]
    (of_bytes [0]).

Section with_platform.
Context `{!Platform, !MapRange}.

Definition ClaimIdempotency (request : IdempotencyRequest) : GoM Repository IdempotencyRecord :=
  _ ← check_err (ValidateIdempotencyRequest request);
  r ← getS;
  let key := idempotencyKey request in
  let fresh := mkIdempotencyRecord (IdempotencyRequest_Identity request)
    (IdempotencyRequest_Scope request) (IdempotencyRequest_KeyHash request)
    (IdempotencyRequest_RequestDigest request) IdempotencyPending
    (IdempotencyRequest_ClaimToken request) "" (IdempotencyRequest_LockedUntil request)
    (IdempotencyRequest_ExpiresAt request) (IdempotencyRequest_Now request)
    (IdempotencyRequest_Now request) in
  match repo_idempotency r !! key with
  | None => _ ← putIdempotency key fresh; ret fresh
  | Some record =>
    if negb (Before (IdempotencyRequest_Now request) (IdempotencyRecord_ExpiresAt record)) then
      _ ← putIdempotency key fresh; ret fresh
    else if IdempotencyRecord_RequestDigest record != IdempotencyRequest_RequestDigest request then
      throw (E CodeIdempotencyConflict "Idempotency-Key was already used for a different request")
    else if (IdempotencyRecord_State record == IdempotencyCompleted) ||
            (IdempotencyRecord_ClaimToken record == IdempotencyRequest_ClaimToken request) then
      ret record
    else if Before (IdempotencyRequest_Now request) (IdempotencyRecord_LockedUntil record) then
      throw (Retryable CodeDependencyUnavailable "matching idempotent request is still in progress" None)
    else
      let record := record <| IdempotencyRecord_ClaimToken := IdempotencyRequest_ClaimToken request |>
                           <| IdempotencyRecord_LockedUntil := IdempotencyRequest_LockedUntil request |>
                           <| IdempotencyRecord_ExpiresAt := IdempotencyRequest_ExpiresAt request |>
                           <| IdempotencyRecord_UpdatedAt := IdempotencyRequest_Now request |> in
      _ ← putIdempotency key record; ret record
  end.

(** The record is pending and held by the request that names it. *)
Definition owned_by (record : IdempotencyRecord) (request : IdempotencyRequest) : bool :=
  (IdempotencyRecord_State record == IdempotencyPending) &&
  (IdempotencyRecord_RequestDigest record == IdempotencyRequest_RequestDigest request) &&
  (IdempotencyRecord_ClaimToken record == IdempotencyRequest_ClaimToken request).

Definition ReleaseIdempotency (request : IdempotencyRequest) : GoM Repository unit :=
  _ ← check_err (ValidateIdempotencyRequest request);
  r ← getS;
  let key := idempotencyKey request in
  match repo_idempotency r !! key with
  | Some record =>
    if owned_by record request then
      putS (r <| repo_idempotency := delete key (repo_idempotency r) |>)
    else ret tt
  | None => ret tt
  end.

Definition completeIdempotency (request : option IdempotencyRequest) (resourceID : string)
    (now : Time) : GoM Repository unit :=
  match request with
  | None => ret tt
  | Some request =>
    _ ← check_err (ValidateIdempotencyRequest request);
    if negb (ValidID resourceID) then
      throw (E CodeInvalidRequest "idempotency resource identifier is invalid") else
    r ← getS;
    let key := idempotencyKey request in
    let lost := throw (E CodeInvalidState "idempotency claim is no longer owned by this request") in
    match repo_idempotency r !! key with
    | None => lost
    | Some record =>
      if negb (owned_by record request) then lost else
      putIdempotency key (record <| IdempotencyRecord_State := IdempotencyCompleted |>
                                 <| IdempotencyRecord_ClaimToken := "" |>
                                 <| IdempotencyRecord_ResourceID := resourceID |>
                                 <| IdempotencyRecord_LockedUntil := 0 |>
                                 <| IdempotencyRecord_UpdatedAt := now |>)
    end
  end.

(** [keys[:limit]] is taken only when [limit > 0]. *)
Definition cut_positive {A} (limit : Z) (l : list A) : list A :=
  if (0 <? limit) && (limit <? zlen l) then take (Z.to_nat limit) l else l.

Definition DeleteExpiredIdempotency (now : Time) (limit : Z) : GoM Repository Z :=
  r ← getS;
  let expired := filter (λ '(_, record), After (IdempotencyRecord_ExpiresAt record) now = false)
                   (map_range 0 (repo_idempotency r)) in
  let keys := cut_positive limit (sort_slice str_ltb expired.*1) in
  _ ← for_range keys (λ key, modS (λ r, r <| repo_idempotency := delete key (repo_idempotency r) |>));
  ret (zlen keys).

End with_platform.
