(* ===== verification/MemoryNamespace.v ===== *)
(** * Tenants, the namespace tree and the recycle bin of the in-memory repository
    (src/internal/memory/repository.go) *)
From S2P Require Import Prelude Errors GoLib Types Validation MemoryState MemoryIdempotency.

Section with_runtime.
Context `{!Platform, !MapRange}.

(** ** Tenants *)

Definition EnsureTenant (seed : TenantSeed) : GoM Repository Tenant :=
  r ← getS;
  match repo_tenants r !! TenantSeed_TenantID seed with
  | Some tenant => ret tenant
  | None =>
    let tenant := mkTenant (TenantSeed_TenantID seed) (TenantSeed_DisplayName seed)
      (TenantSeed_RootNodeID seed) (TenantSeed_Now seed) in
    let root := go_zero <| Node_ID := TenantSeed_RootNodeID seed |>
                        <| Node_TenantID := TenantSeed_TenantID seed |>
                        <| Node_Kind := NodeDirectory |>
                        <| Node_DisplayName := "" |>
                        <| Node_NormalizedName := "" |>
                        <| Node_Status := NodeActive |>
                        <| Node_Revision := 1 |>
                        <| Node_CreatedAt := TenantSeed_Now seed |>
                        <| Node_UpdatedAt := TenantSeed_Now seed |> in
    _ ← putS (r <| repo_tenants := <[Tenant_ID tenant := tenant]> (repo_tenants r) |>);
    _ ← putNode (Node_ID root) root;
    ret tenant
  end.

Definition GetTenant (tenantID : string) : GoM Repository Tenant :=
  r ← getS;
  match repo_tenants r !! tenantID with
  | None => throw (E CodeNotFound "tenant was not found")
  | Some tenant => ret tenant
  end.

(** ** Directories and nodes *)

(** [parent, ok := r.activeNode(...); !ok || parent.Kind != NodeDirectory] *)
Definition activeDirectory (r : Repository) (tenantID id : string) : option Node :=
  match activeNode r tenantID id with
  | Some parent => if Node_Kind parent == NodeDirectory then Some parent else None
  | None => None
  end.

Definition CreateDirectory (ctx : Context) (rnd : RandRead) (command : CreateDirectoryCommand)
    : GoM Repository Node :=
  r ← getS;
  let identity := CreateDirectoryCommand_Identity command in
  let parentID := CreateDirectoryCommand_ParentID command in
  let now := CreateDirectoryCommand_Now command in
  match activeDirectory r (Identity_TenantID identity) parentID with
  | None => throw (E CodeNotFound "parent directory was not found")
  | Some _ =>
    if nameExists r (Identity_TenantID identity) parentID
         (CreateDirectoryCommand_NormalizedName command) "" then
      throw (E CodeNameConflict "an active item with this name already exists") else
    let node := go_zero <| Node_ID := CreateDirectoryCommand_ID command |>
                        <| Node_TenantID := Identity_TenantID identity |>
                        <| Node_ParentID := parentID |>
                        <| Node_Kind := NodeDirectory |>
                        <| Node_DisplayName := CreateDirectoryCommand_DisplayName command |>
                        <| Node_NormalizedName := CreateDirectoryCommand_NormalizedName command |>
                        <| Node_Status := NodeActive |>
                        <| Node_Revision := 1 |>
                        <| Node_CreatedAt := now |>
                        <| Node_UpdatedAt := now |> in
    _ ← completeIdempotency (CreateDirectoryCommand_Idempotency command) (Node_ID node) now;
    _ ← putNode (Node_ID node) node;
    audited ← try_ (appendAuditLocked ctx rnd
      (newAuditEvent (Identity_TenantID identity) (Identity_PrincipalID identity)
         "node.created" "node" (Node_ID node) now
         [("kind", Node_Kind node); ("parent_id", Node_ParentID node)]));
    match audited with
    | inl err =>
        _ ← modS (λ r, r <| repo_nodes := delete (Node_ID node) (repo_nodes r) |>);
        throw err
    | inr _ => ret node
    end
  end.

Definition GetNode (identity : Identity) (id : string) (includeTrashed : bool) : GoM Repository Node :=
  r ← getS;
  let missing := throw (E CodeNotFound "resource was not found") in
  match repo_nodes r !! id with
  | None => missing
  | Some node =>
    if (Node_TenantID node != Identity_TenantID identity) ||
       (negb includeTrashed && negb (visible node)) then missing
    else ret node
  end.

(** [more := len(items) > limit; if more { items = items[:limit] }] *)
Definition cut_page {A} (limit : Z) (items : list A) : GoM Repository (list A * bool) :=
  let more := limit <? zlen items in
  if more then items ← slice_to items limit; ret (items, true) else ret (items, false).

Definition ListChildren (identity : Identity) (parentID : string) (after : CursorPosition)
    (limit : Z) : GoM Repository (list Node * bool) :=
  r ← getS;
  let missing := throw (E CodeNotFound "parent directory was not found") in
  match repo_nodes r !! parentID with
  | None => missing
  | Some parent =>
    if (Node_TenantID parent != Identity_TenantID identity) ||
       (Node_Kind parent != NodeDirectory) || negb (visible parent) then missing else
    let items := filter (λ node,
        (Node_TenantID node == Identity_TenantID identity) && (Node_ParentID node == parentID) &&
        visible node && afterPosition node after = true) (range_values 0 (repo_nodes r)) in
    cut_page limit (sortNodes items)
  end.

(** The checks on the target directory of a move. *)
Definition check_move (r : Repository) (tenantID : string) (node : Node) (targetParent : string)
    : Outcome unit :=
  match activeDirectory r tenantID targetParent with
  | None => Err (E CodeNotFound "target directory was not found")
  | Some _ =>
    if Node_Kind node == NodeDirectory then
      match isDescendant r targetParent (Node_ID node) tenantID with
      | None => Diverged
      | Some true =>
          Err (E CodeInvalidRequest "directory cannot be moved into itself or a descendant")
      | Some false => Ok tt
      end
    else Ok tt
  end.

Definition UpdateNode (ctx : Context) (rnd : RandRead) (command : UpdateNodeCommand)
    : GoM Repository Node :=
  r ← getS;
  let identity := UpdateNodeCommand_Identity command in
  let tenantID := Identity_TenantID identity in
  match activeNode r tenantID (UpdateNodeCommand_NodeID command) with
  | None => throw (E CodeNotFound "resource was not found")
  | Some node =>
    if Tenant_RootNodeID (map_get (repo_tenants r) tenantID) == Node_ID node then
      throw (E CodeInvalidRequest "root directory cannot be changed") else
    if Node_Revision node != UpdateNodeCommand_ExpectedRevision command then
      throw (E CodeRevisionMismatch "resource revision does not match") else
    let targetParent := default (Node_ParentID node) (UpdateNodeCommand_ParentID command) in
    _ ← lift (if UpdateNodeCommand_ParentID command is Some _ then check_move r tenantID node targetParent
              else Ok tt);
    let targetName := default (Node_NormalizedName node) (UpdateNodeCommand_NormalizedName command) in
    if nameExists r tenantID targetParent targetName (Node_ID node) then
      throw (E CodeNameConflict "an active item with this name already exists") else
    node ← match UpdateNodeCommand_DisplayName command with
           | None => ret node
           | Some display =>
             match UpdateNodeCommand_NormalizedName command with
             | None => panic "nil pointer dereference"
             | Some normalized => ret (node <| Node_DisplayName := display |>
                                            <| Node_NormalizedName := normalized |>)
             end
           end;
    let node := match UpdateNodeCommand_ParentID command with
                | Some parentID => node <| Node_ParentID := parentID |>
                | None => node
                end in
    let node := node <| Node_Revision := wrap64 (Node_Revision node + 1) |>
                     <| Node_UpdatedAt := UpdateNodeCommand_Now command |> in
    _ ← putNode (Node_ID node) node;
    _ ← appendAuditLocked ctx rnd
      (newAuditEvent tenantID (Identity_PrincipalID identity) "node.updated" "node" (Node_ID node)
         (UpdateNodeCommand_Now command) [("parent_id", Node_ParentID node)]);
    ret node
  end.

Definition DownloadBlob (identity : Identity) (nodeID : string) : GoM Repository (Node * Blob) :=
  r ← getS;
  let tenantID := Identity_TenantID identity in
  match repo_nodes r !! nodeID with
  | None => throw (E CodeNotFound "file was not found")
  | Some node =>
    if (Node_TenantID node != tenantID) || (Node_Kind node != NodeFile) || negb (visible node) then
      throw (E CodeNotFound "file was not found") else
    match repo_versions r !! Node_CurrentVersionID node with
    | None => throw (E CodeInternal "file version is missing")
    | Some version =>
      if FileVersion_TenantID version != tenantID then
        throw (E CodeInternal "file version is missing") else
      match repo_blobs r !! FileVersion_BlobID version with
      | None => throw (E CodeNotFound "file content was not found")
      | Some blob =>
        if (Blob_TenantID blob != tenantID) || (Blob_Status blob != BlobAvailable) then
          throw (E CodeNotFound "file content was not found")
        else ret (node, blob)
      end
    end
  end.

(** ** The recycle bin *)

(** The body of the loop of [Recycle] over the subtree of [root]. *)
Definition recycle_one (root : Node) (now : Time) (id : string) : GoM Repository unit :=
  r ← getS;
  let child := map_get (repo_nodes r) id in
  let child := child <| Node_TrashedRootID := Node_ID root |> <| Node_UpdatedAt := now |> in
  let child := if id == Node_ID root
    then child <| Node_Status := NodeTrashed |>
               <| Node_OriginalParentID := Node_ParentID child |>
               <| Node_Revision := wrap64 (Node_Revision child + 1) |>
               <| Node_DeletedAt := Some now |>
    else child in
  putNode id child.

Definition Recycle (ctx : Context) (rnd : RandRead) (identity : Identity) (nodeID : string)
    (revision : Z) (now : Time) : GoM Repository unit :=
  r ← getS;
  let tenantID := Identity_TenantID identity in
  match repo_nodes r !! nodeID with
  | None => throw (E CodeNotFound "resource was not found")
  | Some node =>
    if Node_TenantID node != tenantID then throw (E CodeNotFound "resource was not found") else
    if Tenant_RootNodeID (map_get (repo_tenants r) tenantID) == nodeID then
      throw (E CodeInvalidRequest "root directory cannot be recycled") else
    if (Node_Status node == NodeTrashed) && (Node_TrashedRootID node == Node_ID node) then ret tt else
    if negb (visible node) then throw (E CodeNotFound "resource was not found") else
    if Node_Revision node != revision then
      throw (E CodeRevisionMismatch "resource revision does not match") else
    match activeSubtree r (Node_ID node) tenantID with
    | None => lift Diverged
    | Some ids =>
      _ ← for_range ids (recycle_one node now);
      appendAuditLocked ctx rnd
        (newAuditEvent tenantID (Identity_PrincipalID identity) "node.recycled" "node" nodeID now [])
    end
  end.

Definition ListRecycle (identity : Identity) (after : CursorPosition) (limit : Z)
    : GoM Repository (list RecycleEntry * bool) :=
  r ← getS;
  let nodes := filter (λ node,
      (Node_TenantID node == Identity_TenantID identity) && (Node_Status node == NodeTrashed) &&
      (Node_TrashedRootID node == Node_ID node) && afterPosition node after = true)
    (range_values 0 (repo_nodes r)) in
  let items := (λ node, mkRecycleEntry node (Node_OriginalParentID node)
                          (default 0 (Node_DeletedAt node))) <$> nodes in
  cut_page limit (sort_slice (λ a b, nodeLess (RecycleEntry_Node a) (RecycleEntry_Node b)) items).

(** The loop of [Restore] over the trashed subtree; [node] is the variable the
    loop replaces by the restored root of the entry. *)
Definition restored_child (node : Node) (now : Time) (id : string) (child : Node) : Node :=
  let child := child <| Node_TrashedRootID := "" |> <| Node_UpdatedAt := now |> in
  if id == Node_ID node
  then child <| Node_Status := NodeActive |>
             <| Node_ParentID := Node_OriginalParentID child |>
             <| Node_OriginalParentID := "" |>
             <| Node_DeletedAt := None |>
             <| Node_Revision := wrap64 (Node_Revision child + 1) |>
  else child.
Fixpoint restore_loop (now : Time) (ids : list string) (node : Node) : GoM Repository Node :=
  match ids with
  | [] => ret node
  | id :: ids =>
    r ← getS;
    let child := restored_child node now id (map_get (repo_nodes r) id) in
    _ ← putNode id child;
    restore_loop now ids (if id == Node_ID node then child else node)
  end.

Definition Restore (ctx : Context) (rnd : RandRead) (identity : Identity) (nodeID : string)
    (revision : Z) (now : Time) : GoM Repository Node :=
  r ← getS;
  let tenantID := Identity_TenantID identity in
  let missing := throw (E CodeNotFound "recycle entry was not found") in
  match repo_nodes r !! nodeID with
  | None => missing
  | Some node =>
    if (Node_TenantID node != tenantID) || (Node_Status node != NodeTrashed) ||
       (Node_TrashedRootID node != Node_ID node) then missing else
    if Node_Revision node != revision then
      throw (E CodeRevisionMismatch "resource revision does not match") else
    let unavailable := throw (E CodeRestoreConflict "original location is unavailable") in
    match activeDirectory r tenantID (Node_OriginalParentID node) with
    | None => unavailable
    | Some _ =>
      if nameExists r tenantID (Node_OriginalParentID node) (Node_NormalizedName node) (Node_ID node)
      then unavailable else
      node ← restore_loop now (trashedSubtree r (Node_ID node) tenantID) node;
      _ ← appendAuditLocked ctx rnd
        (newAuditEvent tenantID (Identity_PrincipalID identity) "node.restored" "node" nodeID now []);
      ret node
    end
  end.

(** ** Purging *)

Definition purge_mark_one (now : Time) (id : string) : GoM Repository unit :=
  r ← getS;
  putNode id ((map_get (repo_nodes r) id) <| Node_Status := NodePurging |> <| Node_UpdatedAt := now |>).

(** One round of the loop over the blobs of the subtree; [plan] is the slice
    of blobs collected so far. *)
Fixpoint purge_blobs (inSubtree : list string) (blobIDs : list string) (plan : list Blob)
    : GoM Repository (list Blob) :=
  match blobIDs with
  | [] => ret plan
  | blobID :: blobIDs =>
    r ← getS;
    let referencedOutside := existsb (λ version,
        (FileVersion_BlobID version == blobID) &&
        negb (bool_decide (FileVersion_NodeID version ∈ inSubtree)))
      (range_values 2 (repo_versions r)) in
    let blob := map_get (repo_blobs r) blobID in
    if negb referencedOutside && (Blob_Status blob != BlobDeleted) then
      let blob := blob <| Blob_Status := BlobPendingDelete |> <| Blob_ReferenceCount := 0 |> in
      _ ← putBlob blobID blob;
      purge_blobs inSubtree blobIDs (plan ++ [blob])
    else purge_blobs inSubtree blobIDs plan
  end.

(** The set [blobIDs]: the keys of a Go map filled from the versions of the
    subtree. *)
Definition subtree_blobs (r : Repository) (tenantID : string) (inSubtree : list string)
    : gmap string unit :=
  list_to_map ((λ version, (FileVersion_BlobID version, tt)) <$>
    filter (λ version, (FileVersion_TenantID version == tenantID) &&
                       bool_decide (FileVersion_NodeID version ∈ inSubtree) = true)
      (range_values 1 (repo_versions r))).

Definition PreparePurge (identity : Identity) (nodeID : string) (revision : Z) (now : Time)
    : GoM Repository PurgePlan :=
  r ← getS;
  let tenantID := Identity_TenantID identity in
  let missing := throw (E CodeNotFound "recycle entry was not found") in
  match repo_nodes r !! nodeID with
  | None => missing
  | Some node =>
    if (Node_TenantID node != tenantID) ||
       ((Node_Status node != NodeTrashed) && (Node_Status node != NodePurging)) ||
       (Node_TrashedRootID node != Node_ID node) then missing else
    if Node_Revision node != revision then
      throw (E CodeRevisionMismatch "resource revision does not match") else
    let subtree := trashedSubtree r (Node_ID node) tenantID in
    _ ← for_range subtree (purge_mark_one now);
    r' ← getS;
    blobs ← purge_blobs subtree (range_keys 3 (subtree_blobs r' tenantID subtree)) [];
    ret (mkPurgePlan (Node_ID node) blobs)
  end.

Definition finish_blob (identity : Identity) (now : Time) (planned : Blob) : GoM Repository unit :=
  r ← getS;
  match repo_blobs r !! Blob_ID planned with
  | Some blob =>
    if (Blob_TenantID blob == Identity_TenantID identity) && (Blob_Status blob == BlobPendingDelete)
    then putBlob (Blob_ID blob) (blob <| Blob_Status := BlobDeleted |> <| Blob_DeletedAt := Some now |>)
    else ret tt
  | None => ret tt
  end.

(** [time.Date(9999, time.January, 1, 0, 0, 0, 0, time.UTC)]: 3651694 days after
    January 1 of year 1. *)
Definition year_9999 : Time := 3651694 * (24 * Hour).

Definition FinishPurge (ctx : Context) (rnd : RandRead) (identity : Identity) (plan : PurgePlan)
    (now : Time) : GoM Repository unit :=
  r ← getS;
  let tenantID := Identity_TenantID identity in
  let missing := throw (E CodeNotFound "purge plan was not found") in
  match repo_nodes r !! PurgePlan_RootID plan with
  | None => missing
  | Some root =>
    if (Node_TenantID root != tenantID) || (Node_Status root != NodePurging) then missing else
    _ ← for_range (PurgePlan_Blobs plan) (finish_blob identity now);
    r' ← getS;
    let lease := map_get (repo_recycleMaintenance r') (PurgePlan_RootID plan) in
    _ ← putRecycleLease (PurgePlan_RootID plan)
          (lease <| lease_owner := "" |> <| lease_until := 0 |>
                 <| lease_notBefore := year_9999 |> <| lease_errorCode := "" |>);
    appendAuditLocked ctx rnd
      (newAuditEvent tenantID (Identity_PrincipalID identity) "node.purged" "node"
         (PurgePlan_RootID plan) now [])
  end.

End with_runtime.
