(* ===== verification/MemoryUploads.v ===== *)
(** * Upload sessions of the in-memory repository and the leases of the
    maintenance loop (src/internal/memory/repository.go, maintenance.go) *)
From S2P Require Import Prelude Errors GoLib Types Validation MemoryState MemoryIdempotency.
From S2P Require Import MemoryNamespace.

Section with_runtime.
Context `{!Platform, !MapRange}.

Definition uploadFor (r : Repository) (identity : Identity) (id : string) : Outcome UploadSession :=
  match repo_uploads r !! id with
  | Some session =>
    if UploadSession_TenantID session == Identity_TenantID identity then Ok session
    else Err (E CodeNotFound "upload session was not found")
  | None => Err (E CodeNotFound "upload session was not found")
  end.

(** [session.Status = status; session.Revision++; session.UpdatedAt = now] *)
Definition set_status (session : UploadSession) (status : UploadStatus) (now : Time) : UploadSession :=
  session <| UploadSession_Status := status |>
          <| UploadSession_Revision := wrap64 (UploadSession_Revision session + 1) |>
          <| UploadSession_UpdatedAt := now |>.

(** [lease.cleanupPending = true] *)
Definition mark_cleanup_pending (id : string) : GoM Repository unit :=
  r ← getS;
  putUploadLease id ((map_get (repo_uploadMaintenance r) id) <| lease_cleanupPending := true |>).

Definition CreateUpload (command : CreateUploadCommand) : GoM Repository UploadSession :=
  r ← getS;
  let session := CreateUploadCommand_Session command in
  match activeDirectory r (UploadSession_TenantID session) (UploadSession_ParentID session) with
  | None => throw (E CodeNotFound "parent directory was not found")
  | Some _ =>
    if nameExists r (UploadSession_TenantID session) (UploadSession_ParentID session)
         (UploadSession_NormalizedName session) "" then
      throw (E CodeNameConflict "an active item with this name already exists") else
    if repo_uploads r !! UploadSession_ID session is Some _ then
      throw (E CodeIdempotencyConflict "upload id already exists") else
    _ ← completeIdempotency (CreateUploadCommand_Idempotency command) (UploadSession_ID session)
          (UploadSession_CreatedAt session);
    _ ← putUpload (UploadSession_ID session) session;
    ret session
  end.

Definition Upload (identity : Identity) (id : string) : GoM Repository UploadSession :=
  r ← getS; lift (uploadFor r identity id).

Definition MarkUploading (identity : Identity) (id : string) (now : Time)
    : GoM Repository UploadSession :=
  r ← getS;
  session ← lift (uploadFor r identity id);
  if UploadSession_Status session == UploadUploading then ret session else
  if UploadSession_Status session != UploadCreated then
    throw (E CodeInvalidState "upload session cannot transition to uploading") else
  let session := set_status session UploadUploading now in
  _ ← putUpload id session;
  ret session.

Definition BeginComplete (identity : Identity) (id digest : string) (parts : list CompletedPart)
    (now : Time) : GoM Repository UploadSession :=
  r ← getS;
  session ← lift (uploadFor r identity id);
  let status := UploadSession_Status session in
  if (UploadSession_CompletionDigest session != "") &&
     (UploadSession_CompletionDigest session != digest) then
    throw (E CodeIdempotencyConflict "completion payload differs from the first request") else
  if (status == UploadCommitted) || (status == UploadObjectCompleted) || (status == UploadCompleting)
  then ret session else
  if (status != UploadCreated) && (status != UploadUploading) then
    throw (E CodeInvalidState "upload session cannot be completed") else
  if negb (Before now (UploadSession_ExpiresAt session)) then
    throw (E CodeInvalidState "upload session has expired") else
  let session := set_status (session <| UploadSession_CompletionDigest := digest |>)
                   UploadCompleting now in
  _ ← putUpload id session;
  _ ← modS (λ r, r <| repo_parts := <[id := parts]> (repo_parts r) |>);
  ret session.

Definition FailUploadCompletion (identity : Identity) (id digest failureCode : string) (now : Time)
    : GoM Repository UploadSession :=
  if failureCode == "" then throw (E CodeInvalidRequest "upload failure code is required") else
  r ← getS;
  session ← lift (uploadFor r identity id);
  if UploadSession_CompletionDigest session != digest then
    throw (E CodeIdempotencyConflict "completion payload differs from the first request") else
  if UploadSession_Status session == UploadFailed then ret session else
  if UploadSession_Status session != UploadCompleting then
    throw (E CodeInvalidState "upload completion cannot transition to failed") else
  let session := set_status (session <| UploadSession_FailureCode := failureCode |>)
                   UploadFailed now in
  _ ← putUpload id session;
  _ ← mark_cleanup_pending id;
  ret session.

Definition MarkObjectCompleted (identity : Identity) (id : string) (_ : ObjectInfo) (now : Time)
    : GoM Repository UploadSession :=
  r ← getS;
  session ← lift (uploadFor r identity id);
  if (UploadSession_Status session == UploadObjectCompleted) ||
     (UploadSession_Status session == UploadCommitted) then ret session else
  if UploadSession_Status session != UploadCompleting then
    throw (E CodeInvalidState "upload object cannot be marked complete") else
  let session := set_status session UploadObjectCompleted now in
  _ ← putUpload id session;
  ret session.

Definition completeResult (r : Repository) (session : UploadSession) : CompleteResult :=
  let node := map_get (repo_nodes r) (UploadSession_CommittedNodeID session) in
  let version := map_get (repo_versions r) (Node_CurrentVersionID node) in
  let blob := map_get (repo_blobs r) (FileVersion_BlobID version) in
  mkCompleteResult session node blob version.

(** The two rejections of [CommitUpload]: the session fails for good and its
    object is queued for cleanup. *)
Definition reject_commit (session : UploadSession) (failureCode : string) (now : Time) (err : GoError)
    : GoM Repository (CompleteResult * bool) :=
  let session := set_status (session <| UploadSession_FailureCode := failureCode |>)
                   UploadFailed now in
  _ ← putUpload (UploadSession_ID session) session;
  _ ← mark_cleanup_pending (UploadSession_ID session);
  throw err.

Definition CommitUpload (ctx : Context) (rnd : RandRead) (command : CommitUploadCommand)
    : GoM Repository (CompleteResult * bool) :=
  r ← getS;
  let identity := CommitUploadCommand_Identity command in
  let now := CommitUploadCommand_Now command in
  let node := CommitUploadCommand_Node command in
  session ← lift (uploadFor r identity (CommitUploadCommand_SessionID command));
  if UploadSession_CompletionDigest session != CommitUploadCommand_Digest command then
    throw (E CodeIdempotencyConflict "completion payload differs from the first request") else
  if UploadSession_Status session == UploadCommitted then ret (completeResult r session, false) else
  if UploadSession_Status session != UploadObjectCompleted then
    throw (E CodeInvalidState "upload object is not completed") else
  match activeDirectory r (Identity_TenantID identity) (UploadSession_ParentID session) with
  | None => reject_commit session UploadFailureParentUnavailable now
              (E CodeNotFound "parent directory was not found")
  | Some _ =>
    if nameExists r (UploadSession_TenantID session) (UploadSession_ParentID session)
         (UploadSession_NormalizedName session) "" then
      reject_commit session UploadFailureNameConflict now
        (E CodeNameConflict "an active item with this name already exists") else
    _ ← putBlob (Blob_ID (CommitUploadCommand_Blob command)) (CommitUploadCommand_Blob command);
    _ ← putVersion (FileVersion_ID (CommitUploadCommand_Version command))
          (CommitUploadCommand_Version command);
    _ ← putNode (Node_ID node) node;
    let session := set_status (session <| UploadSession_CommittedNodeID := Node_ID node |>)
                     UploadCommitted now in
    _ ← putUpload (UploadSession_ID session) session;
    _ ← appendAuditLocked ctx rnd
      (newAuditEvent (Identity_TenantID identity) (Identity_PrincipalID identity)
         "upload.committed" "node" (Node_ID node) now
         [("upload_id", UploadSession_ID session); ("kind", Node_Kind node)]);
    ret (mkCompleteResult session node (CommitUploadCommand_Blob command)
           (CommitUploadCommand_Version command), true)
  end.

Definition AbortUpload (identity : Identity) (id : string) (target : UploadStatus) (now : Time)
    : GoM Repository UploadSession :=
  r ← getS;
  session ← lift (uploadFor r identity id);
  let status := UploadSession_Status session in
  if status == UploadCommitted then
    throw (E CodeInvalidState "committed upload cannot be aborted") else
  if (status == UploadAborted) || (status == UploadExpired) || (status == UploadFailed) then
    ret session else
  if (status != UploadCreated) && (status != UploadUploading) then
    throw (E CodeInvalidState "upload session cannot be aborted while completing") else
  if (target != UploadAborted) && (target != UploadExpired) && (target != UploadFailed) then
    throw (E CodeInvalidState "invalid upload terminal state") else
  let session := set_status session target now in
  _ ← putUpload id session;
  _ ← mark_cleanup_pending id;
  ret session.

Definition UploadParts (identity : Identity) (id : string) : GoM Repository (list CompletedPart) :=
  r ← getS;
  _ ← lift (uploadFor r identity id);
  ret (map_get (repo_parts r) id).

Definition RecordPartSignature (identity : Identity) (id : string) (part : PartSignature)
    (_ : Time) : GoM Repository unit :=
  if (PartSignature_PartNumber part <? 1) || (MaxUploadParts <? PartSignature_PartNumber part) ||
     (PartSignature_Size part <=? 0) ||
     negb (ValidChecksum (mkChecksum "sha256" (PartSignature_SHA256 part))) then
    throw (E CodeInvalidRequest "part signature is invalid") else
  r ← getS;
  _ ← lift (uploadFor r identity id);
  let signatures := default ∅ (repo_partSignatures r !! id) in
  putS (r <| repo_partSignatures :=
    <[id := <[PartSignature_PartNumber part := part]> signatures]> (repo_partSignatures r) |>).

Definition PartSignatures (identity : Identity) (id : string) : GoM Repository (list PartSignature) :=
  r ← getS;
  _ ← lift (uploadFor r identity id);
  let signatures := default ∅ (repo_partSignatures r !! id) in
  ret (omap (λ partNumber, signatures !! partNumber) (seqZ 1 MaxUploadParts)).

Definition MarkUploadCleanupComplete (identity : Identity) (id : string) (now : Time)
    : GoM Repository unit :=
  r ← getS;
  session ← lift (uploadFor r identity id);
  if negb (Terminal (UploadSession_Status session)) then
    throw (E CodeInvalidState "upload cleanup cannot be completed") else
  putUploadLease id ((map_get (repo_uploadMaintenance r) id)
    <| lease_cleanupPending := false |> <| lease_errorCode := "" |> <| lease_notBefore := 0 |>).

Definition ExpiredUploads (now : Time) (limit : Z) : GoM Repository (list UploadSession) :=
  r ← getS;
  let result := filter (λ session,
      negb (Terminal (UploadSession_Status session)) &&
      negb (Before now (UploadSession_ExpiresAt session)) = true) (range_values 0 (repo_uploads r)) in
  ret (cut_positive limit (sort_slice (λ a b,
    Before (UploadSession_ExpiresAt a) (UploadSession_ExpiresAt b)) result)).

(** ** Maintenance leases *)

(** The lease is held, or its retry time has not come. *)
Definition lease_blocks (lease : maintenanceLease) (now : Time) : bool :=
  (negb (IsZero (lease_until lease)) && After (lease_until lease) now) ||
  (negb (IsZero (lease_notBefore lease)) && After (lease_notBefore lease) now).

Definition upload_claimable (lease : maintenanceLease) (upload : UploadSession)
    (now staleBefore : Time) : bool :=
  let status := UploadSession_Status upload in
  let due := ((status == UploadCreated) || (status == UploadUploading)) &&
             negb (After (UploadSession_ExpiresAt upload) now) in
  let stale := ((status == UploadCompleting) || (status == UploadObjectCompleted)) &&
               negb (After (UploadSession_UpdatedAt upload) staleBefore) in
  negb (lease_blocks lease now) &&
  (due || stale || lease_cleanupPending lease || (lease_errorCode lease != "")).

Fixpoint claim_uploads (owner : string) (leaseUntil : Time) (ids : list string)
    (claims : list UploadMaintenanceClaim) : GoM Repository (list UploadMaintenanceClaim) :=
  match ids with
  | [] => ret claims
  | id :: ids =>
    r ← getS;
    let lease := (map_get (repo_uploadMaintenance r) id) <| lease_owner := owner |>
                                                        <| lease_until := leaseUntil |> in
    _ ← putUploadLease id lease;
    claim_uploads owner leaseUntil ids
      (claims ++ [mkUploadMaintenanceClaim (map_get (repo_uploads r) id) owner
                    (lease_cleanupPending lease) (lease_attempts lease)])
  end.

Definition ClaimUploadsForMaintenance (owner : string) (now staleBefore leaseUntil : Time)
    (limit : Z) : GoM Repository (list UploadMaintenanceClaim) :=
  r ← getS;
  let due := filter (λ '(id, upload),
      upload_claimable (map_get (repo_uploadMaintenance r) id) upload now staleBefore = true)
    (map_range 0 (repo_uploads r)) in
  let less a b := Before (UploadSession_ExpiresAt (map_get (repo_uploads r) a))
                         (UploadSession_ExpiresAt (map_get (repo_uploads r) b)) in
  claim_uploads owner leaseUntil (cut_positive limit (sort_slice less due.*1)) [].

Definition FinishUploadMaintenance (owner uploadID : string) (status : UploadStatus)
    (cleanupComplete : bool) (retryAt : Time) (errorCode : string) (now : Time)
    : GoM Repository unit :=
  r ← getS;
  let lost := throw (E CodeInvalidState "upload maintenance claim is no longer owned") in
  match repo_uploadMaintenance r !! uploadID with
  | None => lost
  | Some lease =>
    if lease_owner lease != owner then lost else
    match repo_uploads r !! uploadID with
    | None => throw (E CodeInvalidState "upload cannot be maintained")
    | Some upload =>
      _ ← putUpload uploadID (set_status upload status now);
      let lease := lease <| lease_owner := "" |> <| lease_until := 0 |>
                         <| lease_notBefore := retryAt |> <| lease_errorCode := errorCode |>
                         <| lease_cleanupPending := negb cleanupComplete |> in
      let lease := if errorCode != ""
                   then lease <| lease_attempts := wrap64 (lease_attempts lease + 1) |> else lease in
      let lease := if cleanupComplete && (errorCode == "")
                   then lease <| lease_errorCode := "" |> <| lease_notBefore := 0 |> else lease in
      putUploadLease uploadID lease
    end
  end.

Definition recycle_claimable (r : Repository) (cutoff now : Time) (id : string) (node : Node) : bool :=
  (Node_TrashedRootID node == id) &&
  ((Node_Status node == NodeTrashed) || (Node_Status node == NodePurging)) &&
  match Node_DeletedAt node with
  | None => false
  | Some deletedAt => negb (After deletedAt cutoff)
  end &&
  negb (lease_blocks (map_get (repo_recycleMaintenance r) id) now).

Fixpoint claim_recycle (owner : string) (now leaseUntil : Time) (ids : list string)
    (claims : list RecycleMaintenanceClaim) : GoM Repository (list RecycleMaintenanceClaim) :=
  match ids with
  | [] => ret claims
  | id :: ids =>
    r ← getS;
    let node := (map_get (repo_nodes r) id) <| Node_Status := NodePurging |>
                                           <| Node_UpdatedAt := now |> in
    let lease := (map_get (repo_recycleMaintenance r) id) <| lease_owner := owner |>
                                                         <| lease_until := leaseUntil |> in
    _ ← putNode id node;
    _ ← putRecycleLease id lease;
    claim_recycle owner now leaseUntil ids
      (claims ++ [mkRecycleMaintenanceClaim (mkIdentity (Node_TenantID node) "") id
                    (Node_Revision node) owner])
  end.

Definition ClaimRecycleForMaintenance (owner : string) (cutoff now leaseUntil : Time) (limit : Z)
    : GoM Repository (list RecycleMaintenanceClaim) :=
  r ← getS;
  let due := filter (λ '(id, node), recycle_claimable r cutoff now id node = true)
    (map_range 0 (repo_nodes r)) in
  claim_recycle owner now leaseUntil (cut_positive limit (sort_slice str_ltb due.*1)) [].

Definition ReleaseRecycleMaintenance (owner rootID : string) (retryAt : Time) (errorCode : string)
    (_ : Time) : GoM Repository unit :=
  r ← getS;
  let lost := throw (E CodeInvalidState "recycle maintenance claim is no longer owned") in
  match repo_recycleMaintenance r !! rootID with
  | None => lost
  | Some lease =>
    if lease_owner lease != owner then lost else
    putRecycleLease rootID (lease <| lease_owner := "" |> <| lease_until := 0 |>
      <| lease_notBefore := retryAt |> <| lease_errorCode := errorCode |>
      <| lease_attempts := wrap64 (lease_attempts lease + 1) |>)
  end.

End with_runtime.
