(* ===== verification/MemoryGovernance.v ===== *)
(** * Members, invitations, groups and access control of the in-memory
    repository (src/internal/memory/governance.go, repository.go) *)
From S2P Require Import Prelude Errors GoLib Types Validation MemoryState.

(** [AcceptInvitation] returns an invitation and a member next to the error. *)
Abbreviation AcceptResult := (TenantInvitation * PrincipalRecord * option GoError)%type (only parsing).

Section with_runtime.
Context `{!Platform, !MapRange}.

(** ** Members *)

Definition seeds_principal (seed : OIDCMemberSeed) (candidate : PrincipalRecord) : bool :=
  (PrincipalRecord_PrincipalID candidate == OIDCMemberSeed_PrincipalID seed) &&
  ((PrincipalRecord_Issuer candidate != OIDCMemberSeed_Issuer seed) ||
   (PrincipalRecord_Subject candidate != OIDCMemberSeed_Subject seed)).

Definition EnsureOIDCMember (seed : OIDCMemberSeed) : GoM Repository PrincipalRecord :=
  r ← getS;
  let tenantID := OIDCMemberSeed_TenantID seed in
  let principalID := OIDCMemberSeed_PrincipalID seed in
  if (tenantID == "") || (principalID == "") || (OIDCMemberSeed_Issuer seed == "") ||
     (OIDCMemberSeed_Subject seed == "") || negb (ValidAccessRole (OIDCMemberSeed_Role seed)) then
    throw (E CodeInvalidRequest "OIDC member seed is invalid") else
  match repo_tenants r !! tenantID with
  | None => throw (E CodeNotFound "tenant was not found")
  | Some tenant =>
    let externalKey := principalKey (OIDCMemberSeed_Issuer seed) (OIDCMemberSeed_Subject seed) in
    _ ← match repo_principals r !! externalKey with
        | Some principal =>
          if PrincipalRecord_PrincipalID principal != principalID then
            throw (E CodeNameConflict "OIDC identity is mapped to another principal")
          else ret tt
        | None =>
          if existsb (seeds_principal seed) (range_values 0 (repo_principals r)) then
            throw (E CodeNameConflict "principal id is mapped to another OIDC identity")
          else putPrincipal externalKey
            (mkPrincipalRecord (mkIdentity tenantID principalID) (OIDCMemberSeed_Issuer seed)
               (OIDCMemberSeed_Subject seed) (OIDCMemberSeed_DisplayName seed) "" "" "")
        end;
    let key := memberKey tenantID principalID in
    match repo_members r !! key with
    | Some member => ret member
    | None =>
      let member := mkPrincipalRecord (mkIdentity tenantID principalID) (OIDCMemberSeed_Issuer seed)
        (OIDCMemberSeed_Subject seed) (OIDCMemberSeed_DisplayName seed) (Tenant_DisplayName tenant)
        (OIDCMemberSeed_Role seed) MemberStatusActive in
      _ ← putMember key member;
      ret member
    end
  end.

Definition ResolveOIDCPrincipal (issuer subject tenantID : string) : GoM Repository PrincipalRecord :=
  r ← getS;
  let denied := throw (E CodeForbidden "identity is not a member of this tenant") in
  match repo_principals r !! principalKey issuer subject with
  | None => denied
  | Some principal =>
    match repo_members r !! memberKey tenantID (PrincipalRecord_PrincipalID principal) with
    | None => denied
    | Some member =>
      if PrincipalRecord_Status member != MemberStatusActive then denied else ret member
    end
  end.

Definition SetOIDCMemberStatus (tenantID principalID : string) (status : MemberStatus)
    : GoM Repository unit :=
  r ← getS;
  if (tenantID == "") || (principalID == "") || negb (ValidMemberStatus status) then
    throw (E CodeInvalidRequest "OIDC member status is invalid") else
  let key := memberKey tenantID principalID in
  match repo_members r !! key with
  | None => throw (E CodeNotFound "tenant member was not found")
  | Some member => putMember key (member <| PrincipalRecord_Status := status |>)
  end.

Definition ListMembers (tenantID : string) (after : CursorPosition) (limit : Z)
    : GoM Repository (list PrincipalRecord * bool) :=
  r ← getS;
  match repo_tenants r !! tenantID with
  | None => throw (E CodeNotFound "tenant was not found")
  | Some _ =>
    let items := filter (λ member, (PrincipalRecord_TenantID member == tenantID) &&
                                   afterMemberPosition member after = true)
                   (range_values 0 (repo_members r)) in
    let items := sort_slice (λ a b, str_ltb (PrincipalRecord_PrincipalID a)
                                            (PrincipalRecord_PrincipalID b)) items in
    if limit <? zlen items then items ← slice_to items limit; ret (items, true)
    else ret (items, false)
  end.

(** [x != nil && p( *x )] *)
Definition is_some_and {A} (x : option A) (p : A → bool) : bool :=
  match x with Some a => p a | None => false end.
Definition is_nil {A} (x : option A) : bool := match x with Some _ => false | None => true end.

(** The member is an active owner and would no longer be one. *)
Definition removes_owner (member : PrincipalRecord) (newRole : AccessRole)
    (newStatus : MemberStatus) : bool :=
  (PrincipalRecord_Role member == RoleOwner) && (PrincipalRecord_Status member == MemberStatusActive) &&
  ((newRole != RoleOwner) || (newStatus != MemberStatusActive)).

Definition managingActor (r : Repository) (t p : string) (role : AccessRole) : bool :=
  is_some_and (repo_members r !! memberKey t p) (λ x,
    (PrincipalRecord_Status x == MemberStatusActive) && (PrincipalRecord_Role x == role) &&
    ((role == RoleOwner) || (role == RoleAdmin))).

Definition UpdateMember (ctx : Context) (rnd : RandRead) (command : UpdateMemberCommand)
    : GoM Repository PrincipalRecord :=
  r ← getS;
  let tenantID := UpdateMemberCommand_TenantID command in
  let principalID := UpdateMemberCommand_PrincipalID command in
  let actorRole := UpdateMemberCommand_ActorRole command in
  let role := UpdateMemberCommand_Role command in
  let status := UpdateMemberCommand_Status command in
  if (tenantID == "") || (principalID == "") || (UpdateMemberCommand_ActorPrincipalID command == "") ||
     negb (ValidAccessRole actorRole) || (is_nil role && is_nil status) ||
     is_some_and role (λ x, negb (ValidAccessRole x)) ||
     is_some_and status (λ x, negb (ValidMemberStatus x)) then
    throw (E CodeInvalidRequest "member update is invalid") else
  if negb (managingActor r tenantID (UpdateMemberCommand_ActorPrincipalID command) actorRole) then
    throw (E CodeForbidden "only active owners and admins may manage members") else
  let key := memberKey tenantID principalID in
  match repo_members r !! key with
  | None => throw (E CodeNotFound "tenant member was not found")
  | Some member =>
    if (actorRole == RoleAdmin) && ((PrincipalRecord_Role member == RoleOwner) ||
         is_some_and role (λ x, x == RoleOwner)) then
      throw (E CodeForbidden "admins cannot modify owners or grant the owner role") else
    let newRole := default (PrincipalRecord_Role member) role in
    let newStatus := default (PrincipalRecord_Status member) status in
    if removes_owner member newRole newStatus && (activeOwnerCount r tenantID principalID =? 0) then
      throw (E CodeInvalidState "the last active owner cannot be removed") else
    let member := member <| PrincipalRecord_Role := newRole |>
                         <| PrincipalRecord_Status := newStatus |>
                         <| PrincipalRecord_TenantDisplayName :=
                              Tenant_DisplayName (map_get (repo_tenants r) tenantID) |> in
    _ ← putMember key member;
    _ ← appendAuditLocked ctx rnd
      (newAuditEvent tenantID (UpdateMemberCommand_ActorPrincipalID command) "tenant.member.updated"
         "principal" principalID (UpdateMemberCommand_Now command)
         [("role", PrincipalRecord_Role member); ("status", PrincipalRecord_Status member)]);
    ret member
  end.

Definition DeleteMember (ctx : Context) (rnd : RandRead) (c : DeleteMemberCommand)
    : GoM Repository unit :=
  r ← getS;
  let tenantID := DeleteMemberCommand_TenantID c in
  let principalID := DeleteMemberCommand_PrincipalID c in
  if negb (managingActor r tenantID (DeleteMemberCommand_ActorPrincipalID c)
             (DeleteMemberCommand_ActorRole c)) then
    throw (E CodeForbidden "only active owners and admins may manage members") else
  match repo_members r !! memberKey tenantID principalID with
  | None => throw (E CodeNotFound "tenant member was not found")
  | Some m =>
    if (DeleteMemberCommand_ActorRole c == RoleAdmin) && (PrincipalRecord_Role m == RoleOwner) then
      throw (E CodeForbidden "admins cannot delete owners") else
    if (PrincipalRecord_Role m == RoleOwner) && (PrincipalRecord_Status m == MemberStatusActive) &&
       (activeOwnerCount r tenantID principalID =? 0) then
      throw (E CodeInvalidState "the last active owner cannot be removed") else
    _ ← modS (λ r, r <| repo_members := delete (memberKey tenantID principalID) (repo_members r) |>);
    _ ← modS (λ r, r <| repo_groupMembers := filter (λ '(k, _),
          (k == groupMemberKey tenantID "" principalID) || hasMemberSuffix k tenantID principalID = false)
          (repo_groupMembers r) |>);
    appendAuditLocked ctx rnd
      (newAuditEvent tenantID (DeleteMemberCommand_ActorPrincipalID c) "tenant.member.deleted"
         "principal" principalID (DeleteMemberCommand_Now c) [("role", PrincipalRecord_Role m)])
  end.

(** ** Invitations *)

Definition badInvitationIdentity (issuer subject : string) : bool :=
  (issuer == "") || (subject == "") || (TrimSpace issuer == "") || (TrimSpace subject == "") ||
  (512 <? zstrlen issuer) || (512 <? zstrlen subject).

Definition CreateInvitation (ctx : Context) (rnd : RandRead) (c : CreateInvitationCommand)
    : GoM Repository TenantInvitation :=
  r ← getS;
  let tenantID := CreateInvitationCommand_TenantID c in
  let actor := CreateInvitationCommand_ActorPrincipalID c in
  let actorRole := CreateInvitationCommand_ActorRole c in
  let now := CreateInvitationCommand_Now c in
  if negb (managingActor r tenantID actor actorRole) then
    throw (E CodeForbidden "only owners and admins may invite members") else
  if negb (ValidID (CreateInvitationCommand_ID c)) || negb (ValidID tenantID) ||
     negb (ValidID actor) || negb (ValidAccessRole actorRole) ||
     badInvitationIdentity (CreateInvitationCommand_Issuer c) (CreateInvitationCommand_Subject c) ||
     (256 <? zstrlen (CreateInvitationCommand_DisplayName c)) ||
     negb (zstrlen (CreateInvitationCommand_TokenHash c) =? 64) ||
     negb (ValidAccessRole (CreateInvitationCommand_Role c)) ||
     negb (After (CreateInvitationCommand_ExpiresAt c) now) then
    throw (E CodeInvalidRequest "invitation is invalid") else
  if (actorRole == RoleAdmin) && (CreateInvitationCommand_Role c == RoleOwner) then
    throw (E CodeForbidden "admins cannot invite owners") else
  if existsb (λ x, (TenantInvitation_TenantID x == tenantID) &&
        (TenantInvitation_Issuer x == CreateInvitationCommand_Issuer c) &&
        (TenantInvitation_Subject x == CreateInvitationCommand_Subject c) &&
        (TenantInvitation_Status x == InvitationPending)) (range_values 0 (repo_invitations r)) then
    throw (E CodeNameConflict "a pending invitation already exists") else
  let v := mkTenantInvitation (CreateInvitationCommand_ID c) tenantID
    (CreateInvitationCommand_Issuer c) (CreateInvitationCommand_Subject c)
    (CreateInvitationCommand_DisplayName c) (CreateInvitationCommand_Role c) InvitationPending ""
    actor (CreateInvitationCommand_ExpiresAt c) None None now now in
  _ ← putInvitation (TenantInvitation_ID v) v;
  _ ← modS (λ r, r <| repo_invitationTokens :=
        <[CreateInvitationCommand_TokenHash c := TenantInvitation_ID v]> (repo_invitationTokens r) |>);
  audited ← try_ (appendAuditLocked ctx rnd
    (newAuditEvent tenantID actor "tenant.invitation.created" "invitation"
       (CreateInvitationCommand_ID c) now [("role", CreateInvitationCommand_Role c)]));
  match audited with
  | inl err =>
    _ ← modS (λ r, r <| repo_invitations := delete (TenantInvitation_ID v) (repo_invitations r) |>
        <| repo_invitationTokens :=
             delete (CreateInvitationCommand_TokenHash c) (repo_invitationTokens r) |>);
    throw err
  | inr _ => ret v
  end.

(** Pending invitations past their expiry are stored as expired while the list
    is built; [now] is the reading of the wall clock in the body. *)
Definition expire_pending (now : Time) (v : TenantInvitation) : TenantInvitation :=
  if (TenantInvitation_Status v == InvitationPending) && negb (After (TenantInvitation_ExpiresAt v) now)
  then v <| TenantInvitation_Status := InvitationExpired |> <| TenantInvitation_UpdatedAt := now |>
  else v.

Definition ListInvitations (now : Time) (tenant : string) (status : InvitationStatus) (limit : Z)
    : GoM Repository (list TenantInvitation) :=
  r ← getS;
  match repo_tenants r !! tenant with
  | None => throw (E CodeNotFound "tenant was not found")
  | Some _ =>
    _ ← putS (r <| repo_invitations := (λ v,
          if TenantInvitation_TenantID v == tenant then expire_pending now v else v) <$>
          repo_invitations r |>);
    let out := filter (λ v, (status == "") || (TenantInvitation_Status v == status) = true)
      (expire_pending now <$> filter (λ v, TenantInvitation_TenantID v = tenant)
         (range_values 0 (repo_invitations r))) in
    let out := sort_slice (λ a b, After (TenantInvitation_CreatedAt a) (TenantInvitation_CreatedAt b)) out in
    ret (if (0 <? limit) && (limit <? zlen out) then take (Z.to_nat limit) out else out)
  end.

Definition AcceptInvitation (ctx : Context) (rnd : RandRead) (c : AcceptInvitationCommand)
    : GoM Repository AcceptResult :=
  r ← getS;
  let now := AcceptInvitationCommand_Now c in
  let candidate := AcceptInvitationCommand_CandidatePrincipalID c in
  let fail (v : TenantInvitation) (code : ErrorCode) (message : string) :=
    ret (v, go_zero, Some (E code message)) in
  if negb (zstrlen (AcceptInvitationCommand_TokenHash c) =? 64) || negb (ValidID candidate) ||
     badInvitationIdentity (AcceptInvitationCommand_Issuer c) (AcceptInvitationCommand_Subject c) then
    fail go_zero CodeInvalidRequest "invitation acceptance is invalid" else
  match repo_invitationTokens r !! AcceptInvitationCommand_TokenHash c with
  | None => fail go_zero CodeNotFound "invitation was not found"
  | Some id =>
    let v := map_get (repo_invitations r) id in
    let tenantID := TenantInvitation_TenantID v in
    if (TenantInvitation_Issuer v != AcceptInvitationCommand_Issuer c) ||
       (TenantInvitation_Subject v != AcceptInvitationCommand_Subject c) then
      fail go_zero CodeForbidden "invitation identity does not match the authenticated identity" else
    if TenantInvitation_Status v == InvitationAccepted then
      match repo_members r !! memberKey tenantID (TenantInvitation_AcceptedPrincipalID v) with
      | None => fail v CodeInternal "accepted invitation has no membership"
      | Some m => ret (v, m, None)
      end
    else if TenantInvitation_Status v != InvitationPending then
      fail v CodeInvalidState "invitation is not pending"
    else if negb (After (TenantInvitation_ExpiresAt v) now) then
      let v := v <| TenantInvitation_Status := InvitationExpired |>
                 <| TenantInvitation_UpdatedAt := now |> in
      _ ← putInvitation id v;
      fail v CodeInvalidState "invitation has expired"
    else
      let key := principalKey (TenantInvitation_Issuer v) (TenantInvitation_Subject v) in
      let found := repo_principals r !! key in
      if is_some_and found (λ p, PrincipalRecord_PrincipalID p != candidate) then
        fail v CodeNameConflict "OIDC identity is mapped to another principal" else
      let p := default (mkPrincipalRecord (mkIdentity "" candidate) (TenantInvitation_Issuer v)
                 (TenantInvitation_Subject v) (TenantInvitation_DisplayName v) "" "" "") found in
      _ ← (if is_nil found then putPrincipal key p else ret tt);
      let principalID := PrincipalRecord_PrincipalID p in
      let m := mkPrincipalRecord (mkIdentity tenantID principalID) (PrincipalRecord_Issuer p)
        (PrincipalRecord_Subject p) (PrincipalRecord_DisplayName p)
        (Tenant_DisplayName (map_get (repo_tenants r) tenantID)) (TenantInvitation_Role v)
        MemberStatusActive in
      let m := default m (repo_members r !! memberKey tenantID principalID) in
      _ ← putMember (memberKey tenantID principalID) m;
      let v := v <| TenantInvitation_Status := InvitationAccepted |>
                 <| TenantInvitation_AcceptedPrincipalID := principalID |>
                 <| TenantInvitation_AcceptedAt := Some now |>
                 <| TenantInvitation_UpdatedAt := now |> in
      _ ← putInvitation id v;
      audited ← try_ (appendAuditLocked ctx rnd
        (newAuditEvent tenantID principalID "tenant.invitation.accepted" "invitation"
           (TenantInvitation_ID v) now [("principal_id", principalID)]));
      match audited with
      | inl err => ret (go_zero, go_zero, Some err)
      | inr _ => ret (v, m, None)
      end
  end.

Definition RevokeInvitation (ctx : Context) (rnd : RandRead) (c : RevokeInvitationCommand)
    : GoM Repository TenantInvitation :=
  r ← getS;
  let tenantID := RevokeInvitationCommand_TenantID c in
  let actor := RevokeInvitationCommand_ActorPrincipalID c in
  let now := RevokeInvitationCommand_Now c in
  if negb (ValidID tenantID) || negb (ValidID (RevokeInvitationCommand_InvitationID c)) ||
     negb (ValidID actor) || negb (ValidAccessRole (RevokeInvitationCommand_ActorRole c)) then
    throw (E CodeInvalidRequest "invitation revocation is invalid") else
  if negb (managingActor r tenantID actor (RevokeInvitationCommand_ActorRole c)) then
    throw (E CodeForbidden "only owners and admins may revoke invitations") else
  match repo_invitations r !! RevokeInvitationCommand_InvitationID c with
  | None => throw (E CodeNotFound "invitation was not found")
  | Some v =>
    if TenantInvitation_TenantID v != tenantID then
      throw (E CodeNotFound "invitation was not found") else
    if TenantInvitation_Status v != InvitationPending then
      throw (E CodeInvalidState "invitation is not pending") else
    let v := v <| TenantInvitation_Status := InvitationRevoked |>
               <| TenantInvitation_RevokedAt := Some now |>
               <| TenantInvitation_UpdatedAt := now |> in
    _ ← putInvitation (TenantInvitation_ID v) v;
    _ ← appendAuditLocked ctx rnd
      (newAuditEvent tenantID actor "tenant.invitation.revoked" "invitation" (TenantInvitation_ID v)
         now []);
    ret v
  end.

End with_runtime.
