(* ===== verification/MemoryGroups.v ===== *)
(** * Groups and node access control lists of the in-memory repository
    (src/internal/memory/governance.go) *)
From S2P Require Import Prelude Errors GoLib Types Validation MemoryState MemoryGovernance.

Section with_runtime.
Context `{!Platform, !MapRange}.

(** ** Groups *)

Definition CreateGroup (ctx : Context) (rnd : RandRead) (c : CreateGroupCommand)
    : GoM Repository TenantGroup :=
  r ← getS;
  let tenantID := CreateGroupCommand_TenantID c in
  let actor := CreateGroupCommand_ActorPrincipalID c in
  let now := CreateGroupCommand_Now c in
  if negb (managingActor r tenantID actor (CreateGroupCommand_ActorRole c)) then
    throw (E CodeForbidden "only owners and admins may manage groups") else
  if existsb (λ g, (TenantGroup_TenantID g == tenantID) &&
        (TenantGroup_NormalizedName g == CreateGroupCommand_NormalizedName c))
       (range_values 0 (repo_groups r)) then
    throw (E CodeNameConflict "group name already exists") else
  let g := mkTenantGroup (CreateGroupCommand_ID c) tenantID (CreateGroupCommand_DisplayName c)
    (CreateGroupCommand_NormalizedName c) actor now now in
  _ ← putGroup (TenantGroup_ID g) g;
  audited ← try_ (appendAuditLocked ctx rnd
    (newAuditEvent tenantID actor "tenant.group.created" "group" (TenantGroup_ID g) now
       [("name", TenantGroup_DisplayName g)]));
  match audited with
  | inl err =>
    _ ← modS (λ r, r <| repo_groups := delete (TenantGroup_ID g) (repo_groups r) |>);
    throw err
  | inr _ => ret g
  end.

Definition ListGroups (t : string) : GoM Repository (list TenantGroup) :=
  r ← getS;
  ret (sort_slice (λ a b, str_ltb (TenantGroup_NormalizedName a) (TenantGroup_NormalizedName b))
    (filter (λ g, TenantGroup_TenantID g = t) (range_values 0 (repo_groups r)))).

Definition UpdateGroup (ctx : Context) (rnd : RandRead) (c : UpdateGroupCommand)
    : GoM Repository TenantGroup :=
  r ← getS;
  let tenantID := UpdateGroupCommand_TenantID c in
  let actor := UpdateGroupCommand_ActorPrincipalID c in
  let now := UpdateGroupCommand_Now c in
  if negb (managingActor r tenantID actor (UpdateGroupCommand_ActorRole c)) then
    throw (E CodeForbidden "only owners and admins may manage groups") else
  match repo_groups r !! UpdateGroupCommand_GroupID c with
  | None => throw (E CodeNotFound "group was not found")
  | Some group =>
    if TenantGroup_TenantID group != tenantID then throw (E CodeNotFound "group was not found") else
    if existsb (λ '(id, candidate), (id != TenantGroup_ID group) &&
          (TenantGroup_TenantID candidate == tenantID) &&
          (TenantGroup_NormalizedName candidate == UpdateGroupCommand_NormalizedName c))
         (map_range 0 (repo_groups r)) then
      throw (E CodeNameConflict "group name already exists") else
    let group := group <| TenantGroup_DisplayName := UpdateGroupCommand_DisplayName c |>
                       <| TenantGroup_NormalizedName := UpdateGroupCommand_NormalizedName c |>
                       <| TenantGroup_UpdatedAt := now |> in
    _ ← putGroup (TenantGroup_ID group) group;
    _ ← appendAuditLocked ctx rnd
      (newAuditEvent tenantID actor "tenant.group.updated" "group" (TenantGroup_ID group) now
         [("name", TenantGroup_DisplayName group)]);
    ret group
  end.

Definition DeleteGroup (ctx : Context) (rnd : RandRead) (c : DeleteGroupCommand)
    : GoM Repository unit :=
  r ← getS;
  let tenantID := DeleteGroupCommand_TenantID c in
  let actor := DeleteGroupCommand_ActorPrincipalID c in
  if negb (managingActor r tenantID actor (DeleteGroupCommand_ActorRole c)) then
    throw (E CodeForbidden "only owners and admins may manage groups") else
  match repo_groups r !! DeleteGroupCommand_GroupID c with
  | None => throw (E CodeNotFound "group was not found")
  | Some g =>
    if TenantGroup_TenantID g != tenantID then throw (E CodeNotFound "group was not found") else
    let prefix := tenantID +:+ "/" +:+ TenantGroup_ID g +:+ "/" in
    _ ← modS (λ r, r <| repo_groups := delete (TenantGroup_ID g) (repo_groups r) |>);
    _ ← modS (λ r, r <| repo_groupMembers := filter (λ '(k, _),
          (zstrlen prefix <? zstrlen k) && HasPrefix k prefix = false) (repo_groupMembers r) |>);
    _ ← modS (λ r, r <| repo_acls := filter (λ '(_, a),
          (NodeACLEntry_TenantID a == tenantID) && (NodeACLEntry_SubjectType a == ACLSubjectGroup) &&
          (NodeACLEntry_SubjectID a == TenantGroup_ID g) = false) (repo_acls r) |>);
    appendAuditLocked ctx rnd
      (newAuditEvent tenantID actor "tenant.group.deleted" "group" (DeleteGroupCommand_GroupID c)
         (DeleteGroupCommand_Now c) [])
  end.

Definition groupMember (ctx : Context) (rnd : RandRead) (c : GroupMemberCommand) (add : bool)
    : GoM Repository unit :=
  r ← getS;
  let tenantID := GroupMemberCommand_TenantID c in
  let actor := GroupMemberCommand_ActorPrincipalID c in
  if negb (managingActor r tenantID actor (GroupMemberCommand_ActorRole c)) then
    throw (E CodeForbidden "only owners and admins may manage groups") else
  match repo_groups r !! GroupMemberCommand_GroupID c with
  | None => throw (E CodeNotFound "group was not found")
  | Some g =>
    if TenantGroup_TenantID g != tenantID then throw (E CodeNotFound "group was not found") else
    let k := groupMemberKey tenantID (GroupMemberCommand_GroupID c) (GroupMemberCommand_PrincipalID c) in
    let present := bool_decide (is_Some (repo_groupMembers r !! k)) in
    if add && is_nil (repo_members r !! memberKey tenantID (GroupMemberCommand_PrincipalID c)) then
      throw (E CodeNotFound "tenant member was not found") else
    let changed := if add then negb present else present in
    _ ← (if negb changed then ret tt else
         if add then modS (λ r, r <| repo_groupMembers := <[k := tt]> (repo_groupMembers r) |>)
         else modS (λ r, r <| repo_groupMembers := delete k (repo_groupMembers r) |>));
    if negb changed then ret tt else
    appendAuditLocked ctx rnd
      (newAuditEvent tenantID actor
         (if add then "tenant.group.member_added" else "tenant.group.member_removed")
         "group" (GroupMemberCommand_GroupID c) (GroupMemberCommand_Now c)
         [("principal_id", GroupMemberCommand_PrincipalID c)])
  end.

Definition AddGroupMember ctx rnd c := groupMember ctx rnd c true.
Definition RemoveGroupMember ctx rnd c := groupMember ctx rnd c false.

(** [key[len(prefix):]] for a key that has the prefix and is longer. *)
Definition strip_prefix (prefix key : string) : option string :=
  if (zstrlen key <=? zstrlen prefix) || negb (HasPrefix key prefix) then None
  else Some (String.substring (String.length prefix) (String.length key - String.length prefix) key).

Definition ListGroupMembers (tenantID groupID : string) : GoM Repository (list PrincipalRecord) :=
  r ← getS;
  let missing := throw (E CodeNotFound "group was not found") in
  match repo_groups r !! groupID with
  | None => missing
  | Some group =>
    if TenantGroup_TenantID group != tenantID then missing else
    let prefix := tenantID +:+ "/" +:+ groupID +:+ "/" in
    let items := omap (λ key,
        principalID ← strip_prefix prefix key; repo_members r !! memberKey tenantID principalID)
      (range_keys 0 (repo_groupMembers r)) in
    ret (sort_slice (λ a b, str_ltb (PrincipalRecord_PrincipalID a) (PrincipalRecord_PrincipalID b))
      items)
  end.

(** ** Access decisions *)

Definition capability_level (cap : NodeCapability) : Z :=
  if cap == NodeCapabilityRead then 1 else if cap == NodeCapabilityWrite then 2
  else if cap == NodeCapabilityDelete then 3 else if cap == NodeCapabilityManageACL then 3 else 0.
Definition acl_level (role : ACLRole) : Z :=
  if role == ACLReader then 1 else if role == ACLContributor then 2
  else if role == ACLManager then 3 else 0.

(** One entry of the inner loop: it concerns the principal, directly or through
    a group, and its level is high enough. *)
Definition acl_grants (r : Repository) (i : Identity) (needed : Z) (cur : string)
    (a : NodeACLEntry) : bool :=
  (NodeACLEntry_TenantID a == Identity_TenantID i) && (NodeACLEntry_NodeID a == cur) &&
  (((NodeACLEntry_SubjectType a == ACLSubjectPrincipal) &&
    (NodeACLEntry_SubjectID a == Identity_PrincipalID i)) ||
   (NodeACLEntry_SubjectType a == ACLSubjectGroup)) &&
  (if NodeACLEntry_SubjectType a == ACLSubjectGroup then
     bool_decide (is_Some (repo_groupMembers r !!
       groupMemberKey (Identity_TenantID i) (NodeACLEntry_SubjectID a) (Identity_PrincipalID i)))
   else true) &&
  (needed <=? acl_level (NodeACLEntry_Role a)).

(** The walk from the node towards the root; [None] when it has not ended after
    [fuel] nodes. *)
Fixpoint acl_walk (r : Repository) (i : Identity) (needed : Z) (fuel : nat) (cur : string)
    : option bool :=
  match fuel with
  | O => None
  | S fuel =>
    if cur == "" then Some false else
    if existsb (acl_grants r i needed cur) (range_values 0 (repo_acls r)) then Some true else
    match repo_nodes r !! cur with
    | None => Some false
    | Some node => acl_walk r i needed fuel (Node_ParentID node)
    end
  end.

Definition authorizeNodeLocked (r : Repository) (i : Identity) (n : string) (cap : NodeCapability)
    : Outcome unit :=
  let denied := Err (E CodeForbidden "node access denied") in
  if negb (ValidNodeCapability cap) then Err (E CodeInvalidRequest "node capability is invalid") else
  match repo_nodes r !! n with
  | None => Err (E CodeNotFound "node was not found")
  | Some node =>
    if Node_TenantID node != Identity_TenantID i then Err (E CodeNotFound "node was not found") else
    match repo_members r !! memberKey (Identity_TenantID i) (Identity_PrincipalID i) with
    | None => denied
    | Some m =>
      if PrincipalRecord_Status m != MemberStatusActive then denied else
      if (PrincipalRecord_Role m == RoleOwner) || (PrincipalRecord_Role m == RoleAdmin) then Ok tt else
      let needed := capability_level cap in
      if ((PrincipalRecord_Role m == RoleEditor) && (needed <=? 2)) ||
         ((PrincipalRecord_Role m == RoleViewer) && (needed <=? 1)) then Ok tt else
      match acl_walk r i needed (node_fuel r) n with
      | None => Diverged
      | Some true => Ok tt
      | Some false => denied
      end
    end
  end.

Definition AuthorizeNode (i : Identity) (n : string) (cap : NodeCapability) : GoM Repository unit :=
  r ← getS; lift (authorizeNodeLocked r i n cap).

Definition canManageACLLocked (r : Repository) (tenantID principalID : string) (role : AccessRole)
    (nodeID : string) : Outcome bool :=
  match repo_members r !! memberKey tenantID principalID with
  | None => Ok false
  | Some member =>
    if (PrincipalRecord_Status member != MemberStatusActive) || (PrincipalRecord_Role member != role)
    then Ok false else
    if (role == RoleOwner) || (role == RoleAdmin) then Ok true else
    match authorizeNodeLocked r (mkIdentity tenantID principalID) nodeID NodeCapabilityManageACL with
    | Ok _ => Ok true
    | Err _ => Ok false
    | Panicked p => Panicked p
    | Diverged => Diverged
    end
  end.

(** ** Access control lists *)

Definition ListNodeACL (t n : string) : GoM Repository (list NodeACLEntry) :=
  r ← getS;
  ret (filter (λ a, (NodeACLEntry_TenantID a == t) && (NodeACLEntry_NodeID a == n) = true)
         (range_values 0 (repo_acls r))).

Definition acl_audit (c : SetNodeACLCommand) (id : string) : AuditEvent :=
  newAuditEvent (SetNodeACLCommand_TenantID c) (SetNodeACLCommand_ActorPrincipalID c) "node.acl.set"
    "node_acl" id (SetNodeACLCommand_Now c)
    [("node_id", SetNodeACLCommand_NodeID c); ("role", SetNodeACLCommand_Role c);
     ("subject_type", SetNodeACLCommand_SubjectType c); ("subject_id", SetNodeACLCommand_SubjectID c)].

(** The subject of an entry must be a member or a group of the tenant. *)
Definition check_acl_subject (r : Repository) (c : SetNodeACLCommand) : Outcome unit :=
  if SetNodeACLCommand_SubjectType c == ACLSubjectPrincipal then
    if is_nil (repo_members r !!
        memberKey (SetNodeACLCommand_TenantID c) (SetNodeACLCommand_SubjectID c))
    then Err (E CodeNotFound "member was not found") else Ok tt
  else
    if is_some_and (repo_groups r !! SetNodeACLCommand_SubjectID c)
         (λ g, TenantGroup_TenantID g == SetNodeACLCommand_TenantID c)
    then Ok tt else Err (E CodeNotFound "group was not found").

Definition SetNodeACL (ctx : Context) (rnd : RandRead) (c : SetNodeACLCommand)
    : GoM Repository NodeACLEntry :=
  r ← getS;
  let tenantID := SetNodeACLCommand_TenantID c in
  allowed ← lift (canManageACLLocked r tenantID (SetNodeACLCommand_ActorPrincipalID c)
                    (SetNodeACLCommand_ActorRole c) (SetNodeACLCommand_NodeID c));
  if negb allowed then throw (E CodeForbidden "only owners and admins may manage ACLs") else
  if negb (ValidACLSubjectType (SetNodeACLCommand_SubjectType c)) ||
     negb (ValidACLRole (SetNodeACLCommand_Role c)) then
    throw (E CodeInvalidRequest "ACL is invalid") else
  if is_nil (activeNode r tenantID (SetNodeACLCommand_NodeID c)) then
    throw (E CodeNotFound "node was not found") else
  _ ← lift (check_acl_subject r c);
  let existing := List.find (λ '(_, a),
      (NodeACLEntry_TenantID a == tenantID) && (NodeACLEntry_NodeID a == SetNodeACLCommand_NodeID c) &&
      (NodeACLEntry_SubjectType a == SetNodeACLCommand_SubjectType c) &&
      (NodeACLEntry_SubjectID a == SetNodeACLCommand_SubjectID c)) (map_range 0 (repo_acls r)) in
  match existing with
  | Some (id, a) =>
    let a := a <| NodeACLEntry_Role := SetNodeACLCommand_Role c |>
               <| NodeACLEntry_UpdatedAt := SetNodeACLCommand_Now c |> in
    _ ← putACL id a;
    _ ← appendAuditLocked ctx rnd (acl_audit c (NodeACLEntry_ID a));
    ret a
  | None =>
    let a := mkNodeACLEntry (SetNodeACLCommand_ID c) tenantID (SetNodeACLCommand_NodeID c)
      (SetNodeACLCommand_SubjectType c) (SetNodeACLCommand_SubjectID c) (SetNodeACLCommand_Role c)
      (SetNodeACLCommand_ActorPrincipalID c) (SetNodeACLCommand_Now c) (SetNodeACLCommand_Now c) in
    _ ← putACL (NodeACLEntry_ID a) a;
    audited ← try_ (appendAuditLocked ctx rnd (acl_audit c (NodeACLEntry_ID a)));
    match audited with
    | inl err =>
      _ ← modS (λ r, r <| repo_acls := delete (NodeACLEntry_ID a) (repo_acls r) |>);
      throw err
    | inr _ => ret a
    end
  end.

Definition DeleteNodeACL (ctx : Context) (rnd : RandRead) (c : DeleteNodeACLCommand)
    : GoM Repository unit :=
  r ← getS;
  let tenantID := DeleteNodeACLCommand_TenantID c in
  allowed ← lift (canManageACLLocked r tenantID (DeleteNodeACLCommand_ActorPrincipalID c)
                    (DeleteNodeACLCommand_ActorRole c) (DeleteNodeACLCommand_NodeID c));
  if negb allowed then throw (E CodeForbidden "only owners and admins may manage ACLs") else
  let missing := throw (E CodeNotFound "ACL entry was not found") in
  match repo_acls r !! DeleteNodeACLCommand_EntryID c with
  | None => missing
  | Some a =>
    if (NodeACLEntry_TenantID a != tenantID) || (NodeACLEntry_NodeID a != DeleteNodeACLCommand_NodeID c)
    then missing else
    _ ← modS (λ r, r <| repo_acls := delete (DeleteNodeACLCommand_EntryID c) (repo_acls r) |>);
    appendAuditLocked ctx rnd
      (newAuditEvent tenantID (DeleteNodeACLCommand_ActorPrincipalID c) "node.acl.deleted" "node_acl"
         (DeleteNodeACLCommand_EntryID c) (DeleteNodeACLCommand_Now c)
         [("node_id", DeleteNodeACLCommand_NodeID c)])
  end.

End with_runtime.
