(* ===== verification/MemoryStorage.v ===== *)
(** * The in-memory object store (src/internal/memory/storage.go) *)
From stdpp Require Import pretty.
From S2P Require Import Prelude Errors GoLib Types Validation.

Record multipartUpload := mkMultipart {
  mp_key : string;
  mp_mimeType : string;
  mp_checksum : Checksum;
  mp_parts : gmap Z string
}.
#[export] Instance eta_multipartUpload : Eta multipartUpload := λ u,
  mkMultipart (mp_key u) (mp_mimeType u) (mp_checksum u) (mp_parts u).

Record storedObject := mkStoredObject { so_data : string; so_info : ObjectInfo }.

Record Storage := mkStorage {
  st_bucket : string;
  st_uploads : gmap string multipartUpload;
  st_objects : gmap string storedObject;
  st_readyErr : option GoError;
  st_baseURL : string
}.
#[export] Instance eta_Storage : Eta Storage := λ s,
  mkStorage (st_bucket s) (st_uploads s) (st_objects s) (st_readyErr s) (st_baseURL s).

Definition NewStorage (bucket : string) : Storage :=
  let bucket := if bucket == "" then "asteria-memory" else bucket in
  mkStorage bucket ∅ ∅ None ("memory://" +:+ bucket).

Definition Storage_SetReadyError (err : option GoError) : GoM Storage unit :=
  modS (λ s, s <| st_readyErr := err |>).
Definition Storage_Ready : GoM Storage unit := s ← getS; check_err (st_readyErr s).
Definition Bucket (s : Storage) : string := st_bucket s.

Section with_platform.
Context `{!Platform}.

(** The quoted half digest the store uses as an entity tag, and the checksum of
    the bytes it holds. *)
Definition etag_of (data : string) : string :=
  dquote +:+ HexEncodeToString (String.substring 0 16 (sha256 data)) +:+ dquote.
Definition checksum_of (data : string) : Checksum :=
  mkChecksum "sha256" (StdEncodeToString (sha256 data)).

Definition CreateMultipart (rnd : RandRead) (key mimeType : string) (checksum : Checksum)
    : GoM Storage string :=
  id ← lift (NewID rnd);
  _ ← modS (λ s, s <| st_uploads := <[id := mkMultipart key mimeType checksum ∅]> (st_uploads s) |>);
  ret id.

(** [now] is the reading of the wall clock in the body. *)
Definition SignUploadPart (now : Time) (key uploadID : string) (partNumber : Z)
    (checksum : Checksum) (ttl : Duration) : GoM Storage (SignedPart * bool) :=
  s ← getS;
  let missing := throw (E CodeNotFound "multipart upload was not found") in
  match st_uploads s !! uploadID with
  | None => missing
  | Some upload =>
    if mp_key upload != key then missing else
    let query := QueryEncode [("part_number", pretty partNumber); ("upload_id", uploadID)] in
    let bound := Checksum_Algorithm checksum == "sha256" in
    let headers := if bound then {[ "x-amz-checksum-sha256" := Checksum_Value checksum ]} else ∅ in
    ret (mkSignedPart partNumber "PUT" (st_baseURL s +:+ "/" +:+ PathEscape key +:+ "?" +:+ query)
           headers (AddTime now ttl), bound)
  end.

Definition PutPart (uploadID : string) (partNumber : Z) (data : string) : GoM Storage CompletedPart :=
  s ← getS;
  match st_uploads s !! uploadID with
  | None => throw (E CodeNotFound "multipart upload was not found")
  | Some upload =>
    _ ← putS (s <| st_uploads :=
          <[uploadID := upload <| mp_parts := <[partNumber := data]> (mp_parts upload) |>]>
            (st_uploads s) |>);
    ret (mkCompletedPart partNumber (etag_of data) (checksum_of data) (zstrlen data))
  end.

(** The concatenation of the parts in the given order; every part must be stored
    with the entity tag the caller names. *)
Fixpoint assemble (stored : gmap Z string) (ordered : list CompletedPart) (data : string)
    : Outcome string :=
  match ordered with
  | [] => Ok data
  | part :: ordered =>
    match stored !! CompletedPart_PartNumber part with
    | None => Err (E CodeInvalidRequest "multipart part is missing")
    | Some bytes =>
      if CompletedPart_ETag part != etag_of bytes then
        Err (E CodeInvalidRequest "multipart part ETag does not match")
      else assemble stored ordered (data +:+ bytes)
    end
  end.

Definition part_less (a b : CompletedPart) : bool :=
  CompletedPart_PartNumber a <? CompletedPart_PartNumber b.

Definition CompleteMultipart (key uploadID : string) (parts : list CompletedPart)
    : GoM Storage ObjectInfo :=
  s ← getS;
  let gone :=
    match st_objects s !! key with
    | Some object => ret (so_info object)
    | None => throw (E CodeNotFound "multipart upload was not found")
    end in
  match st_uploads s !! uploadID with
  | None => gone
  | Some upload =>
    if mp_key upload != key then gone else
    data ← lift (assemble (mp_parts upload) (sort_slice part_less parts) "");
    let checksum := checksum_of data in
    if (Checksum_Algorithm (mp_checksum upload) == "sha256") &&
       (Checksum_Value (mp_checksum upload) != Checksum_Value checksum) then
      throw (E CodeInvalidRequest "completed object checksum does not match") else
    let info := mkObjectInfo (st_bucket s) key (zstrlen data) (etag_of data) checksum
      ChecksumVerified in
    _ ← putS (s <| st_objects := <[key := mkStoredObject data info]> (st_objects s) |>
                <| st_uploads := delete uploadID (st_uploads s) |>);
    ret info
  end.

(** The parts of a Go map, visited in any order and then sorted by their
    distinct numbers. *)
Definition ListParts (key uploadID : string) : GoM Storage (list StoredPart) :=
  s ← getS;
  let missing := throw (E CodeNotFound "multipart upload was not found") in
  match st_uploads s !! uploadID with
  | None => missing
  | Some upload =>
    if mp_key upload != key then missing else
    ret (sort_slice (λ a b, StoredPart_PartNumber a <? StoredPart_PartNumber b)
      ((λ '(partNumber, data),
          mkStoredPart partNumber (etag_of data) (zstrlen data) (checksum_of data) true false) <$>
        map_to_list (mp_parts upload)))
  end.

Definition AbortMultipart (key uploadID : string) : GoM Storage unit :=
  s ← getS;
  match st_uploads s !! uploadID with
  | None => ret tt
  | Some upload =>
    if mp_key upload != key then throw (E CodeNotFound "multipart upload was not found")
    else putS (s <| st_uploads := delete uploadID (st_uploads s) |>)
  end.

Definition StatObject (key : string) : GoM Storage ObjectInfo :=
  s ← getS;
  match st_objects s !! key with
  | None => throw (E CodeNotFound "object was not found")
  | Some object => ret (so_info object)
  end.

Definition SignDownload (now : Time) (key filename : string) (ttl : Duration)
    : GoM Storage SignedDownload :=
  s ← getS;
  match st_objects s !! key with
  | None => throw (E CodeNotFound "object was not found")
  | Some _ =>
    let expiresAt := AddTime now ttl in
    let query := QueryEncode [("expires", FormatRFC3339 expiresAt); ("filename", filename)] in
    ret (mkSignedDownload "GET" (st_baseURL s +:+ "/" +:+ PathEscape key +:+ "?" +:+ query) expiresAt)
  end.

Definition DeleteObject (key : string) : GoM Storage unit :=
  modS (λ s, s <| st_objects := delete key (st_objects s) |>).

Definition Object (s : Storage) (key : string) : option (string * ObjectInfo) :=
  (λ o, (so_data o, so_info o)) <$> st_objects s !! key.

End with_platform.
