(* ===== verification/Ports.v ===== *)
(** * The ports of the control plane (src/internal/drive/ports.go)

    [RepositoryPort R] and [StorageProvider S] are the two Go interfaces, over a
    state [R] or [S] the implementation keeps. The service and the maintenance
    loop are written against them; the in-memory repository and object store are
    instances, and an instance for another backend, or for one that other clients
    use at the same time, is another state and other operations. A method that
    draws an identifier takes the random bytes as an argument, one that reads the
    wall clock takes the time. *)
From S2P Require Import Prelude Errors GoLib Types Validation MemoryState MemoryIdempotency.
From S2P Require Import MemoryNamespace MemoryUploads MemoryGovernance MemoryGroups.
From S2P Require MemoryStorage.

Class RepositoryPort (R : Type) := {
  R_Ready : GoM R unit;
  R_EnsureTenant : TenantSeed → GoM R Tenant;
  R_GetTenant : string → GoM R Tenant;
  R_EnsureOIDCMember : OIDCMemberSeed → GoM R PrincipalRecord;
  R_ResolveOIDCPrincipal : string → string → string → GoM R PrincipalRecord;
  R_SetOIDCMemberStatus : string → string → MemberStatus → GoM R unit;
  R_ListMembers : string → CursorPosition → Z → GoM R (list PrincipalRecord * bool);
  R_UpdateMember : Context → RandRead → UpdateMemberCommand → GoM R PrincipalRecord;
  R_DeleteMember : Context → RandRead → DeleteMemberCommand → GoM R unit;
  R_CreateInvitation : Context → RandRead → CreateInvitationCommand → GoM R TenantInvitation;
  R_ListInvitations : Time → string → InvitationStatus → Z → GoM R (list TenantInvitation);
  R_AcceptInvitation : Context → RandRead → AcceptInvitationCommand → GoM R AcceptResult;
  R_RevokeInvitation : Context → RandRead → RevokeInvitationCommand → GoM R TenantInvitation;
  R_CreateGroup : Context → RandRead → CreateGroupCommand → GoM R TenantGroup;
  R_ListGroups : string → GoM R (list TenantGroup);
  R_UpdateGroup : Context → RandRead → UpdateGroupCommand → GoM R TenantGroup;
  R_DeleteGroup : Context → RandRead → DeleteGroupCommand → GoM R unit;
  R_AddGroupMember : Context → RandRead → GroupMemberCommand → GoM R unit;
  R_RemoveGroupMember : Context → RandRead → GroupMemberCommand → GoM R unit;
  R_ListGroupMembers : string → string → GoM R (list PrincipalRecord);
  R_ListNodeACL : string → string → GoM R (list NodeACLEntry);
  R_SetNodeACL : Context → RandRead → SetNodeACLCommand → GoM R NodeACLEntry;
  R_DeleteNodeACL : Context → RandRead → DeleteNodeACLCommand → GoM R unit;
  R_AuthorizeNode : Identity → string → NodeCapability → GoM R unit;
  R_AppendAudit : Context → RandRead → AuditEvent → GoM R unit;
  R_ListAudit : AuditFilter → GoM R (list AuditEvent);
  R_ClaimIdempotency : IdempotencyRequest → GoM R IdempotencyRecord;
  R_ReleaseIdempotency : IdempotencyRequest → GoM R unit;
  R_CreateDirectory : Context → RandRead → CreateDirectoryCommand → GoM R Node;
  R_GetNode : Identity → string → bool → GoM R Node;
  R_ListChildren : Identity → string → CursorPosition → Z → GoM R (list Node * bool);
  R_UpdateNode : Context → RandRead → UpdateNodeCommand → GoM R Node;
  R_CreateUpload : CreateUploadCommand → GoM R UploadSession;
  R_Upload : Identity → string → GoM R UploadSession;
  R_MarkUploading : Identity → string → Time → GoM R UploadSession;
  R_BeginComplete : Identity → string → string → list CompletedPart → Time → GoM R UploadSession;
  R_FailUploadCompletion : Identity → string → string → string → Time → GoM R UploadSession;
  R_MarkObjectCompleted : Identity → string → ObjectInfo → Time → GoM R UploadSession;
  R_CommitUpload : Context → RandRead → CommitUploadCommand → GoM R (CompleteResult * bool);
  R_AbortUpload : Identity → string → UploadStatus → Time → GoM R UploadSession;
  R_UploadParts : Identity → string → GoM R (list CompletedPart);
  R_RecordPartSignature : Identity → string → PartSignature → Time → GoM R unit;
  R_PartSignatures : Identity → string → GoM R (list PartSignature);
  R_MarkUploadCleanupComplete : Identity → string → Time → GoM R unit;
  R_ExpiredUploads : Time → Z → GoM R (list UploadSession);
  R_ClaimUploadsForMaintenance : string → Time → Time → Time → Z → GoM R (list UploadMaintenanceClaim);
  R_FinishUploadMaintenance : string → string → UploadStatus → bool → Time → string → Time → GoM R unit;
  R_ClaimRecycleForMaintenance : string → Time → Time → Time → Z → GoM R (list RecycleMaintenanceClaim);
  R_ReleaseRecycleMaintenance : string → string → Time → string → Time → GoM R unit;
  R_DeleteExpiredIdempotency : Time → Z → GoM R Z;
  R_DownloadBlob : Identity → string → GoM R (Node * Blob);
  R_Recycle : Context → RandRead → Identity → string → Z → Time → GoM R unit;
  R_ListRecycle : Identity → CursorPosition → Z → GoM R (list RecycleEntry * bool);
  R_Restore : Context → RandRead → Identity → string → Z → Time → GoM R Node;
  R_PreparePurge : Identity → string → Z → Time → GoM R PurgePlan;
  R_FinishPurge : Context → RandRead → Identity → PurgePlan → Time → GoM R unit
}.

Class StorageProvider (S : Type) := {
  S_Bucket : S → string;
  S_Ready : GoM S unit;
  S_CreateMultipart : RandRead → string → string → Checksum → GoM S string;
  S_SignUploadPart : Time → string → string → Z → Checksum → Duration → GoM S (SignedPart * bool);
  S_CompleteMultipart : string → string → list CompletedPart → GoM S ObjectInfo;
  S_AbortMultipart : string → string → GoM S unit;
  S_ListParts : string → string → GoM S (list StoredPart);
  S_StatObject : string → GoM S ObjectInfo;
  S_SignDownload : Time → string → string → Duration → GoM S SignedDownload;
  S_DeleteObject : string → GoM S unit
}.

#[export] Instance memory_repository `{!Platform, !MapRange} : RepositoryPort Repository := {|
  R_Ready := Ready;
  R_EnsureTenant := EnsureTenant;
  R_GetTenant := GetTenant;
  R_EnsureOIDCMember := EnsureOIDCMember;
  R_ResolveOIDCPrincipal := ResolveOIDCPrincipal;
  R_SetOIDCMemberStatus := SetOIDCMemberStatus;
  R_ListMembers := ListMembers;
  R_UpdateMember := UpdateMember;
  R_DeleteMember := DeleteMember;
  R_CreateInvitation := CreateInvitation;
  R_ListInvitations := ListInvitations;
  R_AcceptInvitation := AcceptInvitation;
  R_RevokeInvitation := RevokeInvitation;
  R_CreateGroup := CreateGroup;
  R_ListGroups := ListGroups;
  R_UpdateGroup := UpdateGroup;
  R_DeleteGroup := DeleteGroup;
  R_AddGroupMember := AddGroupMember;
  R_RemoveGroupMember := RemoveGroupMember;
  R_ListGroupMembers := ListGroupMembers;
  R_ListNodeACL := ListNodeACL;
  R_SetNodeACL := SetNodeACL;
  R_DeleteNodeACL := DeleteNodeACL;
  R_AuthorizeNode := AuthorizeNode;
  R_AppendAudit := AppendAudit;
  R_ListAudit := ListAudit;
  R_ClaimIdempotency := ClaimIdempotency;
  R_ReleaseIdempotency := ReleaseIdempotency;
  R_CreateDirectory := CreateDirectory;
  R_GetNode := GetNode;
  R_ListChildren := ListChildren;
  R_UpdateNode := UpdateNode;
  R_CreateUpload := CreateUpload;
  R_Upload := Upload;
  R_MarkUploading := MarkUploading;
  R_BeginComplete := BeginComplete;
  R_FailUploadCompletion := FailUploadCompletion;
  R_MarkObjectCompleted := MarkObjectCompleted;
  R_CommitUpload := CommitUpload;
  R_AbortUpload := AbortUpload;
  R_UploadParts := UploadParts;
  R_RecordPartSignature := RecordPartSignature;
  R_PartSignatures := PartSignatures;
  R_MarkUploadCleanupComplete := MarkUploadCleanupComplete;
  R_ExpiredUploads := ExpiredUploads;
  R_ClaimUploadsForMaintenance := ClaimUploadsForMaintenance;
  R_FinishUploadMaintenance := FinishUploadMaintenance;
  R_ClaimRecycleForMaintenance := ClaimRecycleForMaintenance;
  R_ReleaseRecycleMaintenance := ReleaseRecycleMaintenance;
  R_DeleteExpiredIdempotency := DeleteExpiredIdempotency;
  R_DownloadBlob := DownloadBlob;
  R_Recycle := Recycle;
  R_ListRecycle := ListRecycle;
  R_Restore := Restore;
  R_PreparePurge := PreparePurge;
  R_FinishPurge := FinishPurge
|}.

#[export] Instance memory_storage `{!Platform} : StorageProvider MemoryStorage.Storage := {|
  S_Bucket := MemoryStorage.Bucket;
  S_Ready := MemoryStorage.Storage_Ready;
  S_CreateMultipart := MemoryStorage.CreateMultipart;
  S_SignUploadPart := MemoryStorage.SignUploadPart;
  S_CompleteMultipart := MemoryStorage.CompleteMultipart;
  S_AbortMultipart := MemoryStorage.AbortMultipart;
  S_ListParts := MemoryStorage.ListParts;
  S_StatObject := MemoryStorage.StatObject;
  S_SignDownload := MemoryStorage.SignDownload;
  S_DeleteObject := MemoryStorage.DeleteObject
|}.
