(* ===== verification/Service.v ===== *)
(** * The service: namespace, uploads, downloads and the recycle bin
    (src/internal/drive/service.go)

    The methods run in a [World]: the state of the repository and of the object
    store behind the two ports, and the number of readings taken so far of the
    clock and of the random source. Between two calls on a port nothing else
    happens in the world; interference by other clients is a matter of the
    instance behind the port. Deadlines and cancellation of contexts are not
    modelled. *)
From S2P Require Import Prelude Errors GoLib Types Validation Ports.

(** What the runtime returns for the [n]-th reading of the service clock, of the
    wall clock, of [rand.Read] into a slice of the given length, and of
    [rand.Int64N] of a positive bound. *)
Class Runtime := {
  clock : nat → Time;
  wall_clock : nat → Time;
  entropy : nat → nat → RandRead;
  jitter : nat → Z → Z;
  jitter_range n bound : 0 < bound → 0 ≤ jitter n bound < bound;
  entropy_bytes n k b : entropy n k = Some b → length b = k ∧ Forall is_byte b
}.

Record World (R S : Type) := mkWorld {
  w_repo : R;
  w_storage : S;
  w_readings : nat;
  w_draws : nat
}.
Arguments mkWorld {R S} _ _ _ _.
Arguments w_repo {R S} _.
Arguments w_storage {R S} _.
Arguments w_readings {R S} _.
Arguments w_draws {R S} _.

Section world.
Context {R S : Type} `{!Runtime}.

(** A call on a port. *)
Definition on_repo {A} (m : GoM R A) : GoM (World R S) A := λ w,
  let '(o, r) := m (w_repo w) in (o, mkWorld r (w_storage w) (w_readings w) (w_draws w)).
Definition on_storage {A} (m : GoM S A) : GoM (World R S) A := λ w,
  let '(o, s) := m (w_storage w) in (o, mkWorld (w_repo w) s (w_readings w) (w_draws w)).

(** [s.clock.Now()], [time.Now()] and [rand.Read]. *)
Definition now : GoM (World R S) Time := λ w,
  (Ok (clock (w_readings w)), mkWorld (w_repo w) (w_storage w) (Datatypes.S (w_readings w)) (w_draws w)).
Definition time_now : GoM (World R S) Time := λ w,
  (Ok (wall_clock (w_readings w)), mkWorld (w_repo w) (w_storage w) (Datatypes.S (w_readings w)) (w_draws w)).
Definition rand_read (n : nat) : GoM (World R S) RandRead := λ w,
  (Ok (entropy (w_draws w) n), mkWorld (w_repo w) (w_storage w) (w_readings w) (Datatypes.S (w_draws w))).
Definition rand_Int64N (bound : Z) : GoM (World R S) Z := λ w,
  (Ok (jitter (w_draws w) bound), mkWorld (w_repo w) (w_storage w) (w_readings w) (Datatypes.S (w_draws w))).

(** A call on a port whose body may draw the 16 random bytes of an identifier. *)
Definition on_repo_rand {A} (m : RandRead → GoM R A) : GoM (World R S) A :=
  rnd ← rand_read 16; on_repo (m rnd).
Definition on_storage_rand {A} (m : RandRead → GoM S A) : GoM (World R S) A :=
  rnd ← rand_read 16; on_storage (m rnd).

(** [id, err := NewID(); if err != nil { return E(CodeInternal, message, err) }] *)
Definition freshID (message : string) : GoM (World R S) string :=
  rnd ← rand_read 16;
  match NewID rnd with
  | Ok id => ret id
  | Err err => throw (EC CodeInternal message (Some err))
  | Panicked p => panic p
  | Diverged => lift Diverged
  end.

(** The error of a call whose result is dropped, and a call whose error is dropped too. *)
Definition error_result {A} (m : GoM (World R S) A) : GoM (World R S) (option GoError) :=
  result ← try_ m;
  ret (match result with inl err => Some err | inr _ => None end).
Definition ignore {A} (m : GoM (World R S) A) : GoM (World R S) unit := _ ← try_ m; ret tt.

End world.

(** ** Construction *)

Record ServiceOptions := mkServiceOptions {
  opt_hasRepository : bool;
  opt_hasStorage : bool;
  opt_Cursor : option CursorCodec;
  opt_MaxFileSize : Z;
  opt_PartSize : Z;
  opt_UploadTTL : Duration;
  opt_UploadSignTTL : Duration;
  opt_DownloadSignTTL : Duration;
  opt_IdempotencyClaimTTL : Duration;
  opt_IdempotencyRetention : Duration
}.

Record Service := mkService {
  s_cursor : CursorCodec;
  s_maxFileSize : Z;
  s_partSize : Z;
  s_uploadTTL : Duration;
  s_uploadSignTTL : Duration;
  s_downloadSignTTL : Duration;
  s_idempotencyClaimTTL : Duration;
  s_idempotencyRetention : Duration
}.

Definition default_positive (value fallback : Z) : Z := if value <=? 0 then fallback else value.

Definition NewService (options : ServiceOptions) : Outcome Service :=
  let missing := Err (E CodeInvalidRequest "repository, storage and cursor are required") in
  if negb (opt_hasRepository options) || negb (opt_hasStorage options) then missing else
  match opt_Cursor options with
  | None => missing
  | Some cursor =>
    let claimTTL := default_positive (opt_IdempotencyClaimTTL options) Minute in
    let retention := default_positive (opt_IdempotencyRetention options) (24 * Hour) in
    if retention <=? claimTTL then
      Err (E CodeInvalidRequest "idempotency retention must exceed the claim lease") else
    Ok (mkService cursor
      (default_positive (opt_MaxFileSize options) (50 * 1024 * 1024 * 1024))
      (default_positive (opt_PartSize options) (8 * 1024 * 1024))
      (default_positive (opt_UploadTTL options) (24 * Hour))
      (default_positive (opt_UploadSignTTL options) (15 * Minute))
      (default_positive (opt_DownloadSignTTL options) (15 * Minute))
      claimTTL retention)
  end.

(** ** Pure helpers *)

Definition validateID (value : string) : option GoError :=
  if negb (ValidID value) then Some (E CodeInvalidRequest "identifier must be a valid UUID") else None.

Definition mapStorageError (err : GoError) : GoError :=
  if CodeOf (Some err) != CodeInternal then err
  else Retryable CodeDependencyUnavailable "object storage operation failed" (Some err).

Definition knownFailedCreation (err : GoError) : bool :=
  bool_decide (CodeOf (Some err) ∈ [CodeInvalidRequest; CodeForbidden; CodeNotFound; CodeNameConflict;
    CodeIdempotencyConflict; CodeInvalidState; CodeRestoreConflict; CodeRevisionMismatch;
    CodeRequestTooLarge; CodeUnsupportedMediaType]).

Definition failedUploadHasObject (failureCode : string) : bool :=
  (failureCode == UploadFailureSizeMismatch) || (failureCode == UploadFailureChecksumMismatch) ||
  (failureCode == UploadFailureParentUnavailable) || (failureCode == UploadFailureNameConflict).

(** [int64(partNumber-1) * session.PartSize] and the subtraction wrap around. *)
Definition signedPartSize (session : UploadSession) (partNumber : Z) : Z :=
  let start := wrap64 (wrap64 (partNumber - 1) * UploadSession_PartSize session) in
  let remaining := wrap64 (UploadSession_ExpectedSize session - start) in
  if UploadSession_PartSize session <? remaining then UploadSession_PartSize session
  else if remaining <? 0 then 0
  else remaining.

Section with_platform.
Context `{!Platform}.

Fixpoint validateParts_loop (previous : Z) (parts : list CompletedPart) : option GoError :=
  match parts with
  | [] => None
  | part :: parts =>
    let n := CompletedPart_PartNumber part in
    if (n <=? previous) || (10000 <? n) || (CompletedPart_ETag part == "") ||
       (1024 <? zstrlen (CompletedPart_ETag part)) || negb (ValidChecksum (CompletedPart_Checksum part))
    then Some (E CodeInvalidRequest "parts must be strictly ordered and valid")
    else validateParts_loop n parts
  end.
Definition validateParts (parts : list CompletedPart) : option GoError :=
  if (zlen parts =? 0) || (10000 <? zlen parts) then
    Some (E CodeInvalidRequest "parts must contain between 1 and 10000 items")
  else validateParts_loop 0 parts.

Definition json_checksum (c : Checksum) : string :=
  json_object [json_field "algorithm" (json_string (Checksum_Algorithm c));
               json_field "value" (json_string (Checksum_Value c))].
(** A zero [size] is omitted. *)
Definition json_part (p : CompletedPart) : string :=
  json_object ([json_field "part_number" (json_int (CompletedPart_PartNumber p));
                json_field "etag" (json_string (CompletedPart_ETag p));
                json_field "checksum" (json_checksum (CompletedPart_Checksum p))] ++
    (if CompletedPart_Size p =? 0 then [] else [json_field "size" (json_int (CompletedPart_Size p))])).

Definition partsDigest (parts : list CompletedPart) : string :=
  let copyParts := sort_slice (λ a b, CompletedPart_PartNumber a <? CompletedPart_PartNumber b) parts in
  sha256Hex (json_array (json_part <$> copyParts)).

Definition canonicalRequestDigest (encoded : string) : string := sha256Hex encoded.

Definition normalizeObjectChecksum (object : ObjectInfo) (declared : Checksum) : Outcome ObjectInfo :=
  let status := ObjectInfo_ChecksumStatus object in
  let checksum := ObjectInfo_Checksum object in
  let reported (message : string) :=
    if (Checksum_Algorithm checksum == "") || negb (ValidChecksum checksum) then
      Err (Retryable CodeDependencyUnavailable message None)
    else if (Checksum_Algorithm declared != "") && (checksum != declared) then
      Err (E CodeInvalidRequest "completed object checksum does not match the declared checksum")
    else Ok object in
  if status == ChecksumVerified then
    reported "object storage returned an invalid verified checksum"
  else if status == ChecksumDeclared then
    reported "object storage returned an invalid declared checksum"
  else if (status == ChecksumUnavailable) || (status == "") then
    if Checksum_Algorithm declared != "" then
      Ok (object <| ObjectInfo_Checksum := declared |> <| ObjectInfo_ChecksumStatus := ChecksumDeclared |>)
    else
      Ok (object <| ObjectInfo_Checksum := go_zero |> <| ObjectInfo_ChecksumStatus := ChecksumUnavailable |>)
  else Err (Retryable CodeDependencyUnavailable "object storage returned an unknown checksum status" None).

(** ** Which stored parts a resumed client may skip *)

Definition listable_part (part : StoredPart) : bool :=
  negb ((StoredPart_PartNumber part <? 1) || (MaxUploadParts <? StoredPart_PartNumber part) ||
        (StoredPart_ETag part == "")).

(** [byPart[part.PartNumber] = append(byPart[part.PartNumber], part)] *)
Definition group_parts (stored : list StoredPart) : gmap Z (list StoredPart) :=
  foldl (λ byPart part,
    if listable_part part then
      <[StoredPart_PartNumber part := default [] (byPart !! StoredPart_PartNumber part) ++ [part]]> byPart
    else byPart) ∅ stored.

Definition reusable (session : UploadSession) (partNumber : Z) (candidates : list StoredPart)
    (part : StoredPart) : bool :=
  (zlen candidates =? 1) && (StoredPart_Size part =? signedPartSize session partNumber) &&
  StoredPart_ChecksumAttested part && (Checksum_Algorithm (StoredPart_StorageChecksum part) == "sha256") &&
  ValidChecksum (StoredPart_StorageChecksum part).

(** The groups of a Go map, visited in any order and then sorted by their
    distinct numbers; a group is never empty. *)
Definition reusableStoredParts (stored : list StoredPart) (session : UploadSession) : list StoredPart :=
  sort_slice (λ a b, StoredPart_PartNumber a <? StoredPart_PartNumber b)
    (omap (λ '(partNumber, candidates),
        part ← head candidates;
        Some (part <| StoredPart_Reusable := reusable session partNumber candidates part |>))
      (map_to_list (group_parts stored))).

End with_platform.
