(* ===== verification/ServiceNamespace.v ===== *)
(** * Service methods on tenants, members, invitations, the namespace and the
    recycle bin (src/internal/drive/service.go) *)
From S2P Require Import Prelude Errors GoLib Types Validation Ports Service.

Record MemberActor := mkMemberActor { MemberActor_Identity : Identity; MemberActor_Role : AccessRole }.

Record InvitationOutput := mkInvitationOutput {
  InvitationOutput_Invitation : TenantInvitation;
  InvitationOutput_Token : string
}.

Record CreateDirectoryOutput := mkCreateDirectoryOutput {
  CreateDirectoryOutput_Node : Node;
  CreateDirectoryOutput_Replayed : bool
}.

Definition MemberActor_TenantID (a : MemberActor) : string := Identity_TenantID (MemberActor_Identity a).
Definition MemberActor_PrincipalID (a : MemberActor) : string :=
  Identity_PrincipalID (MemberActor_Identity a).

Definition validateMemberActor (actor : MemberActor) : option GoError :=
  match validateID (MemberActor_TenantID actor) with
  | Some err => Some err
  | None =>
    match validateID (MemberActor_PrincipalID actor) with
    | Some err => Some err
    | None =>
      if negb (ValidAccessRole (MemberActor_Role actor)) then
        Some (E CodeInvalidRequest "actor role is invalid") else None
    end
  end.

Definition managerRole (actor : MemberActor) : bool :=
  (MemberActor_Role actor == RoleOwner) || (MemberActor_Role actor == RoleAdmin).

Definition validInvitationIdentity (issuer subject : string) : bool :=
  (issuer != "") && (subject != "") && (TrimSpace issuer != "") && (TrimSpace subject != "") &&
  (zstrlen issuer <=? 512) && (zstrlen subject <=? 512).

(** [if limit == 0 { limit = 50 }] and the bounds check that follows it. *)
Definition page_limit {S} (limit : Z) : GoM S Z :=
  let limit := if limit =? 0 then 50 else limit in
  if (limit <? 1) || (200 <? limit) then
    throw (E CodeInvalidRequest "limit must be between 1 and 200")
  else ret limit.

Section with_service.
Context {R T : Type} `{!Platform, !CursorJSON, !Runtime, !RepositoryPort R, !StorageProvider T}.
Context (s : Service).
Abbreviation M := (GoM (World R T)) (only parsing).

(** The page of the items a repository returned; [position] is the cursor of an item. *)
Definition next_page {A} (tenantID scope : string) (position : A → CursorPosition)
    (items : list A) (more : bool) : Page A :=
  mkPage items (match last items with
                | Some item => if more then Encode (s_cursor s) tenantID scope (position item) else ""
                | None => ""
                end).

(** ** Health, tenants *)

Definition Ready : M unit :=
  repository ← try_ (on_repo R_Ready);
  match repository with
  | inl err => throw (Retryable CodeDependencyUnavailable "metadata repository is unavailable" (Some err))
  | inr _ =>
    storage ← try_ (on_storage S_Ready);
    match storage with
    | inl err => throw (Retryable CodeDependencyUnavailable "object storage is unavailable" (Some err))
    | inr _ => ret tt
    end
  end.

Definition EnsureTenant (tenantID displayName : string) : M Tenant :=
  _ ← check_err (validateID tenantID);
  rootID ← freshID "could not generate root id";
  t ← now;
  on_repo (R_EnsureTenant (mkTenantSeed tenantID displayName rootID t)).

Definition GetTenant (tenantID : string) : M Tenant :=
  _ ← check_err (validateID tenantID);
  on_repo (R_GetTenant tenantID).

(** ** Members *)

Definition ListMembers (identity : Identity) (cursor : string) (limit : Z) : M (Page PrincipalRecord) :=
  let tenantID := Identity_TenantID identity in
  _ ← check_err (validateID tenantID);
  limit ← page_limit limit;
  position ← lift (Decode (s_cursor s) cursor tenantID "members");
  '(items, more) ← on_repo (R_ListMembers tenantID position limit);
  ret (next_page tenantID "members" (λ m,
         let id := Identity_PrincipalID (PrincipalRecord_Identity m) in mkCursorPosition id id) items more).

Definition UpdateMember (ctx : Context) (actor : MemberActor) (principalID : string)
    (role : option AccessRole) (status : option MemberStatus) : M PrincipalRecord :=
  _ ← check_err (validateID (MemberActor_TenantID actor));
  _ ← check_err (validateID (MemberActor_PrincipalID actor));
  _ ← check_err (validateID principalID);
  if negb (managerRole actor) then
    throw (E CodeForbidden "only owners and admins may manage members") else
  if bool_decide (role = None) && bool_decide (status = None) then
    throw (E CodeInvalidRequest "at least one member field is required") else
  if from_option (λ r, negb (ValidAccessRole r)) false role then
    throw (E CodeInvalidRequest "member role is invalid") else
  if from_option (λ x, negb (ValidMemberStatus x)) false status then
    throw (E CodeInvalidRequest "member status is invalid") else
  if (MemberActor_Role actor == RoleAdmin) && (role == Some RoleOwner) then
    throw (E CodeForbidden "admins cannot grant the owner role") else
  t ← now;
  on_repo_rand (λ rnd, R_UpdateMember ctx rnd
    (mkUpdateMemberCommand (MemberActor_TenantID actor) principalID (MemberActor_PrincipalID actor)
       (MemberActor_Role actor) role status t)).

Definition DeleteMember (ctx : Context) (actor : MemberActor) (id : string) : M unit :=
  _ ← check_err (validateMemberActor actor);
  _ ← check_err (validateID id);
  t ← now;
  on_repo_rand (λ rnd, R_DeleteMember ctx rnd
    (mkDeleteMemberCommand (MemberActor_TenantID actor) id (MemberActor_PrincipalID actor)
       (MemberActor_Role actor) t)).

(** ** Invitations *)

Definition CreateInvitation (ctx : Context) (actor : MemberActor) (issuer subject displayName : string)
    (role : AccessRole) (expiresAt : Time) : M InvitationOutput :=
  _ ← check_err (validateMemberActor actor);
  if negb (managerRole actor) then
    throw (E CodeForbidden "only owners and admins may invite members") else
  let invalid := throw (E CodeInvalidRequest "invitation is invalid") in
  if negb (validInvitationIdentity issuer subject) || (256 <? zstrlen displayName) ||
     negb (ValidAccessRole role) then invalid else
  t ← now;
  if negb (After expiresAt t) then invalid else
  id ← freshID "could not generate invitation id";
  random ← rand_read 32;
  match random with
  | None => throw (EC CodeInternal "could not generate invitation token"
                     (Some (PlainError "crypto/rand: read failed")))
  | Some b =>
    let token := HexEncodeToString (of_bytes b) in
    t ← now;
    v ← on_repo_rand (λ rnd, R_CreateInvitation ctx rnd
      (mkCreateInvitationCommand id (MemberActor_TenantID actor) (MemberActor_PrincipalID actor)
         (MemberActor_Role actor) issuer subject displayName role (sha256Hex token) expiresAt t));
    ret (mkInvitationOutput v token)
  end.

(** The repository reads the wall clock. *)
Definition ListInvitations (actor : MemberActor) (status : InvitationStatus) (limit : Z)
    : M (list TenantInvitation) :=
  if negb (managerRole actor) then
    throw (E CodeForbidden "only owners and admins may list invitations") else
  if (status != "") && negb (ValidInvitationStatus status) then
    throw (E CodeInvalidRequest "invitation status is invalid") else
  t ← time_now;
  on_repo (R_ListInvitations t (MemberActor_TenantID actor) status limit).

Definition AcceptInvitation (ctx : Context) (token issuer subject : string)
    : M (TenantInvitation * PrincipalRecord * option GoError) :=
  let decoded := HexDecodeString token in
  if bool_decide (decoded = None) || negb (from_option zstrlen 0 decoded =? 32) ||
     negb (validInvitationIdentity issuer subject) then
    throw (E CodeInvalidRequest "invitation token and authenticated identity are required") else
  principalID ← freshID "could not generate principal id";
  t ← now;
  on_repo_rand (λ rnd, R_AcceptInvitation ctx rnd
    (mkAcceptInvitationCommand (sha256Hex token) principalID issuer subject t)).

Definition RevokeInvitation (ctx : Context) (actor : MemberActor) (id : string) : M TenantInvitation :=
  _ ← check_err (validateMemberActor actor);
  _ ← check_err (validateID id);
  t ← now;
  on_repo_rand (λ rnd, R_RevokeInvitation ctx rnd
    (mkRevokeInvitationCommand (MemberActor_TenantID actor) id (MemberActor_PrincipalID actor)
       (MemberActor_Role actor) t)).

(** ** Idempotent creation *)

Definition claimCreation (identity : Identity) (scope : IdempotencyScope) (key requestDigest : string)
    : M (option IdempotencyRequest * IdempotencyRecord) :=
  if key == "" then ret (None, go_zero) else
  _ ← check_err (ValidateIdempotencyKey key);
  claimToken ← freshID "could not generate idempotency claim token";
  t ← now;
  let request := mkIdempotencyRequest identity scope (sha256Hex key) requestDigest claimToken
    (AddTime t (s_idempotencyClaimTTL s)) (AddTime t (s_idempotencyRetention s)) t in
  record ← on_repo (R_ClaimIdempotency request);
  if (IdempotencyRecord_State record == IdempotencyPending) &&
     (IdempotencyRecord_ClaimToken record != IdempotencyRequest_ClaimToken request) then
    throw (E CodeInternal "repository returned an idempotency claim owned by another request")
  else ret (Some request, record).

Definition releaseKnownFailedClaim (claim : option IdempotencyRequest) (err : GoError) : M unit :=
  match claim with
  | None => ret tt
  | Some request =>
    if negb (knownFailedCreation err) then ret tt
    else ignore (on_repo (R_ReleaseIdempotency request))
  end.

(** ** Directories and nodes *)

Definition directory_digest (parentID name : string) : string :=
  canonicalRequestDigest (json_object [json_field "parent_id" (json_string parentID);
                                       json_field "name" (json_string name)]).

Definition CreateDirectoryWithIdempotency (ctx : Context) (identity : Identity)
    (parentID name key : string) : M CreateDirectoryOutput :=
  _ ← check_err (validateID parentID);
  '(display, normalized) ← lift (NormalizeName name);
  id ← freshID "could not generate node id";
  '(claim, record) ← claimCreation identity IdempotencyCreateDirectory key
                       (directory_digest parentID display);
  if IdempotencyRecord_State record == IdempotencyCompleted then
    let missing cause := throw (EC CodeInternal
      "completed idempotency claim references a missing directory" cause) in
    replay ← try_ (on_repo (R_GetNode identity (IdempotencyRecord_ResourceID record) true));
    match replay with
    | inl replayErr => missing (Some replayErr)
    | inr node => if Node_Kind node != NodeDirectory then missing None
                  else ret (mkCreateDirectoryOutput node true)
    end
  else
    t ← now;
    created ← try_ (on_repo_rand (λ rnd, R_CreateDirectory ctx rnd
      (mkCreateDirectoryCommand identity id parentID display normalized t claim)));
    match created with
    | inl err => _ ← releaseKnownFailedClaim claim err; throw err
    | inr node => ret (mkCreateDirectoryOutput node false)
    end.

Definition CreateDirectory (ctx : Context) (identity : Identity) (parentID name : string) : M Node :=
  output ← CreateDirectoryWithIdempotency ctx identity parentID name "";
  ret (CreateDirectoryOutput_Node output).

Definition GetNode (identity : Identity) (id : string) (kind : NodeKind) : M Node :=
  _ ← check_err (validateID id);
  node ← on_repo (R_GetNode identity id false);
  if (Node_Kind node != kind) || (Node_Status node != NodeActive) || (Node_TrashedRootID node != "") then
    throw (E CodeNotFound "resource was not found")
  else ret node.

Definition node_position (node : Node) : CursorPosition :=
  mkCursorPosition (Node_NormalizedName node) (Node_ID node).

Definition ListChildren (identity : Identity) (parentID cursor : string) (limit : Z) : M (Page Node) :=
  let tenantID := Identity_TenantID identity in
  _ ← check_err (validateID parentID);
  limit ← page_limit limit;
  position ← lift (Decode (s_cursor s) cursor tenantID ("children:" +:+ parentID));
  '(items, more) ← on_repo (R_ListChildren identity parentID position limit);
  ret (next_page tenantID ("children:" +:+ parentID) node_position items more).

Definition UpdateNode (ctx : Context) (identity : Identity) (nodeID : string)
    (name parentID : option string) (revision : Z) : M Node :=
  if (revision <=? 0) || (bool_decide (name = None) && bool_decide (parentID = None)) then
    throw (E CodeInvalidRequest "revision and at least one update are required") else
  _ ← check_err (validateID nodeID);
  _ ← check_err (parentID ≫= validateID);
  '(display, normalized) ← match name with
    | None => ret (None, None)
    | Some name => '(d, n) ← lift (NormalizeName name); ret (Some d, Some n)
    end;
  t ← now;
  on_repo_rand (λ rnd, R_UpdateNode ctx rnd
    (mkUpdateNodeCommand identity nodeID display normalized parentID revision t)).

(** ** Downloads *)

Definition Download (identity : Identity) (nodeID : string) : M SignedDownload :=
  _ ← check_err (validateID nodeID);
  '(node, blob) ← on_repo (R_DownloadBlob identity nodeID);
  t ← time_now;
  signed ← try_ (on_storage (S_SignDownload t (Blob_ObjectKey blob) (Node_DisplayName node)
                               (s_downloadSignTTL s)));
  match signed with
  | inl err => throw (mapStorageError err)
  | inr signed => ret signed
  end.

(** ** The recycle bin *)

Definition revision_required {S} (revision : Z) : GoM S unit :=
  if revision <=? 0 then throw (E CodeInvalidRequest "revision is required") else ret tt.

Definition Recycle (ctx : Context) (identity : Identity) (nodeID : string) (revision : Z) : M unit :=
  _ ← revision_required revision;
  _ ← check_err (validateID nodeID);
  t ← now;
  on_repo_rand (λ rnd, R_Recycle ctx rnd identity nodeID revision t).

Definition ListRecycle (identity : Identity) (cursor : string) (limit : Z) : M (Page RecycleEntry) :=
  let tenantID := Identity_TenantID identity in
  limit ← page_limit limit;
  position ← lift (Decode (s_cursor s) cursor tenantID "recycle");
  '(items, more) ← on_repo (R_ListRecycle identity position limit);
  ret (next_page tenantID "recycle" (λ e, node_position (RecycleEntry_Node e)) items more).

Definition Restore (ctx : Context) (identity : Identity) (nodeID : string) (revision : Z) : M Node :=
  _ ← revision_required revision;
  _ ← check_err (validateID nodeID);
  t ← now;
  on_repo_rand (λ rnd, R_Restore ctx rnd identity nodeID revision t).

Definition delete_object (blob : Blob) : M unit :=
  deleted ← try_ (on_storage (S_DeleteObject (Blob_ObjectKey blob)));
  match deleted with
  | inl err => throw (mapStorageError err)
  | inr _ => ret tt
  end.

Definition Purge (ctx : Context) (identity : Identity) (nodeID : string) (revision : Z) : M unit :=
  _ ← revision_required revision;
  _ ← check_err (validateID nodeID);
  t ← now;
  plan ← on_repo (R_PreparePurge identity nodeID revision t);
  _ ← for_range (PurgePlan_Blobs plan) delete_object;
  t ← now;
  on_repo_rand (λ rnd, R_FinishPurge ctx rnd identity plan t).

End with_service.
