(* ===== verification/ServiceUploads.v ===== *)
(** * Service methods on upload sessions (src/internal/drive/service.go) *)
From S2P Require Import Prelude Errors GoLib Types Validation Ports Service ServiceNamespace.

Record CreateUploadInput := mkCreateUploadInput {
  CreateUploadInput_ParentID : string;
  CreateUploadInput_Name : string;
  CreateUploadInput_Size : Z;
  CreateUploadInput_MimeType : string;
  CreateUploadInput_Checksum : Checksum
}.

Record CreateUploadOutput := mkCreateUploadOutput {
  CreateUploadOutput_Upload : UploadSession;
  CreateUploadOutput_Replayed : bool
}.

Record CompleteOutput := mkCompleteOutput {
  CompleteOutput_Upload : UploadSession;
  CompleteOutput_Node : Node;
  CompleteOutput_First : bool
}.

Section with_service.
Context {R T : Type} `{!Platform, !CursorJSON, !Runtime, !RepositoryPort R, !StorageProvider T}.
Context (s : Service).
Abbreviation M := (GoM (World R T)) (only parsing).

(** ** Opening a session *)

Definition upload_digest (input : CreateUploadInput) (display : string) : string :=
  canonicalRequestDigest (json_object [
    json_field "parent_id" (json_string (CreateUploadInput_ParentID input));
    json_field "name" (json_string display);
    json_field "size" (json_int (CreateUploadInput_Size input));
    json_field "mime_type" (json_string (CreateUploadInput_MimeType input));
    json_field "checksum" (json_checksum (CreateUploadInput_Checksum input))]).

(** The session stored for a new multipart upload at time [t]. *)
Definition new_session (identity : Identity) (input : CreateUploadInput)
    (display normalized sessionID bucket objectKey storageUploadID : string) (t : Time) : UploadSession :=
  mkUploadSession sessionID (Identity_TenantID identity) (Identity_PrincipalID identity)
    (CreateUploadInput_ParentID input) display normalized (CreateUploadInput_Size input)
    (CreateUploadInput_MimeType input) (CreateUploadInput_Checksum input) bucket objectKey
    storageUploadID UploadCreated "" "" "" (s_partSize s) (AddTime t (s_uploadTTL s)) 1 t t.

(** From the creation of the multipart upload to the stored session. *)
Definition open_session (identity : Identity) (input : CreateUploadInput)
    (display normalized sessionID blobID : string) (claim : option IdempotencyRequest)
    : M CreateUploadOutput :=
  let objectKey := "blobs/" +:+ Identity_TenantID identity +:+ "/" +:+ blobID in
  multipart ← try_ (on_storage_rand (λ rnd, S_CreateMultipart rnd objectKey
    (CreateUploadInput_MimeType input) (CreateUploadInput_Checksum input)));
  match multipart with
  | inl err =>
    let mapped := mapStorageError err in
    _ ← releaseKnownFailedClaim claim mapped; throw mapped
  | inr storageUploadID =>
    t ← now;
    w ← getS;
    let session := new_session identity input display normalized sessionID (S_Bucket (w_storage w))
                     objectKey storageUploadID t in
    stored ← try_ (on_repo (R_CreateUpload (mkCreateUploadCommand session claim)));
    match stored with
    | inl err =>
      _ ← (if bool_decide (claim = None) || knownFailedCreation err then
             _ ← ignore (on_storage (S_AbortMultipart objectKey storageUploadID));
             releaseKnownFailedClaim claim err
           else ret tt);
      throw err
    | inr created => ret (mkCreateUploadOutput created false)
    end
  end.

Definition CreateUploadWithIdempotency (identity : Identity) (input : CreateUploadInput) (key : string)
    : M CreateUploadOutput :=
  _ ← check_err (validateID (CreateUploadInput_ParentID input));
  '(display, normalized) ← lift (NormalizeName (CreateUploadInput_Name input));
  let size := CreateUploadInput_Size input in
  let mimeType := CreateUploadInput_MimeType input in
  if (size <=? 0) || (s_maxFileSize s <? size) then
    throw (E CodeInvalidRequest "file size is outside the allowed range") else
  if (mimeType == "") || (255 <? zstrlen mimeType) || negb (ValidMediaType mimeType) ||
     negb (ValidChecksum (CreateUploadInput_Checksum input)) then
    throw (E CodeInvalidRequest "mime type or checksum is invalid") else
  parent ← try_ (on_repo (R_GetNode identity (CreateUploadInput_ParentID input) false));
  let usable := match parent with
                | inl _ => false
                | inr parent => (Node_Kind parent == NodeDirectory) &&
                                (Node_Status parent == NodeActive) && (Node_TrashedRootID parent == "")
                end in
  if negb usable then throw (E CodeNotFound "parent directory was not found") else
  sessionID ← freshID "could not generate upload id";
  blobID ← freshID "could not generate blob id";
  '(claim, record) ← claimCreation s identity IdempotencyCreateUpload key (upload_digest input display);
  if IdempotencyRecord_State record == IdempotencyCompleted then
    replay ← try_ (on_repo (R_Upload identity (IdempotencyRecord_ResourceID record)));
    match replay with
    | inl replayErr => throw (EC CodeInternal
        "completed idempotency claim references a missing upload" (Some replayErr))
    | inr upload => ret (mkCreateUploadOutput upload true)
    end
  else open_session identity input display normalized sessionID blobID claim.

Definition CreateUpload (identity : Identity) (input : CreateUploadInput) : M UploadSession :=
  output ← CreateUploadWithIdempotency identity input "";
  ret (CreateUploadOutput_Upload output).

Definition Upload (identity : Identity) (uploadID : string) : M UploadSession :=
  _ ← check_err (validateID uploadID);
  on_repo (R_Upload identity uploadID).

(** ** Signing parts *)

Definition abortMultipart (session : UploadSession) : M unit :=
  aborted ← try_ (on_storage (S_AbortMultipart (UploadSession_ObjectKey session)
                                (UploadSession_StorageUploadID session)));
  match aborted with
  | inl err => throw (mapStorageError err)
  | inr _ => ret tt
  end.

Definition SignUploadPart (identity : Identity) (uploadID : string) (partNumber : Z) (checksum : Checksum)
    : M SignedPart :=
  _ ← check_err (validateID uploadID);
  if (partNumber <? 1) || (10000 <? partNumber) || negb (ValidChecksum checksum) then
    throw (E CodeInvalidRequest "part number or checksum is invalid") else
  session ← on_repo (R_Upload identity uploadID);
  t ← now;
  if negb (Before t (UploadSession_ExpiresAt session)) then
    t ← now;
    _ ← on_repo (R_AbortUpload identity uploadID UploadExpired t);
    _ ← abortMultipart session;
    throw (E CodeInvalidState "upload session has expired")
  else if (UploadSession_Status session != UploadCreated) &&
          (UploadSession_Status session != UploadUploading) then
    throw (E CodeInvalidState "upload session cannot sign parts")
  else
    session ← (if UploadSession_Status session == UploadCreated then
                 t ← now; on_repo (R_MarkUploading identity uploadID t)
               else ret session);
    t ← time_now;
    answer ← try_ (on_storage (S_SignUploadPart t (UploadSession_ObjectKey session)
      (UploadSession_StorageUploadID session) partNumber checksum (s_uploadSignTTL s)));
    match answer with
    | inl err => throw (mapStorageError err)
    | inr (signed, bound) =>
      _ ← (if bound : bool then
             t ← now;
             on_repo (R_RecordPartSignature identity uploadID
               (mkPartSignature partNumber (signedPartSize session partNumber) (Checksum_Value checksum)) t)
           else ret tt);
      ret signed
    end.

(** ** Completion *)

(** The cleanup of the storage was carried out: [clean] is the call whose
    success is recorded. *)
Definition record_cleanup {A} (identity : Identity) (session : UploadSession) (clean : M A) : M unit :=
  cleaned ← try_ clean;
  match cleaned with
  | inl _ => ret tt
  | inr _ => t ← now; ignore (on_repo (R_MarkUploadCleanupComplete identity (UploadSession_ID session) t))
  end.

Definition failUploadCompletion (identity : Identity) (session : UploadSession)
    (digest failureCode : string) (objectExists : bool) : M unit :=
  t ← now;
  _ ← on_repo (R_FailUploadCompletion identity (UploadSession_ID session) digest failureCode t);
  if objectExists
  then record_cleanup identity session (on_storage (S_DeleteObject (UploadSession_ObjectKey session)))
  else record_cleanup identity session (on_storage (S_AbortMultipart (UploadSession_ObjectKey session)
         (UploadSession_StorageUploadID session))).

(** The error answered when the completed object cannot be read back. *)
Definition unreadable_object (completeErr : option GoError) (statErr : GoError) : GoError :=
  match completeErr with
  | None => Retryable CodeDependencyUnavailable "completed object is not yet readable" (Some statErr)
  | Some completeErr =>
    let mappedStat := mapStorageError statErr in
    let mappedComplete := mapStorageError completeErr in
    if CodeOf (Some mappedStat) == CodeDependencyUnavailable then mappedStat else
    if (CodeOf (Some mappedComplete) == CodeNotFound) && (CodeOf (Some mappedStat) == CodeNotFound) then
      Retryable CodeDependencyUnavailable "multipart completion result is not yet observable" (Some completeErr)
    else if CodeOf (Some mappedComplete) == CodeDependencyUnavailable then mappedComplete
    else Retryable CodeDependencyUnavailable "multipart completion result is unknown" (Some completeErr)
  end.

(** The storage refused the parts and holds no object under the key. *)
Definition rejected_by_storage (completeErr : option GoError) (statErr : GoError) : bool :=
  match completeErr with
  | None => false
  | Some completeErr => (CodeOf (Some (mapStorageError completeErr)) == CodeInvalidRequest) &&
                        (CodeOf (Some (mapStorageError statErr)) == CodeNotFound)
  end.

(** The object of the session: completed now, or by an earlier attempt. *)
Definition completed_object (identity : Identity) (session : UploadSession) (digest : string)
    (parts : list CompletedPart) : M ObjectInfo :=
  if UploadSession_Status session == UploadObjectCompleted then
    object ← try_ (on_storage (S_StatObject (UploadSession_ObjectKey session)));
    match object with inl err => throw (mapStorageError err) | inr object => ret object end
  else
    completeErr ← error_result (on_storage (S_CompleteMultipart (UploadSession_ObjectKey session)
                                  (UploadSession_StorageUploadID session) parts));
    object ← try_ (on_storage (S_StatObject (UploadSession_ObjectKey session)));
    match object with
    | inr object => ret object
    | inl statErr =>
      if rejected_by_storage completeErr statErr then
        _ ← failUploadCompletion identity session digest UploadFailureStorageRejected false;
        throw (from_option mapStorageError statErr completeErr)
      else throw (unreadable_object completeErr statErr)
    end.

(** The blob, the version and the node committed for a completed object. *)
Definition commit_command (identity : Identity) (uploadID digest : string) (session : UploadSession)
    (object : ObjectInfo) (blobID nodeID versionID : string) (parts : list CompletedPart) (t : Time)
    : CommitUploadCommand :=
  let tenantID := Identity_TenantID identity in
  mkCommitUploadCommand identity uploadID digest
    (mkBlob blobID tenantID (ObjectInfo_Bucket object) (ObjectInfo_ObjectKey object)
       (ObjectInfo_Size object) (UploadSession_MimeType session) (ObjectInfo_Checksum object)
       (ObjectInfo_ChecksumStatus object) BlobAvailable 1 t None)
    (mkFileVersion versionID tenantID nodeID blobID (ObjectInfo_Size object)
       (UploadSession_MimeType session) (ObjectInfo_Checksum object) (Identity_PrincipalID identity) t)
    (mkNode nodeID tenantID (UploadSession_ParentID session) NodeFile
       (UploadSession_DisplayName session) (UploadSession_NormalizedName session) versionID
       (ObjectInfo_Size object) (UploadSession_MimeType session) NodeActive "" "" 1 t t None)
    parts t.

(** The checks on the completed object; a mismatch fails the session for good. *)
Definition accept_object (identity : Identity) (session : UploadSession) (digest : string)
    (object : ObjectInfo) : M ObjectInfo :=
  object ← match normalizeObjectChecksum object (UploadSession_DeclaredChecksum session) with
    | Ok object => ret object
    | Err err =>
      _ ← (if CodeOf (Some err) == CodeInvalidRequest
           then failUploadCompletion identity session digest UploadFailureChecksumMismatch true
           else ret tt);
      throw err
    | Panicked p => panic p
    | Diverged => lift Diverged
    end;
  if negb (ObjectInfo_Size object =? UploadSession_ExpectedSize session) then
    _ ← failUploadCompletion identity session digest UploadFailureSizeMismatch true;
    throw (E CodeInvalidRequest "completed object size does not match the declared size")
  else ret object.

Definition commit_object (ctx : Context) (identity : Identity) (uploadID digest : string)
    (parts : list CompletedPart) (session : UploadSession) (object : ObjectInfo) : M CompleteOutput :=
  blobID ← freshID "could not generate blob id";
  nodeID ← freshID "could not generate node id";
  versionID ← freshID "could not generate version id";
  t ← now;
  committed ← try_ (on_repo_rand (λ rnd, R_CommitUpload ctx rnd
    (commit_command identity uploadID digest session object blobID nodeID versionID parts t)));
  match committed with
  | inr (result, first) =>
      ret (mkCompleteOutput (CompleteResult_Upload result) (CompleteResult_Node result) first)
  | inl err =>
    _ ← (if (CodeOf (Some err) == CodeNameConflict) || (CodeOf (Some err) == CodeNotFound) then
           record_cleanup identity session (on_storage (S_DeleteObject (UploadSession_ObjectKey session)))
         else ret tt);
    throw err
  end.

Definition CompleteUpload (ctx : Context) (identity : Identity) (uploadID : string)
    (parts : list CompletedPart) : M CompleteOutput :=
  _ ← check_err (validateID uploadID);
  _ ← check_err (validateParts parts);
  let digest := partsDigest parts in
  t ← now;
  session ← on_repo (R_BeginComplete identity uploadID digest parts t);
  if UploadSession_Status session == UploadCommitted then
    '(result, _) ← on_repo_rand (λ rnd, R_CommitUpload ctx rnd
      (mkCommitUploadCommand identity uploadID digest go_zero go_zero go_zero [] 0));
    ret (mkCompleteOutput (CompleteResult_Upload result) (CompleteResult_Node result) false)
  else
    object ← completed_object identity session digest parts;
    object ← accept_object identity session digest object;
    session ← (if UploadSession_Status session != UploadObjectCompleted then
                 t ← now; on_repo (R_MarkObjectCompleted identity uploadID object t)
               else ret session);
    commit_object ctx identity uploadID digest parts session object.

(** ** Listing parts, aborting *)

Definition ListUploadParts (identity : Identity) (uploadID : string) (limit : Z) : M UploadPartListing :=
  _ ← check_err (validateID uploadID);
  let limit := if (limit =? 0) || (MaxUploadParts <? limit) then MaxUploadParts else limit in
  session ← on_repo (R_Upload identity uploadID);
  t ← now;
  let status := UploadSession_Status session in
  let listing st parts complete :=
    mkUploadPartListing uploadID st (UploadSession_PartSize session) parts complete in
  if negb (Before t (UploadSession_ExpiresAt session)) && negb (Terminal status) then
    ret (listing UploadExpired [] true)
  else
    recorded ← on_repo (R_UploadParts identity uploadID);
    if 0 <? zlen recorded then
      ret (listing status ((λ part, mkStoredPart (CompletedPart_PartNumber part)
             (CompletedPart_ETag part) (CompletedPart_Size part) go_zero false false) <$> recorded) true)
    else if Terminal status then ret (listing status [] false)
    else
      stored ← try_ (on_storage (S_ListParts (UploadSession_ObjectKey session)
                                   (UploadSession_StorageUploadID session)));
      match stored with
      | inl err =>
        if CodeOf (Some err) == CodeNotFound then
          throw (E CodeInvalidState "multipart upload is no longer available")
        else throw (mapStorageError err)
      | inr stored =>
        let parts := reusableStoredParts stored session in
        let parts := sort_slice (λ a b, StoredPart_PartNumber a <? StoredPart_PartNumber b) parts in
        let complete := zlen parts <=? limit in
        parts ← (if limit <? zlen parts then slice_to parts limit else ret parts);
        ret (listing status parts complete)
      end.

Definition AbortUpload (identity : Identity) (uploadID : string) : M unit :=
  _ ← check_err (validateID uploadID);
  t ← now;
  session ← on_repo (R_AbortUpload identity uploadID UploadAborted t);
  _ ← (if (UploadSession_Status session == UploadFailed) &&
          failedUploadHasObject (UploadSession_FailureCode session) then
         deleted ← try_ (on_storage (S_DeleteObject (UploadSession_ObjectKey session)));
         match deleted with inl err => throw (mapStorageError err) | inr _ => ret tt end
       else abortMultipart session);
  t ← now;
  ignore (on_repo (R_MarkUploadCleanupComplete identity (UploadSession_ID session) t)).

End with_service.
