(* ===== verification/ServiceGovernance.v ===== *)
(** * Service methods on groups, access control lists and the audit trail
    (src/internal/drive/governance_service.go) *)
From S2P Require Import Prelude Errors GoLib Types Validation Ports Service ServiceNamespace.

Record AuditPage := mkAuditPage { AuditPage_Items : list AuditEvent; AuditPage_NextSequence : Z }.

Definition validateGovernanceManager (actor : MemberActor) : option GoError :=
  match validateMemberActor actor with
  | Some err => Some err
  | None =>
    if negb (managerRole actor) then
      Some (E CodeForbidden "only owners and admins may manage tenant governance")
    else None
  end.

Section with_service.
Context {R T : Type} `{!Platform, !CursorJSON, !Runtime, !RepositoryPort R, !StorageProvider T}.
Abbreviation M := (GoM (World R T)) (only parsing).
Implicit Types (actor : MemberActor).

(** ** Groups *)

Definition CreateGroup (ctx : Context) actor (name : string) : M TenantGroup :=
  _ ← check_err (validateGovernanceManager actor);
  '(display, normalized) ← lift (NormalizeName name);
  id ← freshID "could not generate group id";
  t ← now;
  on_repo_rand (λ rnd, R_CreateGroup ctx rnd
    (mkCreateGroupCommand id (MemberActor_TenantID actor) (MemberActor_PrincipalID actor)
       (MemberActor_Role actor) display normalized t)).

Definition ListGroups actor : M (list TenantGroup) :=
  _ ← check_err (validateGovernanceManager actor);
  on_repo (R_ListGroups (MemberActor_TenantID actor)).

Definition UpdateGroup (ctx : Context) actor (groupID name : string) : M TenantGroup :=
  _ ← check_err (validateGovernanceManager actor);
  _ ← check_err (validateID groupID);
  '(display, normalized) ← lift (NormalizeName name);
  t ← now;
  on_repo_rand (λ rnd, R_UpdateGroup ctx rnd
    (mkUpdateGroupCommand (MemberActor_TenantID actor) groupID (MemberActor_PrincipalID actor)
       (MemberActor_Role actor) display normalized t)).

Definition DeleteGroup (ctx : Context) actor (groupID : string) : M unit :=
  _ ← check_err (validateGovernanceManager actor);
  _ ← check_err (validateID groupID);
  t ← now;
  on_repo_rand (λ rnd, R_DeleteGroup ctx rnd
    (mkDeleteGroupCommand (MemberActor_TenantID actor) groupID (MemberActor_PrincipalID actor)
       (MemberActor_Role actor) t)).

Definition changeGroupMember (ctx : Context) actor (groupID principalID : string) (add : bool) : M unit :=
  _ ← check_err (validateGovernanceManager actor);
  _ ← check_err (validateID groupID);
  _ ← check_err (validateID principalID);
  t ← now;
  let command := mkGroupMemberCommand (MemberActor_TenantID actor) groupID principalID
    (MemberActor_PrincipalID actor) (MemberActor_Role actor) t in
  if add then on_repo_rand (λ rnd, R_AddGroupMember ctx rnd command)
  else on_repo_rand (λ rnd, R_RemoveGroupMember ctx rnd command).

Definition AddGroupMember (ctx : Context) actor (groupID principalID : string) : M unit :=
  changeGroupMember ctx actor groupID principalID true.
Definition RemoveGroupMember (ctx : Context) actor (groupID principalID : string) : M unit :=
  changeGroupMember ctx actor groupID principalID false.

Definition ListGroupMembers actor (groupID : string) : M (list PrincipalRecord) :=
  _ ← check_err (validateGovernanceManager actor);
  _ ← check_err (validateID groupID);
  on_repo (R_ListGroupMembers (MemberActor_TenantID actor) groupID).

(** ** Access control *)

Definition AuthorizeNode (identity : Identity) (nodeID : string) (capability : NodeCapability) : M unit :=
  _ ← check_err (validateID (Identity_TenantID identity));
  _ ← check_err (validateID (Identity_PrincipalID identity));
  _ ← check_err (validateID nodeID);
  if negb (ValidNodeCapability capability) then
    throw (E CodeInvalidRequest "node capability is invalid")
  else on_repo (R_AuthorizeNode identity nodeID capability).

Definition ListNodeACL actor (nodeID : string) : M (list NodeACLEntry) :=
  _ ← check_err (validateMemberActor actor);
  _ ← AuthorizeNode (MemberActor_Identity actor) nodeID NodeCapabilityManageACL;
  on_repo (R_ListNodeACL (MemberActor_TenantID actor) nodeID).

Definition SetNodeACL (ctx : Context) actor (nodeID : string) (subjectType : ACLSubjectType)
    (subjectID : string) (role : ACLRole) : M NodeACLEntry :=
  _ ← check_err (validateMemberActor actor);
  _ ← check_err (validateID nodeID);
  _ ← check_err (validateID subjectID);
  if negb (ValidACLSubjectType subjectType) || negb (ValidACLRole role) then
    throw (E CodeInvalidRequest "ACL subject type or role is invalid") else
  id ← freshID "could not generate ACL id";
  t ← now;
  on_repo_rand (λ rnd, R_SetNodeACL ctx rnd
    (mkSetNodeACLCommand id (MemberActor_TenantID actor) nodeID subjectType subjectID role
       (MemberActor_PrincipalID actor) (MemberActor_Role actor) t)).

Definition DeleteNodeACL (ctx : Context) actor (nodeID entryID : string) : M unit :=
  _ ← check_err (validateMemberActor actor);
  _ ← check_err (validateID nodeID);
  _ ← check_err (validateID entryID);
  t ← now;
  on_repo_rand (λ rnd, R_DeleteNodeACL ctx rnd
    (mkDeleteNodeACLCommand (MemberActor_TenantID actor) nodeID entryID
       (MemberActor_PrincipalID actor) (MemberActor_Role actor) t)).

(** ** Audit trail *)

Definition ListAudit actor (afterSequence : Z) (from until : Time) (limit : Z) : M AuditPage :=
  _ ← check_err (validateGovernanceManager actor);
  if (afterSequence <? 0) || (limit <? 0) || (1000 <? limit) ||
     (negb (IsZero from) && negb (IsZero until) && negb (After until from)) then
    throw (E CodeInvalidRequest "audit filter is invalid") else
  if negb (IsZero from) && negb (IsZero until) && (31 * 24 * Hour <? SubTime until from) then
    throw (E CodeInvalidRequest "audit time range cannot exceed 31 days") else
  let limit := if limit =? 0 then 100 else limit in
  items ← on_repo (R_ListAudit (mkAuditFilter (MemberActor_TenantID actor) afterSequence from until limit));
  if zlen items =? limit then
    match last items with
    | Some event => ret (mkAuditPage items (AuditEvent_Sequence event))
    | None => panic "index out of range"
    end
  else ret (mkAuditPage items 0).

End with_service.
