(* ===== verification/MaintenanceLoop.v ===== *)
(** * The maintenance loop (src/internal/maintenance/loop.go)

    [RunOnce] is one pass of the loop. The goroutine that repeats it, its timer
    and the metrics it feeds are not modelled. The loop runs in the [World] of
    the service, with the two ports it shares with it; [now] is [l.now()]. *)
From S2P Require Import Prelude Errors GoLib Types Validation Ports Service.

Record Options := mkOptions {
  mo_hasRepository : bool;
  mo_hasStorage : bool;
  mo_Interval : Duration;
  mo_LeaseDuration : Duration;
  mo_StaleAfter : Duration;
  mo_RecycleRetention : Duration;
  mo_BatchSize : Z
}.

Record Loop := mkLoop {
  l_interval : Duration;
  l_leaseDuration : Duration;
  l_staleAfter : Duration;
  l_recycleRetention : Duration;
  l_batchSize : Z;
  l_owner : string
}.

Definition New (rnd : RandRead) (options : Options) : Outcome Loop :=
  if negb (mo_hasRepository options) || negb (mo_hasStorage options) then
    Err (E CodeInvalidRequest "maintenance repository and storage are required") else
  let batchSize := default_positive (mo_BatchSize options) 50 in
  if 1000 <? batchSize then Err (E CodeInvalidRequest "maintenance batch size exceeds 1000") else
  match NewID rnd with
  | Ok owner => Ok (mkLoop (default_positive (mo_Interval options) Minute)
      (default_positive (mo_LeaseDuration options) (2 * Minute))
      (default_positive (mo_StaleAfter options) (15 * Minute))
      (default_positive (mo_RecycleRetention options) (30 * 24 * Hour)) batchSize owner)
  | Err err => Err (EC CodeInternal "could not generate maintenance owner" (Some err))
  | Panicked p => Panicked p
  | Diverged => Diverged
  end.

Definition maintenanceErrorCode (err : GoError) : string :=
  let code := CodeOf (Some err) in
  if code == CodeDependencyUnavailable then "dependency_unavailable"
  else if code == CodeNotFound then "not_found"
  else if (code == CodeInvalidRequest) || (code == CodeInvalidState) || (code == CodeNameConflict)
  then "rejected"
  else "internal".

(** The delay before the jitter is added; a negative shift count panics. *)
Definition backoff_base (attempt : Z) : Duration :=
  let attempt := if 8 <? attempt then 8 else attempt in Second * Z.shiftl 1 attempt.

Section with_ports.
Context {R T : Type} `{!Platform, !Runtime, !RepositoryPort R, !StorageProvider T}.
Context (l : Loop).
Abbreviation M := (GoM (World R T)) (only parsing).

Definition backoff (attempt : Z) : M Duration :=
  if attempt <? 0 then panic "negative shift amount" else
  let delay := backoff_base attempt in
  j ← rand_Int64N (Z.max (delay / 4) 1);
  ret (delay + j).

(** ** Uploads *)

Definition cleanupUpload (upload : UploadSession) : M (option GoError) :=
  err ← error_result
    (if (UploadSession_Status upload == UploadFailed) &&
        failedUploadHasObject (UploadSession_FailureCode upload)
     then on_storage (S_DeleteObject (UploadSession_ObjectKey upload))
     else on_storage (S_AbortMultipart (UploadSession_ObjectKey upload) (UploadSession_StorageUploadID upload)));
  ret (if CodeOf err == CodeNotFound then None else err).

Definition finishUpload (claim : UploadMaintenanceClaim) (status : UploadStatus) (complete : bool)
    (workErr : option GoError) (t : Time) : M unit :=
  '(retryAt, code) ← match workErr with
    | Some err =>
      delay ← backoff (UploadMaintenanceClaim_Attempts claim);
      ret (AddTime t delay, maintenanceErrorCode err)
    | None => ret (0, "")
    end;
  _ ← on_repo (R_FinishUploadMaintenance (UploadMaintenanceClaim_Owner claim)
        (UploadSession_ID (UploadMaintenanceClaim_Upload claim)) status complete retryAt code t);
  check_err workErr.

(** [err == nil] *)
Definition succeeded (err : option GoError) : bool :=
  match err with None => true | Some _ => false end.

Definition maintenance_commit (upload : UploadSession) (object : ObjectInfo)
    (blobID nodeID versionID : string) (t : Time) : CommitUploadCommand :=
  let tenantID := UploadSession_TenantID upload in
  let principalID := UploadSession_PrincipalID upload in
  mkCommitUploadCommand (mkIdentity tenantID principalID) (UploadSession_ID upload)
    (UploadSession_CompletionDigest upload)
    (mkBlob blobID tenantID (ObjectInfo_Bucket object) (ObjectInfo_ObjectKey object)
       (ObjectInfo_Size object) (UploadSession_MimeType upload) (ObjectInfo_Checksum object)
       (ObjectInfo_ChecksumStatus object) BlobAvailable 1 t None)
    (mkFileVersion versionID tenantID nodeID blobID (ObjectInfo_Size object)
       (UploadSession_MimeType upload) (ObjectInfo_Checksum object) principalID t)
    (mkNode nodeID tenantID (UploadSession_ParentID upload) NodeFile
       (UploadSession_DisplayName upload) (UploadSession_NormalizedName upload) versionID
       (ObjectInfo_Size object) (UploadSession_MimeType upload) NodeActive "" "" 1 t t None)
    [] t.

(** Identifiers for the three rows of a commit, or the error of the random source. *)
Definition commit_ids : M (GoError + string * string * string) :=
  try_ (rnd1 ← rand_read 16; blobID ← lift (NewID rnd1);
        rnd2 ← rand_read 16; nodeID ← lift (NewID rnd2);
        rnd3 ← rand_read 16; versionID ← lift (NewID rnd3);
        ret (blobID, nodeID, versionID)).

(** From a completed object of the right size to the committed file. *)
Definition commitUpload (ctx : Context) (claim : UploadMaintenanceClaim) (upload : UploadSession)
    (object : ObjectInfo) (t : Time) : M unit :=
  ids ← commit_ids;
  match ids with
  | inl err => finishUpload claim (UploadSession_Status upload) true (Some err) t
  | inr (blobID, nodeID, versionID) =>
    committed ← try_ (on_repo_rand (λ rnd, R_CommitUpload ctx rnd
      (maintenance_commit upload object blobID nodeID versionID t)));
    match committed with
    | inr (result, _) =>
        finishUpload claim (UploadSession_Status (CompleteResult_Upload result)) true None t
    | inl err =>
      if (CodeOf (Some err) == CodeNameConflict) || (CodeOf (Some err) == CodeNotFound) then
        cleanupErr ← error_result (on_storage (S_DeleteObject (UploadSession_ObjectKey upload)));
        finishUpload claim UploadFailed (succeeded cleanupErr) cleanupErr t
      else finishUpload claim (UploadSession_Status upload) true (Some err) t
    end
  end.

(** A session whose completion was requested: its object decides. *)
Definition resolveUpload (ctx : Context) (claim : UploadMaintenanceClaim) (upload : UploadSession)
    (t : Time) : M unit :=
  stat ← try_ (on_storage (S_StatObject (UploadSession_ObjectKey upload)));
  match stat with
  | inl err =>
    if CodeOf (Some err) == CodeNotFound then
      cleanupErr ← cleanupUpload upload;
      finishUpload claim UploadFailed (succeeded cleanupErr) cleanupErr t
    else finishUpload claim (UploadSession_Status upload) true (Some err) t
  | inr object =>
    if negb (ObjectInfo_Size object =? UploadSession_ExpectedSize upload) then
      err ← error_result (on_storage (S_DeleteObject (UploadSession_ObjectKey upload)));
      finishUpload claim UploadFailed (succeeded err) err t
    else if UploadSession_Status upload == UploadCompleting then
      err ← error_result (on_repo (R_MarkObjectCompleted
        (mkIdentity (UploadSession_TenantID upload) (UploadSession_PrincipalID upload))
        (UploadSession_ID upload) object t));
      match err with
      | Some _ => finishUpload claim (UploadSession_Status upload) true err t
      | None => commitUpload ctx claim (upload <| UploadSession_Status := UploadObjectCompleted |>) object t
      end
    else commitUpload ctx claim upload object t
  end.

Definition processUpload (ctx : Context) (claim : UploadMaintenanceClaim) : M unit :=
  let upload := UploadMaintenanceClaim_Upload claim in
  let status := UploadSession_Status upload in
  t ← now;
  if UploadMaintenanceClaim_CleanupPending claim || Terminal status then
    err ← cleanupUpload upload; finishUpload claim status (succeeded err) err t
  else if (status == UploadCreated) || (status == UploadUploading) then
    err ← cleanupUpload upload; finishUpload claim UploadExpired (succeeded err) err t
  else resolveUpload ctx claim upload t.

Definition runUploads (ctx : Context) : M unit :=
  t ← now;
  claims ← on_repo (R_ClaimUploadsForMaintenance (l_owner l) t (AddTime t (- l_staleAfter l))
             (AddTime t (l_leaseDuration l)) (l_batchSize l));
  for_range claims (λ claim, ignore (processUpload ctx claim)).

(** ** The recycle bin *)

(** The loop over the blobs of a plan; it returns the value of [err] the loop
    leaves, the error of the last deletion, and stops at an error other than
    not-found. *)
Fixpoint delete_blobs (blobs : list Blob) (err : option GoError) : M (option GoError) :=
  match blobs with
  | [] => ret err
  | blob :: blobs =>
    err ← error_result (on_storage (S_DeleteObject (Blob_ObjectKey blob)));
    if negb (succeeded err) && (CodeOf err != CodeNotFound) then ret err
    else delete_blobs blobs err
  end.

Definition processRecycle (ctx : Context) (claim : RecycleMaintenanceClaim) : M unit :=
  let identity := RecycleMaintenanceClaim_Identity claim in
  let rootID := RecycleMaintenanceClaim_RootID claim in
  t ← now;
  prepared ← try_ (on_repo (R_PreparePurge identity rootID (RecycleMaintenanceClaim_Revision claim) t));
  err ← match prepared with
    | inl err => ret (Some err)
    | inr plan =>
      err ← delete_blobs (PurgePlan_Blobs plan) None;
      if succeeded err then
        error_result (on_repo_rand (λ rnd, R_FinishPurge ctx rnd identity plan t))
      else ret err
    end;
  match err with
  | None => ret tt
  | Some err =>
    delay ← backoff 0;
    _ ← on_repo (R_ReleaseRecycleMaintenance (RecycleMaintenanceClaim_Owner claim) rootID
          (AddTime t delay) (maintenanceErrorCode err) t);
    throw err
  end.

Definition runRecycle (ctx : Context) : M unit :=
  t ← now;
  claims ← on_repo (R_ClaimRecycleForMaintenance (l_owner l) (AddTime t (- l_recycleRetention l)) t
             (AddTime t (l_leaseDuration l)) (l_batchSize l));
  for_range claims (λ claim, ignore (processRecycle ctx claim)).

(** ** One pass; a task that fails does not stop the next one. *)

Definition runIdempotency : M unit :=
  t ← now;
  ignore (on_repo (R_DeleteExpiredIdempotency t (l_batchSize l))).

Definition RunOnce (ctx : Context) : M unit :=
  _ ← ignore (runUploads ctx);
  _ ← ignore (runRecycle ctx);
  runIdempotency.

End with_ports.
