(* ===== verification/WorldLogic.v ===== *)
(** * Reasoning about service methods

    The rules for calls on the ports and for readings of the clock and of the random
    source; [world] applies them with the rules of [Logic]. *)
From S2P Require Import Prelude Errors Logic GoLib Types Validation Identifiers Ports Service.

Section rules.
Context {R T : Type} `{!Runtime}.
Implicit Types (w : World R T).

Definition with_repo (w : World R T) (r : R) : World R T :=
  mkWorld r (w_storage w) (w_readings w) (w_draws w).
Definition with_storage (w : World R T) (s : T) : World R T :=
  mkWorld (w_repo w) s (w_readings w) (w_draws w).
Definition read_clock (w : World R T) : World R T :=
  mkWorld (w_repo w) (w_storage w) (S (w_readings w)) (w_draws w).
Definition drawn (w : World R T) : World R T :=
  mkWorld (w_repo w) (w_storage w) (w_readings w) (S (w_draws w)).

Lemma wp_on_repo {A} (m : GoM R A) (Q : Outcome A → World R T → Prop) w :
  wp m (λ o r, Q o (with_repo w r)) (w_repo w) → wp (on_repo m) Q w.
Proof. unfold wp, on_repo. by destruct (m (w_repo w)). Qed.
Lemma wp_on_storage {A} (m : GoM T A) (Q : Outcome A → World R T → Prop) w :
  wp m (λ o s, Q o (with_storage w s)) (w_storage w) → wp (on_storage m) Q w.
Proof. unfold wp, on_storage. by destruct (m (w_storage w)). Qed.
Lemma wp_now (Q : Outcome Time → World R T → Prop) w :
  Q (Ok (clock (w_readings w))) (read_clock w) → wp now Q w.
Proof. exact id. Qed.
Lemma wp_time_now (Q : Outcome Time → World R T → Prop) w :
  Q (Ok (wall_clock (w_readings w))) (read_clock w) → wp time_now Q w.
Proof. exact id. Qed.
Lemma wp_rand_read n (Q : Outcome RandRead → World R T → Prop) w :
  Q (Ok (entropy (w_draws w) n)) (drawn w) → wp (rand_read n) Q w.
Proof. exact id. Qed.
Lemma wp_rand_Int64N bound (Q : Outcome Z → World R T → Prop) w :
  Q (Ok (jitter (w_draws w) bound)) (drawn w) → wp (rand_Int64N bound) Q w.
Proof. exact id. Qed.
Lemma wp_on_repo_rand {A} (m : RandRead → GoM R A) (Q : Outcome A → World R T → Prop) w :
  wp (m (entropy (w_draws w) 16)) (λ o r, Q o (with_repo (drawn w) r)) (w_repo w) → wp (on_repo_rand m) Q w.
Proof. intros Hm. unfold on_repo_rand. apply wp_bind, wp_rand_read. simpl. by apply wp_on_repo. Qed.
Lemma wp_on_storage_rand {A} (m : RandRead → GoM T A) (Q : Outcome A → World R T → Prop) w :
  wp (m (entropy (w_draws w) 16)) (λ o s, Q o (with_storage (drawn w) s)) (w_storage w) →
  wp (on_storage_rand m) Q w.
Proof. intros Hm. unfold on_storage_rand. apply wp_bind, wp_rand_read. simpl. by apply wp_on_storage. Qed.

(** A call whose outcome does not matter. *)
Lemma wp_any {S A} (m : GoM S A) (Q : Outcome A → S → Prop) s : (∀ o s', Q o s') → wp m Q s.
Proof. unfold wp. auto. Qed.

(** A generated identifier is valid; without random bytes the call fails. *)
Lemma wp_freshID message (Q : Outcome string → World R T → Prop) w :
  (entropy (w_draws w) 16 = None → Q (Err (EC CodeInternal message
    (Some (PlainError "crypto/rand: read failed")))) (drawn w)) →
  (∀ id, ValidID id = true → Q (Ok id) (drawn w)) → wp (freshID message) Q w.
Proof.
  intros HE HO. unfold freshID. apply wp_bind, wp_rand_read. simpl.
  destruct (entropy (w_draws w) 16) as [b|] eqn:Hb; [|by apply HE].
  destruct (entropy_bytes _ _ _ Hb) as [Hlen Hbytes].
  destruct (NewID_valid b Hlen Hbytes) as (id & -> & Hv & _). by apply HO.
Qed.

Lemma wp_error_result {A} (m : GoM (World R T) A) (Q : Outcome (option GoError) → World R T → Prop) w :
  wp m (λ o w', match o with
                | Ok _ => Q (Ok None) w'
                | Err e => Q (Ok (Some e)) w'
                | Panicked p => Q (Panicked p) w'
                | Diverged => Q Diverged w'
                end) w → wp (error_result m) Q w.
Proof.
  intros Hm. unfold error_result. apply wp_bind, wp_try. eapply wp_mono; [exact Hm|].
  by intros [] w'.
Qed.
Lemma wp_ignore {A} (m : GoM (World R T) A) (Q : Outcome unit → World R T → Prop) w :
  wp m (λ o w', match o with
                | Ok _ | Err _ => Q (Ok tt) w'
                | Panicked p => Q (Panicked p) w'
                | Diverged => Q Diverged w'
                end) w → wp (ignore m) Q w.
Proof.
  intros Hm. unfold ignore. apply wp_bind, wp_try. eapply wp_mono; [exact Hm|]. by intros [] w'.
Qed.
End rules.

Ltac world_step :=
  lazymatch goal with
  | |- wp now _ _ => apply wp_now; cbn [bind_post]
  | |- wp time_now _ _ => apply wp_time_now; cbn [bind_post]
  | |- wp (rand_read _) _ _ => apply wp_rand_read; cbn [bind_post]
  | |- wp (rand_Int64N _) _ _ => apply wp_rand_Int64N; cbn [bind_post]
  | |- wp (freshID _) _ _ => apply wp_freshID; [intros ?|intros ? ?]; cbn [bind_post]
  | |- wp (error_result _) _ _ => apply wp_error_result
  | |- wp (ignore _) _ _ => apply wp_ignore
  | |- wp (on_repo _) _ _ => fail "a call on the repository"
  | |- wp (on_storage _) _ _ => fail "a call on the storage"
  | |- _ => wp_step
  end.
Ltac world := repeat (cbv beta iota; world_step).
