(* ===== verification/MemoryFrame.v ===== *)
(** * What the operations of the in-memory repository leave unchanged

    [same_tree r r'] says that the tenants and the nodes are the same;
    [op_step] is the transition relation of the repository: one constructor per
    method of the interface, for the state the call leaves behind whatever its
    outcome. *)
From S2P Require Import Prelude Errors Logic GoLib Types Validation MemoryState MemoryIdempotency MemoryNamespace.
From S2P Require Import MemoryUploads MemoryGovernance MemoryGroups.

Definition same_tree (r r' : Repository) : Prop :=
  repo_nodes r' = repo_nodes r ∧ repo_tenants r' = repo_tenants r.
#[export] Instance same_tree_refl : Reflexive same_tree.
Proof. by split. Qed.
#[export] Instance same_tree_trans : Transitive same_tree.
Proof. intros ??? [??] [??]. split; congruence. Qed.

(** Only the audit trail differs. *)
Definition same_but_audit (r r' : Repository) : Prop :=
  r <| repo_audit := [] |> <| repo_auditSequence := 0 |> =
  r' <| repo_audit := [] |> <| repo_auditSequence := 0 |>.
#[export] Instance same_but_audit_refl : Reflexive same_but_audit.
Proof. done. Qed.

Section with_runtime.
Context `{!Platform, !MapRange}.
Implicit Types (r : Repository).

(** ** The two helpers every operation calls *)

(** The two errors of the audit trail. *)
Definition audit_error (e : GoError) : Prop :=
  e = E CodeInvalidRequest "audit metadata is invalid" ∨
  ∃ cause, e = EC CodeInternal "could not generate audit event id" cause.

Lemma wp_appendAudit ctx rnd e (Q : Outcome unit → Repository → Prop) r :
  (∀ e', audit_error e' → Q (Err e') r) →
  (∀ audit sequence, Q (Ok tt) (r <| repo_auditSequence := sequence |> <| repo_audit := audit |>)) →
  wp (appendAuditLocked ctx rnd e) Q r.
Proof.
  intros HE HO. unfold appendAuditLocked, boundedAuditMetadata, NewID.
  repeat (cbv beta iota; wp_step); try apply HO; try (apply HE; unfold audit_error; by eauto).
  - by destruct rnd.
  - by destruct rnd.
  - apply HE. left. destruct (existsb _ _); [by simplify_eq|]. destruct (4096 <? _); by simplify_eq.
  - destruct (existsb _ _); [done|]. by destruct (4096 <? _).
  - destruct (existsb _ _); [done|]. by destruct (4096 <? _).
Qed.

Lemma wp_completeIdempotency request resourceID now (Q : Outcome unit → Repository → Prop) r :
  (∀ e, Q (Err e) r) → (request = None → Q (Ok tt) r) →
  (∀ m, Q (Ok tt) (r <| repo_idempotency := m |>)) →
  wp (completeIdempotency request resourceID now) Q r.
Proof. intros. unfold completeIdempotency, putIdempotency. wp_go; eauto. Qed.

End with_runtime.

(** ** Operations outside the namespace tree *)

Definition frames {A} (m : GoM Repository A) : Prop := ∀ r, wp m (λ _ r', same_tree r r') r.

Ltac frame_unfold :=
  unfold reject_commit, AddGroupMember, RemoveGroupMember, groupMember, AppendAudit,
    mark_cleanup_pending, MemoryState.Ready, SetReadyError, cut_page;
  unfold putNode, putUpload, putBlob, putVersion, putMember, putPrincipal, putInvitation, putGroup,
    putACL, putIdempotency, putUploadLease, putRecycleLease.
Ltac frame_step :=
  lazymatch goal with
  | |- wp (appendAuditLocked _ _ _) _ _ => apply wp_appendAudit; intros; cbn [bind_post try_post]
  | |- wp (completeIdempotency _ _ _) _ _ => apply wp_completeIdempotency; intros; cbn [bind_post try_post]
  | |- _ => wp_step
  end.
Ltac frame := unfold frames; intros; frame_unfold; repeat (cbv beta iota; frame_step); try (split; reflexivity).

Section operations.
Context `{!Platform, !MapRange}.
Implicit Types (r : Repository).

Lemma wp_for_range_same_tree {A} (l : list A) body r :
  (∀ x, frames (body x)) → wp (for_range l body) (λ _ r', same_tree r r') r.
Proof.
  intros Hbody. apply wp_for_range; [done|]. intros x r' _ Hr.
  eapply wp_mono; [apply Hbody|]. simpl. intros _ r'' Hr'. by etrans.
Qed.

Lemma ClaimIdempotency_frames request : frames (ClaimIdempotency request).
Proof. unfold ClaimIdempotency. frame. Qed.
Lemma ReleaseIdempotency_frames request : frames (ReleaseIdempotency request).
Proof. unfold ReleaseIdempotency. frame. Qed.
Lemma DeleteExpiredIdempotency_frames now limit : frames (DeleteExpiredIdempotency now limit).
Proof.
  unfold DeleteExpiredIdempotency. intros r. wp_go.
  eapply wp_mono; [apply wp_for_range_same_tree; intros x r'; by apply wp_mod|].
  by intros [] r' Hr; wp_go.
Qed.

Lemma CreateUpload_frames command : frames (CreateUpload command).
Proof. unfold CreateUpload. frame. Qed.
Lemma MarkUploading_frames i id now : frames (MarkUploading i id now).
Proof. unfold MarkUploading. frame. Qed.
Lemma BeginComplete_frames i id d parts now : frames (BeginComplete i id d parts now).
Proof. unfold BeginComplete. frame. Qed.
Lemma FailUploadCompletion_frames i id d c now : frames (FailUploadCompletion i id d c now).
Proof. unfold FailUploadCompletion. frame. Qed.
Lemma MarkObjectCompleted_frames i id o now : frames (MarkObjectCompleted i id o now).
Proof. unfold MarkObjectCompleted. frame. Qed.
Lemma AbortUpload_frames i id target now : frames (AbortUpload i id target now).
Proof. unfold AbortUpload. frame. Qed.
Lemma RecordPartSignature_frames i id p now : frames (RecordPartSignature i id p now).
Proof. unfold RecordPartSignature. frame. Qed.
Lemma MarkUploadCleanupComplete_frames i id now : frames (MarkUploadCleanupComplete i id now).
Proof. unfold MarkUploadCleanupComplete. frame. Qed.
Lemma FinishUploadMaintenance_frames o u s c t e now : frames (FinishUploadMaintenance o u s c t e now).
Proof. unfold FinishUploadMaintenance. frame. Qed.
Lemma ReleaseRecycleMaintenance_frames o u t e now : frames (ReleaseRecycleMaintenance o u t e now).
Proof. unfold ReleaseRecycleMaintenance. frame. Qed.

Lemma claim_uploads_frames owner until ids claims : frames (claim_uploads owner until ids claims).
Proof.
  revert claims. induction ids as [|id ids IH]; intros claims r; simpl; [by apply wp_ret|].
  frame_unfold. wp_go. eapply wp_mono; [apply IH|]. simpl. intros _ r' Hr. by etrans; [|exact Hr].
Qed.
Lemma ClaimUploadsForMaintenance_frames o now st until limit :
  frames (ClaimUploadsForMaintenance o now st until limit).
Proof. intros r. unfold ClaimUploadsForMaintenance. wp_go. apply claim_uploads_frames. Qed.

Lemma EnsureOIDCMember_frames seed : frames (EnsureOIDCMember seed).
Proof. unfold EnsureOIDCMember. frame. Qed.
Lemma SetOIDCMemberStatus_frames t p s : frames (SetOIDCMemberStatus t p s).
Proof. unfold SetOIDCMemberStatus. frame. Qed.
Lemma UpdateMember_frames ctx rnd c : frames (UpdateMember ctx rnd c).
Proof. unfold UpdateMember. frame. Qed.
Lemma DeleteMember_frames ctx rnd c : frames (DeleteMember ctx rnd c).
Proof. unfold DeleteMember. frame. Qed.
Lemma CreateInvitation_frames ctx rnd c : frames (CreateInvitation ctx rnd c).
Proof. unfold CreateInvitation. frame. Qed.
Lemma ListInvitations_frames now t s limit : frames (ListInvitations now t s limit).
Proof. unfold ListInvitations. frame. Qed.
Lemma AcceptInvitation_frames ctx rnd c : frames (AcceptInvitation ctx rnd c).
Proof. unfold AcceptInvitation. frame. Qed.
Lemma RevokeInvitation_frames ctx rnd c : frames (RevokeInvitation ctx rnd c).
Proof. unfold RevokeInvitation. frame. Qed.

Lemma CreateGroup_frames ctx rnd c : frames (CreateGroup ctx rnd c).
Proof. unfold CreateGroup. frame. Qed.
Lemma UpdateGroup_frames ctx rnd c : frames (UpdateGroup ctx rnd c).
Proof. unfold UpdateGroup. frame. Qed.
Lemma DeleteGroup_frames ctx rnd c : frames (DeleteGroup ctx rnd c).
Proof. unfold DeleteGroup. frame. Qed.
Lemma groupMember_frames ctx rnd c add : frames (groupMember ctx rnd c add).
Proof. unfold groupMember. frame. Qed.
Lemma SetNodeACL_frames ctx rnd c : frames (SetNodeACL ctx rnd c).
Proof. unfold SetNodeACL. frame. Qed.
Lemma DeleteNodeACL_frames ctx rnd c : frames (DeleteNodeACL ctx rnd c).
Proof. unfold DeleteNodeACL. frame. Qed.
Lemma AppendAudit_frames ctx rnd e : frames (AppendAudit ctx rnd e).
Proof. frame. Qed.

End operations.

Create HintDb frames.
#[export] Hint Resolve
  ClaimIdempotency_frames ReleaseIdempotency_frames DeleteExpiredIdempotency_frames
  CreateUpload_frames MarkUploading_frames BeginComplete_frames FailUploadCompletion_frames
  MarkObjectCompleted_frames AbortUpload_frames RecordPartSignature_frames
  MarkUploadCleanupComplete_frames FinishUploadMaintenance_frames ReleaseRecycleMaintenance_frames
  claim_uploads_frames ClaimUploadsForMaintenance_frames EnsureOIDCMember_frames
  SetOIDCMemberStatus_frames UpdateMember_frames DeleteMember_frames CreateInvitation_frames
  ListInvitations_frames AcceptInvitation_frames RevokeInvitation_frames CreateGroup_frames
  UpdateGroup_frames DeleteGroup_frames groupMember_frames SetNodeACL_frames DeleteNodeACL_frames
  AppendAudit_frames : frames.

(** ** What the namespace methods leave unchanged

    The loops of the recycle bin, of the purge and of the leases write nodes,
    blobs and leases only: the sessions, the idempotency records, the members
    and the tenants are the same after them. *)

Record same_rest (r r' : Repository) : Prop := {
  sr_tenants : repo_tenants r' = repo_tenants r;
  sr_principals : repo_principals r' = repo_principals r;
  sr_members : repo_members r' = repo_members r;
  sr_uploads : repo_uploads r' = repo_uploads r;
  sr_parts : repo_parts r' = repo_parts r;
  sr_idempotency : repo_idempotency r' = repo_idempotency r;
  sr_acls : repo_acls r' = repo_acls r
}.
#[export] Instance same_rest_refl : Reflexive same_rest.
Proof. by split. Qed.
#[export] Instance same_rest_trans : Transitive same_rest.
Proof. intros ??? [] []. split; congruence. Qed.

Definition rests {A} (m : GoM Repository A) : Prop := ∀ r, wp m (λ _ r', same_rest r r') r.

Ltac rest := unfold rests; intros; frame_unfold; repeat (cbv beta iota; frame_step); try (split; reflexivity).

Section operations.
Context `{!Platform, !MapRange}.
Implicit Types (r : Repository).

Lemma rests_bind {A B} (m : GoM Repository A) (f : A → GoM Repository B) :
  rests m → (∀ a, rests (f a)) → rests (m ≫= f).
Proof.
  intros Hm Hf r. apply wp_bind. eapply wp_mono; [apply Hm|]. intros [a| | |] r' Hr; simpl; try done.
  eapply wp_mono; [apply Hf|]. intros o r'' Hr'. etrans; [exact Hr|exact Hr'].  
Qed.

Lemma rests_for_range {A} (l : list A) body : (∀ x, rests (body x)) → rests (for_range l body).
Proof.
  intros Hbody. induction l as [|x l IH]; simpl; [by rest|]. by apply rests_bind.
Qed.

Lemma recycle_one_rests root now id : rests (recycle_one root now id).
Proof. unfold recycle_one. rest. Qed.
Lemma purge_mark_one_rests now id : rests (purge_mark_one now id).
Proof. unfold purge_mark_one. rest. Qed.
Lemma finish_blob_rests identity now planned : rests (finish_blob identity now planned).
Proof. unfold finish_blob. rest. Qed.

Lemma restore_loop_rests now ids node : rests (restore_loop now ids node).
Proof.
  revert node. induction ids as [|id ids IH]; intros node; simpl; [by rest|].
  repeat (apply rests_bind; [by rest|intros ?]). apply IH.
Qed.

Lemma purge_blobs_rests subtree ids plan : rests (purge_blobs subtree ids plan).
Proof.
  revert plan. induction ids as [|id ids IH]; intros plan; simpl; [by rest|].
  apply rests_bind; [by rest|intros r]. case_match; [|apply IH].
  apply rests_bind; [by rest|intros []]. apply IH.
Qed.

Lemma claim_recycle_rests owner now until ids claims : rests (claim_recycle owner now until ids claims).
Proof.
  revert claims. induction ids as [|id ids IH]; intros claims; simpl; [by rest|].
  repeat (apply rests_bind; [by rest|intros ?]). apply IH.
Qed.

Lemma claim_uploads_rests owner until ids claims : rests (claim_uploads owner until ids claims).
Proof.
  revert claims. induction ids as [|id ids IH]; intros claims; simpl; [by rest|].
  repeat (apply rests_bind; [by rest|intros ?]). apply IH.
Qed.

Lemma audit_rests ctx rnd e : rests (appendAuditLocked ctx rnd e).
Proof. rest. Qed.

Lemma EnsureTenant_uploads seed r : wp (EnsureTenant seed) (λ _ r',
  repo_uploads r' = repo_uploads r ∧ repo_members r' = repo_members r ∧
  repo_idempotency r' = repo_idempotency r) r.
Proof. unfold EnsureTenant. rest; done. Qed.

Ltac rests_step :=
  cbv beta iota;
  lazymatch goal with
  | |- rests (mbind _ _) => apply rests_bind; [|intros ?]
  | |- rests (for_range _ _) => apply rests_for_range; intros ?
  | |- rests (recycle_one _ _ _) => apply recycle_one_rests
  | |- rests (purge_mark_one _ _) => apply purge_mark_one_rests
  | |- rests (finish_blob _ _ _) => apply finish_blob_rests
  | |- rests (restore_loop _ _ _) => apply restore_loop_rests
  | |- rests (purge_blobs _ _ _) => apply purge_blobs_rests
  | |- rests (claim_recycle _ _ _ _ _) => apply claim_recycle_rests
  | |- rests (claim_uploads _ _ _ _) => apply claim_uploads_rests
  | |- rests (appendAuditLocked _ _ _) => apply audit_rests
  | |- rests (match ?x with _ => _ end) => destruct x
  | |- rests _ => solve [rest]
  end.
Ltac rests_auto := repeat rests_step.

Lemma UpdateNode_rests ctx rnd c : rests (UpdateNode ctx rnd c).
Proof. unfold UpdateNode. rest. Qed.
Lemma Recycle_rests ctx rnd i id rev now : rests (Recycle ctx rnd i id rev now).
Proof. unfold Recycle. rests_auto. Qed.
Lemma Restore_rests ctx rnd i id rev now : rests (Restore ctx rnd i id rev now).
Proof. unfold Restore. rests_auto. Qed.
Lemma PreparePurge_rests i id rev now : rests (PreparePurge i id rev now).
Proof. unfold PreparePurge. rests_auto. Qed.
Lemma FinishPurge_rests ctx rnd i plan now : rests (FinishPurge ctx rnd i plan now).
Proof. unfold FinishPurge. rests_auto. Qed.
Lemma ClaimRecycleForMaintenance_rests o cutoff now until limit :
  rests (ClaimRecycleForMaintenance o cutoff now until limit).
Proof. unfold ClaimRecycleForMaintenance. rests_auto. Qed.
Lemma ClaimUploadsForMaintenance_rests o now st until limit :
  rests (ClaimUploadsForMaintenance o now st until limit).
Proof. unfold ClaimUploadsForMaintenance. rests_auto. Qed.
Lemma MarkUploadCleanupComplete_rests i id now : rests (MarkUploadCleanupComplete i id now).
Proof. unfold MarkUploadCleanupComplete. rests_auto. Qed.
Lemma ReleaseRecycleMaintenance_rests o u t e now : rests (ReleaseRecycleMaintenance o u t e now).
Proof. unfold ReleaseRecycleMaintenance. rests_auto. Qed.
Lemma AppendAudit_rests ctx rnd e : rests (AppendAudit ctx rnd e).
Proof. apply audit_rests. Qed.
End operations.

Create HintDb rests.
#[export] Hint Resolve UpdateNode_rests Recycle_rests Restore_rests PreparePurge_rests FinishPurge_rests
  ClaimRecycleForMaintenance_rests ClaimUploadsForMaintenance_rests MarkUploadCleanupComplete_rests
  ReleaseRecycleMaintenance_rests AppendAudit_rests : rests.
