(* ===== verification/Tree.v ===== *)
(** * The namespace as a forest: ancestry, subtrees, and the walks of the code

    [anchored P k d] says that the chain of parents of [k] ends at a root after
    [d] steps, where [P] maps a node to the identifier of its parent. *)
From S2P Require Import Prelude Errors Logic GoLib Types Validation MemoryState.
From S2P Require Import MemoryGovernance MemoryGroups.

Implicit Types (N : gmap string Node) (P : gmap string string) (r : Repository).

Definition parents N : gmap string string := Node_ParentID <$> N.

Inductive anchored P : string → nat → Prop :=
| anchored_root k : P !! k = Some "" → anchored P k 0
| anchored_step k p d : P !! k = Some p → p ≠ "" → anchored P p d → anchored P k (S d).

(** [above P k a]: [a] is [k] or an ancestor of [k]. *)
Inductive above P : string → string → Prop :=
| above_refl k : above P k k
| above_step k p a : P !! k = Some p → p ≠ "" → above P p a → above P k a.

Definition forest P : Prop := ∀ k, is_Some (P !! k) → ∃ d, anchored P k d.

Lemma parents_lookup N k n : N !! k = Some n → parents N !! k = Some (Node_ParentID n).
Proof. intros H. unfold parents. by rewrite lookup_fmap, H. Qed.
Lemma parents_is_Some N k : is_Some (parents N !! k) ↔ is_Some (N !! k).
Proof. unfold parents. by rewrite lookup_fmap, fmap_is_Some. Qed.

Section forest.
Context {P : gmap string string}.

Lemma anchored_is_Some k d : anchored P k d → is_Some (P !! k).
Proof. destruct 1; eauto. Qed.

Lemma anchored_fun k d d' : anchored P k d → anchored P k d' → d = d'.
Proof.
  intros H. revert d'. induction H as [k Hk|k p d Hk Hp H IH]; intros d' H'; inversion H'; simplify_eq; auto.
Qed.

Lemma above_anchored k a d : above P k a → anchored P k d → ∃ d', (d' ≤ d)%nat ∧ anchored P a d'.
Proof.
  intros H. revert d. induction H as [k|k p a Hk Hp H IH]; intros d Hd; [by eauto|].
  inversion Hd; simplify_eq. destruct (IH _ H2) as (d'&?&?). exists d'. split; [lia|done].
Qed.

Lemma above_trans a b c : above P a b → above P b c → above P a c.
Proof. induction 1; eauto using above_step. Qed.

(** No node is a proper ancestor of itself. *)
Lemma above_acyclic k p d : anchored P k d → P !! k = Some p → p ≠ "" → ¬ above P p k.
Proof.
  intros Hd Hk Hp Ha. inversion Hd; simplify_eq.
  destruct (above_anchored _ _ _ Ha H1) as (d'&?&Hd'). pose proof (anchored_fun _ _ _ Hd Hd'). lia.
Qed.

(** The chain of a node, as a list without repetition. *)
Lemma anchored_chain k d : anchored P k d →
  ∃ l, length l = S d ∧ NoDup l ∧ ∀ x, x ∈ l → ∃ d', (d' ≤ d)%nat ∧ anchored P x d'.
Proof.
  induction 1 as [k Hk|k p d Hk Hp H (l&Hlen&Hnd&Hl)].
  - exists [k]. split; [done|]. split; [apply NoDup_singleton|].
    intros x ->%list_elem_of_singleton. exists 0%nat. split; [lia|by apply anchored_root].
  - exists (k :: l). split; [simpl; lia|]. split.
    + apply NoDup_cons_2; [|done]. intros Hin. destruct (Hl _ Hin) as (d'&?&Hd').
      pose proof (anchored_fun _ _ _ (anchored_step P _ _ _ Hk Hp H) Hd'). lia.
    + intros x [->|Hx]%elem_of_cons.
      * exists (S d). split; [lia|by eapply anchored_step].
      * destruct (Hl _ Hx) as (d'&?&?). exists d'. split; [lia|done].
Qed.

Lemma NoDup_keys_length {A} (m : gmap string A) (l : list string) :
  NoDup l → (∀ x, x ∈ l → is_Some (m !! x)) → (length l ≤ size m)%nat.
Proof.
  intros Hnd Hl. rewrite <- size_dom, <- (size_list_to_set (C := gset string) l Hnd).
  apply subseteq_size. intros x Hx%elem_of_list_to_set. by apply elem_of_dom, Hl.
Qed.

Lemma anchored_bound k d : anchored P k d → (d < size P)%nat.
Proof.
  intros H. destruct (anchored_chain _ _ H) as (l&Hlen&Hnd&Hl).
  pose proof (NoDup_keys_length P l Hnd) as Hsz. rewrite Hlen in Hsz. apply Hsz.
  intros x Hx. destruct (Hl _ Hx) as (d'&_&Hd'). by eapply anchored_is_Some.
Qed.
End forest.

(** Ancestry only depends on the chain: changing nodes outside it keeps it. *)
Lemma anchored_weaken P P' k d : anchored P k d →
  (∀ x, above P k x → P' !! x = P !! x) → anchored P' k d.
Proof.
  induction 1 as [k Hk|k p d Hk Hp H IH]; intros Heq.
  - apply anchored_root. rewrite Heq; [done|apply above_refl].
  - eapply anchored_step; [rewrite Heq; [done|apply above_refl]|done|].
    apply IH. intros x Hx. apply Heq. eapply above_step; eauto.
Qed.

(** Reattaching [k] below a node that is not below [k] keeps the forest. *)
Lemma forest_reattach P k p : forest P → is_Some (P !! p) → p ≠ "" → ¬ above P p k →
  forest (<[k := p]> P).
Proof.
  intros HF HP Hp Hna.
  assert (Hk : ∃ d, anchored (<[k:=p]> P) k d).
  { destruct (HF p HP) as [d Hd]. exists (S d). eapply anchored_step; [apply lookup_insert_eq|done|].
    eapply anchored_weaken; [done|]. intros x Hx. apply lookup_insert_ne. intros ->. done. }
  intros x Hx. destruct (decide (x = k)) as [->|Hne]; [done|].
  rewrite lookup_insert_ne in Hx by done.
  destruct (HF x Hx) as [d Hd]. clear Hx. revert Hne. induction Hd as [x Hx|x q d Hx Hq Hd IH]; intros Hne.
  - exists 0%nat. apply anchored_root. by rewrite lookup_insert_ne.
  - destruct (decide (q = k)) as [->|Hqk].
    + destruct Hk as [d' Hd']. exists (S d'). eapply anchored_step; [by rewrite lookup_insert_ne|done|done].
    + destruct (IH Hqk) as [d' Hd']. exists (S d').
      eapply anchored_step; [by rewrite lookup_insert_ne|done|done].
Qed.

(** A new root or a new leaf keeps the forest. *)
Lemma forest_add P k p : forest P → P !! k = None → (p ≠ "" → is_Some (P !! p)) →
  forest (<[k := p]> P).
Proof.
  intros HF Hk Hp.
  assert (Hold : ∀ x d, anchored P x d → anchored (<[k:=p]> P) x d).
  { intros x d Hd. eapply anchored_weaken; [done|]. intros y Hy. apply lookup_insert_ne. intros <-.
    destruct (above_anchored _ _ _ Hy Hd) as (d'&_&Hd'). apply anchored_is_Some in Hd'.
    rewrite Hk in Hd'. by destruct Hd'. }
  intros x Hx. destruct (decide (x = k)) as [->|Hne].
  - destruct (decide (p = "")) as [->|Hpn].
    + exists 0%nat. apply anchored_root, lookup_insert_eq.
    + destruct (HF p (Hp Hpn)) as [d Hd]. exists (S d).
      eapply anchored_step; [apply lookup_insert_eq|done|by apply Hold].
  - rewrite lookup_insert_ne in Hx by done. destruct (HF x Hx) as [d Hd]. eauto.
Qed.

(** ** The walk of [isDescendant] *)

(** Every node is stored under its identifier, and no identifier is empty. *)
Definition ids_ok N : Prop := ∀ k n, N !! k = Some n → Node_ID n = k ∧ k ≠ "".
(** A node and its parent belong to one tenant. *)
Definition tenant_closed N : Prop :=
  ∀ k n p, N !! k = Some n → N !! Node_ParentID n = Some p → Node_TenantID p = Node_TenantID n.

Lemma parents_inv N k p : parents N !! k = Some p → ∃ n, N !! k = Some n ∧ Node_ParentID n = p.
Proof. unfold parents. rewrite lookup_fmap. destruct (N !! k); simpl; intros; simplify_eq; eauto. Qed.

Lemma isDescendant_loop_spec r a t k d fuel n : let N := repo_nodes r in
  ids_ok N → tenant_closed N → anchored (parents N) k d → (d + 2 ≤ fuel)%nat → a ≠ "" →
  N !! k = Some n → Node_TenantID n = t →
  ∃ b, isDescendant_loop r a t fuel k = Some b ∧ (b = true ↔ above (parents N) k a).
Proof.
  intros N Hids Hten Hd. revert fuel n. induction Hd as [k Hk|k p d Hk Hp Hd IH];
    intros fuel n Hfuel Ha Hn Ht; (destruct fuel as [|fuel]; [lia|]); simpl;
    destruct (Hids _ _ Hn) as [_ Hne]; rewrite (bool_decide_eq_false_2 _ Hne);
    (destruct (decide (k = a)) as [->|Hka];
      [rewrite bool_decide_eq_true_2 by done; exists true; split; [done|];
       split; [intros _; apply above_refl|done]|]);
    rewrite (bool_decide_eq_false_2 _ Hka); fold N; rewrite Hn, Ht, (bool_decide_eq_true_2 (t = t)) by done; simpl;
    apply parents_inv in Hk as (n' & Hn' & Hpar); simplify_eq.
  - destruct fuel as [|fuel]; [lia|]. simpl. exists false. split; [by rewrite Hpar|]. split; [done|].
    intros Habove. inversion Habove as [|? q ? Hq Hqne]; simplify_eq.
    apply parents_inv in Hq as (?&?&?). simplify_eq.
  - destruct (anchored_is_Some _ _ Hd) as [q Hq]. apply parents_inv in Hq as (np & Hnp & _).
    destruct (IH fuel np) as (b & -> & Hb); [lia|done|done|by eapply Hten|].
    exists b. split; [done|]. rewrite Hb. split; intros Habove.
    + eapply above_step; eauto using parents_lookup.
    + inversion Habove as [|? q' ? Hq' Hqne]; simplify_eq.
      apply parents_inv in Hq' as (?&?&?). simplify_eq. done.
Qed.

Lemma anchored_fuel r k d : anchored (parents (repo_nodes r)) k d → (d + 2 ≤ node_fuel r)%nat.
Proof.
  intros H. apply anchored_bound in H. unfold node_fuel, parents in *. rewrite map_size_fmap in H. lia.
Qed.

Lemma isDescendant_spec r c a t n : let N := repo_nodes r in
  ids_ok N → tenant_closed N → forest (parents N) → a ≠ "" → N !! c = Some n → Node_TenantID n = t →
  ∃ b, isDescendant r c a t = Some b ∧ (b = true ↔ above (parents N) c a).
Proof.
  intros N Hids Hten HF Ha Hn Ht. destruct (HF c) as [d Hd]; [by apply parents_is_Some; eauto|].
  eapply isDescendant_loop_spec; eauto using anchored_fuel.
Qed.

(** ** The identifiers a loop over the nodes collects *)

Section with_runtime.
Context `{!MapRange}.

Lemma range_node_ids N i : ids_ok N → Node_ID <$> range_values i N = range_keys i N.
Proof.
  intros Hids. unfold range_values, range_keys. rewrite <- list_fmap_compose.
  apply list_fmap_ext. intros j [k v] Hj. apply list_elem_of_lookup_2, elem_of_map_range in Hj.
  by apply Hids.
Qed.

Lemma NoDup_filtered_ids N i (f : Node → bool) : ids_ok N →
  NoDup (Node_ID <$> filter (λ n, f n = true) (range_values i N)).
Proof.
  intros Hids. eapply sublist_NoDup; [apply (NoDup_range_keys i N)|].
  rewrite <- range_node_ids by done. apply fmap_sublist, sublist_filter.
Qed.

Lemma elem_of_filtered_ids N i (f : Node → bool) x : ids_ok N →
  x ∈ Node_ID <$> filter (λ n, f n = true) (range_values i N) ↔ ∃ n, N !! x = Some n ∧ f n = true.
Proof.
  intros Hids. rewrite list_elem_of_fmap. split.
  - intros (n & -> & [Hf Hin]%list_elem_of_filter). apply elem_of_range_values in Hin as [k Hk].
    destruct (Hids _ _ Hk) as [-> _]. eauto.
  - intros (n & Hn & Hf). exists n. destruct (Hids _ _ Hn) as [-> _]. split; [done|].
    apply list_elem_of_filter. split; [done|]. apply elem_of_range_values. eauto.
Qed.

(** ** The work list of [activeSubtree] *)

(** The nodes reached from [root] through visible children of the tenant. *)
Inductive active_below N (t root : string) : string → Prop :=
| below_root : active_below N t root root
| below_child k n : N !! k = Some n → Node_TenantID n = t → visible n = true →
    active_below N t root (Node_ParentID n) → active_below N t root k.

Definition is_child (t parent : string) (n : Node) : bool :=
  (Node_TenantID n == t) && (Node_ParentID n == parent) && visible n.

Lemma is_child_true t p n :
  is_child t p n = true ↔ Node_TenantID n = t ∧ Node_ParentID n = p ∧ visible n = true.
Proof. unfold is_child. rewrite !andb_true_iff, !bool_decide_eq_true. tauto. Qed.

Lemma active_below_above N t root k : ids_ok N → root ≠ "" →
  active_below N t root k → above (parents N) k root.
Proof.
  intros Hids Hroot. induction 1 as [|k n Hn _ _ Hb IH]; [apply above_refl|].
  eapply above_step; [by apply parents_lookup| |done].
  intros E. rewrite E in Hb. inversion Hb as [|? n' Hn']; simplify_eq.
  by destruct (Hids _ _ Hn').
Qed.

(** What holds when the first [i] identifiers of [result] have been expanded. *)
Record expanded N (t root : string) (i : nat) (result : list string) : Prop := {
  ex_NoDup : NoDup result;
  ex_head : result !! 0%nat = Some root;
  ex_below x : x ∈ result → active_below N t root x;
  ex_dom x : x ∈ result → is_Some (N !! x);
  ex_parent j x : result !! j = Some x → (0 < j)%nat →
    ∃ n j', N !! x = Some n ∧ (j' < i)%nat ∧ result !! j' = Some (Node_ParentID n);
  ex_children j p k n : (j < i)%nat → result !! j = Some p → N !! k = Some n →
    is_child t p n = true → k ∈ result
}.

Lemma expanded_start N t root : is_Some (N !! root) → expanded N t root 0 [root].
Proof.
  intros Hroot. split; simpl.
  - apply NoDup_singleton.
  - done.
  - intros x ->%list_elem_of_singleton. constructor.
  - intros x ->%list_elem_of_singleton. done.
  - intros [|j] x Hj Hpos; [lia|done].
  - lia.
Qed.

Lemma expanded_step N t root i result p : ids_ok N → forest (parents N) → root ≠ "" →
  expanded N t root i result → result !! i = Some p →
  expanded N t root (S i)
    (result ++ (Node_ID <$> filter (λ n, is_child t p n = true) (range_values i N))).
Proof.
  intros Hids HF Hroot Hex Hi. set (new := Node_ID <$> _).
  assert (Hnew : ∀ x, x ∈ new ↔ ∃ n, N !! x = Some n ∧ is_child t p n = true)
    by (intros x; by apply elem_of_filtered_ids).
  assert (Hp : p ∈ result) by (by eapply list_elem_of_lookup_2).
  assert (Hfresh : ∀ x, x ∈ new → x ∉ result).
  { intros x (n & Hn & (_ & Hpar & _)%is_child_true)%Hnew [j Hj]%list_elem_of_lookup.
    destruct j as [|j].
    - rewrite (ex_head _ _ _ _ _ Hex) in Hj. injection Hj as <-.
      destruct (HF root) as [d Hd]; [by apply parents_is_Some; eauto|].
      assert (Hne : p ≠ "").
      { intros ->. apply (ex_dom _ _ _ _ _ Hex) in Hp as [q Hq]. by destruct (Hids _ _ Hq). }
      eapply (above_acyclic root p); [done|rewrite <- Hpar; by apply parents_lookup|done|].
      eapply active_below_above; [done..|by apply (ex_below _ _ _ _ _ Hex)].
    - destruct (ex_parent _ _ _ _ _ Hex _ _ Hj) as (n' & j' & Hn' & Hlt & Hj'); [lia|].
      simplify_eq. pose proof (NoDup_lookup _ _ _ _ (ex_NoDup _ _ _ _ _ Hex) Hi Hj'). lia. }
  split.
  - apply NoDup_app. split; [apply Hex|]. split; [|by apply NoDup_filtered_ids].
    intros x Hx Hx'. by apply (Hfresh x).
  - rewrite lookup_app_l; [apply Hex|]. apply lookup_lt_Some in Hi. lia.
  - intros x [Hx|Hx]%elem_of_app; [by apply (ex_below _ _ _ _ _ Hex)|].
    apply Hnew in Hx as (n & Hn & (Ht & Hpar & Hv)%is_child_true).
    eapply below_child; [done..|]. rewrite Hpar. by apply (ex_below _ _ _ _ _ Hex).
  - intros x [Hx|Hx]%elem_of_app; [by apply (ex_dom _ _ _ _ _ Hex)|].
    apply Hnew in Hx as (n & Hn & _). eauto.
  - intros j x Hj Hpos. apply lookup_app_Some in Hj as [Hj|[Hlen Hj]].
    + destruct (ex_parent _ _ _ _ _ Hex _ _ Hj Hpos) as (n & j' & Hn & Hlt & Hj').
      exists n, j'. split; [done|]. split; [lia|]. by apply lookup_app_l_Some.
    + apply list_elem_of_lookup_2, Hnew in Hj as (n & Hn & (_ & Hpar & _)%is_child_true).
      exists n, i. rewrite Hpar. split; [done|]. split; [lia|]. by apply lookup_app_l_Some.
  - intros j q k n Hlt Hj Hn Hc. rewrite elem_of_app.
    apply lookup_app_Some in Hj as [Hj|[Hlen Hj]].
    + destruct (decide (j = i)) as [->|Hne].
      * right. simplify_eq. apply Hnew. eauto.
      * left. eapply (ex_children _ _ _ _ _ Hex); eauto. lia.
    + apply lookup_lt_Some in Hi. lia.
Qed.

Lemma activeSubtree_loop_spec r t root fuel i result : let N := repo_nodes r in
  ids_ok N → forest (parents N) → root ≠ "" → (size N < fuel + i)%nat →
  expanded N t root i result →
  ∃ ids i', activeSubtree_loop r t fuel i result = Some ids ∧
    expanded N t root i' ids ∧ (length ids ≤ i')%nat.
Proof.
  intros N Hids HF Hroot. revert i result. induction fuel as [|fuel IH]; intros i result Hsz Hex;
    simpl; destruct (result !! i) as [p|] eqn:Hi.
  - pose proof (NoDup_keys_length N result (ex_NoDup _ _ _ _ _ Hex) (ex_dom _ _ _ _ _ Hex)).
    apply lookup_lt_Some in Hi. lia.
  - exists result, i. split; [done|]. split; [done|]. by apply lookup_ge_None.
  - apply (IH (S i)); [lia|]. by apply expanded_step.
  - exists result, i. split; [done|]. split; [done|]. by apply lookup_ge_None.
Qed.

(** [activeSubtree] ends, lists no identifier twice, and lists exactly the nodes
    visible below the root. *)
Lemma activeSubtree_spec r t root : let N := repo_nodes r in
  ids_ok N → forest (parents N) → is_Some (N !! root) →
  ∃ ids, activeSubtree r root t = Some ids ∧ NoDup ids ∧ ∀ x, x ∈ ids ↔ active_below N t root x.
Proof.
  intros N Hids HF [n Hn]. destruct (Hids _ _ Hn) as [_ Hroot].
  destruct (activeSubtree_loop_spec r t root (node_fuel r) 0 [root]) as (ids & i & Hrun & Hex & Hlen);
    [done..|unfold node_fuel; lia|by apply expanded_start; eauto|].
  exists ids. split; [done|]. split; [apply Hex|]. intros x. split; [apply Hex|].
  induction 1 as [|k n' Hn' Ht Hv _ [j Hj]%list_elem_of_lookup].
  - eapply list_elem_of_lookup_2, Hex.
  - eapply (ex_children _ _ _ _ _ Hex j); [|done|done|by apply is_child_true].
    apply lookup_lt_Some in Hj. lia.
Qed.

Lemma trashedSubtree_spec r t root : let N := repo_nodes r in ids_ok N →
  NoDup (trashedSubtree r root t) ∧
  ∀ x, x ∈ trashedSubtree r root t ↔
    ∃ n, N !! x = Some n ∧ Node_TenantID n = t ∧ Node_TrashedRootID n = root.
Proof.
  intros N Hids. split; [by apply (NoDup_filtered_ids N)|]. intros x.
  etrans; [by apply (elem_of_filtered_ids N 0
    (λ n, (Node_TenantID n == t) && (Node_TrashedRootID n == root)))|].
  by setoid_rewrite andb_true_iff; setoid_rewrite bool_decide_eq_true.
Qed.

Lemma nameExists_true r t p name except :
  nameExists r t p name except = true ↔
  ∃ k n, repo_nodes r !! k = Some n ∧ Node_ID n ≠ except ∧ Node_TenantID n = t ∧
    Node_ParentID n = p ∧ Node_NormalizedName n = name ∧ visible n = true.
Proof.
  unfold nameExists. rewrite range_existsb.
  setoid_rewrite andb_true_iff. setoid_rewrite andb_true_iff. setoid_rewrite andb_true_iff.
  setoid_rewrite andb_true_iff. setoid_rewrite negb_true_iff.
  setoid_rewrite bool_decide_eq_true. setoid_rewrite bool_decide_eq_false. naive_solver.
Qed.

End with_runtime.

(** ** The walk of the access check ends *)

(** [granted r i needed k a]: an entry on [a] grants the level, and [a] is [k] or above it. *)
Definition granted r (i : Identity) (needed : Z) (k a : string) : Prop :=
  above (parents (repo_nodes r)) k a ∧
  ∃ x entry, repo_acls r !! x = Some entry ∧ acl_grants r i needed a entry = true.

Lemma acl_walk_spec `{!MapRange} r i needed k d fuel : ids_ok (repo_nodes r) →
  anchored (parents (repo_nodes r)) k d → (d + 2 ≤ fuel)%nat → k ≠ "" →
  ∃ b, acl_walk r i needed fuel k = Some b ∧ (b = true ↔ ∃ a, granted r i needed k a).
Proof.
  intros Hids Hd. revert fuel. induction Hd as [k Hk|k p d Hk Hp Hd IH]; intros fuel Hfuel Hne;
    (destruct fuel as [|fuel]; [lia|]); simpl; rewrite (bool_decide_eq_false_2 _ Hne);
    destruct (existsb _ _) eqn:Hhere.
  1, 3: exists true; split; [done|]; split; [intros _|done]; apply range_existsb in Hhere;
    exists k; split; [constructor|done].
  all: rewrite range_existsb_false in Hhere;
    assert (Hno : ¬ ∃ x entry, repo_acls r !! x = Some entry ∧ acl_grants r i needed k entry = true)
      by (intros (x & entry & Hx & Hg); by rewrite (Hhere _ _ Hx) in Hg);
    pose proof Hk as Hk'; apply parents_inv in Hk as (n & -> & Hpar).
  - destruct fuel as [|fuel]; [lia|]. simpl. rewrite Hpar, bool_decide_eq_true_2 by done.
    exists false. split; [done|]. split; [done|]. intros (a & Ha & Hgrant).
    inversion Ha as [|? q ? Hq Hqne]; simplify_eq; done.
  - rewrite Hpar. destruct (IH fuel) as (b & -> & Hb); [lia|done|]. exists b. split; [done|].
    rewrite Hb. split; intros (a & Ha & Hgrant).
    + exists a. split; [by eapply above_step|done].
    + inversion Ha as [|? q ? Hq Hqne Hqa]; simplify_eq. by exists a.
Qed.
