(* ===== verification/TreeInvariant.v ===== *)
(** * The invariant of the namespace and its preservation

    [wf_tree] states what the namespace methods rely on: nodes are stored under
    their identifiers, every chain of parents ends at the root of the tenant,
    parents are directories of the same tenant, a visible node has a visible
    parent, the nodes recycled together form a connected group under the entry of
    the recycle bin, and no two nodes of a directory that are visible together
    have the same normalized name. *)
From S2P Require Import Prelude Errors Logic GoLib Types Validation MemoryState.
From S2P Require Import MemoryIdempotency MemoryNamespace MemoryUploads MemoryFrame Tree.

Implicit Types (N : gmap string Node) (T : gmap string Tenant) (r : Repository).

Record wf_node N T (k : string) (n : Node) : Prop := {
  wn_id : Node_ID n = k;
  wn_key : k ≠ "";
  wn_root : Node_ParentID n = "" → Node_TrashedRootID n = "" ∧ Node_Kind n = NodeDirectory ∧
    Tenant_RootNodeID <$> T !! Node_TenantID n = Some k;
  wn_parent : Node_ParentID n ≠ "" → ∃ p, N !! Node_ParentID n = Some p ∧
    Node_TenantID p = Node_TenantID n ∧ Node_Kind p = NodeDirectory ∧
    (Node_TrashedRootID n = "" → Node_TrashedRootID p = "");
  wn_status : Node_TrashedRootID n = "" → Node_Status n = NodeActive;
  wn_entry : Node_TrashedRootID n = k →
    (Node_Status n = NodeTrashed ∨ Node_Status n = NodePurging) ∧
    Node_OriginalParentID n = Node_ParentID n;
  wn_group : Node_TrashedRootID n ≠ "" → Node_TrashedRootID n ≠ k →
    (∃ e, N !! Node_TrashedRootID n = Some e ∧ Node_TrashedRootID e = Node_TrashedRootID n ∧
      Node_TenantID e = Node_TenantID n ∧ (Node_Status e = NodeTrashed → Node_Status n = NodeActive)) ∧
    (∃ p, N !! Node_ParentID n = Some p ∧ Node_TrashedRootID p = Node_TrashedRootID n)
}.

(** Two nodes in the same place, with the same name, visible together. *)
Definition same_slot (n1 n2 : Node) : Prop :=
  Node_TenantID n1 = Node_TenantID n2 ∧ Node_ParentID n1 = Node_ParentID n2 ∧
  Node_NormalizedName n1 = Node_NormalizedName n2 ∧ Node_TrashedRootID n1 = Node_TrashedRootID n2.

Record wf_maps N T : Prop := {
  wt_node k n : N !! k = Some n → wf_node N T k n;
  wt_forest : forest (parents N);
  wt_slots k1 k2 n1 n2 : N !! k1 = Some n1 → N !! k2 = Some n2 → same_slot n1 n2 → k1 = k2;
  wt_tenant t tenant : T !! t = Some tenant → Tenant_ID tenant = t ∧
    ∃ n, N !! Tenant_RootNodeID tenant = Some n ∧ Node_ParentID n = "" ∧ Node_TenantID n = t ∧
      Node_Kind n = NodeDirectory
}.
Definition wf_tree r : Prop := wf_maps (repo_nodes r) (repo_tenants r).

Lemma wf_tree_same r r' : same_tree r r' → wf_tree r → wf_tree r'.
Proof. unfold wf_tree. by intros [-> ->]. Qed.

Lemma visible_true n : visible n = true ↔ Node_Status n = NodeActive ∧ Node_TrashedRootID n = "".
Proof. unfold visible. by rewrite andb_true_iff, !bool_decide_eq_true. Qed.

Section facts.
Context {N T} (HW : wf_maps N T).

Lemma wf_ids : ids_ok N.
Proof. intros k n Hn. destruct (wt_node _ _ HW _ _ Hn). done. Qed.

Lemma wf_tenant_closed : tenant_closed N.
Proof.
  intros k n p Hn Hp. pose proof (wt_node _ _ HW _ _ Hn) as Hw.
  destruct (decide (Node_ParentID n = "")) as [E|E].
  - rewrite E in Hp. by destruct (wn_key _ _ _ _ (wt_node _ _ HW _ _ Hp)).
  - destruct (wn_parent _ _ _ _ Hw E) as (p' & Hp' & Ht & _). by simplify_eq.
Qed.

(** [TrashedRootID] alone decides whether a node is visible. *)
Lemma wf_visible k n : N !! k = Some n → visible n = true ↔ Node_TrashedRootID n = "".
Proof.
  intros Hn. rewrite visible_true. split; [tauto|]. intros H. split; [|done].
  by apply (wn_status _ _ _ _ (wt_node _ _ HW _ _ Hn)).
Qed.

(** An entry of the recycle bin is not a tenant root. *)
Lemma wf_entry_parent k n : N !! k = Some n → Node_TrashedRootID n ≠ "" → Node_ParentID n ≠ "".
Proof. intros Hn Ht E. by destruct (wn_root _ _ _ _ (wt_node _ _ HW _ _ Hn) E). Qed.
End facts.

(** ** One update of many nodes *)

(** The nodes [ids] are replaced by [f] of themselves, the others stay. *)
Definition updated N N' (ids : list string) (f : string → Node → Node) : Prop :=
  ∀ k, N' !! k = if decide (k ∈ ids) then f k <$> N !! k else N !! k.

Lemma updated_parents N N' ids f : updated N N' ids f →
  (∀ k n, N !! k = Some n → k ∈ ids → Node_ParentID (f k n) = Node_ParentID n) →
  parents N' = parents N.
Proof.
  intros HU Hf. apply map_eq. intros k. unfold parents. rewrite !lookup_fmap, (HU k).
  case_decide as Hk; [|done]. destruct (N !! k) as [n|] eqn:Hn; [|done]. simpl. f_equal. by apply Hf.
Qed.

(** A loop that replaces, one after the other, the nodes of a list. *)
Lemma wp_update_loop (f : string → Node → Node) body ids r :
  (∀ id r, (body id : GoM Repository unit) r = putNode id (f id (map_get (repo_nodes r) id)) r) →
  NoDup ids → (∀ id, id ∈ ids → is_Some (repo_nodes r !! id)) →
  wp (for_range ids body) (λ o r', o = Ok tt ∧ ∃ N', r' = r <| repo_nodes := N' |> ∧
    updated (repo_nodes r) N' ids f) r.
Proof.
  intros Hbody. revert r. induction ids as [|id ids IH]; intros r Hnd Hdom; simpl.
  - apply wp_ret. split; [done|]. exists (repo_nodes r). split; [by destruct r|].
    intros k. rewrite decide_False; [done|]. apply not_elem_of_nil.
  - apply NoDup_cons in Hnd as [Hid Hnd]. apply wp_bind. unfold wp at 1. rewrite Hbody.
    unfold putNode. cbn [modS fst snd bind_post].
    destruct (Hdom id) as [n Hn]; [by left|]. unfold map_get. rewrite Hn. simpl.
    eapply wp_mono; [apply IH; [done|]|]; simpl.
    + intros x Hx. destruct (decide (x = id)) as [->|Hne]; [done|].
      rewrite lookup_insert_ne by done. apply Hdom. by right.
    + intros o r' (-> & N' & -> & HU). split; [done|]. exists N'. split; [by destruct r|].
      intros k. rewrite (HU k). simpl. destruct (decide (k = id)) as [->|Hne].
      * rewrite decide_False by done. rewrite decide_True by (by left).
        by rewrite lookup_insert_eq, Hn.
      * rewrite lookup_insert_ne by done. destruct (decide (k ∈ ids)).
        -- rewrite decide_True; [done|]. by right.
        -- rewrite decide_False; [done|]. rewrite elem_of_cons. tauto.
Qed.

(** ** Adding a node *)

Lemma wf_node_mono N N' T T' k n : N ⊆ N' → T ⊆ T' → wf_node N T k n → wf_node N' T' k n.
Proof.
  intros HN HT [? ? Hroot Hpar ? ? Hgrp]. split; try done.
  - intros E. destruct (Hroot E) as (? & ? & Ht). split; [done|]. split; [done|].
    destruct (T !! Node_TenantID n) as [ten|] eqn:Hten; [|done].
    by rewrite (lookup_weaken _ _ _ _ Hten HT).
  - intros E. destruct (Hpar E) as (p & Hp & ?). exists p. split; [by eapply lookup_weaken|done].
  - intros E1 E2. destruct (Hgrp E1 E2) as ((e & He & ?) & (p & Hp & ?)).
    split; [exists e|exists p]; (split; [by eapply lookup_weaken|done]).
Qed.

Lemma wf_add_node N T T' k n : wf_maps N T → T ⊆ T' → N !! k = None → k ≠ "" →
  Node_ID n = k → visible n = true →
  (Node_ParentID n = "" → Node_Kind n = NodeDirectory ∧ Tenant_RootNodeID <$> T' !! Node_TenantID n = Some k) →
  (Node_ParentID n ≠ "" → ∃ p, N !! Node_ParentID n = Some p ∧
    Node_TenantID p = Node_TenantID n ∧ Node_Kind p = NodeDirectory ∧ Node_TrashedRootID p = "") →
  (∀ k' n', N !! k' = Some n' → ¬ same_slot n' n) →
  (∀ t tenant, T' !! t = Some tenant → T !! t = Some tenant ∨
    Tenant_ID tenant = t ∧ Tenant_RootNodeID tenant = k ∧ Node_ParentID n = "" ∧
    Node_TenantID n = t ∧ Node_Kind n = NodeDirectory) →
  wf_maps (<[k := n]> N) T'.
Proof.
  intros HW HT Hk Hne Hid [Hst Htr]%visible_true Hroot Hpar Hslot Hten.
  assert (HN : N ⊆ <[k:=n]> N) by (by apply insert_subseteq).
  split.
  - intros k' n' Hn'. apply lookup_insert_Some in Hn' as [[<- <-]|[_ Hn']];
      [|by eapply wf_node_mono; [..|by apply (wt_node _ _ HW)]].
    split; [done|done|intros E; by destruct (Hroot E)| |done|congruence|congruence].
    intros E. destruct (Hpar E) as (p & Hp & ? & ? & ?). exists p.
    split; [by eapply lookup_weaken|done].
  - unfold parents. rewrite fmap_insert. apply forest_add; [apply HW| |].
    + by rewrite lookup_fmap, Hk.
    + intros E. destruct (Hpar E) as (p & Hp & _). rewrite lookup_fmap, Hp. by eexists.
  - intros k1 k2 n1 n2 Hn1 Hn2 Hs.
    apply lookup_insert_Some in Hn1 as [[<- <-]|[_ Hn1]];
      apply lookup_insert_Some in Hn2 as [[<- <-]|[_ Hn2]]; [done| | |by eapply HW].
    + destruct (Hslot _ _ Hn2). unfold same_slot in *. intuition congruence.
    + by destruct (Hslot _ _ Hn1).
  - intros t tenant Ht. destruct (Hten _ _ Ht) as [Ht'|(? & <- & ? & ? & ?)].
    + destruct (wt_tenant _ _ HW _ _ Ht') as (? & n' & Hn' & ?). split; [done|].
      exists n'. split; [by eapply lookup_weaken|done].
    + split; [done|]. exists n. by rewrite lookup_insert_eq.
Qed.

(** ** Changing the trash fields of nodes *)

Definition same_shape (n n' : Node) : Prop :=
  Node_ID n' = Node_ID n ∧ Node_TenantID n' = Node_TenantID n ∧ Node_ParentID n' = Node_ParentID n ∧
  Node_Kind n' = Node_Kind n ∧ Node_NormalizedName n' = Node_NormalizedName n.

Definition after_update (ids : list string) (f : string → Node → Node) (k : string) (n : Node) : Node :=
  if decide (k ∈ ids) then f k n else n.

Lemma updated_lookup N N' ids f k n : updated N N' ids f → N !! k = Some n →
  N' !! k = Some (after_update ids f k n).
Proof. intros HU Hn. rewrite (HU k), Hn. unfold after_update. by case_decide. Qed.
Lemma updated_inv N N' ids f k n' : updated N N' ids f → N' !! k = Some n' →
  ∃ n, N !! k = Some n ∧ n' = after_update ids f k n.
Proof.
  intros HU. rewrite (HU k). unfold after_update. case_decide; [|eauto].
  destruct (N !! k); simpl; intros; simplify_eq; eauto.
Qed.

Lemma wf_update N N' T ids f : let g := after_update ids f in
  wf_maps N T → updated N N' ids f →
  (∀ k n, k ∈ ids → N !! k = Some n → same_shape n (f k n)) →
  (∀ k n, N !! k = Some n → Node_ParentID n = "" → Node_TrashedRootID (g k n) = "") →
  (∀ k n p, N !! k = Some n → N !! Node_ParentID n = Some p →
    Node_TrashedRootID (g k n) = "" → Node_TrashedRootID (g (Node_ParentID n) p) = "") →
  (∀ k n, N !! k = Some n → Node_TrashedRootID (g k n) = "" → Node_Status (g k n) = NodeActive) →
  (∀ k n, N !! k = Some n → Node_TrashedRootID (g k n) = k →
    (Node_Status (g k n) = NodeTrashed ∨ Node_Status (g k n) = NodePurging) ∧
    Node_OriginalParentID (g k n) = Node_ParentID n) →
  (∀ k n t p, N !! k = Some n → Node_TrashedRootID (g k n) = t → t ≠ "" → t ≠ k →
    N !! Node_ParentID n = Some p →
    (∃ e, N !! t = Some e ∧ Node_TrashedRootID (g t e) = t ∧ Node_TenantID e = Node_TenantID n ∧
      (Node_Status (g t e) = NodeTrashed → Node_Status (g k n) = NodeActive)) ∧
    Node_TrashedRootID (g (Node_ParentID n) p) = t) →
  (∀ k1 k2 n1 n2, N !! k1 = Some n1 → N !! k2 = Some n2 → same_slot n1 (n2 <| Node_TrashedRootID := Node_TrashedRootID n1 |>) →
    Node_TrashedRootID (g k1 n1) = Node_TrashedRootID (g k2 n2) → k1 = k2) →
  wf_maps N' T.
Proof.
  intros g HW HU Hf H1 H2 H3 H4 H5 H6.
  assert (Hg : ∀ k n, N !! k = Some n → same_shape n (g k n)).
  { intros k n Hn. unfold g, after_update. case_decide; [by apply Hf|done]. }
  split.
  - intros k n' Hn'. destruct (updated_inv _ _ _ _ _ _ HU Hn') as (n & Hn & ->). fold g in Hn' |- *.
    destruct (Hg _ _ Hn) as (Hid & Hten & Hpar & Hkind & _).
    pose proof (wt_node _ _ HW _ _ Hn) as Hw.
    assert (Hp : Node_ParentID n ≠ "" → ∃ p, N !! Node_ParentID n = Some p ∧
        Node_TenantID p = Node_TenantID n ∧ Node_Kind p = NodeDirectory)
      by (intros E; destruct (wn_parent _ _ _ _ Hw E) as (p & ? & ? & ? & _); eauto).
    split.
    + rewrite Hid. apply Hw.
    + apply Hw.
    + rewrite Hpar, Hkind, Hten. intros E. split; [by eapply H1|]. by apply (wn_root _ _ _ _ Hw).
    + rewrite Hpar, Hten. intros E. destruct (Hp E) as (p & Hpn & Ht & Hk).
      exists (g (Node_ParentID n) p). destruct (Hg _ _ Hpn) as (_ & -> & _ & -> & _).
      split; [by eapply updated_lookup|]. split; [done|]. split; [done|]. by eapply H2.
    + by apply H3.
    + rewrite Hpar. by apply H4.
    + rewrite Hpar, Hten. intros E1 E2.
      assert (Hpne : Node_ParentID n ≠ "") by (intros E; by destruct E1; eapply H1).
      destruct (Hp Hpne) as (p & Hpn & _).
      destruct (H5 _ _ _ _ Hn eq_refl E1 E2 Hpn) as ((e & He & Hte & Htene & Hste) & Htp). split.
      * exists (g (Node_TrashedRootID (g k n)) e). destruct (Hg _ _ He) as (_ & -> & _).
        split; [by eapply updated_lookup|done].
      * exists (g (Node_ParentID n) p). split; [by eapply updated_lookup|done].
  - erewrite updated_parents; [apply HW|done|]. intros k n Hn Hk. by apply Hf.
  - intros k1 k2 n1' n2' Hn1 Hn2 (Ht & Hp & Hnm & Htr).
    destruct (updated_inv _ _ _ _ _ _ HU Hn1) as (n1 & Hn1' & ->).
    destruct (updated_inv _ _ _ _ _ _ HU Hn2) as (n2 & Hn2' & ->). fold g in Ht, Hp, Hnm, Htr.
    destruct (Hg _ _ Hn1') as (_ & Ht1 & Hp1 & _ & Hm1), (Hg _ _ Hn2') as (_ & Ht2 & Hp2 & _ & Hm2).
    eapply (H6 k1 k2); [done..| |done]. repeat split; simpl; congruence.
  - intros t tenant Ht. destruct (wt_tenant _ _ HW _ _ Ht) as (? & n & Hn & Hpar & Hten & Hk).
    split; [done|]. exists (g (Tenant_RootNodeID tenant) n).
    destruct (Hg _ _ Hn) as (_ & -> & -> & -> & _). split; [by eapply updated_lookup|done].
Qed.
