(* ===== verification/TreeOperations.v ===== *)
(** * Every namespace operation preserves the invariant of the tree *)
From S2P Require Import Prelude Errors Logic GoLib Types Validation MemoryState.
From S2P Require Import MemoryIdempotency MemoryNamespace MemoryUploads MemoryFrame Tree.
From S2P Require Import TreeInvariant.

Implicit Types (r : Repository).

(** An identifier no node uses yet: what a random identifier is relied on for. *)
Definition fresh_node r (id : string) : Prop := id ≠ "" ∧ repo_nodes r !! id = None.

Lemma NewRepository_wf : wf_tree NewRepository.
Proof.
  split; try done; try (intros; simplify_map_eq; done).
  intros k Hk. unfold parents in Hk. rewrite lookup_fmap in Hk. by destruct Hk.
Qed.

Lemma activeDirectory_Some r t id p : activeDirectory r t id = Some p ↔
  repo_nodes r !! id = Some p ∧ Node_TenantID p = t ∧ visible p = true ∧ Node_Kind p = NodeDirectory.
Proof.
  unfold activeDirectory, activeNode. destruct (repo_nodes r !! id) as [n|]; [|naive_solver].
  destruct (_ && _) eqn:E.
  - go_bool. case_bool_decide; naive_solver.
  - split; [done|]. intros (? & <- & Hv & _). simplify_eq.
    by rewrite bool_decide_eq_true_2, Hv in E by done.
Qed.

Lemma activeNode_Some r t id n : activeNode r t id = Some n ↔
  repo_nodes r !! id = Some n ∧ Node_TenantID n = t ∧ visible n = true.
Proof.
  unfold activeNode. destruct (repo_nodes r !! id) as [m|]; [|naive_solver].
  destruct (_ && _) eqn:E.
  - go_bool. naive_solver.
  - split; [done|]. intros (? & <- & Hv). simplify_eq.
    by rewrite bool_decide_eq_true_2, Hv in E by done.
Qed.

Section with_runtime.
Context `{!Platform, !MapRange}.

(** ** Creation *)

(** A visible node below an active directory, with a free name. *)
Lemma wf_add_child r t k n p : wf_tree r → fresh_node r k → Node_ID n = k → Node_TenantID n = t →
  visible n = true → activeDirectory r t (Node_ParentID n) = Some p →
  nameExists r t (Node_ParentID n) (Node_NormalizedName n) "" = false →
  wf_maps (<[k := n]> (repo_nodes r)) (repo_tenants r).
Proof.
  intros HW [Hne Hk] Hid Ht Hv (Hp & Htp & Hvp & Hdir)%activeDirectory_Some Hname.
  assert (Hpne : Node_ParentID n ≠ "") by (by apply (wt_node _ _ HW _ _ Hp)).
  eapply wf_add_node; [done|done|done|done|done|done|done| | |auto].
  - intros _. exists p. split; [done|]. split; [congruence|]. split; [done|]. by apply visible_true in Hvp as [_ ?].
  - intros k' n' Hn' (Ht' & Hp' & Hm & Htr). apply not_true_iff_false in Hname. apply Hname, nameExists_true.
    destruct (wf_ids HW _ _ Hn') as [Hid' Hne']. exists k', n'.
    apply visible_true in Hv as [_ Hv]. split_and!; [done|congruence|congruence|done|done|].
    apply (wf_visible HW _ _ Hn'). congruence.
Qed.

Lemma EnsureTenant_keeps seed r : wf_tree r → fresh_node r (TenantSeed_RootNodeID seed) →
  wp (EnsureTenant seed) (λ _ r', wf_tree r') r.
Proof.
  intros HW [Hne Hk]. unfold EnsureTenant, putNode. wp_go; [done|]. unfold wf_tree. simpl.
  eapply wf_add_node; [done|by apply insert_subseteq|done|done|done|done| | | |].
  - intros _. split; [done|]. simpl. by rewrite lookup_insert_eq.
  - done.
  - intros k' n' Hn' (Ht & Hp & _ & _). simpl in *.
    destruct (wn_root _ _ _ _ (wt_node _ _ HW _ _ Hn') Hp) as (_ & _ & Hr).
    rewrite Ht in Hr. by rewrite Heqo in Hr.
  - intros t ten Hten. apply lookup_insert_Some in Hten as [[<- <-]|[_ Hten]]; [right|by left].
    done.
Qed.

Lemma CreateDirectory_keeps ctx rnd c r : wf_tree r → fresh_node r (CreateDirectoryCommand_ID c) →
  wp (CreateDirectory ctx rnd c) (λ _ r', wf_tree r') r.
Proof.
  intros HW Hfresh. unfold CreateDirectory, putNode.
  assert (Hdel : ∀ n, delete (CreateDirectoryCommand_ID c) (<[CreateDirectoryCommand_ID c := n]> (repo_nodes r))
                      = repo_nodes r) by (intros n; apply delete_insert_id, Hfresh).
  repeat (cbv beta iota; frame_step); try done; unfold wf_tree; simpl; rewrite ?Hdel; try done;
    by eapply wf_add_child.
Qed.

(** What the service and the maintenance loop put in a commit. *)
Definition commit_shape (session : UploadSession) (c : CommitUploadCommand) : Prop :=
  let n := CommitUploadCommand_Node c in
  Node_TenantID n = UploadSession_TenantID session ∧
  Node_ParentID n = UploadSession_ParentID session ∧
  Node_NormalizedName n = UploadSession_NormalizedName session ∧
  Node_Status n = NodeActive ∧ Node_TrashedRootID n = "" ∧ Node_Kind n = NodeFile ∧
  Node_CurrentVersionID n = FileVersion_ID (CommitUploadCommand_Version c) ∧
  FileVersion_BlobID (CommitUploadCommand_Version c) = Blob_ID (CommitUploadCommand_Blob c) ∧
  FileVersion_NodeID (CommitUploadCommand_Version c) = Node_ID n ∧
  FileVersion_TenantID (CommitUploadCommand_Version c) = UploadSession_TenantID session ∧
  Blob_TenantID (CommitUploadCommand_Blob c) = UploadSession_TenantID session ∧
  Blob_Status (CommitUploadCommand_Blob c) = BlobAvailable.

Lemma uploadFor_Ok r i id session : uploadFor r i id = Ok session ↔
  repo_uploads r !! id = Some session ∧ UploadSession_TenantID session = Identity_TenantID i.
Proof.
  unfold uploadFor. destruct (repo_uploads r !! id) as [u|]; [|naive_solver].
  case_bool_decide; naive_solver.
Qed.

Lemma CommitUpload_keeps ctx rnd c r : wf_tree r →
  (∀ session, repo_uploads r !! CommitUploadCommand_SessionID c = Some session →
    UploadSession_Status session = UploadObjectCompleted →
    fresh_node r (Node_ID (CommitUploadCommand_Node c)) ∧ commit_shape session c) →
  wp (CommitUpload ctx rnd c) (λ _ r', wf_tree r') r.
Proof.
  intros HW Hc. unfold CommitUpload, reject_commit, mark_cleanup_pending, putUploadLease, putBlob,
    putVersion, putNode, putUpload.
  repeat (cbv beta iota; frame_step); try done; unfold wf_tree; simpl; try done.
  all: apply uploadFor_Ok in Heqo as [Hs Ht]; go_bool;
    destruct (Hc _ Hs) as [Hf (Hnt & Hnp & Hnn & Hst & Htr & Hk & _)]; [congruence|];
    eapply (wf_add_child r (UploadSession_TenantID a)); [done..|by apply visible_true| |];
    rewrite ?Hnp, ?Hnn, ?Ht; try done; congruence.
Qed.

(** ** Renaming and moving *)

(** A visible node that is not a tenant root, with a new name and a new place. *)
Definition relocated (n : Node) (parent name : string) (n' : Node) : Prop :=
  Node_ID n' = Node_ID n ∧ Node_TenantID n' = Node_TenantID n ∧ Node_Kind n' = Node_Kind n ∧
  Node_Status n' = Node_Status n ∧ Node_TrashedRootID n' = Node_TrashedRootID n ∧
  Node_ParentID n' = parent ∧ Node_NormalizedName n' = name.

(** Only directories are above other nodes. *)
Lemma above_directory N T x k n : wf_maps N T → above (parents N) x k → x ≠ k → N !! k = Some n →
  Node_Kind n = NodeDirectory.
Proof.
  intros HW Ha. induction Ha as [|x p k Hx Hp Ha IH]; intros Hne Hn; [done|].
  destruct (decide (p = k)) as [->|Hpk]; [|by apply IH].
  apply parents_inv in Hx as (nx & Hnx & Hpar). subst k.
  destruct (wn_parent _ _ _ _ (wt_node _ _ HW _ _ Hnx) Hp) as (q & Hq & _ & Hk & _). by simplify_eq.
Qed.

Lemma wf_relocate r k n n' p name q : wf_tree r → repo_nodes r !! k = Some n → visible n = true → Node_ParentID n ≠ "" →
  relocated n p name n' → activeDirectory r (Node_TenantID n) p = Some q →
  (p = Node_ParentID n ∨ ¬ above (parents (repo_nodes r)) p k) →
  nameExists r (Node_TenantID n) p name k = false →
  wf_maps (<[k := n']> (repo_nodes r)) (repo_tenants r).
Proof.
  intros HW Hn Hv Hpar (Hid & Ht & Hk & Hst & Htr & Hp' & Hnm) (Hq & Htq & Hvq & Hdq)%activeDirectory_Some
    Hnot Hname. set (N := repo_nodes r) in *.
  pose proof (wt_node _ _ HW _ _ Hn) as Hw. apply visible_true in Hv as [Hact Hvis].
  apply visible_true in Hvq as [_ Hvq].
  assert (Hpne : p ≠ "") by (by destruct (wf_ids HW _ _ Hq)).
  assert (Hpk : p ≠ k).
  { intros ->. destruct Hnot as [Heq|Hnot]; [|by destruct Hnot; constructor].
    destruct (wt_forest _ _ HW k) as [d Hd]; [apply parents_is_Some; eauto|].
    eapply (above_acyclic k k); [done| |done|constructor]. rewrite Heq at 2. by apply parents_lookup. }
  assert (Hlk : ∀ x m, N !! x = Some m → ∃ m', <[k:=n']> N !! x = Some m' ∧
    Node_TenantID m' = Node_TenantID m ∧ Node_Kind m' = Node_Kind m ∧
    Node_Status m' = Node_Status m ∧ Node_TrashedRootID m' = Node_TrashedRootID m).
  { intros x m Hm. destruct (decide (x = k)) as [->|Hne].
    - exists n'. rewrite lookup_insert_eq. simplify_eq. done.
    - exists m. by rewrite lookup_insert_ne. }
  split.
  - intros x m Hm. apply lookup_insert_Some in Hm as [[<- <-]|[Hne Hm]].
    + split; try (rewrite ?Hid, ?Hp', ?Hst, ?Htr, ?Ht; by (apply Hw || intros)).
      * rewrite Hp', Ht. intros _. exists q. rewrite lookup_insert_ne by done.
        split; [done|]. split; [done|]. by split.
      * rewrite Htr, Hvis. intros E. by destruct (wn_key _ _ _ _ Hw).
    + destruct (wt_node _ _ HW _ _ Hm) as [? ? Hroot Hparent ? ? Hgroup]. split; try done.
      * intros E. destruct (Hparent E) as (y & Hy & ? & ? & Hvy).
        destruct (Hlk _ _ Hy) as (y' & Hy' & Hty & Hky & _ & Htry).
        exists y'. rewrite Hty, Hky, Htry. done.
      * intros E1 E2. destruct (Hgroup E1 E2) as ((e & He & ? & ? & Hse) & (y & Hy & ?)).
        destruct (Hlk _ _ He) as (e' & He' & Hte & _ & Hs' & Htre).
        destruct (Hlk _ _ Hy) as (y' & Hy' & _ & _ & _ & Htry). split.
        -- exists e'. rewrite Hte, Hs', Htre. done.
        -- exists y'. rewrite Htry. done.
  - unfold parents. rewrite fmap_insert, Hp'. fold (parents N).
    destruct Hnot as [->|Hnot].
    + rewrite insert_id; [apply HW|by apply parents_lookup].
    + apply forest_reattach; [apply HW|apply parents_is_Some; eauto|done|done].
  - apply not_true_iff_false in Hname. rewrite nameExists_true in Hname.
    assert (Hslot : ∀ x m, N !! x = Some m → x ≠ k → ¬ same_slot m n').
    { intros x m Hm Hne (E1 & E2 & E3 & E4). apply Hname. exists x, m.
      destruct (wf_ids HW _ _ Hm) as [Hidx _].
      split_and!; [done|congruence|congruence|congruence|congruence|].
      apply (wf_visible HW _ _ Hm). congruence. }
    intros k1 k2 n1 n2 Hn1 Hn2 Hs.
    apply lookup_insert_Some in Hn1 as [[<- <-]|[Hne1 Hn1]];
      apply lookup_insert_Some in Hn2 as [[<- <-]|[Hne2 Hn2]]; [done| | |by eapply HW].
    + destruct (Hslot _ _ Hn2); [done|]. unfold same_slot in *. intuition congruence.
    + by destruct (Hslot _ _ Hn1).
  - intros t' tenant Hten. destruct (wt_tenant _ _ HW _ _ Hten) as (? & m & Hm & ? & ? & ?).
    split; [done|]. exists m. rewrite lookup_insert_ne; [done|]. intros E. rewrite <- E in Hm.
    fold N in Hm. simplify_eq.
Qed.

(** The tree lookups of a check on the target of a move. *)
Lemma check_move_Ok r n k p : wf_tree r → repo_nodes r !! k = Some n →
  check_move r (Node_TenantID n) n p = Ok tt →
  ∃ q, activeDirectory r (Node_TenantID n) p = Some q ∧ ¬ above (parents (repo_nodes r)) p k.
Proof.
  intros HW Hn. unfold check_move. destruct (activeDirectory r _ p) as [q|] eqn:Hq; [|done].
  intros Hmove. exists q. split; [done|]. apply activeDirectory_Some in Hq as (Hq & Htq & _ & Hdq).
  destruct (wf_ids HW _ _ Hn) as [Hid Hne]. case_bool_decide as Hkind.
  - destruct (isDescendant_spec r p k (Node_TenantID n) q) as (b & Hrun & Hb);
      [by eapply wf_ids|by eapply wf_tenant_closed|apply HW|done..|].
    rewrite Hid, Hrun in Hmove. destruct b; [done|]. intros Ha. by apply Hb in Ha.
  - intros Ha. apply Hkind. eapply above_directory; [done..| |done]. congruence.
Qed.

(** The walk of a move always ends. *)
Lemma check_move_ends r n k p : wf_tree r → repo_nodes r !! k = Some n →
  check_move r (Node_TenantID n) n p ≠ Diverged.
Proof.
  intros HW Hn. unfold check_move. destruct (activeDirectory r _ p) as [q|] eqn:Hq; [|done].
  apply activeDirectory_Some in Hq as (Hq & Htq & _ & Hdq).
  destruct (wf_ids HW _ _ Hn) as [Hid Hne]. case_bool_decide; [|done].
  destruct (isDescendant_spec r p k (Node_TenantID n) q) as (b & Hrun & _);
    [by eapply wf_ids|by eapply wf_tenant_closed|apply HW|done..|].
  rewrite Hid, Hrun. by destruct b.
Qed.

Lemma not_root_parent r k n : wf_tree r → repo_nodes r !! k = Some n →
  Tenant_RootNodeID (map_get (repo_tenants r) (Node_TenantID n)) ≠ k → Node_ParentID n ≠ "".
Proof.
  intros HW Hn Hroot E. destruct (wn_root _ _ _ _ (wt_node _ _ HW _ _ Hn) E) as (_ & _ & Ht).
  unfold map_get in Hroot. destruct (repo_tenants r !! _); simpl in *; [|done]. congruence.
Qed.

(** The node an update stores, once its checks have passed. *)
Lemma wf_update_node r k n n' parent name : wf_tree r → repo_nodes r !! k = Some n →
  visible n = true → Node_ParentID n ≠ "" →
  let p := default (Node_ParentID n) parent in
  relocated n p name n' →
  (is_Some parent → check_move r (Node_TenantID n) n p = Ok tt) →
  nameExists r (Node_TenantID n) p name k = false →
  wf_maps (<[k := n']> (repo_nodes r)) (repo_tenants r).
Proof.
  intros HW Hn Hv Hpar p Hrel Hmove Hname.
  assert (∃ q, activeDirectory r (Node_TenantID n) p = Some q ∧
    (p = Node_ParentID n ∨ ¬ above (parents (repo_nodes r)) p k)) as (q & Hq & Hor).
  { unfold p in *. destruct parent as [x|]; simpl in *.
    - destruct (check_move_Ok _ _ _ _ HW Hn (Hmove ltac:(by eexists))) as (q & ? & ?). eauto.
    - destruct (wn_parent _ _ _ _ (wt_node _ _ HW _ _ Hn) Hpar) as (q & Hq & Htq & Hdq & Hvq).
      exists q. split; [|by left]. apply activeDirectory_Some. split_and!; try done.
      apply (wf_visible HW _ _ Hq), Hvq. by apply visible_true in Hv as [_ ?]. }
  eapply wf_relocate; eauto.
Qed.

Lemma UpdateNode_keeps ctx rnd c r : wf_tree r →
  (UpdateNodeCommand_DisplayName c = None → UpdateNodeCommand_NormalizedName c = None) →
  wp (UpdateNode ctx rnd c) (λ _ r', wf_tree r') r.
Proof.
  intros HW Hnames. unfold UpdateNode, putNode. wp_step. wp_step. cbn [bind_post].
  destruct (activeNode _ _ _) as [n|] eqn:Hact; [|by wp_go].
  apply activeNode_Some in Hact as (Hn & Ht & Hv).
  destruct (wf_ids HW _ _ Hn) as [Hid _]. rewrite <- Ht in *.
  assert (Hroot : Tenant_RootNodeID (map_get (repo_tenants r) (Node_TenantID n)) ≠ UpdateNodeCommand_NodeID c →
    Node_ParentID n ≠ "") by (by eapply not_root_parent).
  destruct (UpdateNodeCommand_DisplayName c) as [display|], (UpdateNodeCommand_NormalizedName c) as [normalized|],
    (UpdateNodeCommand_ParentID c) as [parent|]; try (by specialize (Hnames eq_refl));
    cbn [default from_option] in *; clear Hnames;
    repeat (cbv beta iota; frame_step); try done;
    go_bool; rewrite ?Hid in *; unfold wf_tree; simpl; try done; rewrite Hid.
  all: first [ eapply (wf_update_node r _ n _ (Some parent)) | eapply (wf_update_node r _ n _ None) ];
    [done..|by apply Hroot|by repeat split| |done].
  all: intros [? Hsome]; try done.
  all: by match goal with H : check_move _ _ _ _ = Ok ?a |- _ => destruct a end.
Qed.
End with_runtime.
