(* ===== verification/TreeRecycle.v ===== *)
(** * Recycling, restoring and purging preserve the invariant of the tree *)
From S2P Require Import Prelude Errors Logic GoLib Types Validation MemoryState.
From S2P Require Import MemoryIdempotency MemoryNamespace MemoryUploads MemoryFrame Tree.
From S2P Require Import TreeInvariant TreeOperations.

Implicit Types (r : Repository) (N : gmap string Node).

Lemma in_update ids f k n : k ∈ ids → after_update ids f k n = f k n.
Proof. intros. unfold after_update. by rewrite decide_True. Qed.
Lemma out_update ids f k n : k ∉ ids → after_update ids f k n = n.
Proof. intros. unfold after_update. by rewrite decide_False. Qed.

Section facts.
Context {N T} (HW : wf_maps N T).

Lemma wf_parent_lookup k n : N !! k = Some n → Node_ParentID n ≠ "" →
  ∃ p, N !! Node_ParentID n = Some p ∧ Node_TenantID p = Node_TenantID n ∧
    (Node_TrashedRootID n = "" → Node_TrashedRootID p = "").
Proof.
  intros Hn E. destruct (wn_parent _ _ _ _ (wt_node _ _ HW _ _ Hn) E) as (p & ? & ? & _ & ?). eauto.
Qed.

(** A node recycled with another one has its parent in the same group. *)
Lemma wf_group_parent k n p : N !! k = Some n → N !! Node_ParentID n = Some p →
  Node_TrashedRootID n ≠ "" → Node_TrashedRootID n ≠ k → Node_TrashedRootID p = Node_TrashedRootID n.
Proof.
  intros Hn Hp E1 E2. destruct (wn_group _ _ _ _ (wt_node _ _ HW _ _ Hn) E1 E2) as (_ & p' & ? & ?).
  by simplify_eq.
Qed.

(** The entry of a group. *)
Lemma wf_group_entry k n : N !! k = Some n → Node_TrashedRootID n ≠ "" →
  ∃ e, N !! Node_TrashedRootID n = Some e ∧ Node_TrashedRootID e = Node_TrashedRootID n ∧
    Node_TenantID e = Node_TenantID n.
Proof.
  intros Hn E. destruct (decide (Node_TrashedRootID n = k)) as [E2|E2]; [exists n; by rewrite E2|].
  destruct (wn_group _ _ _ _ (wt_node _ _ HW _ _ Hn) E E2) as ((e & ? & ? & ? & _) & _). eauto.
Qed.

(** The nodes visible below a node carry no trash mark, and belong to its tenant. *)
Lemma wf_active_below t root x m : N !! root = Some m → Node_TenantID m = t → Node_TrashedRootID m = "" →
  active_below N t root x → ∃ n, N !! x = Some n ∧ Node_TenantID n = t ∧ Node_TrashedRootID n = "".
Proof.
  intros Hm Ht Hv Hx. destruct Hx as [|k n Hn ? Hvis _]; [by eauto|].
  apply (wf_visible HW _ _ Hn) in Hvis. eauto.
Qed.
End facts.

(** ** Recycle *)

Definition recycled (root : Node) (now : Time) (id : string) (child : Node) : Node :=
  let child := child <| Node_TrashedRootID := Node_ID root |> <| Node_UpdatedAt := now |> in
  if id == Node_ID root
  then child <| Node_Status := NodeTrashed |>
             <| Node_OriginalParentID := Node_ParentID child |>
             <| Node_Revision := wrap64 (Node_Revision child + 1) |>
             <| Node_DeletedAt := Some now |>
  else child.

Lemma recycled_shape root now id n : same_shape n (recycled root now id n).
Proof. unfold recycled. by case_bool_decide. Qed.
Lemma recycled_mark root now id n : Node_TrashedRootID (recycled root now id n) = Node_ID root.
Proof. unfold recycled. by case_bool_decide. Qed.

Lemma wf_recycle N N' T root now ids : wf_maps N T →
  N !! Node_ID root = Some root → visible root = true → Node_ParentID root ≠ "" →
  (∀ x, x ∈ ids ↔ active_below N (Node_TenantID root) (Node_ID root) x) →
  updated N N' ids (recycled root now) → wf_maps N' T.
Proof.
  intros HW Hroot Hvis Hpar Hids HU. apply visible_true in Hvis as [_ Hvis].
  destruct (wf_ids HW _ _ Hroot) as [_ Hne].
  assert (Hin : ∀ x n, x ∈ ids → N !! x = Some n → Node_TrashedRootID n = "").
  { intros x n Hx Hn. apply Hids in Hx.
    destruct (wf_active_below HW _ _ _ _ Hroot eq_refl Hvis Hx) as (n' & Hn' & _ & ?). by simplify_eq. }
  assert (Hout : ∀ x n, x ∉ ids → N !! x = Some n → Node_TrashedRootID n ≠ Node_ID root).
  { intros x n Hx Hn E. destruct (wf_group_entry HW _ _ Hn) as (e & He & Htre & _); [congruence|].
    rewrite E in He, Htre. simplify_eq. congruence. }
  assert (Hrin : Node_ID root ∈ ids) by (apply Hids; constructor).
  assert (Hup : ∀ x n, x ∈ ids → x ≠ Node_ID root → N !! x = Some n → Node_ParentID n ∈ ids).
  { intros x n Hx Hxr Hn. apply Hids in Hx. inversion Hx as [|? n' Hn' ? ? Hb]; simplify_eq. by apply Hids. }
  assert (Hdown : ∀ x n, N !! x = Some n → Node_TrashedRootID n = "" → Node_ParentID n ∈ ids → x ∈ ids).
  { intros x n Hn Hx Hp. apply Hids. apply Hids in Hp as Hb.
    destruct (wf_active_below HW _ _ _ _ Hroot eq_refl Hvis Hb) as (p & Hpn & Htp & _).
    eapply below_child; [done| |by apply (wf_visible HW _ _ Hn)|done].
    rewrite <- Htp. symmetry. by eapply (wf_tenant_closed HW). }
  assert (Hg : ∀ x n, after_update ids (recycled root now) x n =
    if decide (x ∈ ids) then recycled root now x n else n) by done.
  eapply (wf_update N N' _ ids (recycled root now)); try done.
  - intros. apply recycled_shape.
  - intros k n Hn E. destruct (decide (k ∈ ids)) as [Hk|Hk].
    + destruct (decide (k = Node_ID root)) as [->|Hkr]; [by simplify_eq|].
      apply (Hup _ _ Hk Hkr) in Hn. rewrite E in Hn. apply Hids in Hn.
      destruct (wf_active_below HW _ _ _ _ Hroot eq_refl Hvis Hn) as (m & Hm & _).
      by destruct (wf_ids HW _ _ Hm).
    + rewrite out_update by done. by apply (wn_root _ _ _ _ (wt_node _ _ HW _ _ Hn)).
  - intros k n p Hn Hp. rewrite Hg. case_decide as Hk; [by rewrite recycled_mark|]. intros E.
    rewrite out_update; [|by intros ?; eapply Hk, Hdown].
    eapply wf_parent_lookup in Hn as (p' & ? & _ & Hp'); [|done|]; [simplify_eq; auto|].
    by destruct (wf_ids HW _ _ Hp).
  - intros k n Hn. rewrite Hg. case_decide; [by rewrite recycled_mark|].
    apply (wn_status _ _ _ _ (wt_node _ _ HW _ _ Hn)).
  - intros k n Hn. rewrite Hg. case_decide as Hk; [|apply (wn_entry _ _ _ _ (wt_node _ _ HW _ _ Hn))].
    rewrite recycled_mark. intros <-. unfold recycled. rewrite bool_decide_eq_true_2 by done. simpl. auto.
  - intros k n t p Hn Ht Htne Htk Hp. rewrite Hg in Ht. rewrite (Hg k n). case_decide as Hk.
    + rewrite recycled_mark in Ht. subst t.
      rewrite !in_update by (done || by eapply Hup). rewrite !recycled_mark. split; [|done].
      exists root. split; [done|]. split; [by rewrite in_update, recycled_mark|].
      split; [symmetry|].
      * apply Hids in Hk. destruct (wf_active_below HW _ _ _ _ Hroot eq_refl Hvis Hk) as (n' & ? & ? & _).
        by simplify_eq.
      * intros _. unfold recycled. rewrite bool_decide_eq_false_2 by done. simpl.
        by apply (wn_status _ _ _ _ (wt_node _ _ HW _ _ Hn)), (Hin k).
    + subst t. assert (Hni : ∀ x m, N !! x = Some m → Node_TrashedRootID m = Node_TrashedRootID n → x ∉ ids).
      { intros x m Hm E Hx. apply Htne. rewrite <- E. by eapply Hin. }
      destruct (wn_group _ _ _ _ (wt_node _ _ HW _ _ Hn) Htne Htk) as ((e & He & Hte & Htee & Hse) & (p' & Hp' & Htp)).
      simplify_eq. rewrite !out_update by eauto. split; [|done]. exists e. rewrite out_update by eauto. done.
  - intros k1 k2 n1 n2 Hn1 Hn2 Hs. rewrite !Hg. destruct Hs as (? & ? & ? & _).
    do 2 case_decide; rewrite ?recycled_mark; intros E.
    + eapply (wt_slots _ _ HW); [done..|]. repeat split; try done. by rewrite (Hin k1 n1), (Hin k2 n2).
    + by destruct (Hout k2 n2).
    + by destruct (Hout k1 n1).
    + by eapply (wt_slots _ _ HW).
Qed.

Section with_runtime.
Context `{!Platform, !MapRange}.

Lemma Recycle_keeps ctx rnd i id rev now r : wf_tree r →
  wp (Recycle ctx rnd i id rev now) (λ _ r', wf_tree r') r.
Proof.
  intros HW. unfold Recycle. wp_go; try done.
  - go_bool. destruct (wf_ids HW _ _ Heqo) as [Hid _].
    destruct (activeSubtree_spec r (Identity_TenantID i) (Node_ID n)) as (ids & Hrun & Hnd & Hids);
      [by eapply wf_ids|apply HW|by rewrite Hid; eauto|]. simplify_eq. rewrite <- Heqb in *.
    eapply wp_mono; [apply (wp_update_loop (recycled n now)); [done|done|]|].
    + intros x Hx%Hids. apply visible_true in Heqb2 as [_ Hv].
      destruct (wf_active_below HW _ _ _ _ Heqo eq_refl Hv Hx) as (m & Hm & _). eauto.
    + intros o r' (-> & N' & -> & HU). cbn [bind_post].
      apply wp_appendAudit; intros; unfold wf_tree; simpl;
        (eapply (wf_recycle (repo_nodes r)); [done|done|done|by eapply not_root_parent|done|done]).
Qed.
End with_runtime.

(** ** Restore *)

Lemma restored_shape node now id n : Node_ID n = id →
  (id = Node_ID node → Node_OriginalParentID n = Node_ParentID n) → same_shape n (restored_child node now id n).
Proof.
  intros Hid Ho. unfold restored_child, same_shape. case_bool_decide; simpl; [|done].
  split_and!; auto.
Qed.
Lemma restored_mark node now id n : Node_TrashedRootID (restored_child node now id n) = "".
Proof. unfold restored_child. by case_bool_decide. Qed.

(** The loop of [Restore] is an update of its nodes; it returns the restored entry. *)
Lemma wp_restore_loop node now ids r : ids_ok (repo_nodes r) → NoDup ids →
  (∀ id, id ∈ ids → is_Some (repo_nodes r !! id)) →
  wp (restore_loop now ids node) (λ o r', ∃ N' node', o = Ok node' ∧ r' = r <| repo_nodes := N' |> ∧
    updated (repo_nodes r) N' ids (restored_child node now) ∧ Node_ID node' = Node_ID node ∧
    (if decide (Node_ID node ∈ ids) then N' !! Node_ID node = Some node' else node' = node)) r.
Proof.
  revert node r. induction ids as [|id ids IH]; intros node r Hok Hnd Hdom; simpl.
  - apply wp_ret. exists (repo_nodes r), node. split; [done|]. split; [by destruct r|].
    split; [|done]. intros k. by rewrite decide_False by apply not_elem_of_nil.
  - apply NoDup_cons in Hnd as [Hid Hnd]. unfold putNode. wp_go.
    destruct (Hdom id) as [n Hn]; [by left|]. unfold map_get. rewrite Hn. cbn [default from_option].
    set (c := restored_child node now id n). set (node1 := if id == Node_ID node then c else node).
    destruct (Hok _ _ Hn) as [Hidn _].
    assert (Hc : Node_ID c = id) by (unfold c, restored_child; by case_bool_decide).
    assert (H1 : Node_ID node1 = Node_ID node) by (unfold node1; case_bool_decide; congruence).
    eapply wp_mono; [apply (IH node1); simpl|].
    + intros k m Hm. apply lookup_insert_Some in Hm as [[<- <-]|[_ Hm]]; [|by apply Hok].
      split; [done|]. by destruct (Hok _ _ Hn).
    + done.
    + intros x Hx. destruct (decide (x = id)) as [->|Hne]; [done|].
      rewrite lookup_insert_ne by done. apply Hdom. by right.
    + simpl. intros o r' (N' & node' & -> & -> & HU & Hid' & Hnode'). exists N', node'.
      split; [done|]. split; [by destruct r|]. split; [|split; [congruence|]].
      * intros k. rewrite (HU k). destruct (decide (k = id)) as [->|Hne].
        -- rewrite decide_False by done. rewrite decide_True by (by left). by rewrite lookup_insert_eq, Hn.
        -- rewrite lookup_insert_ne by done. destruct (decide (k ∈ ids)).
           ++ rewrite decide_True by (by right). destruct (repo_nodes r !! k); [|done]. simpl.
              f_equal. unfold restored_child. by rewrite H1.
           ++ rewrite decide_False; [done|]. rewrite elem_of_cons. tauto.
      * rewrite H1 in Hnode'. destruct (decide (Node_ID node = id)) as [E|E].
        -- rewrite decide_True by (rewrite E; by left). rewrite decide_False in Hnode' by (by rewrite E).
           rewrite (HU (Node_ID node)), E, decide_False, lookup_insert_eq by done. subst node'.
           unfold node1. by rewrite bool_decide_eq_true_2.
        -- assert (node1 = node) as Hsame by (unfold node1; by rewrite bool_decide_eq_false_2).
           case_decide.
           ++ rewrite decide_True by (by right). done.
           ++ rewrite decide_False; [congruence|]. rewrite elem_of_cons. tauto.
Qed.

Lemma wf_restore N N' T e now ids p : wf_maps N T → N !! Node_ID e = Some e →
  Node_Status e = NodeTrashed → Node_TrashedRootID e = Node_ID e →
  N !! Node_OriginalParentID e = Some p → Node_TrashedRootID p = "" →
  (∀ x n, N !! x = Some n → same_slot (e <| Node_TrashedRootID := "" |>) n → x = Node_ID e) →
  (∀ x n, N !! x = Some n → x ∈ ids ↔ Node_TrashedRootID n = Node_ID e) →
  updated N N' ids (restored_child e now) → wf_maps N' T.
Proof.
  intros HW He Hst Htr Hp Hvp Hfree Hids HU.
  destruct (wf_ids HW _ _ He) as [_ Hne].
  destruct (wn_entry _ _ _ _ (wt_node _ _ HW _ _ He) Htr) as [_ Horig].
  assert (Hg : ∀ x n, after_update ids (restored_child e now) x n =
    if decide (x ∈ ids) then restored_child e now x n else n) by done.
  assert (Hin : ∀ x n, N !! x = Some n → x ∈ ids → Node_TrashedRootID n = Node_ID e)
    by (intros x n Hn; by apply Hids).
  assert (Hout : ∀ x n, N !! x = Some n → Node_TrashedRootID n ≠ Node_ID e → x ∉ ids)
    by (intros x n Hn E Hx; by destruct E; eapply Hin).
  eapply (wf_update N N' _ ids (restored_child e now)); try done.
  - intros k n Hk Hn. apply restored_shape; [by apply (wf_ids HW)|]. intros ->. by simplify_eq.
  - intros k n Hn E. destruct (wn_root _ _ _ _ (wt_node _ _ HW _ _ Hn) E) as [Hm _].
    rewrite out_update; [done|]. eapply Hout; [done|congruence].
  - intros k n q Hn Hq. rewrite !Hg.
    destruct (decide (Node_ParentID n ∈ ids)) as [Hqk|Hqk]; [by rewrite restored_mark|].
    destruct (decide (k ∈ ids)) as [Hk|Hk].
    + intros _. destruct (decide (k = Node_ID e)) as [->|Hke].
      { simplify_eq. rewrite <- Horig in Hq. by simplify_eq. }
      destruct Hqk. apply (Hids _ _ Hq). rewrite <- (Hin _ _ Hn Hk).
      eapply (wf_group_parent HW); [done..| |]; rewrite (Hin _ _ Hn Hk); done.
    + intros E. destruct (wf_parent_lookup HW _ _ Hn) as (q' & ? & _ & ?); [|simplify_eq; auto].
      by destruct (wf_ids HW _ _ Hq).
  - intros k n Hn. rewrite Hg. case_decide as Hk; [|apply (wn_status _ _ _ _ (wt_node _ _ HW _ _ Hn))].
    intros _. unfold restored_child. case_bool_decide as Hke; simpl; [done|].
    pose proof (Hin _ _ Hn Hk) as Hm.
    destruct (wn_group _ _ _ _ (wt_node _ _ HW _ _ Hn)) as ((e' & He' & _ & _ & Hse) & _); [congruence..|].
    rewrite Hm in He'. simplify_eq. auto.
  - intros k n Hn. rewrite Hg. case_decide as Hk; [|apply (wn_entry _ _ _ _ (wt_node _ _ HW _ _ Hn))].
    rewrite restored_mark. intros <-. by destruct (wf_ids HW _ _ Hn).
  - intros k n t q Hn Ht Htne Htk Hq. rewrite Hg in Ht. rewrite (Hg k n). case_decide as Hk.
    + rewrite restored_mark in Ht. congruence.
    + assert (Hte : t ≠ Node_ID e) by (intros ->; by destruct Hk; eapply Hids). subst t.
      destruct (wn_group _ _ _ _ (wt_node _ _ HW _ _ Hn) Htne Htk) as ((f & Hf & Htf & ? & ?) & (q' & Hq' & Htq)).
      simplify_eq. rewrite out_update by (eapply Hout; [done|congruence]). split; [|done].
      exists f. rewrite out_update by (eapply Hout; [done|congruence]). done.
  - intros k1 k2 n1 n2 Hn1 Hn2 Hs. rewrite !Hg. destruct Hs as (? & ? & ? & _). simpl in *.
    assert (Hmix : ∀ x1 x2 m1 m2, N !! x1 = Some m1 → N !! x2 = Some m2 → x1 ∈ ids → Node_TrashedRootID m2 = "" →
      Node_TenantID m1 = Node_TenantID m2 → Node_ParentID m1 = Node_ParentID m2 →
      Node_NormalizedName m1 = Node_NormalizedName m2 → x1 = x2).
    { intros x1 x2 m1 m2 Hy1 Hy2 Hx1 Hm2 ? Hpar ?. destruct (decide (x1 = Node_ID e)) as [->|Hxe].
      - simplify_eq. symmetry. eapply Hfree; [done|]. by repeat split.
      - pose proof (Hin _ _ Hy1 Hx1) as Hm1.
        assert (Hpne : Node_ParentID m1 ≠ "") by (eapply (wf_entry_parent HW); [done|congruence]).
        destruct (wf_parent_lookup HW _ _ Hy1 Hpne) as (q & Hq & _).
        destruct (wf_parent_lookup HW _ _ Hy2) as (q' & Hq' & _ & Hvq); [congruence|].
        rewrite <- Hpar, Hq in Hq'. simplify_eq. specialize (Hvq Hm2).
        apply (wf_group_parent HW _ _ _ Hy1) in Hq; congruence. }
    do 2 case_decide; rewrite ?restored_mark; intros E.
    + eapply (wt_slots _ _ HW); [done..|]. repeat split; try done.
      by rewrite (Hin _ _ Hn1), (Hin _ _ Hn2).
    + by eapply (Hmix k1 k2).
    + symmetry. by eapply (Hmix k2 k1).
    + by eapply (wt_slots _ _ HW).
Qed.

(** ** Purging *)

Definition purging (now : Time) (_ : string) (n : Node) : Node :=
  n <| Node_Status := NodePurging |> <| Node_UpdatedAt := now |>.

(** Updates that keep the place of each node: a status changes to purging, in a
    group whose entry is being purged. *)
Lemma wf_remark N N' T ids f : wf_maps N T → updated N N' ids f →
  (∀ k n, k ∈ ids → N !! k = Some n → same_shape n (f k n) ∧
    Node_TrashedRootID (f k n) = Node_TrashedRootID n ∧ Node_OriginalParentID (f k n) = Node_OriginalParentID n ∧
    (Node_Status (f k n) = Node_Status n ∨ Node_Status (f k n) = NodePurging ∧ Node_TrashedRootID n ≠ "" ∧
      Node_TrashedRootID n ∈ ids ∧
      ∀ e, N !! Node_TrashedRootID n = Some e → Node_Status (f (Node_TrashedRootID n) e) = NodePurging)) →
  wf_maps N' T.
Proof.
  intros HW HU Hf. set (g := after_update ids f).
  assert (Hg : ∀ k n, N !! k = Some n → Node_TrashedRootID (g k n) = Node_TrashedRootID n ∧
    Node_OriginalParentID (g k n) = Node_OriginalParentID n).
  { intros k n Hn. unfold g, after_update. case_decide as Hk; [|done]. by destruct (Hf k n Hk Hn) as (_ & ? & ? & _). }
  assert (Hs : ∀ k n, N !! k = Some n → Node_Status (g k n) = Node_Status n ∨
    Node_Status (g k n) = NodePurging ∧ Node_TrashedRootID n ≠ "" ∧
    ∀ e, N !! Node_TrashedRootID n = Some e → Node_Status (g (Node_TrashedRootID n) e) = NodePurging).
  { intros k n Hn. unfold g, after_update. case_decide as Hk; [|by left].
    destruct (Hf k n Hk Hn) as (_ & _ & _ & [?|(? & ? & Hin & He)]); [by left|right].
    split_and!; [done|done|]. intros e ?. rewrite decide_True by done. auto. }
  eapply (wf_update N N' _ ids f); fold g; try done.
  - intros k n Hk Hn. by apply Hf.
  - intros k n Hn E. rewrite (proj1 (Hg _ _ Hn)). by apply (wn_root _ _ _ _ (wt_node _ _ HW _ _ Hn)).
  - intros k n p Hn Hp. rewrite (proj1 (Hg _ _ Hn)), (proj1 (Hg _ _ Hp)). intros E.
    destruct (wf_parent_lookup HW _ _ Hn) as (q & ? & _ & ?); [|simplify_eq; auto].
    by destruct (wf_ids HW _ _ Hp).
  - intros k n Hn. rewrite (proj1 (Hg _ _ Hn)). intros E.
    destruct (Hs k n Hn) as [->|(_ & ? & _)]; [|done]. by apply (wn_status _ _ _ _ (wt_node _ _ HW _ _ Hn)).
  - intros k n Hn. destruct (Hg k n Hn) as [-> ->]. intros E.
    destruct (wn_entry _ _ _ _ (wt_node _ _ HW _ _ Hn) E) as [? Ho]. split; [|done].
    destruct (Hs k n Hn) as [->|(-> & _)]; auto.
  - intros k n t p Hn Ht Htne Htk Hp. rewrite (proj1 (Hg _ _ Hn)) in Ht. rewrite (proj1 (Hg _ _ Hp)). subst t.
    destruct (wn_group _ _ _ _ (wt_node _ _ HW _ _ Hn) Htne Htk) as ((e & He & Hte & ? & Hse) & (p' & ? & ?)).
    simplify_eq. split; [|done]. exists e. rewrite (proj1 (Hg _ _ He)). split_and!; try done.
    intros E. destruct (Hs k n Hn) as [->|(_ & _ & Hpurge)]; [|by rewrite (Hpurge e He) in E].
    apply Hse. destruct (Hs _ e He) as [<-|(E' & _)]; [done|]. by rewrite E' in E.
  - intros k1 k2 n1 n2 Hn1 Hn2 (? & ? & ? & _). rewrite (proj1 (Hg _ _ Hn1)), (proj1 (Hg _ _ Hn2)). intros E.
    by eapply (wt_slots _ _ HW).
Qed.

(** Marking nodes of one group, its entry among them. *)
Lemma wf_purge N N' T root now ids : wf_maps N T → root ≠ "" → root ∈ ids →
  (∀ x n, x ∈ ids → N !! x = Some n → Node_TrashedRootID n = root) →
  updated N N' ids (purging now) → wf_maps N' T.
Proof.
  intros HW Hne Hroot Hids HU. eapply wf_remark; [done..|]. intros k n Hk Hn.
  split_and!; try done. right. by rewrite (Hids k n Hk Hn).
Qed.

Section with_runtime.
Context `{!Platform, !MapRange}.

Lemma Restore_keeps ctx rnd i id rev now r : wf_tree r →
  wp (Restore ctx rnd i id rev now) (λ _ r', wf_tree r') r.
Proof.
  intros HW. unfold Restore. wp_go; try done. go_bool.
  destruct (wf_ids HW _ _ Heqo) as [<- _].
  destruct (trashedSubtree_spec r (Identity_TenantID i) (Node_ID n)) as [Hnd Hids]; [by eapply wf_ids|].
  eapply wp_mono; [apply wp_restore_loop; [by eapply wf_ids|done|]|].
  { intros x (m & Hm & _)%Hids. eauto. }
  intros o r' (N' & node' & -> & -> & HU & _). cbn [bind_post].
  apply activeDirectory_Some in Heqo0 as (Hp & _ & Hvp & _). apply visible_true in Hvp as [_ Hvp].
  assert (HW' : wf_maps N' (repo_tenants r)).
  { eapply (wf_restore (repo_nodes r)); eauto.
    - destruct (wn_entry _ _ _ _ (wt_node _ _ HW _ _ Heqo)) as [_ Ho]; [done|].
      intros x m Hm (? & Hpar & ? & Htr). simpl in *. destruct (decide (x = Node_ID n)) as [|Hne]; [done|].
      apply not_true_iff_false in Heqb1. destruct Heqb1. apply nameExists_true. exists x, m.
      destruct (wf_ids HW _ _ Hm) as [Hx _]. split_and!; try congruence.
      by apply (wf_visible HW _ _ Hm).
    - intros x m Hm. rewrite Hids. split; [intros (?&?&?&?); by simplify_eq|].
      intros E. exists m. split; [done|]. split; [|done].
      destruct (wf_group_entry HW _ _ Hm) as (e & He & _ & Hte);
        [rewrite E; by apply (wf_ids HW _ _ Heqo)|]. rewrite E in He. simplify_eq. congruence. }
  repeat (cbv beta iota; frame_step); done.
Qed.

Lemma purge_blobs_frame sub ids plan : frames (purge_blobs sub ids plan).
Proof.
  revert plan. induction ids as [|b ids IH]; intros plan r; simpl; [by apply wp_ret|].
  unfold putBlob. wp_go; (eapply wp_mono; [apply IH|]); simpl; intros _ r' Hr; [|done].
  by etrans; [|exact Hr].
Qed.

Lemma PreparePurge_keeps i id rev now r : wf_tree r →
  wp (PreparePurge i id rev now) (λ _ r', wf_tree r') r.
Proof.
  intros HW. unfold PreparePurge. wp_go; try done. apply orb_false_iff in Heqb as [? Htr].
  go_bool. destruct (wf_ids HW _ _ Heqo) as [<- Hne].
  destruct (trashedSubtree_spec r (Identity_TenantID i) (Node_ID n)) as [Hnd Hids]; [by eapply wf_ids|].
  eapply wp_mono; [apply (wp_update_loop (purging now)); [done|done|]|].
  { intros x (m & Hm & _)%Hids. eauto. }
  intros o r' (-> & N' & -> & HU). cbn [bind_post]. wp_go.
  eapply wp_mono; [apply purge_blobs_frame|]. simpl. intros o r'' Hsame.
  assert (HW' : wf_tree r'').
  { eapply wf_tree_same; [done|]. unfold wf_tree. simpl.
    eapply (wf_purge (repo_nodes r)); [done|done| | |done].
    - apply Hids. eauto.
    - intros x m (m' & ? & _ & ?)%Hids ?. by simplify_eq. }
  wp_go; done.
Qed.

Lemma finish_blob_frame i now b : frames (finish_blob i now b).
Proof. unfold finish_blob. frame. Qed.

Lemma FinishPurge_frames ctx rnd i plan now : frames (FinishPurge ctx rnd i plan now).
Proof.
  intros r. unfold FinishPurge, putRecycleLease. wp_go; try done.
  eapply wp_mono; [apply wp_for_range_same_tree, finish_blob_frame|]. simpl.
  intros [] r' Hr; wp_go; try done. apply wp_appendAudit; intros; try done; by etrans; [exact Hr|].
Qed.

Lemma claim_recycle_keeps owner now until ids claims r : wf_tree r →
  (∀ x, x ∈ ids → ∃ n, repo_nodes r !! x = Some n ∧ Node_TrashedRootID n = x) →
  wp (claim_recycle owner now until ids claims) (λ _ r', wf_tree r') r.
Proof.
  revert claims r. induction ids as [|id ids IH]; intros claims r HW Hids; simpl; [by apply wp_ret|].
  unfold putNode, putRecycleLease. destruct (Hids id) as (n & Hn & Hmark); [by left|].
  assert (Hget : map_get (repo_nodes r) id = n) by (unfold map_get; by rewrite Hn).
  repeat (cbv beta iota; wp_step). rewrite Hget.
  assert (HU : updated (repo_nodes r) (<[id := purging now id n]> (repo_nodes r)) [id] (purging now)).
  { intros k. destruct (decide (k = id)) as [->|Hne].
    - by rewrite lookup_insert_eq, decide_True, Hn by (by left).
    - rewrite lookup_insert_ne, decide_False; [done| |done]. by rewrite list_elem_of_singleton. }
  apply IH.
  - unfold wf_tree. simpl. eapply (wf_purge (repo_nodes r) _ _ id now [id]); [done| |by left| |done].
    + by apply (wf_ids HW _ _ Hn).
    + intros x m ->%list_elem_of_singleton Hm. by simplify_eq.
  - intros x Hx. simpl. destruct (Hids x) as (m & Hm & Hx'); [by right|].
    exists (after_update [id] (purging now) x m). split; [by apply (updated_lookup _ _ _ _ _ _ HU)|].
    unfold after_update. by case_decide.
Qed.

Lemma elem_of_cut_positive {A} limit (l : list A) x : x ∈ cut_positive limit l → x ∈ l.
Proof. unfold cut_positive. case_match; [|done]. apply elem_of_take_1 || (intros (?&?&?)%elem_of_take; by eapply list_elem_of_lookup_2). Qed.

Lemma ClaimRecycleForMaintenance_keeps owner cutoff now until limit r : wf_tree r →
  wp (ClaimRecycleForMaintenance owner cutoff now until limit) (λ _ r', wf_tree r') r.
Proof.
  intros HW. unfold ClaimRecycleForMaintenance. wp_go. apply claim_recycle_keeps; [done|].
  intros x Hx%elem_of_cut_positive. rewrite elem_of_sort_slice in Hx.
  apply list_elem_of_fmap in Hx as ([k n] & -> & [Hc Hin]%list_elem_of_filter).
  apply elem_of_map_range in Hin. exists n. split; [done|].
  unfold recycle_claimable in Hc. by go_bool.
Qed.
End with_runtime.

#[export] Hint Resolve FinishPurge_frames : frames.
