(* ===== verification/Members.v ===== *)
(** * The members of a tenant

    Members are stored under [memberKey], the tenant and the principal separated by
    a zero byte; tenants without a zero byte keep the keys apart. *)
From S2P Require Import Prelude Errors Logic GoLib Codecs Types Validation MemoryState.
From S2P Require Import MemoryIdempotency MemoryNamespace MemoryUploads MemoryGovernance MemoryGroups MemoryFrame.
From S2P Require Import Tree TreeInvariant.

(** No zero byte. *)
Definition plain (s : string) : Prop := Ascii.zero ∉ chars s.

Lemma pivot_inj {A} (x : A) l1 l2 r1 r2 : x ∉ l1 → x ∉ l2 → l1 ++ x :: r1 = l2 ++ x :: r2 →
  l1 = l2 ∧ r1 = r2.
Proof.
  revert l2. induction l1 as [|a l1 IH]; intros [|b l2] H1 H2 E; simplify_eq/=; try set_solver.
  destruct (IH l2) as [-> ->]; set_solver.
Qed.

Lemma memberKey_inj t p t' p' : plain t → plain t' → memberKey t p = memberKey t' p' → t = t' ∧ p = p'.
Proof.
  unfold memberKey. intros Ht Ht' E. apply (f_equal chars) in E. rewrite !chars_app in E. simpl in E.
  apply pivot_inj in E as [?%chars_inj ?%chars_inj]; done.
Qed.

(** Every member is stored under the key of its identity. *)
Definition members_keyed (r : Repository) : Prop := ∀ k m, repo_members r !! k = Some m →
  k = memberKey (PrincipalRecord_TenantID m) (PrincipalRecord_PrincipalID m) ∧
  plain (PrincipalRecord_TenantID m).

Definition active_owner (t : string) (m : PrincipalRecord) : Prop :=
  PrincipalRecord_TenantID m = t ∧ PrincipalRecord_Role m = RoleOwner ∧
  PrincipalRecord_Status m = MemberStatusActive.
Definition has_owner (r : Repository) (t : string) : Prop :=
  ∃ k m, repo_members r !! k = Some m ∧ active_owner t m.

Section with_runtime.
Context `{!Platform, !MapRange}.
Implicit Types (r : Repository).

(** The methods that write members, but for the administrative status change. *)
Inductive member_step : Repository → Repository → Prop :=
| member_ensure seed r : plain (OIDCMemberSeed_TenantID seed) → member_step r (EnsureOIDCMember seed r).2
| member_update ctx rnd c r : plain (UpdateMemberCommand_TenantID c) →
    member_step r (UpdateMember ctx rnd c r).2
| member_delete ctx rnd c r : plain (DeleteMemberCommand_TenantID c) →
    member_step r (DeleteMember ctx rnd c r).2
| member_accept ctx rnd c r : (∀ id, plain (TenantInvitation_TenantID (map_get (repo_invitations r) id))) →
    member_step r (AcceptInvitation ctx rnd c r).2.

Lemma activeOwnerCount_pos r t p : (activeOwnerCount r t p =? 0) = false →
  ∃ k m, repo_members r !! k = Some m ∧ active_owner t m ∧ PrincipalRecord_PrincipalID m ≠ p.
Proof.
  unfold activeOwnerCount. intros HN%Z.eqb_neq.
  set (l := filter _ _) in HN. destruct l as [|m l'] eqn:E; [done|].
  assert (m ∈ l) as Hin by (rewrite E; by left). unfold l in Hin.
  apply list_elem_of_filter in Hin as [Hm [k Hk]%elem_of_range_values].
  exists k, m. go_bool. by repeat split.
Qed.

(** The other members stay, and if the member at the key was the only owner it stays one. *)
Lemma owner_kept r r' t tenantID p (m : PrincipalRecord) (o : option PrincipalRecord) : members_keyed r →
  plain tenantID → repo_members r !! memberKey tenantID p = Some m →
  (∀ k, repo_members r' !! k = if decide (k = memberKey tenantID p) then o else repo_members r !! k) →
  (PrincipalRecord_Role m = RoleOwner → PrincipalRecord_Status m = MemberStatusActive →
    (∃ m', o = Some m' ∧ active_owner tenantID m') ∨ (activeOwnerCount r tenantID p =? 0) = false) →
  has_owner r t → has_owner r' t.
Proof.
  intros HK Ht Hm Hr' Hown (k & n & Hn & Hnt & Hnr & Hns).
  destruct (decide (k = memberKey tenantID p)) as [->|Hk].
  - simplify_eq. destruct (HK _ _ Hm) as [Hkey Hpl].
    apply memberKey_inj in Hkey as [Htn Hp]; [|done..].
    destruct (Hown Hnr Hns) as [(m' & -> & Hact)|(k & n & Hk & Ho & Hne)%activeOwnerCount_pos].
    + exists (memberKey tenantID p), m'. rewrite Hr', decide_True by done. by rewrite <- Htn.
    + exists k, n. rewrite Hr', decide_False, <- Htn; [done|]. intros ->. simplify_eq.
  - exists k, n. by rewrite Hr', decide_False.
Qed.

Lemma members_keyed_put r r' t p (m : PrincipalRecord) : members_keyed r → plain t →
  PrincipalRecord_TenantID m = t → PrincipalRecord_PrincipalID m = p →
  repo_members r' = <[memberKey t p := m]> (repo_members r) → members_keyed r'.
Proof.
  intros HK Ht <- <- E k n. rewrite E. intros [[<- <-]|[_ Hn]]%lookup_insert_Some; [done|by apply HK].
Qed.

(** What an update may do to the members. *)
Record member_updated (r r' : Repository) (c : UpdateMemberCommand) (m m' : PrincipalRecord) : Prop := {
  mu_actor : managingActor r (UpdateMemberCommand_TenantID c) (UpdateMemberCommand_ActorPrincipalID c)
    (UpdateMemberCommand_ActorRole c) = true;
  mu_found : repo_members r !!
    memberKey (UpdateMemberCommand_TenantID c) (UpdateMemberCommand_PrincipalID c) = Some m;
  mu_identity : PrincipalRecord_Identity m' = PrincipalRecord_Identity m;
  mu_admin : UpdateMemberCommand_ActorRole c = RoleAdmin →
    PrincipalRecord_Role m ≠ RoleOwner ∧ PrincipalRecord_Role m' ≠ RoleOwner;
  mu_owner : PrincipalRecord_Role m = RoleOwner → PrincipalRecord_Status m = MemberStatusActive →
    (PrincipalRecord_Role m' = RoleOwner ∧ PrincipalRecord_Status m' = MemberStatusActive) ∨
    (activeOwnerCount r (UpdateMemberCommand_TenantID c) (UpdateMemberCommand_PrincipalID c) =? 0) = false;
  mu_members : repo_members r' = <[memberKey (UpdateMemberCommand_TenantID c)
    (UpdateMemberCommand_PrincipalID c) := m']> (repo_members r)
}.

Lemma admin_guard (actorRole : AccessRole) (m : PrincipalRecord) (role : option AccessRole) :
  (actorRole == RoleAdmin) && ((PrincipalRecord_Role m == RoleOwner) ||
    is_some_and role (λ x, x == RoleOwner)) = false →
  actorRole = RoleAdmin →
  PrincipalRecord_Role m ≠ RoleOwner ∧ default (PrincipalRecord_Role m) role ≠ RoleOwner.
Proof. intros Hg ->. simpl in Hg. go_bool. destruct role; simpl in *; go_bool; done. Qed.

Lemma owner_guard (m : PrincipalRecord) newRole newStatus (n : Z) :
  removes_owner m newRole newStatus && (n =? 0) = false →
  PrincipalRecord_Role m = RoleOwner → PrincipalRecord_Status m = MemberStatusActive →
  (newRole = RoleOwner ∧ newStatus = MemberStatusActive) ∨ (n =? 0) = false.
Proof. unfold removes_owner. intros. go_bool_cases; auto; congruence. Qed.

Lemma wp_UpdateMember ctx rnd c r : wp (UpdateMember ctx rnd c) (λ _ r',
  repo_members r' = repo_members r ∨ ∃ m m', member_updated r r' c m m') r.
Proof.
  unfold UpdateMember. frame_unfold. repeat (cbv beta iota; frame_step); try (by left).
  all: right; match goal with Hm : _ = Some ?m |- _ => exists m end; eexists.
  all: split; [| | | | |reflexivity].
  all: first [by apply negb_false_iff|done|by eapply admin_guard|by eapply owner_guard].
Qed.

(** What a removal may do to the members. *)
Lemma wp_DeleteMember ctx rnd c r : wp (DeleteMember ctx rnd c) (λ _ r',
  let t := DeleteMemberCommand_TenantID c in let p := DeleteMemberCommand_PrincipalID c in
  repo_members r' = repo_members r ∨ ∃ m,
    managingActor r t (DeleteMemberCommand_ActorPrincipalID c) (DeleteMemberCommand_ActorRole c) = true ∧
    repo_members r !! memberKey t p = Some m ∧
    (DeleteMemberCommand_ActorRole c = RoleAdmin → PrincipalRecord_Role m ≠ RoleOwner) ∧
    (PrincipalRecord_Role m = RoleOwner → PrincipalRecord_Status m = MemberStatusActive →
      (activeOwnerCount r t p =? 0) = false) ∧
    repo_members r' = delete (memberKey t p) (repo_members r)) r.
Proof.
  unfold DeleteMember. frame_unfold. repeat (cbv beta iota; frame_step); try (by left).
  all: right; match goal with Hm : _ = Some ?m |- _ => exists m end.
  all: split_and!; [by apply negb_false_iff|done| | |reflexivity].
  all: intros; go_bool_cases; done.
Qed.

(** A member added under a key that was free. *)
Lemma wp_EnsureOIDCMember seed r : wp (EnsureOIDCMember seed) (λ _ r',
  let t := OIDCMemberSeed_TenantID seed in let p := OIDCMemberSeed_PrincipalID seed in
  repo_members r' = repo_members r ∨ ∃ m, repo_members r !! memberKey t p = None ∧
    PrincipalRecord_TenantID m = t ∧ PrincipalRecord_PrincipalID m = p ∧
    repo_members r' = <[memberKey t p := m]> (repo_members r)) r.
Proof.
  unfold EnsureOIDCMember. frame_unfold. repeat (cbv beta iota; frame_step); try (by left).
  all: right; eexists; split_and!; [done| | |reflexivity]; reflexivity.
Qed.

Lemma wp_AcceptInvitation ctx rnd c r : wp (AcceptInvitation ctx rnd c) (λ _ r',
  repo_members r' = repo_members r ∨ ∃ id p m,
    let t := TenantInvitation_TenantID (map_get (repo_invitations r) id) in
    default m (repo_members r !! memberKey t p) = m ∧
    (repo_members r !! memberKey t p = None →
      PrincipalRecord_TenantID m = t ∧ PrincipalRecord_PrincipalID m = p) ∧
    repo_members r' = <[memberKey t p := m]> (repo_members r)) r.
Proof.
  unfold AcceptInvitation. frame_unfold. repeat (cbv beta iota; frame_step); try (by left).
  all: right; do 3 eexists; split_and!; [| |reflexivity].
  all: simpl; match goal with |- context [?m !! memberKey ?t ?p] => destruct (m !! memberKey t p) end.
  all: simpl; done.
Qed.

(** A first member under a free key, or the same member again. *)
Lemma added_member r r' t p (m : PrincipalRecord) u : members_keyed r → plain t →
  default m (repo_members r !! memberKey t p) = m →
  (repo_members r !! memberKey t p = None →
    PrincipalRecord_TenantID m = t ∧ PrincipalRecord_PrincipalID m = p) →
  repo_members r' = <[memberKey t p := m]> (repo_members r) →
  members_keyed r' ∧ (has_owner r u → has_owner r' u).
Proof.
  intros HK Ht Hold Hnew E. destruct (repo_members r !! memberKey t p) as [n|] eqn:Hn; simpl in Hold.
  - subst n. rewrite insert_id in E by done. split; [intros k n; rewrite E; apply HK|].
    intros (k & n & ?). exists k, n. by rewrite E.
  - destruct Hnew as [Hmt Hmp]; [done|]. split; [by eapply members_keyed_put|].
    intros (k & n & Hk & Ho). exists k, n. rewrite E, lookup_insert_ne; [done|]. congruence.
Qed.

Lemma member_step_owner r r' t : member_step r r' → members_keyed r →
  members_keyed r' ∧ (has_owner r t → has_owner r' t).
Proof.
  assert (∀ r r', repo_members r' = repo_members r → members_keyed r →
    members_keyed r' ∧ (has_owner r t → has_owner r' t)) as Same.
  { unfold members_keyed, has_owner. by intros ?? ->. }
  destruct 1 as [seed r Ht|ctx rnd c r Ht|ctx rnd c r Ht|ctx rnd c r Ht]; intros HK.
  - destruct (wp_EnsureOIDCMember seed r) as [E|(m & Hn & Hmt & Hmp & E)]; [by apply Same|].
    eapply added_member; [done|done| |done|done]. by rewrite Hn.
  - destruct (wp_UpdateMember ctx rnd c r) as [E|(m & m' & [_ Hm Hid _ Hown E])]; [by apply Same|].
    destruct (HK _ _ Hm) as [Hkey Hpl]. apply memberKey_inj in Hkey as [Hkt Hkp]; [|done..].
    assert (PrincipalRecord_TenantID m' = PrincipalRecord_TenantID m ∧
      PrincipalRecord_PrincipalID m' = PrincipalRecord_PrincipalID m) as [HtT HpP]
      by (unfold PrincipalRecord_TenantID, PrincipalRecord_PrincipalID; by rewrite Hid).
    split; [apply (members_keyed_put r _ _ (UpdateMemberCommand_PrincipalID c) m' HK Ht); [congruence..|done]|].
    apply (owner_kept r _ t _ _ m (Some m') HK Ht Hm).
    + intros k. rewrite E. case_decide as Hk; [by rewrite Hk, lookup_insert_eq|by rewrite lookup_insert_ne].
    + intros H1 H2. destruct (Hown H1 H2) as [[??]|]; [left|by right]. exists m'. split; [done|].
      by split; [congruence|].
  - destruct (wp_DeleteMember ctx rnd c r) as [E|(m & _ & Hm & _ & Hown & E)]; [by apply Same|].
    split; [intros k n; rewrite E; intros [_ ?]%lookup_delete_Some; by apply HK|].
    apply (owner_kept r _ t _ _ m None HK Ht Hm); [|auto].
    intros k. rewrite E. case_decide as Hk; [by rewrite Hk, lookup_delete_eq|by rewrite lookup_delete_ne].
  - destruct (wp_AcceptInvitation ctx rnd c r) as [E|(id & p & m & Hold & Hnew & E)]; [by apply Same|].
    by eapply added_member.
Qed.

(** ** Access through an entry *)

Lemma acl_walk_runs r i needed k n : wf_tree r → repo_nodes r !! k = Some n →
  ∃ b, acl_walk r i needed (node_fuel r) k = Some b ∧ (b = true ↔ ∃ a, granted r i needed k a).
Proof.
  intros HW Hn. destruct (wf_ids HW _ _ Hn) as [_ Hne].
  destruct (wt_forest _ _ HW k) as [d Hd]; [apply parents_is_Some; eauto|].
  eapply acl_walk_spec; [by eapply wf_ids|done|by eapply anchored_fuel|done].
Qed.


(** An entry that reaches the level opens the nodes at and below its node. *)
Lemma authorize_granted r i id cap n m a : wf_tree r → ValidNodeCapability cap = true →
  repo_nodes r !! id = Some n → Node_TenantID n = Identity_TenantID i →
  repo_members r !! memberKey (Identity_TenantID i) (Identity_PrincipalID i) = Some m →
  PrincipalRecord_Status m = MemberStatusActive → granted r i (capability_level cap) id a →
  authorizeNodeLocked r i id cap = Ok tt.
Proof.
  intros HW Hcap Hn Ht Hm Hact Hg.
  destruct (acl_walk_runs r i (capability_level cap) id n HW Hn) as ([] & Hb & Hiff).
  - unfold authorizeNodeLocked. rewrite Hcap, Hn, Hm. repeat go_decide. rewrite Hb. by repeat case_match.
  - destruct Hiff as [_ Hiff]. by discriminate Hiff; eauto.
Qed.

(** A stored entry after [SetNodeACL]: the one there was, or a new one. *)
Lemma wp_SetNodeACL ctx rnd c r : wp (SetNodeACL ctx rnd c) (λ o r', ∀ a, o = Ok a →
  same_tree r r' ∧ repo_members r' = repo_members r ∧
  NodeACLEntry_TenantID a = SetNodeACLCommand_TenantID c ∧
  NodeACLEntry_NodeID a = SetNodeACLCommand_NodeID c ∧
  NodeACLEntry_SubjectType a = SetNodeACLCommand_SubjectType c ∧
  NodeACLEntry_SubjectID a = SetNodeACLCommand_SubjectID c ∧
  NodeACLEntry_Role a = SetNodeACLCommand_Role c ∧ ∃ k, repo_acls r' !! k = Some a) r.
Proof.
  unfold SetNodeACL. frame_unfold. repeat (cbv beta iota; frame_step); intros entry He; try done; simplify_eq/=.
  - match goal with H : List.find _ _ = Some _ |- _ => apply find_some in H as [_ Hf] end.
    go_bool. split_and!; try done. eexists. by rewrite lookup_insert_eq.
  - split_and!; try done. eexists. by rewrite lookup_insert_eq.
Qed.
End with_runtime.
