(* ===== verification/MemorySteps.v ===== *)
(** * The transition relation of the in-memory repository

    One constructor per method of the interface: the state a call leaves behind,
    whatever it returns. Methods that create a node are given an identifier no
    node uses (the service draws it at random), a commit carries the place, the
    name and the tenant of its session (so the service and the maintenance loop
    build it), and a new display name comes with a new normalized name. *)
From S2P Require Import Prelude Errors Logic GoLib Types Validation MemoryState MemoryIdempotency MemoryNamespace.
From S2P Require Import MemoryUploads MemoryGovernance MemoryGroups MemoryFrame Tree TreeInvariant TreeOperations.
From S2P Require Import TreeRecycle.

Definition after {A} (m : GoM Repository A) (r : Repository) : Repository := (m r).2.

(** The three rows of a commit get identifiers no row uses yet. *)
Definition fresh_commit (r : Repository) (c : CommitUploadCommand) : Prop :=
  fresh_node r (Node_ID (CommitUploadCommand_Node c)) ∧
  repo_versions r !! FileVersion_ID (CommitUploadCommand_Version c) = None ∧
  repo_blobs r !! Blob_ID (CommitUploadCommand_Blob c) = None.

Section with_runtime.
Context `{!Platform, !MapRange}.
Implicit Types (r : Repository).

(** Every method but [FinishUploadMaintenance], which writes the status it is given. *)
Inductive core_step : Repository → Repository → Prop :=
| step_EnsureTenant seed r : fresh_node r (TenantSeed_RootNodeID seed) → core_step r (after (EnsureTenant seed) r)
| step_CreateDirectory ctx rnd c r : fresh_node r (CreateDirectoryCommand_ID c) →
    core_step r (after (CreateDirectory ctx rnd c) r)
| step_UpdateNode ctx rnd c r :
    (UpdateNodeCommand_DisplayName c = None → UpdateNodeCommand_NormalizedName c = None) →
    core_step r (after (UpdateNode ctx rnd c) r)
| step_CommitUpload ctx rnd c r :
    (∀ session, repo_uploads r !! CommitUploadCommand_SessionID c = Some session →
      UploadSession_Status session = UploadObjectCompleted →
      fresh_commit r c ∧ commit_shape session c) →
    core_step r (after (CommitUpload ctx rnd c) r)
| step_Recycle ctx rnd i id rev now r : core_step r (after (Recycle ctx rnd i id rev now) r)
| step_Restore ctx rnd i id rev now r : core_step r (after (Restore ctx rnd i id rev now) r)
| step_PreparePurge i id rev now r : core_step r (after (PreparePurge i id rev now) r)
| step_FinishPurge ctx rnd i plan now r : core_step r (after (FinishPurge ctx rnd i plan now) r)
| step_ClaimRecycle owner cutoff now until limit r :
    core_step r (after (ClaimRecycleForMaintenance owner cutoff now until limit) r)
| step_ReleaseRecycle owner id t e now r : core_step r (after (ReleaseRecycleMaintenance owner id t e now) r)
| step_ClaimIdempotency request r : core_step r (after (ClaimIdempotency request) r)
| step_ReleaseIdempotency request r : core_step r (after (ReleaseIdempotency request) r)
| step_DeleteExpiredIdempotency now limit r : core_step r (after (DeleteExpiredIdempotency now limit) r)
| step_CreateUpload c r : core_step r (after (CreateUpload c) r)
| step_MarkUploading i id now r : core_step r (after (MarkUploading i id now) r)
| step_BeginComplete i id d parts now r : core_step r (after (BeginComplete i id d parts now) r)
| step_FailUploadCompletion i id d c now r : core_step r (after (FailUploadCompletion i id d c now) r)
| step_MarkObjectCompleted i id o now r : core_step r (after (MarkObjectCompleted i id o now) r)
| step_AbortUpload i id t now r : core_step r (after (AbortUpload i id t now) r)
| step_RecordPartSignature i id p now r : core_step r (after (RecordPartSignature i id p now) r)
| step_MarkUploadCleanupComplete i id now r : core_step r (after (MarkUploadCleanupComplete i id now) r)
| step_ClaimUploads o now st until limit r :
    core_step r (after (ClaimUploadsForMaintenance o now st until limit) r)
| step_EnsureOIDCMember seed r : core_step r (after (EnsureOIDCMember seed) r)
| step_SetOIDCMemberStatus t p s r : core_step r (after (SetOIDCMemberStatus t p s) r)
| step_UpdateMember ctx rnd c r : core_step r (after (UpdateMember ctx rnd c) r)
| step_DeleteMember ctx rnd c r : core_step r (after (DeleteMember ctx rnd c) r)
| step_CreateInvitation ctx rnd c r : core_step r (after (CreateInvitation ctx rnd c) r)
| step_ListInvitations now t s limit r : core_step r (after (ListInvitations now t s limit) r)
| step_AcceptInvitation ctx rnd c r : core_step r (after (AcceptInvitation ctx rnd c) r)
| step_RevokeInvitation ctx rnd c r : core_step r (after (RevokeInvitation ctx rnd c) r)
| step_CreateGroup ctx rnd c r : core_step r (after (CreateGroup ctx rnd c) r)
| step_UpdateGroup ctx rnd c r : core_step r (after (UpdateGroup ctx rnd c) r)
| step_DeleteGroup ctx rnd c r : core_step r (after (DeleteGroup ctx rnd c) r)
| step_AddGroupMember ctx rnd c r : core_step r (after (AddGroupMember ctx rnd c) r)
| step_RemoveGroupMember ctx rnd c r : core_step r (after (RemoveGroupMember ctx rnd c) r)
| step_SetNodeACL ctx rnd c r : core_step r (after (SetNodeACL ctx rnd c) r)
| step_DeleteNodeACL ctx rnd c r : core_step r (after (DeleteNodeACL ctx rnd c) r)
| step_AppendAudit ctx rnd e r : core_step r (after (AppendAudit ctx rnd e) r).

Inductive op_step : Repository → Repository → Prop :=
| step_core r r' : core_step r r' → op_step r r'
| step_FinishUploadMaintenance o u s c t e now r :
    op_step r (after (FinishUploadMaintenance o u s c t e now) r).

Definition reachable r : Prop := rtc op_step NewRepository r.

Lemma frames_wf {A} (m : GoM Repository A) r : frames m → wf_tree r → wf_tree (after m r).
Proof. intros Hm. apply wf_tree_same, Hm. Qed.

Lemma core_step_wf r r' : core_step r r' → wf_tree r → wf_tree r'.
Proof.
  destruct 1; intros HW; try (by apply frames_wf; [eauto with frames|]).
  - by apply EnsureTenant_keeps.
  - by apply CreateDirectory_keeps.
  - by apply UpdateNode_keeps.
  - apply CommitUpload_keeps; [done|]. intros session Hs Hst.
    match goal with Hc : ∀ session, _ |- _ => destruct (Hc session Hs Hst) as [[??] ?] end.
    done.
  - by apply Recycle_keeps.
  - by apply Restore_keeps.
  - by apply PreparePurge_keeps.
  - by apply ClaimRecycleForMaintenance_keeps.
Qed.

Lemma op_step_wf r r' : op_step r r' → wf_tree r → wf_tree r'.
Proof.
  destruct 1; [by apply core_step_wf|]. intros HW. apply frames_wf; [eauto with frames|done].
Qed.

Lemma reachable_wf r : reachable r → wf_tree r.
Proof.
  intros Hr. pose proof NewRepository_wf as HW. revert HW.
  induction Hr as [|r1 r2 r3 Hstep _ IH]; [done|]. intros HW. apply IH. by eapply op_step_wf.
Qed.
End with_runtime.

(** ** The audit trail of the in-memory repository

    Every method leaves the recorded events as they are and may only append new
    ones, with consecutive sequence numbers. *)

(** ** The trail and its extensions *)

Definition trail (r : Repository) : list AuditEvent * Z := (repo_audit r, repo_auditSequence r).
Definition append_event (t : list AuditEvent * Z) (e : AuditEvent) : list AuditEvent * Z :=
  let sequence := wrap64 (t.2 + 1) in (t.1 ++ [e <| AuditEvent_Sequence := sequence |>], sequence).
Definition extends (r r' : Repository) : Prop := ∃ events, trail r' = foldl append_event (trail r) events.

#[export] Instance extends_refl : Reflexive extends.
Proof. intros r. by exists []. Qed.
#[export] Instance extends_trans : Transitive extends.
Proof. intros r1 r2 r3 [l1 H1] [l2 H2]. exists (l1 ++ l2). by rewrite foldl_app, <- H1, H2. Qed.

Lemma extends_same r r' : trail r' = trail r → extends r r'.
Proof. intros H. by exists []. Qed.
Lemma extends_one r r' e : trail r' = append_event (trail r) e → extends r r'.
Proof. intros H. by exists [e]. Qed.

Definition logs {A} (m : GoM Repository A) : Prop := ∀ r, wp m (λ _ r', extends r r') r.

Section rules.
Context `{!Platform, !MapRange}.
Implicit Types (r : Repository).

Lemma wp_append_log ctx rnd e (Q : Outcome unit → Repository → Prop) r :
  (∀ o, (∀ a, o ≠ Ok a) → Q o r) →
  (∀ e', let s := wrap64 (repo_auditSequence r + 1) in
     Q (Ok tt) (r <| repo_auditSequence := s |> <| repo_audit := repo_audit r ++ [e' <| AuditEvent_Sequence := s |>] |>)) →
  wp (appendAuditLocked ctx rnd e) Q r.
Proof.
  intros HE HO. unfold appendAuditLocked.
  repeat (cbv beta iota; wp_step); try apply HO; by apply HE.
Qed.

Lemma logs_bind {A B} (m : GoM Repository A) (f : A → GoM Repository B) :
  logs m → (∀ a, logs (f a)) → logs (m ≫= f).
Proof.
  intros Hm Hf r. apply wp_bind. eapply wp_mono; [apply Hm|]. intros [a| | |] r' Hr; simpl; try done.
  eapply wp_mono; [apply Hf|]. intros o r'' Hr'. by etrans.
Qed.
Lemma logs_for_range {A} (l : list A) body : (∀ x, logs (body x)) → logs (for_range l body).
Proof.
  intros Hbody. induction l as [|x l IH]; simpl; [intros r; by apply wp_ret|]. by apply logs_bind.
Qed.
Lemma logs_append ctx rnd e : logs (appendAuditLocked ctx rnd e).
Proof. intros r. apply wp_append_log; [done|]. intros e'. by eapply extends_one. Qed.
End rules.

Ltac log_step :=
  lazymatch goal with
  | |- wp (appendAuditLocked _ _ _) _ _ => apply wp_append_log; intros; cbn [bind_post try_post]
  | |- wp (completeIdempotency _ _ _) _ _ => apply wp_completeIdempotency; intros; cbn [bind_post try_post]
  | |- _ => wp_step
  end.
Ltac log := unfold logs; intros; frame_unfold; repeat (cbv beta iota; log_step);
  first [ apply extends_same; reflexivity | eapply extends_one; reflexivity
        | match goal with H : ∀ a, ?o ≠ Ok a |- _ => by destruct (H tt) end ].
Ltac logs_step :=
  cbv beta iota;
  lazymatch goal with
  | |- logs (mbind _ _) => apply logs_bind; [|intros ?]
  | |- logs (for_range _ _) => apply logs_for_range; intros ?
  | |- logs (appendAuditLocked _ _ _) => apply logs_append
  | |- logs (match ?x with _ => _ end) => destruct x
  | |- logs _ => solve [eauto with logs | log]
  end.
Ltac logs_auto := repeat logs_step.
Ltac logs_op := first [ solve [log] | solve [logs_auto] ].
Create HintDb logs.

(** ** The methods *)

Section operations.
Context `{!Platform, !MapRange}.
Implicit Types (r : Repository).

Lemma recycle_one_logs root now id : logs (recycle_one root now id).
Proof. unfold recycle_one. log. Qed.
Lemma purge_mark_one_logs now id : logs (purge_mark_one now id).
Proof. unfold purge_mark_one. log. Qed.
Lemma finish_blob_logs identity now planned : logs (finish_blob identity now planned).
Proof. unfold finish_blob. log. Qed.
Lemma restore_loop_logs now ids node : logs (restore_loop now ids node).
Proof.
  revert node. induction ids as [|id ids IH]; intros node; simpl; [log|].
  repeat (apply logs_bind; [log|intros ?]). apply IH.
Qed.
Lemma purge_blobs_logs subtree ids plan : logs (purge_blobs subtree ids plan).
Proof.
  revert plan. induction ids as [|id ids IH]; intros plan; simpl; [log|].
  apply logs_bind; [log|intros r]. case_match; [|apply IH].
  apply logs_bind; [log|intros []]. apply IH.
Qed.
Lemma claim_recycle_logs owner now until ids claims : logs (claim_recycle owner now until ids claims).
Proof.
  revert claims. induction ids as [|id ids IH]; intros claims; simpl; [log|].
  repeat (apply logs_bind; [log|intros ?]). apply IH.
Qed.
Lemma claim_uploads_logs owner until ids claims : logs (claim_uploads owner until ids claims).
Proof.
  revert claims. induction ids as [|id ids IH]; intros claims; simpl; [log|].
  repeat (apply logs_bind; [log|intros ?]). apply IH.
Qed.
#[local] Hint Resolve recycle_one_logs purge_mark_one_logs finish_blob_logs restore_loop_logs
  purge_blobs_logs claim_recycle_logs claim_uploads_logs : logs.

Lemma EnsureTenant_logs seed : logs (EnsureTenant seed).
Proof. unfold EnsureTenant. logs_op. Qed.
Lemma CreateDirectory_logs ctx rnd c : logs (CreateDirectory ctx rnd c).
Proof. unfold CreateDirectory. logs_op. Qed.
Lemma UpdateNode_logs ctx rnd c : logs (UpdateNode ctx rnd c).
Proof. unfold UpdateNode. logs_op. Qed.
Lemma CommitUpload_logs ctx rnd c : logs (CommitUpload ctx rnd c).
Proof. unfold CommitUpload. logs_op. Qed.
Lemma Recycle_logs ctx rnd i id rev now : logs (Recycle ctx rnd i id rev now).
Proof. unfold Recycle. logs_op. Qed.
Lemma Restore_logs ctx rnd i id rev now : logs (Restore ctx rnd i id rev now).
Proof. unfold Restore. logs_op. Qed.
Lemma PreparePurge_logs i id rev now : logs (PreparePurge i id rev now).
Proof. unfold PreparePurge. logs_op. Qed.
Lemma FinishPurge_logs ctx rnd i plan now : logs (FinishPurge ctx rnd i plan now).
Proof. unfold FinishPurge. logs_op. Qed.
Lemma ClaimRecycleForMaintenance_logs owner cutoff now until limit : logs (ClaimRecycleForMaintenance owner cutoff now until limit).
Proof. unfold ClaimRecycleForMaintenance. logs_op. Qed.
Lemma ReleaseRecycleMaintenance_logs owner id t e now : logs (ReleaseRecycleMaintenance owner id t e now).
Proof. unfold ReleaseRecycleMaintenance. logs_op. Qed.
Lemma ClaimIdempotency_logs request : logs (ClaimIdempotency request).
Proof. unfold ClaimIdempotency. logs_op. Qed.
Lemma ReleaseIdempotency_logs request : logs (ReleaseIdempotency request).
Proof. unfold ReleaseIdempotency. logs_op. Qed.
Lemma DeleteExpiredIdempotency_logs now limit : logs (DeleteExpiredIdempotency now limit).
Proof. unfold DeleteExpiredIdempotency. logs_op. Qed.
Lemma CreateUpload_logs c : logs (CreateUpload c).
Proof. unfold CreateUpload. logs_op. Qed.
Lemma MarkUploading_logs i id now : logs (MarkUploading i id now).
Proof. unfold MarkUploading. logs_op. Qed.
Lemma BeginComplete_logs i id d parts now : logs (BeginComplete i id d parts now).
Proof. unfold BeginComplete. logs_op. Qed.
Lemma FailUploadCompletion_logs i id d c now : logs (FailUploadCompletion i id d c now).
Proof. unfold FailUploadCompletion. logs_op. Qed.
Lemma MarkObjectCompleted_logs i id o now : logs (MarkObjectCompleted i id o now).
Proof. unfold MarkObjectCompleted. logs_op. Qed.
Lemma AbortUpload_logs i id t now : logs (AbortUpload i id t now).
Proof. unfold AbortUpload. logs_op. Qed.
Lemma RecordPartSignature_logs i id p now : logs (RecordPartSignature i id p now).
Proof. unfold RecordPartSignature. logs_op. Qed.
Lemma MarkUploadCleanupComplete_logs i id now : logs (MarkUploadCleanupComplete i id now).
Proof. unfold MarkUploadCleanupComplete. logs_op. Qed.
Lemma ClaimUploadsForMaintenance_logs o now st until limit : logs (ClaimUploadsForMaintenance o now st until limit).
Proof. unfold ClaimUploadsForMaintenance. logs_op. Qed.
Lemma EnsureOIDCMember_logs seed : logs (EnsureOIDCMember seed).
Proof. unfold EnsureOIDCMember. logs_op. Qed.
Lemma SetOIDCMemberStatus_logs t p s : logs (SetOIDCMemberStatus t p s).
Proof. unfold SetOIDCMemberStatus. logs_op. Qed.
Lemma UpdateMember_logs ctx rnd c : logs (UpdateMember ctx rnd c).
Proof. unfold UpdateMember. logs_op. Qed.
Lemma DeleteMember_logs ctx rnd c : logs (DeleteMember ctx rnd c).
Proof. unfold DeleteMember. logs_op. Qed.
Lemma CreateInvitation_logs ctx rnd c : logs (CreateInvitation ctx rnd c).
Proof. unfold CreateInvitation. logs_op. Qed.
Lemma ListInvitations_logs now t s limit : logs (ListInvitations now t s limit).
Proof. unfold ListInvitations. logs_op. Qed.
Lemma AcceptInvitation_logs ctx rnd c : logs (AcceptInvitation ctx rnd c).
Proof. unfold AcceptInvitation. logs_op. Qed.
Lemma RevokeInvitation_logs ctx rnd c : logs (RevokeInvitation ctx rnd c).
Proof. unfold RevokeInvitation. logs_op. Qed.
Lemma CreateGroup_logs ctx rnd c : logs (CreateGroup ctx rnd c).
Proof. unfold CreateGroup. logs_op. Qed.
Lemma UpdateGroup_logs ctx rnd c : logs (UpdateGroup ctx rnd c).
Proof. unfold UpdateGroup. logs_op. Qed.
Lemma DeleteGroup_logs ctx rnd c : logs (DeleteGroup ctx rnd c).
Proof. unfold DeleteGroup. logs_op. Qed.
Lemma AddGroupMember_logs ctx rnd c : logs (AddGroupMember ctx rnd c).
Proof. unfold AddGroupMember. logs_op. Qed.
Lemma RemoveGroupMember_logs ctx rnd c : logs (RemoveGroupMember ctx rnd c).
Proof. unfold RemoveGroupMember. logs_op. Qed.
Lemma SetNodeACL_logs ctx rnd c : logs (SetNodeACL ctx rnd c).
Proof. unfold SetNodeACL. logs_op. Qed.
Lemma DeleteNodeACL_logs ctx rnd c : logs (DeleteNodeACL ctx rnd c).
Proof. unfold DeleteNodeACL. logs_op. Qed.
Lemma AppendAudit_logs ctx rnd e : logs (AppendAudit ctx rnd e).
Proof. unfold AppendAudit. logs_op. Qed.
Lemma FinishUploadMaintenance_logs o u s c t e now : logs (FinishUploadMaintenance o u s c t e now).
Proof. unfold FinishUploadMaintenance. logs_op. Qed.
End operations.

#[export] Hint Resolve recycle_one_logs purge_mark_one_logs finish_blob_logs restore_loop_logs purge_blobs_logs claim_recycle_logs claim_uploads_logs EnsureTenant_logs CreateDirectory_logs UpdateNode_logs CommitUpload_logs Recycle_logs Restore_logs PreparePurge_logs FinishPurge_logs ClaimRecycleForMaintenance_logs ReleaseRecycleMaintenance_logs ClaimIdempotency_logs ReleaseIdempotency_logs DeleteExpiredIdempotency_logs CreateUpload_logs MarkUploading_logs BeginComplete_logs FailUploadCompletion_logs MarkObjectCompleted_logs AbortUpload_logs RecordPartSignature_logs MarkUploadCleanupComplete_logs ClaimUploadsForMaintenance_logs EnsureOIDCMember_logs SetOIDCMemberStatus_logs UpdateMember_logs DeleteMember_logs CreateInvitation_logs ListInvitations_logs AcceptInvitation_logs RevokeInvitation_logs CreateGroup_logs UpdateGroup_logs DeleteGroup_logs AddGroupMember_logs RemoveGroupMember_logs SetNodeACL_logs DeleteNodeACL_logs AppendAudit_logs FinishUploadMaintenance_logs : logs.

Section steps.
Context `{!Platform, !MapRange}.
Implicit Types (r : Repository).

Lemma logs_after {A} (m : GoM Repository A) r : logs m → extends r (after m r).
Proof. intros Hm. apply Hm. Qed.

Lemma op_step_extends r r' : op_step r r' → extends r r'.
Proof. destruct 1 as [r r' Hcore|]; [destruct Hcore|]; apply logs_after; eauto with logs. Qed.

(** ** Sequence numbers *)

(** The events of a trail are numbered from 1; the numbers wrap around at the
    end of the range of 64-bit integers. *)
Definition numbered (t : list AuditEvent * Z) : Prop :=
  zlen t.1 < 2 ^ 63 → t.2 = zlen t.1 ∧
  ∀ i e, t.1 !! i = Some e → AuditEvent_Sequence e = Z.of_nat i + 1.

Lemma append_event_numbered t e : numbered t → numbered (append_event t e).
Proof.
  destruct t as [events sequence]. unfold numbered, append_event, zlen. simpl. rewrite length_app. simpl.
  intros Ht Hlen. destruct Ht as [-> Hseq]; [lia|].
  rewrite wrap64_id by (unfold in_int64; lia). split; [lia|].
  intros i e'. intros [Hi|[Hi He]]%lookup_app_Some; [by apply Hseq|].
  apply list_lookup_singleton_Some in He as [Hz <-]. simpl. lia.
Qed.

Lemma extends_numbered r r' : extends r r' → numbered (trail r) → numbered (trail r').
Proof.
  intros [events ->]. revert events. apply (rev_ind (λ events, _ → numbered (foldl _ _ events))); [done|].
  intros e events IH Ht. rewrite foldl_app. simpl. by apply append_event_numbered, IH.
Qed.

Lemma reachable_numbered r : reachable r → numbered (trail r).
Proof.
  intros Hr. assert (numbered (trail NewRepository)) as Hnew by (intros _; split; [done|intros i e Hi; done]).
  revert Hnew. induction Hr as [|r1 r2 r3 Hstep _ IH]; [done|]. intros Hr1.
  by apply IH, (extends_numbered r1), Hr1; apply op_step_extends.
Qed.

Lemma extends_prefix r r' : extends r r' → repo_audit r `prefix_of` repo_audit r'.
Proof.
  intros [events Ht]. assert (∀ t, t.1 `prefix_of` (foldl append_event t events).1) as Hp.
  { clear Ht. induction events as [|e events IH]; intros t; simpl; [done|].
    etrans; [|apply IH]. simpl. by apply prefix_app_r. }
  specialize (Hp (trail r)). by rewrite <- Ht in Hp.
Qed.
End steps.
