(* ===== verification/Sessions.v ===== *)
(** * The life of an upload session

    [session_step] is the state machine of a session: its edges are what the
    methods of the repository may do to one. [sessions_follow] says that a state
    comes from another by edges and by new sessions only. [unattended] says that no
    maintenance worker holds or waits for a session, which every step keeps once it is over. *)
From S2P Require Import Prelude Errors Logic GoLib Types Validation MemoryState MemoryIdempotency MemoryNamespace.
From S2P Require Import MemoryUploads MemoryGovernance MemoryGroups MemoryFrame MemorySteps TreeRecycle.

Inductive session_step (s : UploadSession) : UploadSession → Prop :=
| session_uploads now : UploadSession_Status s = UploadCreated →
    session_step s (set_status s UploadUploading now)
| session_completes digest now :
    UploadSession_Status s = UploadCreated ∨ UploadSession_Status s = UploadUploading →
    UploadSession_CompletionDigest s = "" ∨ UploadSession_CompletionDigest s = digest →
    session_step s (set_status (s <| UploadSession_CompletionDigest := digest |>) UploadCompleting now)
| session_object_done now : UploadSession_Status s = UploadCompleting →
    session_step s (set_status s UploadObjectCompleted now)
| session_commits nodeID now : UploadSession_Status s = UploadObjectCompleted →
    session_step s (set_status (s <| UploadSession_CommittedNodeID := nodeID |>) UploadCommitted now)
| session_fails code now :
    UploadSession_Status s = UploadCompleting ∨ UploadSession_Status s = UploadObjectCompleted →
    code ≠ "" → session_step s (set_status (s <| UploadSession_FailureCode := code |>) UploadFailed now)
| session_aborts target now :
    UploadSession_Status s = UploadCreated ∨ UploadSession_Status s = UploadUploading →
    target = UploadAborted ∨ target = UploadExpired ∨ target = UploadFailed →
    session_step s (set_status s target now).

(** What no step of a session changes: all but the status, the revision, the time
    of the update, the digest, the failure code and the committed node. *)
Definition request_of (s : UploadSession) : UploadSession :=
  s <| UploadSession_Status := "" |> <| UploadSession_Revision := 0 |> <| UploadSession_UpdatedAt := 0 |>
    <| UploadSession_CompletionDigest := "" |> <| UploadSession_FailureCode := "" |>
    <| UploadSession_CommittedNodeID := "" |>.

Lemma session_step_request s s' : session_step s s' → request_of s' = request_of s.
Proof. by destruct 1. Qed.
Lemma request_of_ID s s' : request_of s' = request_of s → UploadSession_ID s' = UploadSession_ID s.
Proof. intros E. by apply (f_equal UploadSession_ID) in E. Qed.
Lemma request_of_TenantID s s' : request_of s' = request_of s →
  UploadSession_TenantID s' = UploadSession_TenantID s.
Proof. intros E. by apply (f_equal UploadSession_TenantID) in E. Qed.

(** A digest, once given, stays. *)
Lemma session_step_digest s s' : session_step s s' → UploadSession_CompletionDigest s ≠ "" →
  UploadSession_CompletionDigest s' = UploadSession_CompletionDigest s.
Proof. destruct 1 as [|? ? ? []| | | |]; simpl; congruence. Qed.

(** No edge leaves a terminal state. *)
Lemma session_step_terminal s s' : session_step s s' → Terminal (UploadSession_Status s) = false.
Proof. by destruct 1 as [? ->|? ? [-> | ->]|? ->|? ? ->|? ? [-> | ->]|? ? [-> | ->]]. Qed.

(** The rank of a status: every edge goes up. *)
Definition status_rank (status : UploadStatus) : nat :=
  if status == UploadCreated then 0%nat else if status == UploadUploading then 1%nat else
  if status == UploadCompleting then 2%nat else if status == UploadObjectCompleted then 3%nat else 4%nat.
Lemma session_step_rank s s' : session_step s s' →
  (status_rank (UploadSession_Status s) < status_rank (UploadSession_Status s'))%nat.
Proof.
  destruct 1 as [? ->|? ? [-> | ->]|? ->|? ? ->|? ? [-> | ->]|? ? [-> | ->] [->|[->| ->]]];
    vm_compute; lia.
Qed.

(** ** Sessions of a state *)

Definition uploads_ok (r : Repository) : Prop :=
  ∀ id s, repo_uploads r !! id = Some s → UploadSession_ID s = id.

Record sessions_follow (r r' : Repository) : Prop := {
  sf_old id s : repo_uploads r !! id = Some s →
    ∃ s', repo_uploads r' !! id = Some s' ∧ (s' = s ∨ session_step s s');
  sf_new id s : repo_uploads r !! id = None → repo_uploads r' !! id = Some s → UploadSession_ID s = id
}.

Lemma sessions_follow_same r r' : repo_uploads r' = repo_uploads r → sessions_follow r r'.
Proof. intros E. split; intros ???; rewrite E; [by eauto|congruence]. Qed.

Lemma sessions_follow_put r r' id s s' : repo_uploads r !! id = Some s → session_step s s' →
  repo_uploads r' = <[id := s']> (repo_uploads r) → sessions_follow r r'.
Proof.
  intros Hs Hstep E. split; intros k t Hk; rewrite E.
  - destruct (decide (k = id)) as [->|Hne].
    + rewrite lookup_insert_eq. eexists. split; [done|]. right. by simplify_eq.
    + rewrite lookup_insert_ne by done. eauto.
  - rewrite lookup_insert_ne by congruence. congruence.
Qed.

(** The same for a session stored under its own identifier. *)
Lemma sessions_follow_put_id r r' id s s' : uploads_ok r → repo_uploads r !! id = Some s →
  session_step s s' → repo_uploads r' = <[UploadSession_ID s' := s']> (repo_uploads r) →
  sessions_follow r r'.
Proof.
  intros HU Hs Hstep E. eapply sessions_follow_put; [done..|].
  by rewrite E, (request_of_ID s), (HU _ _ Hs) by (by apply session_step_request).
Qed.

Lemma sessions_follow_ok r r' : sessions_follow r r' → uploads_ok r → uploads_ok r'.
Proof.
  intros [Hold Hnew] HU id s' Hs'. destruct (repo_uploads r !! id) as [s|] eqn:Hs; [|by eapply Hnew].
  destruct (Hold _ _ Hs) as (s'' & Hs'' & [->|Hstep]); simplify_eq; [by apply HU|].
  rewrite (request_of_ID s); [by apply HU|by apply session_step_request].
Qed.

Lemma uploadFor_lookup r i id s : uploadFor r i id = Ok s →
  repo_uploads r !! id = Some s ∧ UploadSession_TenantID s = Identity_TenantID i.
Proof. unfold uploadFor. intros. repeat case_match; go_bool; by simplify_eq. Qed.

Definition follows {A} (m : GoM Repository A) : Prop :=
  ∀ r, uploads_ok r → wp m (λ _ r', sessions_follow r r') r.

Lemma rests_follows {A} (m : GoM Repository A) : rests m → follows m.
Proof.
  intros Hm r _. eapply wp_mono; [apply Hm|]. intros o r' Hr. by apply sessions_follow_same, sr_uploads.
Qed.

Ltac follow :=
  unfold follows; intros; frame_unfold; repeat (cbv beta iota; frame_step);
  repeat match goal with H : uploadFor _ _ _ = Ok _ |- _ => apply uploadFor_lookup in H as [] end;
  try (apply sessions_follow_same; reflexivity).

Section with_runtime.
Context `{!Platform, !MapRange}.
Implicit Types (r : Repository).

Lemma CreateUpload_follows c : follows (CreateUpload c).
Proof.
  unfold CreateUpload. follow.
  all: split; simpl; intros id s Hs;
    [rewrite lookup_insert_ne by congruence; eauto|intros [[<- <-]|[]]%lookup_insert_Some; congruence].
Qed.
Lemma MarkUploading_follows i id now : follows (MarkUploading i id now).
Proof.
  unfold MarkUploading. follow.
  eapply sessions_follow_put; [done| |reflexivity]. go_bool. by constructor.
Qed.
Lemma BeginComplete_follows i id d parts now : follows (BeginComplete i id d parts now).
Proof.
  unfold BeginComplete. follow.
  eapply sessions_follow_put; [done| |reflexivity]. go_bool_cases; constructor; tauto || (left; congruence) || congruence.
Qed.
Lemma FailUploadCompletion_follows i id d c now : follows (FailUploadCompletion i id d c now).
Proof.
  unfold FailUploadCompletion. follow.
  eapply sessions_follow_put; [done| |reflexivity]. go_bool. constructor; tauto.
Qed.
Lemma MarkObjectCompleted_follows i id o now : follows (MarkObjectCompleted i id o now).
Proof.
  unfold MarkObjectCompleted. follow.
  eapply sessions_follow_put; [done| |reflexivity]. go_bool. by constructor.
Qed.
Lemma AbortUpload_follows i id target now : follows (AbortUpload i id target now).
Proof.
  unfold AbortUpload. follow.
  eapply sessions_follow_put; [done| |reflexivity]. go_bool_cases; constructor; tauto.
Qed.

Lemma CommitUpload_follows ctx rnd c : follows (CommitUpload ctx rnd c).
Proof.
  intros r HU. unfold CommitUpload. follow.
  all: go_bool; eapply sessions_follow_put_id; [done|done| |reflexivity]; constructor; (tauto || done).
Qed.

Lemma DeleteExpiredIdempotency_follows now limit : follows (DeleteExpiredIdempotency now limit).
Proof.
  intros r _. unfold DeleteExpiredIdempotency. wp_go.
  eapply wp_mono; [apply (wp_for_range _ _ (λ r', repo_uploads r' = repo_uploads r)); [done|]|].
  - intros key r' _ E. by apply wp_mod.
  - intros [] r' E; by apply sessions_follow_same.
Qed.

Lemma core_step_follows r r' : core_step r r' → uploads_ok r → sessions_follow r r'.
Proof.
  assert (∀ A (m : GoM Repository A) s, follows m → uploads_ok s → sessions_follow s (after m s)) as F.
  { intros A m s Hm. apply Hm. }
  assert (∀ A (m : GoM Repository A) s, rests m → sessions_follow s (after m s)) as R.
  { intros A m s Hm. eapply sessions_follow_same, sr_uploads, Hm. }
  destruct 1; intros HU;
    first [ by apply R; eauto with rests
          | apply F; [|exact HU]; first
              [ apply CreateUpload_follows | apply MarkUploading_follows | apply BeginComplete_follows
              | apply FailUploadCompletion_follows | apply MarkObjectCompleted_follows
              | apply AbortUpload_follows | apply CommitUpload_follows
              | apply DeleteExpiredIdempotency_follows
              | unfold EnsureTenant, CreateDirectory, ClaimIdempotency, ReleaseIdempotency,
                  RecordPartSignature, EnsureOIDCMember, SetOIDCMemberStatus, UpdateMember,
                  DeleteMember, CreateInvitation, ListInvitations, AcceptInvitation,
                  RevokeInvitation, CreateGroup, UpdateGroup, DeleteGroup, SetNodeACL, DeleteNodeACL;
                solve [follow] ] ].
Qed.

Lemma op_step_uploads_ok r r' : op_step r r' → uploads_ok r → uploads_ok r'.
Proof.
  destruct 1 as [r r' Hstep|]; intros HU; [eapply sessions_follow_ok; [by apply core_step_follows|done]|].
  unfold after. match goal with |- uploads_ok (?m r).2 => change (wp m (λ _ r', uploads_ok r') r) end.
  unfold FinishUploadMaintenance. frame_unfold. wp_go; try exact HU.
  all: intros id s'; simpl; intros [[<- <-]|[_ Hs']]%lookup_insert_Some; by apply (HU _ _ ltac:(eassumption)).
Qed.

Lemma reachable_uploads_ok r : reachable r → uploads_ok r.
Proof.
  intros Hr. assert (HU : uploads_ok NewRepository) by (intros id s; unfold NewRepository; simpl; by rewrite lookup_empty).
  revert HU. induction Hr as [|r1 r2 r3 Hstep _ IH]; [done|]. intros HU. by eapply IH, op_step_uploads_ok.
Qed.

(** Along a run of methods a session goes through edges only. *)
Lemma run_sessions r r' id s : uploads_ok r → rtc core_step r r' → repo_uploads r !! id = Some s →
  ∃ s', repo_uploads r' !! id = Some s' ∧ rtc session_step s s'.
Proof.
  intros HU Hrun. revert s HU. induction Hrun as [|r1 r2 r3 Hstep _ IH]; intros s HU Hs; [by eauto using rtc_refl|].
  assert (HF := core_step_follows _ _ Hstep HU).
  destruct (sf_old _ _ HF _ _ Hs) as (s2 & Hs2 & Hedge).
  destruct (IH s2) as (s3 & Hs3 & Hrest); [by eapply sessions_follow_ok|done|].
  exists s3. split; [done|]. destruct Hedge as [->|]; [done|]. by eapply rtc_l.
Qed.

Lemma run_terminal s s' : rtc session_step s s' → Terminal (UploadSession_Status s) = true → s' = s.
Proof. destruct 1 as [|s1 s2 s3 Hstep]; [done|]. by rewrite (session_step_terminal _ _ Hstep). Qed.
Lemma run_request s s' : rtc session_step s s' → request_of s' = request_of s.
Proof. induction 1 as [|s1 s2 s3 Hstep _ IH]; [done|]. by rewrite IH, (session_step_request _ _ Hstep). Qed.
Lemma run_digest s s' : rtc session_step s s' → UploadSession_CompletionDigest s ≠ "" →
  UploadSession_CompletionDigest s' = UploadSession_CompletionDigest s.
Proof.
  induction 1 as [|s1 s2 s3 Hstep _ IH]; [done|]. intros Hd.
  rewrite <- (session_step_digest _ _ Hstep Hd). apply IH. by rewrite (session_step_digest _ _ Hstep Hd).
Qed.
End with_runtime.

(** ** Leases on sessions that are over

    Maintenance does not claim a terminal session again unless some work on it is
    pending; who claimed it before it ended may still report on it. *)

(** No maintenance worker holds the session, and none has work to do for it. *)
Definition unattended (id : string) (r : Repository) : Prop := ∀ lease, repo_uploadMaintenance r !! id = Some lease →
  lease_owner lease = "" ∧ lease_cleanupPending lease = false ∧ lease_errorCode lease = "".

Definition unleased {A} (m : GoM Repository A) : Prop :=
  ∀ r, wp m (λ _ r', repo_uploadMaintenance r' = repo_uploadMaintenance r) r.
Ltac lease := unfold unleased; intros; frame_unfold; repeat (cbv beta iota; frame_step); try reflexivity.

Section leases.
Context `{!Platform, !MapRange}.
Implicit Types (r : Repository).

Lemma unleased_bind {A B} (m : GoM Repository A) (f : A → GoM Repository B) :
  unleased m → (∀ a, unleased (f a)) → unleased (m ≫= f).
Proof.
  intros Hm Hf r. apply wp_bind. eapply wp_mono; [apply Hm|]. intros [a| | |] r' Hr; simpl; try done.
  eapply wp_mono; [apply Hf|]. simpl. congruence.
Qed.
Lemma unleased_for_range {A} (l : list A) body : (∀ x, unleased (body x)) → unleased (for_range l body).
Proof. intros Hbody. induction l as [|x l IH]; simpl; [by lease|]. by apply unleased_bind. Qed.
Lemma restore_loop_unleased now ids node : unleased (restore_loop now ids node).
Proof.
  revert node. induction ids as [|id ids IH]; intros node; simpl; [by lease|].
  repeat (apply unleased_bind; [by lease|intros ?]). apply IH.
Qed.
Lemma purge_blobs_unleased subtree ids plan : unleased (purge_blobs subtree ids plan).
Proof.
  revert plan. induction ids as [|id ids IH]; intros plan; simpl; [by lease|].
  apply unleased_bind; [by lease|intros r]. case_match; [|apply IH].
  apply unleased_bind; [by lease|intros []]. apply IH.
Qed.
Lemma claim_recycle_unleased owner now until ids claims : unleased (claim_recycle owner now until ids claims).
Proof.
  revert claims. induction ids as [|id ids IH]; intros claims; simpl; [by lease|].
  repeat (apply unleased_bind; [by lease|intros ?]). apply IH.
Qed.

Ltac unleased_step :=
  cbv beta iota;
  lazymatch goal with
  | |- unleased (mbind _ _) => apply unleased_bind; [|intros ?]
  | |- unleased (for_range _ _) => apply unleased_for_range; intros ?
  | |- unleased (restore_loop _ _ _) => apply restore_loop_unleased
  | |- unleased (purge_blobs _ _ _) => apply purge_blobs_unleased
  | |- unleased (claim_recycle _ _ _ _ _) => apply claim_recycle_unleased
  | |- unleased (match ?x with _ => _ end) => destruct x
  | |- unleased _ => solve [unfold recycle_one, purge_mark_one, finish_blob; lease]
  end.
Lemma namespace_unleased :
  (∀ ctx rnd c, unleased (UpdateNode ctx rnd c)) ∧
  (∀ ctx rnd i id rev now, unleased (Recycle ctx rnd i id rev now)) ∧
  (∀ ctx rnd i id rev now, unleased (Restore ctx rnd i id rev now)) ∧
  (∀ i id rev now, unleased (PreparePurge i id rev now)) ∧
  (∀ ctx rnd i plan now, unleased (FinishPurge ctx rnd i plan now)) ∧
  (∀ o cutoff now until limit, unleased (ClaimRecycleForMaintenance o cutoff now until limit)) ∧
  (∀ now limit, unleased (DeleteExpiredIdempotency now limit)).
Proof.
  unfold UpdateNode, Recycle, Restore, PreparePurge, FinishPurge, ClaimRecycleForMaintenance, DeleteExpiredIdempotency.
  split_and!; intros; repeat unleased_step.
Qed.
End leases.

Section unattended.
Context `{!Platform, !MapRange}.
Implicit Types (r : Repository).

Lemma unattended_same id r r' : repo_uploadMaintenance r' = repo_uploadMaintenance r → unattended id r → unattended id r'.
Proof. unfold unattended. by intros ->. Qed.
Lemma unattended_other id k lease r r' : k ≠ id →
  repo_uploadMaintenance r' = <[k := lease]> (repo_uploadMaintenance r) → unattended id r → unattended id r'.
Proof. unfold unattended. intros Hk ->. by rewrite lookup_insert_ne. Qed.
Lemma claim_uploads_unattended id owner until ids claims r : id ∉ ids → unattended id r →
  wp (claim_uploads owner until ids claims) (λ _ r', unattended id r') r.
Proof.
  revert claims r. induction ids as [|k ids IH]; intros claims r Hid Hr; simpl; [by apply wp_ret|].
  apply not_elem_of_cons in Hid as [? ?]. frame_unfold. wp_go. apply IH; [done|].
  by eapply unattended_other with (k := k).
Qed.
Lemma unattended_unclaimable id s r now stale : unattended id r → Terminal (UploadSession_Status s) = true →
  upload_claimable (map_get (repo_uploadMaintenance r) id) s now stale = false.
Proof.
  intros Hr Hs. unfold upload_claimable. apply andb_false_iff. right.
  assert (lease_cleanupPending (map_get (repo_uploadMaintenance r) id) = false ∧
    lease_errorCode (map_get (repo_uploadMaintenance r) id) = "") as [-> ->].
  { unfold map_get. destruct (_ !! id) eqn:E; [|done]. by destruct (Hr _ E) as (_ & ? & ?). }
  unfold Terminal in Hs. go_bool_cases; rewrite Hs; reflexivity.
Qed.
Lemma ClaimUploads_unattended id s o now stale until limit r : repo_uploads r !! id = Some s →
  Terminal (UploadSession_Status s) = true → unattended id r →
  wp (ClaimUploadsForMaintenance o now stale until limit) (λ _ r', unattended id r') r.
Proof.
  intros Hs Ht Hr. unfold ClaimUploadsForMaintenance. wp_go. apply claim_uploads_unattended; [|done].
  intros Hid%elem_of_cut_positive. rewrite elem_of_sort_slice in Hid.
  apply list_elem_of_fmap in Hid as ([k s'] & -> & Hid). apply list_elem_of_filter in Hid as [Hc Hk].
  apply elem_of_map_range in Hk. simpl in *. simplify_eq. by rewrite (unattended_unclaimable k s) in Hc.
Qed.

Lemma core_step_unattended id s r r' : core_step r r' → uploads_ok r → repo_uploads r !! id = Some s →
  Terminal (UploadSession_Status s) = true → unattended id r → unattended id r'.
Proof.
  assert (∀ A (m : GoM Repository A) r0, unleased m → unattended id r0 → unattended id (after m r0)) as U.
  { intros A m r0 Hm. eapply unattended_same, Hm. }
  pose proof namespace_unleased as (?&?&?&?&?&?&?).
  destruct 1; intros HU Hs Ht Hr; first [by apply U; eauto|by eapply ClaimUploads_unattended|idtac].
  all: unfold after; lazymatch goal with |- unattended _ (?m ?r).2 => change (wp m (λ _ r', unattended id r') r) end.
  all: unfold EnsureTenant, CreateDirectory, CommitUpload, ReleaseRecycleMaintenance, ClaimIdempotency, ReleaseIdempotency,
    CreateUpload, MarkUploading, BeginComplete, FailUploadCompletion, MarkObjectCompleted, AbortUpload,
    RecordPartSignature, MarkUploadCleanupComplete, EnsureOIDCMember, SetOIDCMemberStatus, UpdateMember,
    DeleteMember, CreateInvitation, ListInvitations, AcceptInvitation,
    RevokeInvitation, CreateGroup, UpdateGroup, DeleteGroup, SetNodeACL, DeleteNodeACL.
  all: frame_unfold; repeat (cbv beta iota; frame_step); try exact Hr;
    match goal with H : uploadFor _ _ _ = Ok ?a |- _ => apply uploadFor_lookup in H as [Ha _]; pose proof (HU _ _ Ha) as Hid end.
  1-4: eapply unattended_other; [|reflexivity|exact Hr]; simpl; rewrite ?Hid; intros ?; subst; simplify_eq;
    go_bool_cases; unfold Terminal in Ht;
    repeat match goal with H : UploadSession_Status ?a = _, Ht : _ = true |- _ => rewrite H in Ht end; done.
  intros lease. cbn. intros [[<- <-]|[_ Hl]]%lookup_insert_Some; [|by apply Hr]. cbn. split_and!; [|done..].
  unfold map_get. destruct (repo_uploadMaintenance _ !! _) eqn:E; [|done]. by destruct (Hr _ E).
Qed.
End unattended.
