(* ===== verification/Demo.v ===== *)
(** * A concrete run of the repository

    A tenant with an owner, a directory [docs] with a directory [old] below it,
    built by the operations themselves. The witnesses of the theorems start from
    these states. *)
From S2P Require Import Prelude Errors Logic GoLib Types Validation MemoryState MemoryIdempotency MemoryNamespace.
From S2P Require Import MemoryUploads MemoryGovernance MemoryGroups Ports Service MemoryFrame Tree TreeInvariant.
From S2P Require Import TreeOperations MemorySteps Codecs.
From S2P Require MemoryStorage.

#[export] Existing Instance canonical_range.

Definition tenant1 : string := "00000000-0000-4000-8000-000000000001".
Definition root1 : string := "00000000-0000-4000-8000-000000000002".
Definition docs1 : string := "00000000-0000-4000-8000-000000000003".
Definition old1 : string := "00000000-0000-4000-8000-000000000004".
Definition owner1 : string := "00000000-0000-4000-8000-000000000005".
Definition editor1 : string := "00000000-0000-4000-8000-000000000006".
Definition alice : Identity := mkIdentity tenant1 owner1.
Definition no_context : Context := mkContext None.
Definition random16 : RandRead := Some (replicate 16 7).

Definition mkdir (id parent name : string) (t : Time) : CreateDirectoryCommand :=
  mkCreateDirectoryCommand alice id parent name name t None.

Definition demo1 : Repository := after (EnsureTenant (mkTenantSeed tenant1 "Acme" root1 100)) NewRepository.
Definition demo2 : Repository := after (CreateDirectory no_context random16 (mkdir docs1 root1 "docs" 101)) demo1.
Definition demo3 : Repository := after (CreateDirectory no_context random16 (mkdir old1 docs1 "old" 102)) demo2.

Lemma demo1_reachable : reachable demo1.
Proof. eapply rtc_once, step_core, step_EnsureTenant. by split. Qed.
Lemma demo2_reachable : reachable demo2.
Proof. eapply rtc_r; [apply demo1_reachable|]. apply step_core, step_CreateDirectory. split; [done|]. vm_compute. reflexivity. Qed.
Lemma demo3_reachable : reachable demo3.
Proof. eapply rtc_r; [apply demo2_reachable|]. apply step_core, step_CreateDirectory. split; [done|]. vm_compute. reflexivity. Qed.

Example demo3_parents :
  ((λ n, Node_ParentID n) <$> repo_nodes demo3) !! old1 = Some docs1 ∧ size (repo_nodes demo3) = 3%nat.
Proof. vm_compute. done. Qed.

Definition node_at (r : Repository) (id : string) : Node := map_get (repo_nodes r) id.

(** An owner, an editor, and an entry that lets the editor manage [docs]. *)
Definition member (id : string) (role : AccessRole) : PrincipalRecord :=
  mkPrincipalRecord (mkIdentity tenant1 id) "issuer" id "name" "Acme" role MemberStatusActive.
Definition seed (id : string) (role : AccessRole) : OIDCMemberSeed :=
  mkOIDCMemberSeed id tenant1 "issuer" id "name" role 103.
Definition demo4 : Repository := after (EnsureOIDCMember (seed owner1 RoleOwner)) demo3.
Definition demo5 : Repository := after (EnsureOIDCMember (seed editor1 RoleEditor)) demo4.
Definition grant : SetNodeACLCommand :=
  mkSetNodeACLCommand "00000000-0000-4000-8000-000000000007" tenant1 docs1 ACLSubjectPrincipal editor1
    ACLManager owner1 RoleOwner 104.
Definition demo6 : Repository := after (SetNodeACL no_context random16 grant) demo5.

Lemma demo6_reachable : reachable demo6.
Proof.
  eapply rtc_r; [|apply step_core, step_SetNodeACL]. eapply rtc_r; [|apply step_core, step_EnsureOIDCMember].
  eapply rtc_r; [apply demo3_reachable|apply step_core, step_EnsureOIDCMember].
Qed.

(** An upload of ten bytes into [docs], through the steps of its session. *)
Definition upload1 : string := "00000000-0000-4000-8000-000000000011".
Definition blob1 : string := "00000000-0000-4000-8000-000000000012".
Definition file1 : string := "00000000-0000-4000-8000-000000000013".
Definition version1 : string := "00000000-0000-4000-8000-000000000014".
Definition session1 : UploadSession :=
  mkUploadSession upload1 tenant1 owner1 docs1 "a.txt" "a.txt" 10 "text/plain" (mkChecksum "" "")
    "bucket" "blobs/1" "multipart1" UploadCreated "" "" "" 5 1000 1 105 105.
Definition commit1 : CommitUploadCommand :=
  mkCommitUploadCommand alice upload1 "digest"
    (mkBlob blob1 tenant1 "bucket" "blobs/1" 10 "text/plain" (mkChecksum "" "") "" BlobAvailable 1 109 None)
    (mkFileVersion version1 tenant1 file1 blob1 10 "text/plain" (mkChecksum "" "") owner1 109)
    (mkNode file1 tenant1 docs1 NodeFile "a.txt" "a.txt" version1 10 "text/plain" NodeActive "" "" 1 109 109 None)
    [] 109.

Definition demo7 : Repository := after (CreateUpload (mkCreateUploadCommand session1 None)) demo6.
Definition demo8 : Repository := after (MarkUploading alice upload1 106) demo7.
Definition demo9 : Repository := after (BeginComplete alice upload1 "digest" [] 107) demo8.
Definition demo10 : Repository := after (MarkObjectCompleted alice upload1 go_zero 108) demo9.
Definition demo11 : Repository := after (CommitUpload no_context random16 commit1) demo10.

Definition status_of (r : Repository) (id : string) : option UploadStatus :=
  UploadSession_Status <$> repo_uploads r !! id.
Example demo_session :
  (λ r, status_of r upload1) <$> [demo7; demo8; demo9; demo10; demo11] =
  Some <$> [UploadCreated; UploadUploading; UploadCompleting; UploadObjectCompleted; UploadCommitted].
Proof. vm_compute. reflexivity. Qed.

Lemma demo8_reachable : reachable demo8.
Proof.
  eapply rtc_r; [|apply step_core, step_MarkUploading]. eapply rtc_r; [|apply step_core, step_CreateUpload].
  apply demo6_reachable.
Qed.
Lemma demo8_step : core_step demo8 demo9.
Proof. apply step_BeginComplete. Qed.
Lemma demo9_step : core_step demo9 demo10.
Proof. apply step_MarkObjectCompleted. Qed.
Lemma demo10_reachable : reachable demo10.
Proof.
  eapply rtc_r; [|apply step_core, demo9_step]. eapply rtc_r; [|apply step_core, demo8_step].
  apply demo8_reachable.
Qed.

(** ** A concrete service: a runtime, a configuration, and a world over the states of
    [Demo]; the witnesses of the theorems on the service start here *)

(** The clock advances by a second a reading; the n-th draw repeats the byte [n + 1]. *)
#[export] Instance example_runtime : Runtime.
Proof.
  refine {|
    clock n := 1000 + Z.of_nat n;
    wall_clock n := 1000 + Z.of_nat n;
    entropy n k := Some (replicate k ((Z.of_nat n + 1) mod 256));
    jitter n bound := 0
  |}; intros; [lia|].
  simplify_eq. split; [apply length_replicate|]. apply Forall_replicate. unfold is_byte.
  apply Z.mod_pos_bound. lia.
Defined.

(** Cursors are read back as if none had been written. *)
#[export] Instance no_cursors : CursorJSON := {| Unmarshal_cursorPayload _ := None |}.

Definition service1 : Service :=
  mkService (mkCursorCodec "0123456789abcdef0123456789abcdef") 1000 5 1000 100 100 60 3600.
Definition world_of (r : Repository) : World Repository MemoryStorage.Storage :=
  mkWorld r (MemoryStorage.NewStorage "bucket") 0 0.

Lemma service1_entropy n : entropy n 16 ≠ None.
Proof. done. Qed.
