(* ===== verification/NamespaceProperties.v ===== *)
(** * Properties of the namespace: the tree, moves, and the recycle bin *)
From S2P Require Import Prelude Errors Logic GoLib Types Validation MemoryState.
From S2P Require Import MemoryIdempotency MemoryNamespace MemoryUploads MemoryGroups.
From S2P Require Import MemoryFrame Tree TreeInvariant TreeOperations TreeRecycle Members MemorySteps.
From S2P Require Import Demo.

(** What restoring an entry gives back of a node: everything but the times and the revision. *)
Definition same_entry (n n' : Node) : Prop :=
  Node_ID n' = Node_ID n ∧ Node_TenantID n' = Node_TenantID n ∧ Node_ParentID n' = Node_ParentID n ∧
  Node_Kind n' = Node_Kind n ∧ Node_DisplayName n' = Node_DisplayName n ∧
  Node_NormalizedName n' = Node_NormalizedName n ∧ Node_CurrentVersionID n' = Node_CurrentVersionID n ∧
  Node_Size n' = Node_Size n ∧ Node_MimeType n' = Node_MimeType n ∧
  Node_Status n' = Node_Status n ∧ Node_TrashedRootID n' = Node_TrashedRootID n.

(** The node may be changed by a request of the identity at this revision. *)
Definition changeable (r : Repository) (i : Identity) (id : string) (rev : Z) (n : Node) : Prop :=
  repo_nodes r !! id = Some n ∧ Node_TenantID n = Identity_TenantID i ∧ visible n = true ∧
  Tenant_RootNodeID (map_get (repo_tenants r) (Identity_TenantID i)) ≠ id ∧ Node_Revision n = rev.

(** A request that moves a node and keeps its name. *)
Definition move_command (i : Identity) (id target : string) (rev : Z) (now : Time) : UpdateNodeCommand :=
  mkUpdateNodeCommand i id None None (Some target) rev now.

Section with_runtime.
Context `{!Platform, !MapRange}.
Implicit Types (r : Repository).

Lemma audit_without_metadata ctx b e r : AuditEvent_Metadata e = ∅ → 
  ∃ audit sequence, appendAuditLocked ctx (Some b) e r =
    (Ok tt, r <| repo_auditSequence := sequence |> <| repo_audit := audit |>).
Proof.
  intros Hm. unfold appendAuditLocked. rewrite Hm.
  assert (Hrange : map_range 0 (∅ : gmap string string) = []).
  { apply Permutation_nil_r. by rewrite map_range_perm, map_to_list_empty. }
  unfold boundedAuditMetadata, json_string_map. rewrite Hrange.
  destruct (AuditEvent_ID e == ""); eexists _, _; reflexivity.
Qed.

(** The node is marked, with everything visible below it, and nothing else changes. *)
Lemma Recycle_run ctx b i id rev now r n : wf_tree r → changeable r i id rev n →
  ∃ r' ids, Recycle ctx (Some b) i id rev now r = (Ok tt, r') ∧ repo_tenants r' = repo_tenants r ∧
    (∀ x, x ∈ ids ↔ active_below (repo_nodes r) (Node_TenantID n) id x) ∧
    updated (repo_nodes r) (repo_nodes r') ids (recycled n now).
Proof.
  intros HW (Hn & Ht & Hv & Hroot & Hrev). destruct (wf_ids HW _ _ Hn) as [Hid _].
  destruct (activeSubtree_spec r (Node_TenantID n) id) as (ids & Hrun & Hnd & Hids);
    [by eapply wf_ids|apply HW|by eauto|].
  apply visible_true in Hv as Hv'. destruct Hv' as [Hst Htr].
  unfold Recycle. rewrite bind_get, Hn, Hst, Hv. repeat go_decide.
  rewrite Hid, <- Ht, Hrun.
  destruct (for_range ids (recycle_one n now) r) as [o r'] eqn:Hloop.
  assert (Hpost := wp_update_loop (recycled n now) (recycle_one n now) ids r).
  eapply wp_run in Hpost; [|done|done| |exact Hloop].
  - destruct Hpost as (-> & N' & -> & HU). unfold mbind, GoM_bind. rewrite Hloop.
    destruct (audit_without_metadata ctx b (newAuditEvent (Node_TenantID n) (Identity_PrincipalID i)
      "node.recycled" "node" id now []) (r <| repo_nodes := N' |>)) as (audit & sequence & ->); [done|].
    by eexists _, ids.
  - intros x Hx%Hids. destruct (wf_active_below HW _ _ _ _ Hn eq_refl Htr Hx) as (m & Hm & _). eauto.
Qed.

(** C1: every state the repository can reach is a well-formed namespace: nodes are
    stored under their identifiers, every chain of parents ends at a root (no
    cycles, no orphans), parents are directories of the same tenant, a visible
    node has a visible parent, what was recycled together hangs together under
    its recycle bin entry, and two nodes visible together in one directory have
    different normalized names. *)
Theorem tree_invariant r : reachable r → wf_tree r.
Proof. apply reachable_wf. Qed.

(** C2: moving a directory is refused as a move into itself or a descendant exactly
    when the target is the directory or lies below it; the walk that decides it ends. *)
Theorem move_refused_iff_below ctx rnd i id target rev now r n q : reachable r →
  changeable r i id rev n → Node_Kind n = NodeDirectory →
  activeDirectory r (Identity_TenantID i) target = Some q →
  (UpdateNode ctx rnd (move_command i id target rev now) r).1 =
    Err (E CodeInvalidRequest "directory cannot be moved into itself or a descendant")
  ↔ above (parents (repo_nodes r)) target id.
Proof.
  intros HW%reachable_wf (Hn & Ht & Hv & Hroot & Hrev) Hk Hq.
  destruct (wf_ids HW _ _ Hn) as [Hid Hne].
  apply activeDirectory_Some in Hq as Hq'. destruct Hq' as (Hqn & Hqt & _).
  destruct (isDescendant_spec r target id (Identity_TenantID i) q) as (d & Hd & Hiff);
    [by eapply wf_ids|by eapply wf_tenant_closed|apply HW|done..|].
  rewrite <- Hiff. clear Hiff.
  unfold UpdateNode. rewrite bind_get. cbn [move_command UpdateNodeCommand_Identity UpdateNodeCommand_NodeID
    UpdateNodeCommand_ExpectedRevision UpdateNodeCommand_ParentID UpdateNodeCommand_NormalizedName
    UpdateNodeCommand_DisplayName UpdateNodeCommand_Now default from_option].
  rewrite (proj2 (activeNode_Some _ _ _ _)) by done. rewrite Hid.
  cbn [Datatypes.id]. unfold check_move. rewrite Hq, Hk, Hid, Hd. repeat go_decide.
  destruct d; cbn [lift]; [done|]. rewrite bind_lift_ok.
  split; [|done]. intros Herr. exfalso. revert Herr.
  match goal with |- (?m r).1 = _ → _ => change (wp m (λ o _, o = Err (E CodeInvalidRequest
    "directory cannot be moved into itself or a descendant") → False) r) end.
  unfold putNode. repeat (cbv beta iota; frame_step); try done.
  all: intros ?; simplify_eq; by match goal with H : audit_error _ |- _ => destruct H as [|[]] end.
Qed.

(** C3: recycling a visible node marks it and exactly the nodes visible below it
    with its identifier, makes it the entry of the recycle bin, and changes no
    other node. *)
Theorem recycle_marks_subtree ctx b i id rev now r n : reachable r → changeable r i id rev n →
  let r' := after (Recycle ctx (Some b) i id rev now) r in
  (Recycle ctx (Some b) i id rev now r).1 = Ok tt ∧
  (∀ x m, repo_nodes r !! x = Some m →
    (active_below (repo_nodes r) (Node_TenantID n) id x ∧
       repo_nodes r' !! x = Some (recycled n now x m)) ∨
    (¬ active_below (repo_nodes r) (Node_TenantID n) id x ∧ repo_nodes r' !! x = Some m)) ∧
  (∀ x, repo_nodes r !! x = None → repo_nodes r' !! x = None).
Proof.
  intros HW%reachable_wf Hc r'.
  destruct (Recycle_run ctx b i id rev now r n HW Hc) as (s & ids & Hrun & _ & Hids & HU).
  unfold r', after. rewrite Hrun. simpl. split; [done|]. split.
  - intros x m Hm. rewrite (HU x), Hm. destruct (decide (x ∈ ids)) as [Hx|Hx].
    + left. by rewrite <- Hids.
    + right. by rewrite <- Hids.
  - intros x Hx. rewrite (HU x), Hx. by case_decide.
Qed.

(** The entry of the bin can be restored: its directory is still visible and its name is free. *)
Lemma recycled_place r s ids i id rev now n : wf_tree r → changeable r i id rev n →
  (∀ x, x ∈ ids ↔ active_below (repo_nodes r) (Node_TenantID n) id x) →
  updated (repo_nodes r) (repo_nodes s) ids (recycled n now) →
  repo_nodes s !! id = Some (recycled n now id n) ∧
  (∃ p, activeDirectory s (Node_TenantID n) (Node_ParentID n) = Some p) ∧
  nameExists s (Node_TenantID n) (Node_ParentID n) (Node_NormalizedName n) id = false ∧
  ∀ x m, repo_nodes s !! x = Some m → (Node_TrashedRootID m = id ↔ x ∈ ids).
Proof.
  intros HW (Hn & Ht & Hv & Hroot & Hrev) Hids HU. destruct (wf_ids HW _ _ Hn) as [Hid Hne].
  apply visible_true in Hv as Hv'. destruct Hv' as [Hst Hvis]. rewrite <- Ht in Hroot.
  pose proof (not_root_parent _ _ _ HW Hn Hroot) as Hpar.
  assert (Hself : id ∈ ids) by (apply Hids; constructor).
  assert (Hin : ∀ x m, repo_nodes r !! x = Some m → x ∈ ids → Node_TrashedRootID m = "").
  { intros x m Hm Hx%Hids. destruct (wf_active_below HW _ _ _ _ Hn eq_refl Hvis Hx) as (m' & ? & _ & ?).
    by simplify_eq. }
  split; [by rewrite (HU id), decide_True, Hn|]. split; [|split].
  - destruct (wn_parent _ _ _ _ (wt_node _ _ HW _ _ Hn) Hpar) as (p & Hp & Htp & Hk & Hvp).
    exists p. apply activeDirectory_Some. split_and!; [|done|by apply (wf_visible HW _ _ Hp), Hvp|done].
    rewrite (HU (Node_ParentID n)), decide_False; [done|]. intros Hx%Hids.
    destruct (wt_forest _ _ HW id) as [d Hd]; [apply parents_is_Some; eauto|].
    eapply (above_acyclic id); [done|by apply parents_lookup|done|].
    eapply active_below_above; [by eapply wf_ids|done|done].
  - apply not_true_iff_false. rewrite nameExists_true. intros (x & m & Hm & Hxid & Htm & Hpm & Hnm & Hvm).
    destruct (updated_inv _ _ _ _ _ _ HU Hm) as (m0 & Hm0 & ->). unfold after_update in *.
    case_decide as Hx; apply visible_true in Hvm as [_ Hvm].
    + rewrite recycled_mark in Hvm. congruence.
    + destruct (wf_ids HW _ _ Hm0) as [Hidm _]. apply Hxid. rewrite Hidm.
      eapply (wt_slots _ _ HW); [done..|]. repeat split; congruence.
  - intros x m Hm. destruct (updated_inv _ _ _ _ _ _ HU Hm) as (m0 & Hm0 & ->). unfold after_update.
    case_decide as Hx; [by rewrite recycled_mark|]. split; [|done]. intros E. exfalso.
    destruct (wf_group_entry HW _ _ Hm0) as (e & He & Hte & _); [congruence|]. rewrite E in He, Hte.
    simplify_eq. congruence.
Qed.

Lemma same_entry_refl n : same_entry n n.
Proof. by repeat split. Qed.

(** Recycled and restored, a node is the same entry. *)
Lemma restored_recycled n now now' x m : Node_ID m = x → visible m = true →
  same_entry m (restored_child (recycled n now (Node_ID n) n) now' x (recycled n now x m)).
Proof.
  intros Hx [Hst Htr]%visible_true. unfold restored_child, recycled, same_entry.
  repeat case_bool_decide; simpl in *; split_and!; congruence.
Qed.

(** The run of [Restore] on an entry whose place is free. *)
Lemma Restore_run ctx b i now s e : wf_tree s → repo_nodes s !! Node_ID e = Some e →
  Node_TenantID e = Identity_TenantID i → Node_Status e = NodeTrashed → Node_TrashedRootID e = Node_ID e →
  is_Some (activeDirectory s (Identity_TenantID i) (Node_OriginalParentID e)) →
  nameExists s (Identity_TenantID i) (Node_OriginalParentID e) (Node_NormalizedName e) (Node_ID e) = false →
  ∃ s' n', Restore ctx (Some b) i (Node_ID e) (Node_Revision e) now s = (Ok n', s') ∧
    repo_nodes s' !! Node_ID e = Some n' ∧ repo_tenants s' = repo_tenants s ∧
    updated (repo_nodes s) (repo_nodes s') (trashedSubtree s (Node_ID e) (Identity_TenantID i))
      (restored_child e now).
Proof.
  intros HW He Ht Hst Htr [p Hp] Hname.
  destruct (trashedSubtree_spec s (Identity_TenantID i) (Node_ID e)) as [Hnd Hids]; [by eapply wf_ids|].
  destruct (restore_loop now (trashedSubtree s (Node_ID e) (Identity_TenantID i)) e s) as [o s1] eqn:Hloop.
  assert (Hpost := wp_restore_loop e now (trashedSubtree s (Node_ID e) (Identity_TenantID i)) s).
  eapply wp_run in Hpost; [|by eapply wf_ids|done| |exact Hloop].
  2:{ intros x (m & Hm & _)%Hids. eauto. }
  destruct Hpost as (N' & n' & -> & -> & HU & _ & Hn').
  destruct (audit_without_metadata ctx b (newAuditEvent (Identity_TenantID i) (Identity_PrincipalID i)
      "node.restored" "node" (Node_ID e) now []) (s <| repo_nodes := N' |>)) as (audit & sequence & Haudit); [done|].
  eexists _, n'. split.
  - unfold Restore. rewrite bind_get, He, Hst, Htr, Ht, Hp, Hname. repeat go_decide.
    unfold mbind, GoM_bind. rewrite Hloop, Haudit. done.
  - split; [|by split]. simpl. rewrite decide_True in Hn'; [done|]. apply Hids. eauto.
Qed.

(** The entry of the recycle bin a node becomes. *)
Lemma recycled_entry n now id : Node_ID n = id → let e := recycled n now id n in
  Node_ID e = id ∧ Node_TenantID e = Node_TenantID n ∧ Node_NormalizedName e = Node_NormalizedName n ∧
  Node_Status e = NodeTrashed ∧ Node_TrashedRootID e = id ∧ Node_OriginalParentID e = Node_ParentID n ∧
  Node_Revision e = wrap64 (Node_Revision n + 1).
Proof. intros <-. unfold recycled. by rewrite bool_decide_eq_true_2. Qed.

(** C4: restoring a freshly recycled entry, at the revision the recycling gave it,
    succeeds and gives back the whole namespace: every node is the same entry as
    before, whatever the iteration order of the maps. *)
Theorem restore_undoes_recycle ctx b b' i id rev now now' r n : reachable r → changeable r i id rev n →
  let s := after (Recycle ctx (Some b) i id rev now) r in
  let restore := Restore ctx (Some b') i id (wrap64 (rev + 1)) now' s in
  (∃ n', restore.1 = Ok n' ∧ same_entry n n') ∧
  (∀ x m, repo_nodes r !! x = Some m → ∃ m', repo_nodes restore.2 !! x = Some m' ∧ same_entry m m') ∧
  (∀ x, repo_nodes r !! x = None → repo_nodes restore.2 !! x = None).
Proof.
  intros HW%reachable_wf Hc s restore.
  assert (HWs : wf_tree s) by (by apply Recycle_keeps).
  destruct (Recycle_run ctx b i id rev now r n HW Hc) as (s0 & ids & Hrun & Hten & Hids & HU).
  assert (s = s0) as Hs by (unfold s, after; by rewrite Hrun). clearbody s. subst s0.
  destruct (recycled_place r s ids i id rev now n HW Hc Hids HU) as (He & [p Hp] & Hname & Hmark).
  destruct Hc as (Hn & Ht & Hv & Hroot & Hrev). destruct (wf_ids HW _ _ Hn) as [Hid Hne].
  destruct (recycled_entry n now id Hid) as (HidE & HtE & HnmE & HstE & HtrE & HoE & HrevE).
  set (e := recycled n now id n) in *.
  destruct (Restore_run ctx b' i now' s e HWs) as (s' & n' & Hrest & Hn' & _ & HU').
  { by rewrite HidE. } { congruence. } { done. } { congruence. }
  { rewrite HoE, <- Ht. eauto. } { by rewrite HoE, HnmE, HidE, <- Ht. }
  rewrite HidE, HrevE, Hrev in Hrest. rewrite HidE in Hn', HU'.
  unfold restore. rewrite Hrest. cbn [fst snd].
  assert (Hvis : ∀ x m, repo_nodes r !! x = Some m → x ∈ ids → visible m = true).
  { intros x m Hm Hx%Hids. apply visible_true in Hv as [_ Hv].
    destruct (wf_active_below HW _ _ _ _ Hn eq_refl Hv Hx) as (m0 & ? & _ & ?). simplify_eq.
    by apply (wf_visible HW _ _ Hm). }
  assert (Hback : ∀ x m, repo_nodes r !! x = Some m → ∃ m', repo_nodes s' !! x = Some m' ∧ same_entry m m').
  { intros x m Hm. pose proof (updated_lookup _ _ _ _ _ _ HU Hm) as Hms.
    eexists. split; [by eapply updated_lookup|]. unfold after_update in *.
    assert (x ∈ trashedSubtree s id (Identity_TenantID i) ↔ x ∈ ids) as Hiff.
    { destruct (trashedSubtree_spec s (Identity_TenantID i) id) as [_ Hsub]; [by eapply wf_ids|].
      rewrite Hsub, <- (Hmark _ _ Hms). split; [intros (m1 & Hm1 & _ & Hx)|intros Hx].
      - simplify_eq. done.
      - eexists. split; [done|]. split; [|done].
        destruct (wf_group_entry HWs _ _ Hms) as (e' & He' & _ & Hte'); [congruence|].
        rewrite Hx in He'. simplify_eq. congruence. }
    destruct (decide (x ∈ ids)) as [Hx|Hx].
    - rewrite decide_True by (by apply Hiff). unfold e. rewrite <- Hid.
      apply restored_recycled; [by apply (wf_ids HW)|by eapply Hvis].
    - rewrite decide_False by (by rewrite Hiff). apply same_entry_refl. }
  split; [|split; [done|]].
  - exists n'. split; [done|]. destruct (Hback _ _ Hn) as (n1 & ? & ?). by simplify_eq.
  - intros x Hx. rewrite (HU' x). rewrite (HU x), Hx. by repeat case_decide.
Qed.

(** An outcome other than an endless loop. *)
Definition ends {A} (o : Outcome A) : Prop := o ≠ Diverged.

Lemma wp_ends {A} (m : GoM Repository A) r : wp m (λ o _, ends o) r → (m r).1 ≠ Diverged.
Proof. done. Qed.

Lemma UpdateNode_ends ctx rnd c r : wf_tree r → wp (UpdateNode ctx rnd c) (λ o _, ends o) r.
Proof.
  intros HW. unfold UpdateNode, putNode. wp_step. wp_step. cbn [bind_post].
  destruct (activeNode _ _ _) as [n|] eqn:Hact; [|by wp_go].
  apply activeNode_Some in Hact as (Hn & Ht & _). rewrite <- Ht.
  assert (Hmove := λ p, check_move_ends r n _ p HW Hn).
  destruct (UpdateNodeCommand_ParentID c), (UpdateNodeCommand_DisplayName c),
    (UpdateNodeCommand_NormalizedName c); repeat (cbv beta iota; frame_step); try done.
  all: match goal with H : check_move _ _ _ _ = Diverged |- _ => by apply Hmove in H end.
Qed.

Lemma Recycle_ends ctx rnd i id rev now r : wf_tree r → wp (Recycle ctx rnd i id rev now) (λ o _, ends o) r.
Proof.
  intros HW. unfold Recycle. wp_go; try done; go_bool; destruct (wf_ids HW _ _ Heqo) as [Hid _];
    destruct (activeSubtree_spec r (Identity_TenantID i) (Node_ID n)) as (ids & Hrun & Hnd & Hids);
    try (by eapply wf_ids); try (by apply HW); try (by rewrite Hid; eauto); simplify_eq; [].
  apply visible_true in Heqb2 as [_ Hv].
  eapply wp_mono; [apply (wp_update_loop (recycled n now)); [done|done|]|].
  - intros x Hx%Hids. rewrite <- Heqb in Hx.
    destruct (wf_active_below HW _ _ _ _ Heqo eq_refl Hv Hx) as (m & Hm & _). eauto.
  - intros o r' (-> & _). cbn [bind_post]. by apply wp_appendAudit.
Qed.

Lemma AuthorizeNode_ends r i id cap : wf_tree r → authorizeNodeLocked r i id cap ≠ Diverged.
Proof.
  intros HW. unfold authorizeNodeLocked. destruct (ValidNodeCapability cap); cbn [negb]; [|done].
  destruct (repo_nodes r !! id) as [n|] eqn:Hn; [|done].
  destruct (acl_walk_runs r i (capability_level cap) id n HW Hn) as (b & Hb & _).
  rewrite Hb. by repeat case_match.
Qed.

(** C5: on a reachable state every walk of the namespace ends: no update, recycling or
    access check of the repository loops for ever. *)
Theorem namespace_walks_end ctx rnd c i id rev now cap r : reachable r →
  (UpdateNode ctx rnd c r).1 ≠ Diverged ∧ (Recycle ctx rnd i id rev now r).1 ≠ Diverged ∧
  (AuthorizeNode i id cap r).1 ≠ Diverged.
Proof.
  intros HW%reachable_wf. split_and!.
  - by apply wp_ends, UpdateNode_ends.
  - by apply wp_ends, Recycle_ends.
  - by apply AuthorizeNode_ends.
Qed.

(** The access decision of the repository. With a valid capability, a node of the
    tenant and an active membership, access is given exactly when the role of the
    member suffices or an entry for the member, or for one of its groups, on the
    node or on a directory above it reaches the level of the capability. *)
Theorem access_decision r i id cap n m : reachable r → ValidNodeCapability cap = true →
  repo_nodes r !! id = Some n → Node_TenantID n = Identity_TenantID i →
  repo_members r !! memberKey (Identity_TenantID i) (Identity_PrincipalID i) = Some m →
  PrincipalRecord_Status m = MemberStatusActive →
  let needed := capability_level cap in
  let role := PrincipalRecord_Role m in
  authorizeNodeLocked r i id cap = Ok tt ↔
    role = RoleOwner ∨ role = RoleAdmin ∨ (role = RoleEditor ∧ needed ≤ 2) ∨
    (role = RoleViewer ∧ needed ≤ 1) ∨ ∃ a, granted r i needed id a.
Proof.
  intros HW%reachable_wf Hcap Hn Ht Hm Hact needed role.
  destruct (acl_walk_runs r i needed id n HW Hn) as (b & Hb & Hiff).
  unfold authorizeNodeLocked. rewrite Hcap, Hn, Hm. repeat go_decide. fold needed role. rewrite Hb.
  rewrite <- Hiff.
  destruct (role == RoleOwner) eqn:E1, (role == RoleAdmin) eqn:E2, (role == RoleEditor) eqn:E3,
    (role == RoleViewer) eqn:E4, (needed <=? 2) eqn:E5, (needed <=? 1) eqn:E6; go_bool; simpl;
    destruct b; naive_solver lia.
Qed.

End with_runtime.

(** ** Witnesses *)

Lemma tree_invariant_witness : wf_tree demo3.
Proof. exact (tree_invariant demo3 demo3_reachable). Defined.

Lemma demo_changeable : changeable demo3 alice docs1 1 (node_at demo3 docs1).
Proof. unfold changeable. vm_compute. split_and!; (done || congruence). Qed.

Lemma old_below_docs : above (parents (repo_nodes demo3)) old1 docs1.
Proof. eapply (above_step _ _ docs1); [vm_compute; reflexivity|done|constructor]. Qed.

Lemma move_refused_iff_below_witness :
  (UpdateNode no_context random16 (move_command alice docs1 old1 1 200) demo3).1 =
    Err (E CodeInvalidRequest "directory cannot be moved into itself or a descendant").
Proof.
  apply (move_refused_iff_below no_context random16 alice docs1 old1 1 200 demo3
    (node_at demo3 docs1) (node_at demo3 old1) demo3_reachable demo_changeable);
    [vm_compute; reflexivity|vm_compute; reflexivity|apply old_below_docs].
Defined.

Lemma recycle_marks_subtree_witness :
  (Recycle no_context random16 alice docs1 1 200 demo3).1 = Ok tt.
Proof.
  apply (recycle_marks_subtree no_context (replicate 16 7) alice docs1 1 200 demo3 _
    demo3_reachable demo_changeable).
Defined.

Lemma restore_undoes_recycle_witness :
  let s := after (Recycle no_context random16 alice docs1 1 200) demo3 in
  ∃ n', (Restore no_context random16 alice docs1 (wrap64 2) 300 s).1 = Ok n' ∧
    same_entry (node_at demo3 docs1) n'.
Proof.
  apply (restore_undoes_recycle no_context (replicate 16 7) (replicate 16 7) alice docs1 1 200 300 demo3
    _ demo3_reachable demo_changeable).
Defined.

Lemma namespace_walks_end_witness : (AuthorizeNode alice old1 NodeCapabilityRead demo3).1 ≠ Diverged.
Proof.
  apply (namespace_walks_end no_context random16 (move_command alice docs1 old1 1 200) alice old1 1 200
    NodeCapabilityRead demo3 demo3_reachable).
Defined.

(** The editor may manage the directory below [docs] through the entry on [docs]. *)
Lemma access_decision_witness :
  authorizeNodeLocked demo6 (mkIdentity tenant1 editor1) old1 NodeCapabilityManageACL = Ok tt.
Proof.
  apply (access_decision demo6 (mkIdentity tenant1 editor1) old1 NodeCapabilityManageACL
    (node_at demo6 old1) (member editor1 RoleEditor) demo6_reachable);
    [vm_compute; reflexivity..|].
  do 4 right. exists docs1. split.
  - eapply (above_step _ _ docs1); [vm_compute; reflexivity|done|constructor].
  - exists "00000000-0000-4000-8000-000000000007". eexists. split; vm_compute; reflexivity.
Defined.
