(* ===== verification/UploadProperties.v ===== *)
(** * Properties of upload sessions: the life of a session, commits, digests *)
From S2P Require Import Prelude Errors Logic GoLib Types Validation MemoryState.
From S2P Require Import MemoryIdempotency MemoryNamespace MemoryUploads MemoryGovernance MemoryGroups.
From S2P Require Import MemoryFrame Tree TreeInvariant TreeOperations MemorySteps Sessions Demo.

Section with_runtime.
Context `{!Platform, !MapRange}.
Implicit Types (r : Repository).

(** The session a commit leaves. *)
Definition committed (session : UploadSession) (c : CommitUploadCommand) : UploadSession :=
  set_status (session <| UploadSession_CommittedNodeID := Node_ID (CommitUploadCommand_Node c) |>)
    UploadCommitted (CommitUploadCommand_Now c).

(** What a first commit found and did. *)
Lemma CommitUpload_first ctx rnd c r res r1 : CommitUpload ctx rnd c r = (Ok (res, true), r1) →
  ∃ session audit sequence,
    repo_uploads r !! CommitUploadCommand_SessionID c = Some session ∧
    UploadSession_TenantID session = Identity_TenantID (CommitUploadCommand_Identity c) ∧
    UploadSession_CompletionDigest session = CommitUploadCommand_Digest c ∧
    UploadSession_Status session = UploadObjectCompleted ∧
    res = mkCompleteResult (committed session c) (CommitUploadCommand_Node c) (CommitUploadCommand_Blob c)
            (CommitUploadCommand_Version c) ∧
    r1 = r <| repo_blobs := <[Blob_ID (CommitUploadCommand_Blob c) := CommitUploadCommand_Blob c]> (repo_blobs r) |>
           <| repo_versions := <[FileVersion_ID (CommitUploadCommand_Version c) :=
                CommitUploadCommand_Version c]> (repo_versions r) |>
           <| repo_nodes := <[Node_ID (CommitUploadCommand_Node c) := CommitUploadCommand_Node c]> (repo_nodes r) |>
           <| repo_uploads := <[UploadSession_ID session := committed session c]> (repo_uploads r) |>
           <| repo_auditSequence := sequence |> <| repo_audit := audit |>.
Proof.
  intros Hrun. apply (wp_inv _ _ _ _ _ Hrun). unfold CommitUpload, reject_commit.
  frame_unfold. repeat (cbv beta iota; frame_step).
  all: intros Ho Hs; try (discriminate Ho); try (destruct Hs; discriminate Ho).
  apply uploadFor_Ok in Heqo as [Hsession Ht]. go_bool. simplify_eq.
  by eexists _, _, _.
Qed.

(** The life of a session. No method loses a session; a method leaves it as it is
    or moves it along one edge of the state machine, which keeps what the client
    asked for (name, place, size, checksum, object) and a digest once given; and a
    terminal session stays the same for ever. *)
Theorem session_lifecycle r r' id s : reachable r → repo_uploads r !! id = Some s →
  (core_step r r' → ∃ s', repo_uploads r' !! id = Some s' ∧ (s' = s ∨ session_step s s')) ∧
  (rtc core_step r r' → ∃ s', repo_uploads r' !! id = Some s' ∧ request_of s' = request_of s ∧
    (UploadSession_CompletionDigest s ≠ "" →
      UploadSession_CompletionDigest s' = UploadSession_CompletionDigest s) ∧
    (Terminal (UploadSession_Status s) = true → s' = s)).
Proof.
  intros HU%reachable_uploads_ok Hs. split; intros Hrun.
  - destruct (core_step_follows _ _ Hrun HU) as [Hold _]. by apply Hold.
  - destruct (run_sessions _ _ _ _ HU Hrun Hs) as (s' & Hs' & Hedges). exists s'.
    split_and!; eauto using run_request, run_digest, run_terminal.
Qed.

(** A call of any method; maintenance workers have a name. *)
Inductive owned_step : Repository → Repository → Prop :=
| owned_core r r' : core_step r r' → owned_step r r'
| owned_finish o u st cleanup t e now r : o ≠ "" →
    owned_step r (after (FinishUploadMaintenance o u st cleanup t e now) r).

Lemma FinishUpload_unattended o u st cleanup t e now id r : o ≠ "" → unattended id r →
  wp (FinishUploadMaintenance o u st cleanup t e now)
    (λ _ r', repo_uploads r' !! id = repo_uploads r !! id ∧ unattended id r') r.
Proof.
  intros Ho Hr. unfold FinishUploadMaintenance. frame_unfold. wp_go; try done.
  assert (u ≠ id) as Hne.
  { intros ->. destruct (Hr _ ltac:(eassumption)) as [E _]. go_bool. congruence. }
  split; [simpl; by rewrite lookup_insert_ne|]. by eapply unattended_other.
Qed.
Lemma owned_run_final id s r r' : rtc owned_step r r' → uploads_ok r → repo_uploads r !! id = Some s →
  Terminal (UploadSession_Status s) = true → unattended id r → repo_uploads r' !! id = Some s.
Proof.
  intros Hrun. induction Hrun as [|r1 r2 r3 Hstep _ IH]; [done|]. intros HU Hs Ht Hr. apply IH; [..|done|].
  - destruct Hstep as [r1 r2 Hstep|]; (eapply op_step_uploads_ok; [|exact HU]); by constructor.
  - destruct Hstep as [r1 r2 Hstep|o u st cleanup t e now r1 Ho].
    + destruct (sf_old _ _ (core_step_follows _ _ Hstep HU) _ _ Hs) as (s2 & Hs2 & [->|Hedge]); [done|].
      apply session_step_terminal in Hedge. congruence.
    + destruct (FinishUpload_unattended o u st cleanup t e now id r1 Ho Hr) as [E _]. unfold after. by rewrite E.
  - destruct Hstep as [r1 r2 Hstep|o u st cleanup t e now r1 Ho]; [by eapply core_step_unattended|].
    by destruct (FinishUpload_unattended o u st cleanup t e now id r1 Ho Hr).
Qed.

(** C19: After a first commit of a session the session stays as the commit left it, and
    another commit of it changes nothing: with the same digest it is a replay, which
    answers with the committed session and with the node, its version and its blob as
    they are stored by then, and with another digest it is refused. This holds whatever
    the methods do in between if no maintenance worker had claimed the session before
    its commit and no maintenance of it was pending; and without this condition as long
    as [FinishUploadMaintenance], which may turn a committed session back
    ([late_worker_uncommits]), is not called in between. *)
Theorem commit_is_final ctx rnd c r res r1 ctx' rnd' c' r2 : reachable r →
  CommitUpload ctx rnd c r = (Ok (res, true), r1) →
  rtc core_step r1 r2 ∨ unattended (CommitUploadCommand_SessionID c) r ∧ rtc owned_step r1 r2 →
  CommitUploadCommand_SessionID c' = CommitUploadCommand_SessionID c →
  Identity_TenantID (CommitUploadCommand_Identity c') = Identity_TenantID (CommitUploadCommand_Identity c) →
  repo_uploads r2 !! CommitUploadCommand_SessionID c = Some (CompleteResult_Upload res) ∧
  UploadSession_Status (CompleteResult_Upload res) = UploadCommitted ∧
  CommitUpload ctx' rnd' c' r2 =
    (if CommitUploadCommand_Digest c == CommitUploadCommand_Digest c'
     then Ok (completeResult r2 (CompleteResult_Upload res), false)
     else Err (E CodeIdempotencyConflict "completion payload differs from the first request"), r2).
Proof.
  intros HU%reachable_uploads_ok Hc Hrun Hid Ht.
  pose proof (CommitUpload_follows ctx rnd c r HU) as HF. unfold wp in HF. rewrite Hc in HF. simpl in HF.
  destruct (CommitUpload_first _ _ _ _ _ _ Hc) as (s & audit & seq & Hs & Hst & Hd & _ & -> & Hr1).
  assert (Hs1 : repo_uploads r1 !! CommitUploadCommand_SessionID c = Some (committed s c)).
  { rewrite Hr1. simpl. by rewrite (HU _ _ Hs), lookup_insert_eq. }
  pose proof (sessions_follow_ok _ _ HF HU) as HU1.
  assert (Hs2 : repo_uploads r2 !! CommitUploadCommand_SessionID c = Some (committed s c)).
  { destruct Hrun as [Hrun|[Hr Hrun]].
    - destruct (run_sessions r1 r2 _ _ HU1 Hrun Hs1) as (s2 & Hs2 & Hedges). by apply run_terminal in Hedges as ->.
    - eapply owned_run_final; [done..|]. eapply unattended_same; [|exact Hr]. by rewrite Hr1. }
  split_and!; [done..|].
  unfold CommitUpload. rewrite bind_get, Hid. unfold uploadFor. rewrite Hs2, Ht. simpl.
  rewrite (bool_decide_eq_true_2 (_ = _)) by done. rewrite bind_lift_ok. simpl. rewrite Hd.
  by case_bool_decide.
Qed.

(** C20: what a commit publishes can be read. After a first commit of a command as the
    service builds it, the file is stored in the directory of its session under a name
    no visible sibling has, and a download of it finds this node and this blob. *)
Theorem commit_then_download ctx rnd c r res r1 s : reachable r →
  repo_uploads r !! CommitUploadCommand_SessionID c = Some s → fresh_commit r c → commit_shape s c →
  CommitUpload ctx rnd c r = (Ok (res, true), r1) →
  let n := CommitUploadCommand_Node c in
  DownloadBlob (CommitUploadCommand_Identity c) (Node_ID n) r1 = (Ok (n, CommitUploadCommand_Blob c), r1) ∧
  repo_nodes r1 !! Node_ID n = Some n ∧ visible n = true ∧
  (∀ k m, repo_nodes r1 !! k = Some m → visible m = true → Node_TenantID m = Node_TenantID n →
    Node_ParentID m = Node_ParentID n → Node_NormalizedName m = Node_NormalizedName n → m = n).
Proof.
  intros HW%reachable_wf Hs Hf Hshape Hc n. pose proof (CommitUpload_keeps ctx rnd c r HW) as HW1.
  unfold wp in HW1. rewrite Hc in HW1. simpl in HW1.
  destruct (CommitUpload_first _ _ _ _ _ _ Hc) as (s' & audit & seq & Hs' & Hst & _ & _ & _ & Hr1).
  simplify_eq.
  destruct Hshape as (Hnt & Hnp & Hnn & Hact & Htr & Hk & Hv & Hb & Hvn & Hvt & Hbt & Hbs) eqn:E. clear E.
  assert (Hvis : visible n = true) by by apply visible_true.
  split_and!; [|simpl; by rewrite lookup_insert_eq|done|].
  - unfold DownloadBlob. rewrite bind_get. simpl. fold n in Hv, Hnt, Hk |- *. rewrite lookup_insert_eq, Hk, Hvis.
    rewrite Hnt, Hst. repeat go_decide.
    rewrite Hv, lookup_insert_eq, Hvt, Hst. repeat go_decide.
    rewrite Hb, lookup_insert_eq, Hbt, Hbs, Hst. by repeat go_decide.
  - intros k m Hm Hvm ???.
    destruct HW1 as [_ _ Hslots _].
    { intros session. rewrite Hs. intros [= <-] _. by split; [apply Hf|]. }
    assert (k = Node_ID n) as ->.
    { eapply Hslots; [done|simpl; by rewrite lookup_insert_eq|]. apply visible_true in Hvm as [_ ?].
      repeat split; try done. congruence. }
    simpl in Hm. rewrite lookup_insert_eq in Hm. by simplify_eq.
Qed.

Lemma BeginComplete_ok i id digest parts now r s r1 : BeginComplete i id digest parts now r = (Ok s, r1) →
  repo_uploads r1 !! id = Some s ∧ UploadSession_TenantID s = Identity_TenantID i ∧
  (UploadSession_CompletionDigest s = digest ∨ UploadSession_CompletionDigest s = "").
Proof.
  intros Hrun. apply (wp_inv _ _ _ _ _ Hrun). unfold BeginComplete.
  frame_unfold. repeat (cbv beta iota; frame_step).
  all: intros Ho Hs; try discriminate Ho; simplify_eq; apply uploadFor_Ok in Heqo as [Hsession Ht].
  all: split; [simpl; by rewrite ?lookup_insert_eq|split; [done|]].
  all: go_bool_cases; simpl; auto.
Qed.

(** The digest binds the payload. Once a completion has answered with a session
    that carries a digest, every later completion with another digest is refused and
    changes nothing. *)
Theorem completion_binds_digest i id digest parts now r s r1 i' digest' parts' now' r2 : reachable r →
  BeginComplete i id digest parts now r = (Ok s, r1) → UploadSession_CompletionDigest s ≠ "" →
  rtc core_step r1 r2 → Identity_TenantID i' = Identity_TenantID i → digest' ≠ digest →
  BeginComplete i' id digest' parts' now' r2 =
    (Err (E CodeIdempotencyConflict "completion payload differs from the first request"), r2).
Proof.
  intros HU%reachable_uploads_ok Hb Hne Hrun Ht Hdiff.
  pose proof (BeginComplete_follows i id digest parts now r HU) as HF. unfold wp in HF. rewrite Hb in HF.
  destruct (BeginComplete_ok _ _ _ _ _ _ _ _ Hb) as (Hs & Hst & Hd).
  destruct (run_sessions r1 r2 _ _ (sessions_follow_ok _ _ HF HU) Hrun Hs) as (s2 & Hs2 & Hedges).
  pose proof (run_digest _ _ Hedges Hne) as Hd2. apply run_request, request_of_TenantID in Hedges.
  unfold BeginComplete. rewrite bind_get. unfold uploadFor.
  rewrite Hs2, Hedges, Hst, Ht. rewrite (bool_decide_eq_true_2 (_ = _)) by done.
  rewrite bind_lift_ok. simpl. destruct Hd; [|done]. by repeat go_decide.
Qed.
End with_runtime.

(** ** Witnesses *)

Lemma session_lifecycle_witness : ∃ s', repo_uploads demo10 !! upload1 = Some s' ∧
  request_of s' = request_of session1.
Proof.
  assert (H : repo_uploads demo8 !! upload1 = Some (map_get (repo_uploads demo8) upload1))
    by (vm_compute; reflexivity).
  destruct (proj2 (session_lifecycle demo8 demo10 upload1 _ demo8_reachable H)) as (s' & Hs & Hr & _).
  - eapply rtc_l; [apply demo8_step|apply rtc_once, demo9_step].
  - exists s'. split; [exact Hs|]. rewrite Hr. vm_compute. reflexivity.
Defined.

Definition result1 : CompleteResult := mkCompleteResult (map_get (repo_uploads demo11) upload1)
  (CommitUploadCommand_Node commit1) (CommitUploadCommand_Blob commit1) (CommitUploadCommand_Version commit1).
Lemma commit1_runs : CommitUpload no_context random16 commit1 demo10 = (Ok (result1, true), demo11).
Proof. vm_compute. reflexivity. Qed.

(** No worker has claimed the session: a report on it is refused, and the commit stays. *)
Definition reported_demo : Repository :=
  after (FinishUploadMaintenance "worker" upload1 UploadCompleting false 400 "STORAGE" 300) demo11.
Lemma commit_is_final_witness :
  (CommitUpload no_context random16 (commit1 <| CommitUploadCommand_Digest := "other" |>) reported_demo).1 =
    Err (E CodeIdempotencyConflict "completion payload differs from the first request").
Proof.
  destruct (commit_is_final no_context random16 commit1 demo10 result1 demo11 no_context random16
    (commit1 <| CommitUploadCommand_Digest := "other" |>) reported_demo demo10_reachable commit1_runs)
    as (_ & _ & ->); [right|reflexivity..].
  split; [|by apply rtc_once, owned_finish].
  intros lease E. apply (f_equal (λ o, bool_decide (is_Some o))) in E. by vm_compute in E.
Defined.

(** A worker that has claimed the session before its commit turns it back. *)
Definition claimed_demo : Repository := after (ClaimUploadsForMaintenance "worker" 500 400 600 10) demo10.
Example late_worker_uncommits :
  let r1 := after (CommitUpload no_context random16 commit1) claimed_demo in
  let r2 := after (FinishUploadMaintenance "worker" upload1 UploadCompleting false 700 "STORAGE" 550) r1 in
  status_of r1 upload1 = Some UploadCommitted ∧ status_of r2 upload1 = Some UploadCompleting.
Proof. vm_compute. done. Qed.

Lemma commit_then_download_witness :
  (DownloadBlob alice file1 demo11).1 = Ok (CommitUploadCommand_Node commit1, CommitUploadCommand_Blob commit1).
Proof.
  destruct (commit_then_download no_context random16 commit1 demo10 result1 demo11
    (map_get (repo_uploads demo10) upload1) demo10_reachable) as [H _].
  - vm_compute. reflexivity.
  - vm_compute. done.
  - vm_compute. done.
  - apply commit1_runs.
  - exact (f_equal fst H).
Defined.

Lemma completion_binds_digest_witness :
  (BeginComplete alice upload1 "other" [] 300 demo10).1 =
    Err (E CodeIdempotencyConflict "completion payload differs from the first request").
Proof.
  rewrite (completion_binds_digest alice upload1 "digest" [] 107 demo8 (map_get (repo_uploads demo9) upload1)
    demo9 alice "other" [] 300 demo10); [reflexivity|apply demo8_reachable| | | |reflexivity|done].
  - vm_compute. reflexivity.
  - vm_compute. done.
  - apply rtc_once, demo9_step.
Defined.
