(* ===== verification/GovernanceProperties.v ===== *)
(** * Properties of members and access control: the last owner, who may change
    members, what a removal and a grant do *)
From S2P Require Import Prelude Errors Logic GoLib Types Validation MemoryState.
From S2P Require Import MemoryIdempotency MemoryNamespace MemoryUploads MemoryGovernance MemoryGroups.
From S2P Require Import MemoryFrame Tree TreeInvariant Members MemorySteps Demo.

Section with_runtime.
Context `{!Platform, !MapRange}.
Implicit Types (r : Repository).

(** A tenant with an active owner keeps one. However often members are added,
    updated, removed and invitations accepted, some member stays an active owner. *)
Theorem last_owner_kept r r' t : members_keyed r → rtc member_step r r' → has_owner r t → has_owner r' t.
Proof.
  intros HK Hrun. revert HK. induction Hrun as [|r1 r2 r3 Hstep _ IH]; [done|]. intros HK Ho.
  destruct (member_step_owner _ _ t Hstep HK) as [HK2 Ho2]. auto.
Qed.

(** Who may change a member. When an update or a removal changes the members, the
    actor is an active owner or admin of the tenant, only the named member changes,
    and an admin never touches an owner nor makes one. *)
Theorem member_changes_authorized ctx rnd cu cd r :
  (let t := UpdateMemberCommand_TenantID cu in let k := memberKey t (UpdateMemberCommand_PrincipalID cu) in
   let r' := (UpdateMember ctx rnd cu r).2 in
   repo_members r' = repo_members r ∨ ∃ m m',
     managingActor r t (UpdateMemberCommand_ActorPrincipalID cu) (UpdateMemberCommand_ActorRole cu) = true ∧
     repo_members r !! k = Some m ∧ repo_members r' = <[k := m']> (repo_members r) ∧
     PrincipalRecord_Identity m' = PrincipalRecord_Identity m ∧
     (UpdateMemberCommand_ActorRole cu = RoleAdmin →
       PrincipalRecord_Role m ≠ RoleOwner ∧ PrincipalRecord_Role m' ≠ RoleOwner)) ∧
  (let t := DeleteMemberCommand_TenantID cd in let k := memberKey t (DeleteMemberCommand_PrincipalID cd) in
   let r' := (DeleteMember ctx rnd cd r).2 in
   repo_members r' = repo_members r ∨ ∃ m,
     managingActor r t (DeleteMemberCommand_ActorPrincipalID cd) (DeleteMemberCommand_ActorRole cd) = true ∧
     repo_members r !! k = Some m ∧ repo_members r' = delete k (repo_members r) ∧
     (DeleteMemberCommand_ActorRole cd = RoleAdmin → PrincipalRecord_Role m ≠ RoleOwner)).
Proof.
  split.
  - destruct (wp_UpdateMember ctx rnd cu r) as [|(m & m' & [])]; [by left|right; eauto 10].
  - destruct (wp_DeleteMember ctx rnd cd r) as [|(m & ? & ? & ? & _ & ?)]; [by left|right; eauto 10].
Qed.

(** A removed member is locked out: after a successful removal no capability is
    granted to it on any node. *)
Theorem removed_member_locked_out ctx rnd c r r' id cap :
  DeleteMember ctx rnd c r = (Ok tt, r') →
  (AuthorizeNode (mkIdentity (DeleteMemberCommand_TenantID c) (DeleteMemberCommand_PrincipalID c)) id cap r').1
    ≠ Ok tt.
Proof.
  intros Hrun.
  assert (Hnone : repo_members r' !! memberKey (DeleteMemberCommand_TenantID c)
    (DeleteMemberCommand_PrincipalID c) = None).
  { apply (wp_inv _ _ _ _ _ Hrun). unfold DeleteMember. frame_unfold.
    repeat (cbv beta iota; frame_step); intros; simplify_eq/=.
    by rewrite lookup_delete_eq. }
  unfold AuthorizeNode. rewrite bind_get. cbn [lift fst]. unfold authorizeNodeLocked. cbn [Identity_TenantID
    Identity_PrincipalID]. rewrite Hnone. by repeat case_match.
Qed.

(** A grant takes effect. After an entry for a member is set on a node, the member,
    if it is active, has every capability up to the level of the entry on the node and
    on everything below it. *)
Theorem grant_takes_effect ctx rnd c r r' a x n m cap : reachable r →
  SetNodeACL ctx rnd c r = (Ok a, r') → SetNodeACLCommand_SubjectType c = ACLSubjectPrincipal →
  let i := mkIdentity (SetNodeACLCommand_TenantID c) (SetNodeACLCommand_SubjectID c) in
  repo_members r !! memberKey (Identity_TenantID i) (Identity_PrincipalID i) = Some m →
  PrincipalRecord_Status m = MemberStatusActive →
  repo_nodes r !! x = Some n → Node_TenantID n = Identity_TenantID i →
  above (parents (repo_nodes r)) x (SetNodeACLCommand_NodeID c) →
  ValidNodeCapability cap = true → capability_level cap ≤ acl_level (SetNodeACLCommand_Role c) →
  AuthorizeNode i x cap r' = (Ok tt, r').
Proof.
  intros HW%reachable_wf Hrun Hp i Hm Hact Hn Ht Habove Hcap Hlevel.
  pose proof (wp_SetNodeACL ctx rnd c r) as Hset. unfold wp in Hset. rewrite Hrun in Hset. simpl in Hset.
  destruct (Hset a eq_refl) as ((HN & HT) & HM & Hat & Han & Hast & Hasi & Har & k & Hk).
  unfold AuthorizeNode. rewrite bind_get. unfold lift. f_equal.
  eapply authorize_granted; [by eapply (wf_tree_same r)|done|by rewrite HN|done|by rewrite HM|done|].
  split; [by rewrite HN|]. exists k, a. split; [done|].
  unfold acl_grants. rewrite Hat, Han, Hast, Hasi, Har, Hp. repeat go_decide. by apply Z.leb_le.
Qed.
End with_runtime.

(** ** Witnesses *)

Definition demote : UpdateMemberCommand :=
  mkUpdateMemberCommand tenant1 owner1 owner1 RoleOwner (Some RoleViewer) None 200.
Definition remove_editor : DeleteMemberCommand := mkDeleteMemberCommand tenant1 editor1 owner1 RoleOwner 200.

Lemma demo5_keyed : members_keyed demo5.
Proof.
  assert (H : map_Forall (λ k m, k = memberKey (PrincipalRecord_TenantID m) (PrincipalRecord_PrincipalID m) ∧
    plain (PrincipalRecord_TenantID m)) (repo_members demo5)).
  { unfold plain. vm_compute repo_members. apply (bool_decide_unpack _). vm_compute. exact I. }
  exact H.
Qed.

Lemma tenant1_plain : plain tenant1.
Proof. unfold plain. apply (bool_decide_unpack _). vm_compute. exact I. Qed.

(** The only owner cannot demote itself. *)
Lemma last_owner_kept_witness : has_owner (UpdateMember no_context random16 demote demo5).2 tenant1.
Proof.
  apply (last_owner_kept demo5); [apply demo5_keyed|apply rtc_once, member_update, tenant1_plain|].
  exists (memberKey tenant1 owner1), (member owner1 RoleOwner). split; [vm_compute; reflexivity|done].
Defined.

Lemma removed_member_locked_out_witness :
  (AuthorizeNode (mkIdentity tenant1 editor1) old1 NodeCapabilityRead
    (DeleteMember no_context random16 remove_editor demo6).2).1 ≠ Ok tt.
Proof.
  apply (removed_member_locked_out no_context random16 remove_editor demo6). vm_compute. reflexivity.
Defined.

Definition grant1 : NodeACLEntry := map_get (repo_acls demo6) "00000000-0000-4000-8000-000000000007".

Lemma demo5_reachable : reachable demo5.
Proof.
  eapply rtc_r; [|apply step_core, step_EnsureOIDCMember].
  eapply rtc_r; [apply demo3_reachable|apply step_core, step_EnsureOIDCMember].
Qed.

(** The editor of the demo may manage what is below the directory it was given. *)
Lemma grant_takes_effect_witness :
  (AuthorizeNode (mkIdentity tenant1 editor1) old1 NodeCapabilityManageACL demo6).1 = Ok tt.
Proof.
  eapply (f_equal fst (y := (Ok tt, demo6))).
  apply (grant_takes_effect no_context random16 grant demo5 demo6 grant1 old1 (node_at demo5 old1)
    (member editor1 RoleEditor) NodeCapabilityManageACL demo5_reachable).
  - vm_compute. reflexivity.
  - reflexivity.
  - vm_compute. reflexivity.
  - reflexivity.
  - vm_compute. reflexivity.
  - vm_compute. reflexivity.
  - eapply (above_step _ _ docs1); [vm_compute; reflexivity|done|constructor].
  - reflexivity.
  - done.
Defined.
