(* ===== verification/Paging.v ===== *)
(** * Pages of a listing

    A listing sorts what a filter selects and cuts the first page off; the next page
    starts after the position of the last item. *)
From S2P Require Import Prelude Errors Logic GoLib Types Validation MemoryState MemoryIdempotency MemoryNamespace Tree.
From S2P Require Import TreeInvariant MemorySteps Demo.

(** ** The order of the listings *)

#[export] Instance nodeLess_swo : StrictWeakOrder nodeLess.
Proof.
  unfold nodeLess. split.
  - intros x y [H|[E%bool_decide_eq_true H]%andb_true_iff]%orb_true_iff.
    + rewrite (str_ltb_asym _ _ H), bool_decide_eq_false_2; [done|]. intros E. by rewrite E, str_ltb_irrefl in H.
    + by rewrite E, str_ltb_irrefl, bool_decide_eq_true_2, (str_ltb_asym _ _ H).
  - intros x y z [H1 H1']%orb_false_iff [H2 H2']%orb_false_iff. apply orb_false_iff.
    split; [by eapply str_ltb_negtrans|]. apply andb_false_iff.
    destruct (decide (Node_NormalizedName x = Node_NormalizedName z)) as [E|E];
      [right|left; by apply bool_decide_eq_false_2].
    assert (Node_NormalizedName x = Node_NormalizedName y) as E1.
    { apply str_ltb_tricho; [done|]. by rewrite E. }
    rewrite bool_decide_eq_true_2 in H1' by done. rewrite bool_decide_eq_true_2 in H2' by congruence.
    by eapply str_ltb_negtrans.
Qed.

(** Two nodes neither of which comes first have the same name and identifier. *)
Lemma nodeLess_tricho a b : nodeLess a b = false → nodeLess b a = false →
  Node_NormalizedName a = Node_NormalizedName b ∧ Node_ID a = Node_ID b.
Proof.
  unfold nodeLess. intros [H1 H1']%orb_false_iff [H2 H2']%orb_false_iff.
  assert (E := str_ltb_tricho _ _ H1 H2). split; [done|].
  rewrite bool_decide_eq_true_2 in H1', H2' by done. by apply str_ltb_tricho.
Qed.

(** After the position of a node comes what is greater than it. *)
Lemma afterPosition_of x y : Node_ID x ≠ "" →
  afterPosition y (mkCursorPosition (Node_NormalizedName x) (Node_ID x)) = nodeLess x y.
Proof.
  intros Hx. unfold afterPosition, nodeLess. simpl. rewrite bool_decide_eq_false_2 by done. simpl.
  by rewrite (bool_decide_ext (Node_NormalizedName y = Node_NormalizedName x)
    (Node_NormalizedName x = Node_NormalizedName y)).
Qed.

Lemma filter_none {A} (P : A → Prop) `{!∀ x, Decision (P x)} (l : list A) : (∀ x, x ∈ l → ¬ P x) → filter P l = [].
Proof.
  induction l as [|x l IH]; [done|]. intros Hl. rewrite filter_cons, decide_False by (apply Hl; by left).
  apply IH. intros y Hy. apply Hl. by right.
Qed.
Lemma filter_all {A} (P : A → Prop) `{!∀ x, Decision (P x)} (l : list A) : (∀ x, x ∈ l → P x) → filter P l = l.
Proof.
  induction l as [|x l IH]; [done|]. intros Hl. rewrite filter_cons, decide_True by (apply Hl; by left).
  f_equal. apply IH. intros y Hy. apply Hl. by right.
Qed.

(** In a strictly sorted list, what is above the n-th element is the rest. *)
Lemma filter_above_drop {A} (R : relation A) (P : A → Prop) `{!∀ y, Decision (P y)} l n x :
  (∀ y, P y ↔ R x y) → (∀ y, R y x → ¬ R x y) → ¬ R x x → StronglySorted R l → l !! n = Some x →
  filter P l = drop (S n) l.
Proof.
  intros HP Hasym Hirrefl Hsorted. revert n. induction Hsorted as [|y l Hs IH Hy]; intros n Hn; [done|].
  rewrite Forall_forall in Hy. rewrite filter_cons. destruct n as [|n]; simpl in Hn.
  - simplify_eq. rewrite decide_False by by rewrite HP. apply filter_all. intros z Hz. by apply HP, Hy.
  - rewrite decide_False; [by apply IH|]. rewrite HP. by apply Hasym, Hy, (list_elem_of_lookup_2 _ n).
Qed.

Section sorted.
Context {A : Type} (less : A → A → bool) `{!StrictWeakOrder less}.
Implicit Types (l : list A).

Lemma StronglySorted_filter (R : relation A) (P : A → Prop) `{!∀ x, Decision (P x)} l :
  StronglySorted R l → StronglySorted R (filter P l).
Proof.
  induction 1 as [|x l Hl IH Hx]; simpl; [constructor|]. rewrite filter_cons. case_decide; [|done].
  constructor; [done|]. apply Forall_forall. intros y [_ Hy]%list_elem_of_filter.
  by rewrite Forall_forall in Hx; apply Hx.
Qed.

Definition discrete l : Prop := ∀ x y, x ∈ l → y ∈ l → less x y = false → less y x = false → x = y.

(** Selecting and sorting commute. *)
Lemma filter_sort_slice (P : A → Prop) `{!∀ x, Decision (P x)} l : discrete l →
  sort_slice less (filter P l) = filter P (sort_slice less l).
Proof.
  intros Hd. apply (StronglySorted_unique_strong (not_less less)); [| |apply StronglySorted_filter|].
  - intros x y Hx Hy ??. rewrite elem_of_sort_slice in Hx. apply list_elem_of_filter in Hx as [_ Hx].
    apply list_elem_of_filter in Hy as [_ Hy]. rewrite elem_of_sort_slice in Hy. by apply Hd.
  - by apply sort_slice_sorted.
  - by apply sort_slice_sorted.
  - by rewrite !sort_slice_perm.
Qed.

(** What is greater than an item of a sorted list is what follows it. *)
Lemma filter_greater l1 x l2 : StronglySorted (not_less less) (l1 ++ x :: l2) → discrete (l1 ++ x :: l2) →
  NoDup (l1 ++ x :: l2) → filter (λ y, less x y = true) (l1 ++ x :: l2) = l2.
Proof.
  intros Hs Hd Hnd. rewrite filter_app, filter_cons.
  apply StronglySorted_app in Hs as (H1 & _ & Hs). apply StronglySorted_inv in Hs as [_ Hx].
  rewrite Forall_forall in Hx.
  apply NoDup_app in Hnd as (_ & _ & Hnd%NoDup_cons). destruct Hnd as [Hx2 _].
  rewrite filter_none, decide_False, filter_all; [done| | |].
  - intros y Hy. destruct (less x y) eqn:E; [done|]. destruct Hx2.
    rewrite (Hd x y); [done|set_solver|set_solver|done|by apply Hx].
  - intros E. pose proof (less_asym _ _ E). congruence.
  - intros y Hy. rewrite (H1 y x); [done|done|by left].
Qed.

(** Without repetitions the order is strict. *)
Lemma strictly_sorted l : StronglySorted (not_less less) l → discrete l → NoDup l →
  StronglySorted (λ x y, less x y = true) l.
Proof.
  induction 1 as [|x l Hl IH Hx]; intros Hd Hnd; [constructor|]. apply NoDup_cons in Hnd as [Hxl Hnd].
  constructor.
  - apply IH; [|done]. intros y z Hy Hz. apply Hd; by right.
  - rewrite Forall_forall in Hx |- *. intros y Hy. destruct (less x y) eqn:E; [done|].
    destruct Hxl. rewrite (Hd x y); [done|by left|by right|done|by apply Hx].
Qed.
End sorted.

(** ** The children of a directory *)

Definition child_of (i : Identity) (parentID : string) (n : Node) : bool :=
  (Node_TenantID n == Identity_TenantID i) && (Node_ParentID n == parentID) && visible n.

Section with_runtime.
Context `{!MapRange}.
Implicit Types (r : Repository).

(** The whole listing: the visible children in the order of their names. *)
Definition children (r : Repository) (i : Identity) (parentID : string) : list Node :=
  sortNodes (filter (λ n, child_of i parentID n = true) (range_values 0 (repo_nodes r))).

Lemma range_values_discrete r : ids_ok (repo_nodes r) → discrete nodeLess (range_values 0 (repo_nodes r)).
Proof.
  intros Hids x y [k Hx]%elem_of_range_values [k' Hy]%elem_of_range_values H1 H2.
  destruct (nodeLess_tricho _ _ H1 H2) as [_ E].
  destruct (Hids _ _ Hx) as [Hk _], (Hids _ _ Hy) as [Hk' _]. congruence.
Qed.

Lemma discrete_perm {A} (less : A → A → bool) l l' : (∀ x, x ∈ l' → x ∈ l) → discrete less l → discrete less l'.
Proof. unfold discrete. eauto. Qed.

Lemma elem_of_children r i parentID n : n ∈ children r i parentID ↔
  child_of i parentID n = true ∧ ∃ k, repo_nodes r !! k = Some n.
Proof. unfold children, sortNodes. by rewrite elem_of_sort_slice, list_elem_of_filter, elem_of_range_values. Qed.

Lemma children_discrete r i parentID : ids_ok (repo_nodes r) → discrete nodeLess (children r i parentID).
Proof.
  intros Hids. eapply discrete_perm; [|by apply range_values_discrete]. intros n [_ Hn]%elem_of_children.
  by apply elem_of_range_values.
Qed.

Lemma children_sorted r i parentID : StronglySorted (not_less nodeLess) (children r i parentID).
Proof. unfold children, sortNodes. apply sort_slice_sorted; apply _. Qed.

Lemma children_NoDup r i parentID : ids_ok (repo_nodes r) → NoDup (children r i parentID).
Proof.
  intros Hids. unfold children, sortNodes. rewrite sort_slice_perm.
  by apply (NoDup_fmap_1 Node_ID), NoDup_filtered_ids.
Qed.

Lemma children_length r i parentID : (length (children r i parentID) ≤ size (repo_nodes r))%nat.
Proof.
  unfold children, sortNodes. rewrite length_sort_slice. etrans; [apply length_filter|].
  unfold range_values. by rewrite length_fmap, map_range_perm, length_map_to_list.
Qed.

(** The visible directory a listing reads. *)
Definition listable (r : Repository) (i : Identity) (parentID : string) : Prop :=
  ∃ p, repo_nodes r !! parentID = Some p ∧ Node_TenantID p = Identity_TenantID i ∧
    Node_Kind p = NodeDirectory ∧ visible p = true.

(** A page is cut from the items of the listing after the position. *)
Lemma ListChildren_items r i parentID after limit : ids_ok (repo_nodes r) → listable r i parentID →
  ListChildren i parentID after limit r =
    cut_page limit (filter (λ n, afterPosition n after = true) (children r i parentID)) r.
Proof.
  intros Hids (p & Hp & Ht & Hk & Hv). unfold ListChildren. rewrite bind_get, Hp, Hv, Ht, Hk.
  repeat go_decide. f_equal. unfold children, sortNodes. rewrite <- filter_sort_slice; [|apply _|].
  - f_equal. rewrite list_filter_filter. apply list_filter_iff. intros n. unfold child_of.
    rewrite !andb_true_iff. tauto.
  - eapply discrete_perm; [|by apply range_values_discrete]. by intros n [_ ?]%list_elem_of_filter.
Qed.

Lemma ListChildren_missing r i parentID after limit : ¬ listable r i parentID →
  ListChildren i parentID after limit r = (Err (E CodeNotFound "parent directory was not found"), r).
Proof.
  intros Hn. unfold ListChildren. rewrite bind_get.
  destruct (repo_nodes r !! parentID) as [p|] eqn:Hp; [|done].
  destruct (_ || _) eqn:Hc; [done|]. go_bool. destruct Hn. by exists p.
Qed.

Lemma cut_page_run {A} (limit : Z) (items : list A) r : 0 ≤ limit →
  cut_page limit items r = (Ok (take (Z.to_nat limit) items, limit <? zlen items), r).
Proof.
  intros Hl. unfold cut_page. destruct (limit <? zlen items) eqn:E.
  - unfold slice_to. destruct (limit <? 0) eqn:El; [lia|]. done.
  - rewrite take_ge; [done|]. unfold zlen in E. lia.
Qed.
End with_runtime.

#[export] Instance listable_dec r i parentID : Decision (listable r i parentID).
Proof.
  unfold listable. destruct (repo_nodes r !! parentID) as [p|]; [|right; naive_solver].
  destruct (decide (Node_TenantID p = Identity_TenantID i ∧ Node_Kind p = NodeDirectory ∧ visible p = true));
    [left; eauto|right; naive_solver].
Defined.

(** Two behaviours of the map iteration give the same listing. *)
Lemma children_range (mr1 mr2 : MapRange) r i parentID : ids_ok (repo_nodes r) →
  @children mr1 r i parentID = @children mr2 r i parentID.
Proof.
  intros Hids. unfold children, sortNodes. apply sort_slice_unique; [apply _| |].
  - eapply (discrete_perm nodeLess (@range_values mr1 _ 0 (repo_nodes r))); [|by apply range_values_discrete].
    by intros n [_ ?]%list_elem_of_filter.
  - by rewrite (range_values_perm mr1 mr2 0 0).
Qed.

(** ** A client that follows the pages *)

Definition position_of (n : Node) : CursorPosition := mkCursorPosition (Node_NormalizedName n) (Node_ID n).

(** Ask for a page, then for the one after its last item, until there is no more. *)
Fixpoint list_all `{!MapRange} (i : Identity) (parentID : string) (limit : Z) (fuel : nat)
    (after : CursorPosition) (r : Repository) : Outcome (list Node) :=
  match fuel with
  | O => Diverged
  | S fuel =>
    match (ListChildren i parentID after limit r).1 with
    | Ok (items, true) =>
      match last items with
      | None => Panicked "index out of range"
      | Some n =>
        match list_all i parentID limit fuel (position_of n) r with
        | Ok rest => Ok (items ++ rest)
        | o => o
        end
      end
    | Ok (items, false) => Ok items
    | Err e => Err e
    | Panicked p => Panicked p
    | Diverged => Diverged
    end
  end.

Section with_runtime.
Context `{!MapRange}.
Implicit Types (r : Repository).

Lemma list_all_from r i parentID limit fuel after l1 l2 : ids_ok (repo_nodes r) → listable r i parentID →
  1 ≤ limit → children r i parentID = l1 ++ l2 →
  filter (λ n, afterPosition n after = true) (children r i parentID) = l2 → (length l2 < fuel)%nat →
  list_all i parentID limit fuel after r = Ok l2.
Proof.
  intros Hids Hdir Hl. revert after l1 l2. induction fuel as [|fuel IH]; intros after l1 l2 HC Hafter Hfuel; [lia|].
  simpl. rewrite ListChildren_items, cut_page_run, Hafter by (done || lia). simpl.
  destruct (limit <? zlen l2) eqn:Hmore; [|f_equal; apply take_ge; unfold zlen in *; lia].
  unfold zlen in Hmore. set (k := Z.to_nat limit).
  assert (Hlen : length (take k l2) = k) by (rewrite length_take; lia).
  destruct (last (take k l2)) as [x|] eqn:Hlast; [|apply last_None in Hlast; rewrite Hlast in Hlen; simpl in Hlen; lia].
  apply last_Some in Hlast as [l' Hl'].
  assert (HC' : children r i parentID = (l1 ++ l') ++ x :: drop k l2).
  { rewrite HC, <- app_assoc. f_equal. rewrite <- (take_drop k l2) at 1. by rewrite Hl', <- app_assoc. }
  rewrite (IH (position_of x) (l1 ++ l' ++ [x]) (drop k l2)).
  - by rewrite take_drop.
  - by rewrite HC', <- !app_assoc.
  - assert (x ∈ children r i parentID) as [_ [key Hx]]%elem_of_children by (rewrite HC'; apply elem_of_app; right; by left).
    destruct (Hids _ _ Hx) as [Hid Hne]. transitivity (filter (λ y, nodeLess x y = true) (children r i parentID)).
    + apply list_filter_iff. intros y. unfold position_of. by rewrite afterPosition_of by congruence.
    + pose proof (children_sorted r i parentID). pose proof (children_discrete r i parentID Hids).
      pose proof (children_NoDup r i parentID Hids). rewrite HC' in *. by apply (filter_greater nodeLess).
  - rewrite length_drop. lia.
Qed.
End with_runtime.

(** ** Properties of the listing of a directory *)

(** A page of a directory does not depend on the order in which the runtime visits
    the nodes: two behaviours of the map iteration answer every request alike. *)
Theorem listing_is_deterministic `{!Platform} (mr1 mr2 : MapRange) r i parentID after limit :
  @reachable _ mr1 r →
  @ListChildren mr1 i parentID after limit r = @ListChildren mr2 i parentID after limit r.
Proof.
  intros HW%reachable_wf.
  assert (Hids : ids_ok (repo_nodes r)) by (by eapply wf_ids).
  destruct (decide (listable r i parentID)) as [Hdir|Hdir]; [|by rewrite !ListChildren_missing].
  rewrite !ListChildren_items by done. by rewrite (children_range mr1 mr2).
Qed.

Section with_runtime.
Context `{!Platform, !MapRange}.
Implicit Types (r : Repository).

(** What a page holds: the first items, in the strict order of names and
    identifiers, among the visible children after the position, and whether there
    are more. *)
Theorem listing_page r i parentID after limit : reachable r → listable r i parentID → 0 ≤ limit →
  ∃ items more, ListChildren i parentID after limit r = (Ok (items, more), r) ∧
    zlen items ≤ limit ∧ StronglySorted (λ x y, nodeLess x y = true) items ∧
    (∀ n, n ∈ items → child_of i parentID n = true ∧ afterPosition n after = true) ∧
    (∀ k n, repo_nodes r !! k = Some n → child_of i parentID n = true → afterPosition n after = true →
      n ∈ items ∨ (more = true ∧ ∀ m, m ∈ items → nodeLess m n = true)).
Proof.
  intros HW%reachable_wf Hdir Hl.
  assert (Hids : ids_ok (repo_nodes r)) by (by eapply wf_ids).
  rewrite ListChildren_items, cut_page_run by done.
  set (all := filter _ _). do 2 eexists. split; [done|].
  assert (Hall : ∀ n, n ∈ all ↔ (child_of i parentID n = true ∧ ∃ k, repo_nodes r !! k = Some n) ∧
    afterPosition n after = true) by (intros n; unfold all; rewrite list_elem_of_filter, elem_of_children; tauto).
  assert (Hstrict : StronglySorted (λ x y, nodeLess x y = true) all).
  { apply StronglySorted_filter, (strictly_sorted nodeLess);
      [apply children_sorted|by apply children_discrete|by apply children_NoDup]. }
  set (k := Z.to_nat limit). pose proof (take_drop k all) as Hsplit.
  split_and!.
  - unfold zlen. rewrite length_take. lia.
  - rewrite <- Hsplit in Hstrict. by eapply StronglySorted_app_1_l.
  - intros n Hn. assert (n ∈ all) as [[? _] ?]%Hall by (rewrite <- Hsplit; set_solver). done.
  - intros key n Hn Hc Ha. assert (Hin : n ∈ all) by (apply Hall; eauto).
    rewrite <- Hsplit in Hin. apply elem_of_app in Hin as [Hin|Hin]; [by left|right]. split.
    + apply Z.ltb_lt. unfold zlen. destruct (decide (k < length all)%nat); [lia|].
      rewrite drop_ge in Hin by lia. by apply not_elem_of_nil in Hin.
    + intros m Hm. rewrite <- Hsplit in Hstrict. by eapply StronglySorted_app_1_elem_of in Hstrict.
Qed.

(** C21: following the pages enumerates the directory: a client that asks for the page
    after the last item it got, with any page size, receives every visible child
    once, in order, and no request of it loops. *)
Theorem pages_enumerate_directory r i parentID limit fuel : reachable r → listable r i parentID →
  1 ≤ limit → (size (repo_nodes r) < fuel)%nat →
  ∃ items, list_all i parentID limit fuel go_zero r = Ok items ∧ NoDup items ∧
    StronglySorted (not_less nodeLess) items ∧
    ∀ n, n ∈ items ↔ child_of i parentID n = true ∧ ∃ k, repo_nodes r !! k = Some n.
Proof.
  intros HW%reachable_wf Hdir Hl Hfuel.
  assert (Hids : ids_ok (repo_nodes r)) by (by eapply wf_ids).
  exists (children r i parentID). split_and!.
  - eapply (list_all_from r i parentID limit fuel go_zero []); try done.
    + by apply filter_all.
    + eapply Nat.le_lt_trans; [apply children_length|done].
  - by apply children_NoDup.
  - apply children_sorted.
  - apply elem_of_children.
Qed.
End with_runtime.

(** ** Witnesses *)

Lemma listing_is_deterministic_witness :
  @ListChildren canonical_range alice root1 go_zero 10 demo3 =
  @ListChildren reversed_range alice root1 go_zero 10 demo3.
Proof. apply (listing_is_deterministic canonical_range reversed_range), demo3_reachable. Defined.

Lemma demo3_listable : listable demo3 alice root1.
Proof. exists (node_at demo3 root1). by vm_compute. Qed.

Lemma listing_page_witness : ∃ items more,
  ListChildren alice root1 go_zero 1 demo3 = (Ok (items, more), demo3) ∧ zlen items ≤ 1.
Proof.
  destruct (listing_page demo3 alice root1 go_zero 1 demo3_reachable demo3_listable) as (items & more & H & Hl & _);
    [done|]. exists items, more. split; [exact H|exact Hl].
Defined.

Lemma pages_enumerate_directory_witness : ∃ items,
  list_all alice root1 1 5 go_zero demo3 = Ok items ∧ NoDup items.
Proof.
  destruct (pages_enumerate_directory demo3 alice root1 1 5 demo3_reachable demo3_listable) as (items & H & Hn & _);
    [done|vm_compute; lia|]. exists items. split; [exact H|exact Hn].
Defined.
