(* ===== verification/ValueProperties.v ===== *)
(** * Properties of identifiers, names, checksums and cursors *)
From S2P Require Import Prelude Errors GoLib Codecs Types Validation Identifiers.

(** A generated identifier is a valid UUID of version 4 that keeps all the random
    bits but the six it fixes: the random source decides, two draws that differ
    outside those bits give different identifiers. *)
Theorem new_identifiers b b' id id' : length b = 16%nat → Forall is_byte b → length b' = 16%nat →
  Forall is_byte b' → NewID (Some b) = Ok id → NewID (Some b') = Ok id' →
  ValidID id = true ∧ byte_at id 14 = 52 ∧
  (∃ v, 8 ≤ v < 12 ∧ byte_at id 19 = byte_val (hex_char v)) ∧
  (id = id' ↔ uuid_bits b = uuid_bits b').
Proof.
  intros Hl Hb Hl' Hb' Hid Hid'. destruct (NewID_valid b Hl Hb) as (i & Hi & Hv & H14 & H19).
  assert (i = id) as -> by congruence. split_and!; [done..|].
  unfold NewID in Hid, Hid'. simplify_eq. split; [|by intros ->].
  intros E. apply (f_equal chars) in E. rewrite !chars_of_chars in E.
  destruct (uuid_bits_bytes b Hl Hb) as (Hn & Hf & _), (uuid_bits_bytes b' Hl' Hb') as (Hn' & Hf' & _).
  pose proof (uuid_chars_decode _ Hn Hf) as D. pose proof (uuid_chars_decode _ Hn' Hf') as D'.
  rewrite E in D. congruence.
Qed.

Section with_platform.
Context `{!Platform, !CursorJSON}.

(** C22: the names the service accepts. The stored name is the normal form; it is not
    empty and not a dot name, has at most 255 bytes, none of them a path separator or
    a control character, and accepting it again gives the same two names. *)
Theorem accepted_names `{!NormLaws} input d n : NormalizeName input = Ok (d, n) →
  d = norm_NFC input ∧ d ≠ "" ∧ d ≠ "." ∧ d ≠ ".." ∧ zstrlen d ≤ 255 ∧
  (∀ b, b ∈ bytes d → b ≠ 47 ∧ b ≠ 92 ∧ 32 ≤ b ∧ b ≠ 127) ∧
  NormalizeName d = Ok (d, n).
Proof.
  intros Hn. pose proof (λ b, NormalizeName_bytes input d n b Hn) as Hbytes.
  apply NormalizeName_Ok in Hn as (Hv & -> & -> & ? & ? & ? & ? & ? & ?).
  split_and!; try done. apply NormalizeName_Ok. split_and!; try done.
  - by apply norm_NFC_valid.
  - by rewrite norm_NFC_idem.
Qed.

(** The accepted checksums are the empty one and the SHA-256 checksums that are
    the canonical base64 text of 32 bytes; each digest has exactly one text. *)
Theorem checksum_validity c : ValidChecksum c = true ↔
  c = mkChecksum "" "" ∨
  (Checksum_Algorithm c = "sha256" ∧ ∃ digest, zstrlen digest = 32 ∧ Checksum_Value c = StdEncodeToString digest ∧
    ∀ digest', Checksum_Value c = StdEncodeToString digest' → digest' = digest).
Proof.
  destruct c as [algorithm value]. destruct (decide (algorithm = "sha256")) as [->|Halg].
  - rewrite ValidChecksum_sha256. simpl. split.
    + intros (digest & Hlen & ->). right. split; [done|]. exists digest. split_and!; [done..|].
      intros digest' E. apply (f_equal StdDecodeString) in E. rewrite !StdDecode_Encode in E. by simplify_eq.
    + intros [[=]|(_ & digest & ? & ? & _)]; eauto.
  - unfold ValidChecksum. simpl. rewrite (bool_decide_eq_false_2 _ Halg). simpl.
    split; [intros Hc|intros [[= -> ->]|[? _]]; done]. left.
    destruct (bool_decide (algorithm = "")) eqn:E1, (bool_decide (value = "")) eqn:E2; try done.
    go_bool. by subst.
Qed.

(** C23: a cursor is bound to its place. Decoding an encoded cursor, when the JSON
    decoder reads back what the encoder wrote, gives its position under the same
    tenant and scope and a key that signs the payload alike; anywhere else, and under
    a key that signs it differently, the cursor is refused. *)
Theorem cursor_bound_to_place c c' t s t' s' p :
  Unmarshal_cursorPayload (Marshal_cursorPayload (cursor_payload t s p)) = Some (cursor_payload t s p) →
  sign c (Marshal_cursorPayload (cursor_payload t s p)) ≠ "" → CursorPosition_ID p ≠ "" →
  (Decode c' (Encode c t s p) t' s' = Ok p ↔
    sign c (Marshal_cursorPayload (cursor_payload t s p)) = sign c' (Marshal_cursorPayload (cursor_payload t s p)) ∧
    t = t' ∧ s = s') ∧
  (Decode c' (Encode c t s p) t' s' = Ok p ∨
   Decode c' (Encode c t s p) t' s' = Err (E CodeInvalidCursor "cursor is invalid")).
Proof.
  intros Hj Hs Hid. rewrite Decode_Encode by done. repeat case_bool_decide; simpl; split; try tauto;
    (split; [done|tauto] || by auto).
Qed.
End with_platform.

(** ** Witnesses *)

Lemma new_identifiers_witness :
  of_chars (uuid_chars (uuid_bits (replicate 16 7))) ≠ of_chars (uuid_chars (uuid_bits (replicate 16 9))).
Proof.
  intros E. destruct (new_identifiers (replicate 16 7) (replicate 16 9) _ _ eq_refl ltac:(by repeat constructor)
    eq_refl ltac:(by repeat constructor) eq_refl eq_refl) as (_ & _ & _ & Hiff).
  apply Hiff in E. discriminate E.
Defined.

#[local] Instance example_norm : NormLaws.
Proof. by split. Defined.

Lemma accepted_names_witness : NormalizeName "docs" = Ok ("docs", "docs").
Proof. apply (accepted_names "docs" "docs" "docs"). vm_compute. reflexivity. Defined.

Definition payload1 : cursorPayload := cursor_payload "tenant" "children:root" (mkCursorPosition "docs" "id").
#[local] Instance example_json : CursorJSON :=
  {| Unmarshal_cursorPayload s := if s == Marshal_cursorPayload payload1 then Some payload1 else None |}.

Lemma cursor_bound_to_place_witness :
  let c := mkCursorCodec "0123456789abcdef0123456789abcdef" in
  Decode c (Encode c "tenant" "children:root" (mkCursorPosition "docs" "id")) "tenant" "children:root" =
    Ok (mkCursorPosition "docs" "id").
Proof.
  intros c. apply (cursor_bound_to_place c c "tenant" "children:root"); [|by vm_compute|done|done].
  vm_compute. reflexivity.
Defined.
