(* ===== verification/IdempotencyProperties.v ===== *)
(** * Properties of idempotency claims: exclusion, fencing, replay *)
From S2P Require Import Prelude Errors Logic GoLib Types Validation MemoryState MemoryIdempotency MemoryNamespace.
From S2P Require Import MemoryUploads Ports Service WorldLogic MemoryFrame Demo.
From S2P Require ServiceNamespace.

Section with_runtime.
Context `{!Platform, !MapRange}.
Implicit Types (r : Repository) (a b : IdempotencyRequest).

(** The record a request finds at its key. *)
Definition record_of r a : option IdempotencyRecord := repo_idempotency r !! idempotencyKey a.

(** The request is valid and its key holds an unexpired record. *)
Definition meets r b record : Prop :=
  ValidateIdempotencyRequest b = None ∧ record_of r b = Some record ∧
  IdempotencyRequest_Now b < IdempotencyRecord_ExpiresAt record.

(** The record a request leaves at its key when it is answered. *)
Lemma ClaimIdempotency_ok a r record r1 : ClaimIdempotency a r = (Ok record, r1) →
  record_of r1 a = Some record ∧ IdempotencyRecord_RequestDigest record = IdempotencyRequest_RequestDigest a ∧
  (IdempotencyRecord_State record = IdempotencyCompleted ∨
   IdempotencyRecord_ClaimToken record = IdempotencyRequest_ClaimToken a).
Proof.
  intros Hrun. apply (wp_inv _ _ _ _ _ Hrun). unfold ClaimIdempotency, putIdempotency, record_of.
  wp_go; intros; simplify_eq/=; rewrite ?lookup_insert_eq; go_bool_cases; auto.
Qed.

(** Claims exclude each other. Once a request holds the claim of a key, another
    request for the key, until the lock runs out, is told to retry when it has the
    same payload and refused when it has another one; either way nothing changes. *)
Theorem claims_exclude a b r record r1 : ClaimIdempotency a r = (Ok record, r1) →
  IdempotencyRecord_State record = IdempotencyPending → meets r1 b record →
  idempotencyKey b = idempotencyKey a →
  IdempotencyRequest_ClaimToken b ≠ IdempotencyRecord_ClaimToken record →
  IdempotencyRequest_Now b < IdempotencyRecord_LockedUntil record →
  ClaimIdempotency b r1 =
    (Err (if IdempotencyRequest_RequestDigest b == IdempotencyRequest_RequestDigest a
          then Retryable CodeDependencyUnavailable "matching idempotent request is still in progress" None
          else E CodeIdempotencyConflict "Idempotency-Key was already used for a different request"), r1).
Proof.
  intros Ha Hp (Hv & Hb & Hexp) Hkey Htok Hlock. destruct (ClaimIdempotency_ok _ _ _ _ Ha) as (_ & Hd & _).
  unfold ClaimIdempotency. rewrite Hv. cbn [check_err]. rewrite bind_ret, bind_get.
  unfold record_of in Hb. rewrite Hb. unfold Before. rewrite (proj2 (Z.ltb_lt _ _) Hexp), Hd, Hp.
  destruct (bool_decide (IdempotencyRequest_RequestDigest b = _)) eqn:E; go_bool.
  - rewrite (proj2 (Z.ltb_lt _ _) Hlock). by repeat go_decide.
  - by repeat go_decide.
Qed.

(** C24: a claim that was taken over cannot create anything. After another request got
    the key, creating a directory or an upload session under the old claim fails and
    changes nothing. *)
Theorem stale_claims_fenced a b r record r1 ctx rnd cd cu : ClaimIdempotency b r = (Ok record, r1) →
  idempotencyKey a = idempotencyKey b → IdempotencyRequest_ClaimToken a ≠ IdempotencyRequest_ClaimToken b →
  (∃ e, MemoryNamespace.CreateDirectory ctx rnd (cd <| CreateDirectoryCommand_Idempotency := Some a |>) r1 = (Err e, r1)) ∧
  (∃ e, MemoryUploads.CreateUpload (cu <| CreateUploadCommand_Idempotency := Some a |>) r1 = (Err e, r1)).
Proof.
  intros Hb Hkey Htok. destruct (ClaimIdempotency_ok _ _ _ _ Hb) as (Hrec & _ & Hown).
  assert (Hlost : ∀ id now, wp (completeIdempotency (Some a) id now) (λ o r', (∃ e, o = Err e) ∧ r' = r1) r1).
  { intros id now. unfold completeIdempotency. wp_go; try by eauto.
    exfalso. unfold record_of in Hrec. rewrite <- Hkey in Hrec. simplify_eq. unfold owned_by in *. go_bool.
    destruct Hown as [Hown|Hown]; [|congruence].
    match goal with H : _ = IdempotencyPending |- _ => rewrite H in Hown; discriminate Hown end. }
  assert (∀ A (m : GoM Repository A), wp m (λ o r', (∃ e, o = Err e) ∧ r' = r1) r1 → ∃ e, m r1 = (Err e, r1)) as Hwp.
  { unfold wp. intros A m. destruct (m r1). simpl. intros [[e ->] ->]. eauto. }
  split; apply Hwp.
  - unfold CreateDirectory. wp_go; try by eauto.
    eapply wp_mono; [apply Hlost|]. intros o s [[e ->] ->]. simpl. eauto.
  - unfold CreateUpload. wp_go; try by eauto.
    eapply wp_mono; [apply Hlost|]. intros o s [[e ->] ->]. simpl. eauto.
Qed.

(** The record a successful creation completes. *)
Definition completed_record (record : IdempotencyRecord) (resourceID : string) (now : Time) : IdempotencyRecord :=
  record <| IdempotencyRecord_State := IdempotencyCompleted |> <| IdempotencyRecord_ClaimToken := "" |>
         <| IdempotencyRecord_ResourceID := resourceID |> <| IdempotencyRecord_LockedUntil := 0 |>
         <| IdempotencyRecord_UpdatedAt := now |>.

Lemma CreateDirectory_completes ctx rnd cd r a : CreateDirectoryCommand_Idempotency cd = Some a →
  wp (MemoryNamespace.CreateDirectory ctx rnd cd) (λ o r', ∀ node, o = Ok node →
    ∃ record, ValidateIdempotencyRequest a = None ∧
      IdempotencyRecord_RequestDigest record = IdempotencyRequest_RequestDigest a ∧
      record_of r' a = Some (completed_record record (Node_ID node) (CreateDirectoryCommand_Now cd)) ∧
      Node_ID node = CreateDirectoryCommand_ID cd) r.
Proof.
  intros Ha. unfold CreateDirectory, completeIdempotency, record_of. rewrite Ha. frame_unfold.
  repeat (cbv beta iota; frame_step); intros; simplify_eq/=.
  eexists. split_and!; [done| |by rewrite lookup_insert_eq|done].
  unfold owned_by in *. go_bool. done.
Qed.

(** A completed record answers a request with the same payload until it expires. *)
Lemma ClaimIdempotency_completed b r record : meets r b record →
  IdempotencyRecord_State record = IdempotencyCompleted →
  IdempotencyRecord_RequestDigest record = IdempotencyRequest_RequestDigest b →
  ClaimIdempotency b r = (Ok record, r).
Proof.
  intros (Hv & Hb & Hexp) Hst Hd. unfold ClaimIdempotency. rewrite Hv. cbn [check_err].
  rewrite bind_ret, bind_get. unfold record_of in Hb. rewrite Hb. unfold Before.
  rewrite (proj2 (Z.ltb_lt _ _) Hexp), Hd, Hst. by repeat go_decide.
Qed.
End with_runtime.

(** ** The service on the in-memory repository *)

Section service.
Context {T : Type} `{!Platform, !MapRange, !CursorJSON, !Runtime, !StorageProvider T}.
Context (s : Service).
Implicit Types (w : World Repository T).

(** The request the service makes for a key, at time [t] and with a claim token. *)
Definition creation_request (i : Identity) (scope key digest token : string) (t : Time) : IdempotencyRequest :=
  mkIdempotencyRequest i scope (sha256Hex key) digest token (AddTime t (s_idempotencyClaimTTL s))
    (AddTime t (s_idempotencyRetention s)) t.

(** The key of the record of a creation. *)
Definition creation_key (i : Identity) (scope : IdempotencyScope) (key : string) : string :=
  idempotencyKey (creation_request i scope key "" "" 0).

(** What the first call of an idempotent creation leaves behind. *)
Lemma created_with_claim ctx i parentID name key w out w1 :
  ServiceNamespace.CreateDirectoryWithIdempotency s ctx i parentID name key w = (Ok out, w1) → key ≠ "" →
  ServiceNamespace.CreateDirectoryOutput_Replayed out = false →
  ∃ display normalized token t record now, let nodeID := Node_ID (ServiceNamespace.CreateDirectoryOutput_Node out) in
    let a := creation_request i IdempotencyCreateDirectory key (ServiceNamespace.directory_digest parentID display) token t in
    validateID parentID = None ∧ NormalizeName name = Ok (display, normalized) ∧ ValidateIdempotencyKey key = None ∧
    ValidateIdempotencyRequest a = None ∧
    IdempotencyRecord_RequestDigest record = IdempotencyRequest_RequestDigest a ∧
    record_of (w_repo w1) a = Some (completed_record record nodeID now).
Proof.
  intros Hrun Hkey Hnew. apply (wp_inv _ _ _ _ _ Hrun).
  unfold ServiceNamespace.CreateDirectoryWithIdempotency, ServiceNamespace.claimCreation.
  rewrite (bool_decide_eq_false_2 (key = "")) by done.
  world; intros; simplify_eq/=; try done.
  apply wp_on_repo, wp_any. intros [record| | |] r; world; intros; simplify_eq/=; try done.
  - apply wp_on_repo, wp_any. intros [] r'; world; intros; simplify_eq/=; done.
  - apply wp_on_repo_rand. eapply wp_mono; [by apply CreateDirectory_completes|].
    intros [node| | |] r' Hdone; world; intros; simplify_eq/=; try done.
    + destruct (Hdone node eq_refl) as (old & Hv & Hd & Hrec & _).
      eexists s0, s1, id0, (clock (w_readings w)), old, _.
      split_and!; [done|done|done|exact Hv|exact Hd|exact Hrec].
    + apply wp_on_repo, wp_any. intros [] ?; world; intros; simplify_eq/=; done.
Qed.

(** The service is configured as [NewService] leaves it, and its clock and its random
    source work for the call. *)
Record ready (w : World Repository T) : Prop := {
  rd_claim : 0 < s_idempotencyClaimTTL s < s_idempotencyRetention s;
  rd_clock : 0 < clock (w_readings w);
  rd_entropy n : entropy n 16 ≠ None
}.

(** The second request differs from the first in its claim token and its times only. *)
Lemma later_request_valid i scope key digest token t token' t' :
  ValidateIdempotencyRequest (creation_request i scope key digest token t) = None → ValidID token' = true →
  0 < s_idempotencyClaimTTL s < s_idempotencyRetention s → 0 < t' →
  ValidateIdempotencyRequest (creation_request i scope key digest token' t') = None.
Proof.
  unfold ValidateIdempotencyRequest, creation_request, IsZero, After, AddTime. simpl. intros Hv Htok [??] Ht.
  destruct (_ || _) eqn:E in Hv; [done|]. repeat (apply orb_false_iff in E as [E ?]).
  rewrite Htok. repeat match goal with H : negb _ = false |- _ => rewrite H; clear H end. simpl.
  assert ((t' =? 0) = false) as -> by lia.
  assert ((t' <? t' + s_idempotencyClaimTTL s) = true) as -> by lia.
  assert ((t' + s_idempotencyClaimTTL s <? t' + s_idempotencyRetention s) = true) as -> by lia. done.
Qed.

(** A creation happens once. After an idempotent creation of a directory, the same
    request under the same key, until the record expires, creates nothing: it answers
    with the directory as it is now, marked as replayed, and leaves the repository and
    the object store alone, whatever other clients did in between to the rest. *)
Theorem creation_replayed ctx i parentID name key w out w1 :
  ServiceNamespace.CreateDirectoryWithIdempotency s ctx i parentID name key w = (Ok out, w1) → key ≠ "" →
  ServiceNamespace.CreateDirectoryOutput_Replayed out = false →
  let nodeID := Node_ID (ServiceNamespace.CreateDirectoryOutput_Node out) in
  let k := creation_key i IdempotencyCreateDirectory key in
  ∀ ctx' w' record node, repo_idempotency (w_repo w1) !! k = Some record →
    repo_idempotency (w_repo w') !! k = Some record → repo_nodes (w_repo w') !! nodeID = Some node →
    Node_Kind node = NodeDirectory → Node_TenantID node = Identity_TenantID i → ready w' →
    clock (w_readings w') < IdempotencyRecord_ExpiresAt record →
    wp (ServiceNamespace.CreateDirectoryWithIdempotency s ctx' i parentID name key) (λ o w2,
      o = Ok (ServiceNamespace.mkCreateDirectoryOutput node true) ∧
      w_repo w2 = w_repo w' ∧ w_storage w2 = w_storage w') w'.
Proof.
  intros Hrun Hkey Hnew nodeID.
  destruct (created_with_claim _ _ _ _ _ _ _ _ Hrun Hkey Hnew) as
    (display & normalized & token & t & old & done_at & Hp & Hn & Hk & Hv & Hd & Hrec).
  fold nodeID in Hrec.
  intros k ctx' w' record node Hrec1 Hrec' Hnode Hkind Htenant [Hcfg Hclock Hent] Hexp.
  assert (record = completed_record old nodeID done_at) as ->
    by (unfold record_of in Hrec; change (idempotencyKey _) with k in Hrec; congruence).
  unfold ServiceNamespace.CreateDirectoryWithIdempotency, ServiceNamespace.claimCreation.
  rewrite (bool_decide_eq_false_2 (key = "")), Hp, Hn, Hk by done.
  world; try (by destruct (Hent _ ltac:(eassumption))). cbn [w_readings drawn read_clock].
  set (b := mkIdempotencyRequest _ _ _ _ _ _ _ _). apply wp_on_repo.
  assert (Hclaim : ClaimIdempotency b (w_repo w') = (Ok (completed_record old nodeID done_at), w_repo w')).
  { apply ClaimIdempotency_completed; [|done|done]. split_and!; [|exact Hrec'|exact Hexp].
    eapply later_request_valid; [exact Hv|done|done|exact Hclock]. }
  apply (wp_eq _ _ _ _ _ Hclaim). world; try discriminate. apply wp_on_repo.
  assert (Hget : GetNode i nodeID true (w_repo w') = (Ok node, w_repo w')).
  { unfold GetNode. rewrite bind_get, Hnode, Htenant. by repeat go_decide. }
  apply (wp_eq _ _ _ _ _ Hget). world; go_bool; done.
Qed.
End service.

(** ** Witnesses *)

(** Two requests for one key at times 1000 and [t]. *)
Definition first_claim : IdempotencyRequest := creation_request service1 alice IdempotencyCreateDirectory "key"
  (ServiceNamespace.directory_digest root1 "new") file1 1000.
Definition other_claim (t : Time) : IdempotencyRequest := creation_request service1 alice IdempotencyCreateDirectory
  "key" (ServiceNamespace.directory_digest root1 "new") blob1 t.

Lemma claims_exclude_witness :
  (ClaimIdempotency (other_claim 1010) (ClaimIdempotency first_claim demo3).2).1 =
    Err (Retryable CodeDependencyUnavailable "matching idempotent request is still in progress" None).
Proof.
  assert (Hrun : ClaimIdempotency first_claim demo3 =
    (Ok (map_get (repo_idempotency (ClaimIdempotency first_claim demo3).2) (idempotencyKey first_claim)),
     (ClaimIdempotency first_claim demo3).2)) by (vm_compute; reflexivity).
  rewrite (claims_exclude first_claim (other_claim 1010) demo3 _ _ Hrun).
  - vm_compute. reflexivity.
  - vm_compute. reflexivity.
  - split_and!; vm_compute; reflexivity.
  - vm_compute. reflexivity.
  - vm_compute. discriminate.
  - vm_compute. reflexivity.
Defined.

(** The lock of the first claim runs out at 1060; the other request takes over. *)
Lemma stale_claims_fenced_witness : ∃ e,
  (MemoryNamespace.CreateDirectory no_context random16
    ((mkdir file1 root1 "new" 1080) <| CreateDirectoryCommand_Idempotency := Some first_claim |>)
    (ClaimIdempotency (other_claim 1070) (ClaimIdempotency first_claim demo3).2).2).1 = Err e.
Proof.
  set (r := (ClaimIdempotency first_claim demo3).2).
  assert (Hrun : ClaimIdempotency (other_claim 1070) r =
    (Ok (map_get (repo_idempotency (ClaimIdempotency (other_claim 1070) r).2) (idempotencyKey first_claim)),
     (ClaimIdempotency (other_claim 1070) r).2)) by (vm_compute; reflexivity).
  destruct (stale_claims_fenced first_claim (other_claim 1070) r _ _ no_context random16
    (mkdir file1 root1 "new" 1080) go_zero Hrun) as [[e He] _]; [vm_compute; reflexivity|vm_compute; discriminate|].
  exists e. exact (f_equal fst He).
Defined.

Definition create_new : GoM (World Repository MemoryStorage.Storage) ServiceNamespace.CreateDirectoryOutput :=
  ServiceNamespace.CreateDirectoryWithIdempotency service1 no_context alice root1 "new" "key".

Definition first_answer : Outcome ServiceNamespace.CreateDirectoryOutput := (create_new (world_of demo3)).1.
Definition first_world : World Repository MemoryStorage.Storage := (create_new (world_of demo3)).2.
Definition first_output : ServiceNamespace.CreateDirectoryOutput :=
  match first_answer with Ok out => out | _ => ServiceNamespace.mkCreateDirectoryOutput go_zero true end.
Lemma first_runs : create_new (world_of demo3) = (Ok first_output, first_world).
Proof. vm_compute. reflexivity. Qed.

Lemma creation_replayed_witness : wp create_new (λ o _, o =
  Ok (ServiceNamespace.mkCreateDirectoryOutput (ServiceNamespace.CreateDirectoryOutput_Node first_output) true))
  first_world.
Proof.
  eapply wp_mono.
  - apply (creation_replayed service1 no_context alice root1 "new" "key" (world_of demo3) first_output first_world
      first_runs ltac:(done) ltac:(vm_compute; reflexivity) no_context first_world
      (map_get (repo_idempotency (w_repo first_world))
        (creation_key service1 alice IdempotencyCreateDirectory "key"))
      (ServiceNamespace.CreateDirectoryOutput_Node first_output));
      [vm_compute; reflexivity..| |vm_compute; reflexivity].
    split; [vm_compute; done|vm_compute; reflexivity|apply service1_entropy].
  - by intros o w [-> _].
Defined.
