(* ===== verification/StagingBundle.v ===== *)
(** * The staging bundles (src/internal/staging/bundle.go)

    A bundle is the reviewed description of one release that may run on the
    staging host. The files of a bundle and the decoding of [bundle.json] are
    the class [BundleFiles]; everything the code checks about them is here. *)
From S2P Require Import Prelude Errors GoLib.

(** ** Errors of the package

    The sentinels of controller.go, an error that wraps another one with [%w],
    and any other error; each prints as its text. *)

Inductive Sentinel :=
| ErrLocked | ErrUnknownVersion | ErrRecoveryRequired | ErrInProgress | ErrInvalidRequest
| ErrInvalidTransition | ErrActiveUnreadable | ErrActiveUnapproved | ErrActiveDrifted
| ErrActiveUnhealthy | ErrCurrentMismatch.
#[export] Instance Sentinel_eq_dec : EqDecision Sentinel.
Proof. solve_decision. Defined.

Definition sentinel_text (s : Sentinel) : string :=
  match s with
  | ErrLocked => "staging controller lock is held"
  | ErrUnknownVersion => "version is not in the approved allowlist"
  | ErrRecoveryRequired => "staging requires manual recovery"
  | ErrInProgress => "another staging operation is in progress"
  | ErrInvalidRequest => "invalid staging controller request"
  | ErrInvalidTransition => "invalid staging state transition"
  | ErrActiveUnreadable => "active staging state is unreadable"
  | ErrActiveUnapproved => "active version is not approved"
  | ErrActiveDrifted => "active version does not match its approved bundle"
  | ErrActiveUnhealthy => "active version is unhealthy"
  | ErrCurrentMismatch => "expected current version does not match active version"
  end.

Inductive Error :=
| SentinelError (s : Sentinel)
| WrappedError (text : string) (inner : Error)
| TextError (text : string).

Definition error_text (e : Error) : string :=
  match e with SentinelError s => sentinel_text s | WrappedError text _ => text | TextError text => text end.

(** [errors.Is(e, s)] *)
Fixpoint error_is (e : Error) (s : Sentinel) : bool :=
  match e with
  | SentinelError s' => s' == s
  | WrappedError _ inner => error_is inner s
  | TextError _ => false
  end.

(** [fmt.Errorf("%w: detail", s)] and [fmt.Errorf("prefix: %w", e)] *)
Definition detailed (s : Sentinel) (detail : string) : Error :=
  WrappedError (sentinel_text s +:+ ": " +:+ detail) (SentinelError s).
Definition prefixed (prefix : string) (e : Error) : Error :=
  WrappedError (prefix +:+ ": " +:+ error_text e) e.

(** ** Bundles *)

Record Bundle := mkBundle {
  Bundle_Format : string;
  Bundle_Version : string;
  Bundle_SourceCommit : string;
  Bundle_Image : string;
  Bundle_ComposeSHA256 : string;
  Bundle_DeployScriptSHA256 : string;
  Bundle_MonitorScriptSHA256 : string;
  Bundle_RecoveryScriptSHA256 : string;
  Bundle_SchemaVersion : Z;
  Bundle_DeploymentEvidence : string;
  Bundle_MonitorEvidence : string;
  Bundle_RecoveryEvidence : string;
  Bundle_Operations : list string;
  Bundle_Directory : string
}.
#[export] Instance eta_Bundle : Eta Bundle := λ r,
  mkBundle (Bundle_Format r) (Bundle_Version r) (Bundle_SourceCommit r) (Bundle_Image r) (Bundle_ComposeSHA256 r) (Bundle_DeployScriptSHA256 r) (Bundle_MonitorScriptSHA256 r) (Bundle_RecoveryScriptSHA256 r) (Bundle_SchemaVersion r) (Bundle_DeploymentEvidence r) (Bundle_MonitorEvidence r) (Bundle_RecoveryEvidence r) (Bundle_Operations r) (Bundle_Directory r).
#[export] Instance zero_Bundle : GoZero Bundle :=
  mkBundle go_zero go_zero go_zero go_zero go_zero go_zero go_zero go_zero go_zero go_zero go_zero go_zero go_zero go_zero.

Record ActiveState := mkActiveState {
  ActiveState_Version : string;
  ActiveState_ComposeSHA256 : string;
  ActiveState_Image : string;
  ActiveState_SchemaVersion : Z;
  ActiveState_Healthy : bool
}.
#[export] Instance eta_ActiveState : Eta ActiveState := λ r,
  mkActiveState (ActiveState_Version r) (ActiveState_ComposeSHA256 r) (ActiveState_Image r) (ActiveState_SchemaVersion r) (ActiveState_Healthy r).
#[export] Instance zero_ActiveState : GoZero ActiveState :=
  mkActiveState go_zero go_zero go_zero go_zero go_zero.

(** [BundleSet] *)
Definition BundleSet : Type := gmap string Bundle.
Definition BundleSet_Get (set : BundleSet) (version : string) : option Bundle := set !! version.
Definition BundleSet_Versions `{!MapRange} (set : BundleSet) : list string :=
  sort_slice str_ltb (range_keys 0 (set : gmap string Bundle)).

Definition BundleFormat : string := "asteria-drive-staging-release/v1".
Definition VersionV011 : string := "v0.1.1".
Definition VersionV020 : string := "v0.2.0".
Definition supportedVersions : list string := [VersionV011; VersionV020].
Definition operations : gset string := {[ "deploy"; "rollback"; "monitor"; "recovery" ]}.
Definition schemaVersion : Z := 3.

(** The patterns: a text of lower case hexadecimal digits of a fixed length, and
    an image of the repository pinned by its digest. *)
Definition lower_hex (b : Z) : bool := in_range 48 57 b || in_range 97 102 b.
Definition hex_pattern (n : Z) (s : string) : bool := (zstrlen s =? n) && forallb lower_hex (bytes s).
Definition digestPattern : string → bool := hex_pattern 64.
Definition commitPattern : string → bool := hex_pattern 40.
Definition image_prefix : string := "ghcr.io/baicie/asteria-drive@sha256:".
Definition imagePattern (s : string) : bool :=
  HasPrefix s image_prefix &&
  digestPattern (String.substring (String.length image_prefix)
                   (String.length s - String.length image_prefix) s).

Definition isSupportedVersion (version : string) : bool :=
  existsb (λ supported, version == supported) supportedVersions.

(** The loop over the operations of a bundle; [seen] is the map of the code. *)
Fixpoint check_operations `{!Platform} (seen : gset string) (l : list string) : option Error :=
  match l with
  | [] => None
  | operation :: l =>
    if negb (bool_decide (operation ∈ operations)) || bool_decide (operation ∈ seen) then
      Some (TextError ("invalid or duplicate operation " +:+ Quote operation))
    else check_operations ({[ operation ]} ∪ seen) l
  end.

Section with_runtime.
Context `{!Platform, !MapRange}.

Definition bundle_digests (bundle : Bundle) : gmap string string :=
  list_to_map [("compose_sha256", Bundle_ComposeSHA256 bundle);
               ("deploy_script_sha256", Bundle_DeployScriptSHA256 bundle);
               ("monitor_script_sha256", Bundle_MonitorScriptSHA256 bundle);
               ("recovery_script_sha256", Bundle_RecoveryScriptSHA256 bundle)].

Definition validateBundleMetadata (bundle : Bundle) : option Error :=
  if Bundle_Format bundle != BundleFormat then
    Some (TextError ("unexpected bundle format " +:+ Quote (Bundle_Format bundle))) else
  if negb (isSupportedVersion (Bundle_Version bundle)) then
    Some (TextError ("unsupported version " +:+ Quote (Bundle_Version bundle))) else
  if negb (commitPattern (Bundle_SourceCommit bundle)) then
    Some (TextError "invalid source commit") else
  if negb (imagePattern (Bundle_Image bundle)) then
    Some (TextError "invalid OCI image reference") else
  match list_find (λ '(name, value), digestPattern value = false)
          (map_range 0 (bundle_digests bundle)) with
  | Some (_, (name, _)) => Some (TextError ("invalid " +:+ name))
  | None =>
    if negb (Bundle_SchemaVersion bundle =? schemaVersion) then
      Some (TextError ("unsupported schema version " +:+ json_int (Bundle_SchemaVersion bundle))) else
    if (Bundle_DeploymentEvidence bundle != "asteria-drive-staging-deployment/v2") ||
       (Bundle_MonitorEvidence bundle != "asteria-drive-staging-monitor/v2") ||
       (Bundle_RecoveryEvidence bundle != "asteria-drive-staging-recovery/v2") then
      Some (TextError "unexpected evidence schema") else
    if negb (zlen (Bundle_Operations bundle) =? Z.of_nat (size operations)) then
      Some (TextError "bundle operations must be the complete approved set") else
    check_operations ∅ (Bundle_Operations bundle)
  end.

Definition ValidateActive (bundle : Bundle) (snapshot : ActiveState) : option Error :=
  if ActiveState_Version snapshot != Bundle_Version bundle then
    Some (TextError ("active version " +:+ Quote (ActiveState_Version snapshot) +:+
                     " is not bundle " +:+ Quote (Bundle_Version bundle))) else
  if ActiveState_ComposeSHA256 snapshot != Bundle_ComposeSHA256 bundle then
    Some (TextError ("active Compose hash " +:+ ActiveState_ComposeSHA256 snapshot +:+
                     " does not match " +:+ Bundle_ComposeSHA256 bundle)) else
  if ActiveState_Image snapshot != Bundle_Image bundle then
    Some (TextError ("active image " +:+ ActiveState_Image snapshot +:+
                     " does not match " +:+ Bundle_Image bundle)) else
  if negb (ActiveState_SchemaVersion snapshot =? Bundle_SchemaVersion bundle) then
    Some (TextError ("active schema " +:+ json_int (ActiveState_SchemaVersion snapshot) +:+
                     " does not match " +:+ json_int (Bundle_SchemaVersion bundle))) else
  if negb (ActiveState_Healthy snapshot) then
    Some (TextError ("active version " +:+ ActiveState_Version snapshot +:+ " is not healthy"))
  else None.

Definition Bundle_String (bundle : Bundle) : string :=
  StringsJoin [Bundle_Version bundle; Bundle_SourceCommit bundle; Bundle_Image bundle] " ".

End with_runtime.

(** ** Loading the bundles *)

(** The directory tree of the repository: [os.ReadFile], [filepath.Join],
    [filepath.Base], and [json.Unmarshal] into a [Bundle]. *)
Class BundleFiles := {
  ReadFile : string → Error + string;
  JoinPath : string → string → string;
  BasePath : string → string;
  DecodeBundle : string → Error + Bundle
}.

Section with_files.
Context `{!Platform, !MapRange, !BundleFiles}.

Definition fileSHA256 (path : string) : Error + string :=
  match ReadFile path with
  | inl err => inl (prefixed ("read " +:+ BasePath path) err)
  | inr contents => inr (HexEncodeToString (sha256 contents))
  end.

Definition bundle_files (bundle : Bundle) : list (string * string) :=
  [("compose.yaml", Bundle_ComposeSHA256 bundle);
   ("deploy-staging.sh", Bundle_DeployScriptSHA256 bundle);
   ("monitor-staging.sh", Bundle_MonitorScriptSHA256 bundle);
   ("recover-staging.sh", Bundle_RecoveryScriptSHA256 bundle)].

Fixpoint check_files (directory : string) (files : list (string * string)) : option Error :=
  match files with
  | [] => None
  | (name, want) :: files =>
    match fileSHA256 (JoinPath directory name) with
    | inl err => Some err
    | inr actual =>
      if actual != want then
        Some (TextError (name +:+ " hash " +:+ actual +:+ " does not match bundle " +:+ want))
      else check_files directory files
    end
  end.

Definition loadBundle (directory : string) : Error + Bundle :=
  match ReadFile (JoinPath directory "bundle.json") with
  | inl err => inl (prefixed "read bundle" err)
  | inr contents =>
    match DecodeBundle contents with
    | inl err => inl (prefixed "decode bundle" err)
    | inr bundle =>
      let bundle := bundle <| Bundle_Directory := directory |> in
      match validateBundleMetadata bundle with
      | Some err => inl err
      | None =>
        match check_files directory (bundle_files bundle) with
        | Some err => inl err
        | None => inr bundle
        end
      end
    end
  end.

Fixpoint load_versions (root : string) (versions : list string) (set : BundleSet)
    : Error + BundleSet :=
  match versions with
  | [] => inr set
  | version :: versions =>
    match loadBundle (JoinPath root version) with
    | inl err => inl (prefixed ("load " +:+ version) err)
    | inr bundle =>
      if Bundle_Version bundle != version then
        inl (TextError ("bundle directory " +:+ version +:+ " contains version " +:+
                        Bundle_Version bundle))
      else load_versions root versions (<[version := bundle]> (set : gmap string Bundle))
    end
  end.

Definition LoadBundles (root : string) : Error + BundleSet := load_versions root supportedVersions ∅.

End with_files.
