(* ===== verification/Staging.v ===== *)
(** * The staging release controller (src/internal/staging/controller.go)

    The controller switches the version that runs on the staging host. The host,
    the state store, the lock and the clock are the class [StagingPorts]: each
    call may change the environment [W] in any way and return any value. The
    model keeps a log of the calls in the order they are made, with what they
    returned; it is what the theorems speak about. A method that returns a
    record and an error returns both, as in Go. *)
From S2P Require Import Prelude Errors GoLib StagingBundle.

(** ** States *)

Definition State : Type := string.
Definition StateIdle : State := "IDLE".
Definition StatePrepared : State := "PREPARED".
Definition StateActivating : State := "ACTIVATING".
Definition StateVerifying : State := "VERIFYING".
Definition StateActive : State := "ACTIVE".
Definition StateRollingBack : State := "ROLLING_BACK".
Definition StateRollbackVerifying : State := "ROLLBACK_VERIFYING".
Definition StateFailed : State := "FAILED".
Definition StateRecoveryRequired : State := "RECOVERY_REQUIRED".

Definition RecordFormat : string := "asteria-drive-staging-state/v1".

Definition targets (states : list State) : gmap string bool :=
  list_to_map ((λ state, (state, true)) <$> states).
Definition transitionTable : gmap string (gmap string bool) := list_to_map [
  (StateIdle, targets [StatePrepared; StateRollingBack; StateFailed; StateRecoveryRequired]);
  (StatePrepared, targets [StateActivating; StateFailed; StateRecoveryRequired]);
  (StateActivating, targets [StateVerifying; StateFailed; StateRollingBack; StateRecoveryRequired]);
  (StateVerifying, targets [StateActive; StateFailed; StateRollingBack; StateRecoveryRequired]);
  (StateActive, targets [StatePrepared; StateRollingBack; StateFailed; StateRecoveryRequired]);
  (StateRollingBack, targets [StateRollbackVerifying; StateFailed; StateRecoveryRequired]);
  (StateRollbackVerifying, targets [StateActive; StateRecoveryRequired]);
  (StateFailed, targets [StatePrepared; StateRecoveryRequired]);
  (StateRecoveryRequired, targets [])].

Definition TransitionAllowed (from to : State) : bool :=
  match transitionTable !! from with
  | Some next => map_get next to
  | None => false
  end.

(** ** Records *)

Record StagingRecord := mkStagingRecord {
  StagingRecord_Format : string;
  StagingRecord_Operation : string;
  StagingRecord_RunID : string;
  StagingRecord_Attempt : string;
  StagingRecord_TargetVersion : string;
  StagingRecord_ExpectedCurrentVersion : string;
  StagingRecord_PreviousVersion : string;
  StagingRecord_ActiveVersion : string;
  StagingRecord_State : State;
  StagingRecord_ActiveComposeSHA256 : string;
  StagingRecord_ActiveImage : string;
  StagingRecord_SchemaVersion : Z;
  StagingRecord_EvidenceDigest : string;
  StagingRecord_LastError : string;
  StagingRecord_UpdatedAt : string
}.
#[export] Instance eta_StagingRecord : Eta StagingRecord := λ r,
  mkStagingRecord (StagingRecord_Format r) (StagingRecord_Operation r) (StagingRecord_RunID r) (StagingRecord_Attempt r) (StagingRecord_TargetVersion r) (StagingRecord_ExpectedCurrentVersion r) (StagingRecord_PreviousVersion r) (StagingRecord_ActiveVersion r) (StagingRecord_State r) (StagingRecord_ActiveComposeSHA256 r) (StagingRecord_ActiveImage r) (StagingRecord_SchemaVersion r) (StagingRecord_EvidenceDigest r) (StagingRecord_LastError r) (StagingRecord_UpdatedAt r).
#[export] Instance zero_StagingRecord : GoZero StagingRecord :=
  mkStagingRecord go_zero go_zero go_zero go_zero go_zero go_zero go_zero go_zero go_zero go_zero go_zero go_zero go_zero go_zero go_zero.

Record Evidence := mkEvidence {
  Evidence_Version : string;
  Evidence_ComposeSHA256 : string;
  Evidence_Image : string;
  Evidence_SchemaVersion : Z;
  Evidence_Healthy : bool;
  Evidence_Digest : string
}.
#[export] Instance eta_Evidence : Eta Evidence := λ r,
  mkEvidence (Evidence_Version r) (Evidence_ComposeSHA256 r) (Evidence_Image r) (Evidence_SchemaVersion r) (Evidence_Healthy r) (Evidence_Digest r).
#[export] Instance zero_Evidence : GoZero Evidence :=
  mkEvidence go_zero go_zero go_zero go_zero go_zero go_zero.

Record StagingRequest := mkStagingRequest {
  StagingRequest_RunID : string;
  StagingRequest_Attempt : string;
  StagingRequest_TargetVersion : string;
  StagingRequest_ExpectedCurrentVersion : string
}.
#[export] Instance eta_StagingRequest : Eta StagingRequest := λ r,
  mkStagingRequest (StagingRequest_RunID r) (StagingRequest_Attempt r) (StagingRequest_TargetVersion r) (StagingRequest_ExpectedCurrentVersion r).
#[export] Instance zero_StagingRequest : GoZero StagingRequest :=
  mkStagingRequest go_zero go_zero go_zero go_zero.

(** The dependencies of a controller that may be nil, and its bundles. *)
Record Controller := mkController {
  Controller_Bundles : BundleSet;
  Controller_hasHost : bool;
  Controller_hasStore : bool;
  Controller_hasLocker : bool
}.

(** ** The ports *)

Class StagingPorts (W : Type) := {
  Host_ReadActive : W → (Error + ActiveState) * W;
  Host_Activate : Bundle → W → (Error + ActiveState) * W;
  Host_Verify : Bundle → W → (Error + Evidence) * W;
  Host_Rollback : Bundle → W → (Error + ActiveState) * W;
  Host_VerifyRollback : Bundle → W → (Error + Evidence) * W;
  Store_Load : W → (Error + option StagingRecord) * W;
  Store_Save : StagingRecord → W → option Error * W;
  Locker_Acquire : string → W → option Error * W;
  Locker_unlock : W → W;
  Clock : W → Time * W
}.

Inductive Event :=
| EvLock (err : option Error)
| EvUnlock
| EvLoad (loaded : Error + option StagingRecord)
| EvSave (record : StagingRecord) (err : option Error)
| EvReadActive (active : Error + ActiveState)
| EvActivate (bundle : Bundle) (active : Error + ActiveState)
| EvVerify (bundle : Bundle) (evidence : Error + Evidence)
| EvRollback (bundle : Bundle) (active : Error + ActiveState)
| EvVerifyRollback (bundle : Bundle) (evidence : Error + Evidence).

(** The environment and the calls made so far, the last one at the end. *)
Record Site (W : Type) := mkSite { site_env : W; site_log : list Event }.
Arguments mkSite {W} _ _.
Arguments site_env {W} _.
Arguments site_log {W} _.

Definition call {W A} (op : W → A * W) (event : A → list Event) : GoM (Site W) A := λ s,
  (Ok (op (site_env s)).1,
   mkSite (op (site_env s)).2 (site_log s ++ event (op (site_env s)).1)).

(** What a method that changes the host returns. *)
Definition Result : Type := StagingRecord * option Error.

(** ** Checks without effects *)

Definition is_digit (b : Z) : bool := in_range 48 57 b.
Definition digits_pattern (most : Z) (s : string) : bool :=
  (1 <=? zstrlen s) && (zstrlen s <=? most) && forallb is_digit (bytes s).
Definition numericIDPattern : string → bool := digits_pattern 20.
Definition attemptPattern : string → bool := digits_pattern 6.

Definition validate (c : Controller) : option Error :=
  if negb (Controller_hasHost c) || negb (Controller_hasStore c) || negb (Controller_hasLocker c) ||
     bool_decide (size (Controller_Bundles c : gmap string Bundle) = 0%nat)
  then Some (TextError "staging controller dependencies are incomplete") else None.

Definition validateRequest (c : Controller) (request : StagingRequest) : Error + Bundle :=
  if negb (numericIDPattern (StagingRequest_RunID request)) ||
     negb (attemptPattern (StagingRequest_Attempt request)) then
    inl (detailed ErrInvalidRequest "run and attempt must be numeric") else
  match BundleSet_Get (Controller_Bundles c) (StagingRequest_TargetVersion request) with
  | None => inl (detailed ErrUnknownVersion (StagingRequest_TargetVersion request))
  | Some bundle =>
    if StagingRequest_ExpectedCurrentVersion request != "" then
      match BundleSet_Get (Controller_Bundles c) (StagingRequest_ExpectedCurrentVersion request) with
      | None => inl (detailed ErrUnknownVersion
                       ("expected current " +:+ StagingRequest_ExpectedCurrentVersion request))
      | Some _ => inr bundle
      end
    else inr bundle
  end.

Definition inProgress (record : StagingRecord) : bool :=
  let state := StagingRecord_State record in
  (state == StatePrepared) || (state == StateActivating) || (state == StateVerifying) ||
  (state == StateRollingBack) || (state == StateRollbackVerifying).

(** The record is returned unchanged. *)
Definition replay (record : StagingRecord) (operation : string) (request : StagingRequest)
    : bool * option Error :=
  if (StagingRecord_RunID record != StagingRequest_RunID request) ||
     (StagingRecord_Attempt record != StagingRequest_Attempt request) ||
     (StagingRecord_Operation record != operation) ||
     (StagingRecord_TargetVersion record != StagingRequest_TargetVersion request) then (false, None) else
  let state := StagingRecord_State record in
  if state == StateActive then (true, None)
  else if state == StateRecoveryRequired then (true, Some (SentinelError ErrRecoveryRequired))
  else if inProgress record then (true, Some (SentinelError ErrInProgress))
  else (false, None).

Definition validateActiveBundle (bundle : Bundle) (active : ActiveState) : option Error :=
  if ActiveState_Version active != Bundle_Version bundle then
    Some (detailed ErrActiveUnapproved
            ("active=" +:+ ActiveState_Version active +:+ " bundle=" +:+ Bundle_Version bundle)) else
  if negb (ActiveState_Healthy active) then
    Some (detailed ErrActiveUnhealthy (ActiveState_Version active)) else
  if (ActiveState_ComposeSHA256 active != Bundle_ComposeSHA256 bundle) ||
     (ActiveState_Image active != Bundle_Image bundle) ||
     negb (ActiveState_SchemaVersion active =? Bundle_SchemaVersion bundle) then
    Some (detailed ErrActiveDrifted
            ("active identity does not match " +:+ Bundle_Version bundle))
  else None.

Definition validateEvidence (bundle : Bundle) (evidence : Evidence) : option Error :=
  if Evidence_Digest evidence == "" then Some (TextError "evidence digest is empty") else
  validateActiveBundle bundle
    (mkActiveState (Evidence_Version evidence) (Evidence_ComposeSHA256 evidence)
       (Evidence_Image evidence) (Evidence_SchemaVersion evidence) (Evidence_Healthy evidence)).

(** ** Methods *)

Section with_ports.
Context {W : Type} `{!Platform, !MapRange, !StagingPorts W}.
Context (c : Controller).
Abbreviation M := (GoM (Site W)) (only parsing).

Definition Now : M Time := call Clock (λ _, []).
Definition Save (record : StagingRecord) : M (option Error) :=
  call (Store_Save record) (λ err, [EvSave record err]).
Definition ReadActive : M (Error + ActiveState) := call Host_ReadActive (λ active, [EvReadActive active]).

Definition acquire : M (option Error) :=
  err ← call (Locker_Acquire "asteria-drive-staging") (λ err, [EvLock err]);
  ret ((λ err, detailed ErrLocked (error_text err)) <$> err).
Definition unlock : M unit := call (λ w, (tt, Locker_unlock w)) (λ _, [EvUnlock]).

Definition load : M (Error + StagingRecord) :=
  loaded ← call Store_Load (λ loaded, [EvLoad loaded]);
  ret match loaded with
      | inl err => inl err
      | inr None => inr (go_zero <| StagingRecord_Format := RecordFormat |>
                                 <| StagingRecord_State := StateIdle |>)
      | inr (Some record) =>
        if StagingRecord_Format record != RecordFormat then
          inl (TextError ("invalid staging state format " +:+ Quote (StagingRecord_Format record)))
        else inr record
      end.

(** [record.UpdatedAt = c.now().Format(time.RFC3339)] *)
Definition stamp (record : StagingRecord) : M StagingRecord :=
  t ← Now; ret (record <| StagingRecord_UpdatedAt := FormatRFC3339 t |>).

(** The record is passed by reference: it is changed although saving it fails. *)
Definition save (record : StagingRecord) (next : State) : M Result :=
  if StagingRecord_State record == next then ret (record, None) else
  if negb (TransitionAllowed (StagingRecord_State record) next) then
    ret (record, Some (detailed ErrInvalidTransition
                         (StagingRecord_State record +:+ " -> " +:+ next))) else
  record ← stamp (record <| StagingRecord_State := next |>);
  err ← Save record;
  ret (record, prefixed "persist staging state" <$> err).

Definition readValidatedActive : M (Error * ActiveState + ActiveState * Bundle) :=
  active ← ReadActive;
  ret match active with
      | inl err => inl (detailed ErrActiveUnreadable (error_text err), go_zero)
      | inr active =>
        match BundleSet_Get (Controller_Bundles c) (ActiveState_Version active) with
        | None => inl (detailed ErrActiveUnapproved (ActiveState_Version active), active)
        | Some bundle =>
          match validateActiveBundle bundle active with
          | Some err => inl (err, active)
          | None => inr (active, bundle)
          end
        end
      end.

Definition with_bundle (record : StagingRecord) (bundle : Bundle) : StagingRecord :=
  record <| StagingRecord_ActiveVersion := Bundle_Version bundle |>
         <| StagingRecord_ActiveComposeSHA256 := Bundle_ComposeSHA256 bundle |>
         <| StagingRecord_ActiveImage := Bundle_Image bundle |>
         <| StagingRecord_SchemaVersion := Bundle_SchemaVersion bundle |>.

Definition commitActive (record : StagingRecord) (bundle : Bundle) (evidence : Evidence) : M Result :=
  let previousState := StagingRecord_State record in
  record ← stamp ((with_bundle (record <| StagingRecord_State := StateActive |>) bundle)
                    <| StagingRecord_EvidenceDigest := Evidence_Digest evidence |>
                    <| StagingRecord_LastError := "" |>);
  err ← Save record;
  match err with
  | Some err => ret (record <| StagingRecord_State := previousState |>,
                     Some (prefixed "persist complete active state" err))
  | None => ret (record, None)
  end.

Definition markActive (record : StagingRecord) (bundle : Bundle) (operation : string)
    (request : StagingRequest) : M Result :=
  record ← stamp ((with_bundle
    (record <| StagingRecord_Operation := operation |>
            <| StagingRecord_RunID := StagingRequest_RunID request |>
            <| StagingRecord_Attempt := StagingRequest_Attempt request |>
            <| StagingRecord_TargetVersion := Bundle_Version bundle |>
            <| StagingRecord_ExpectedCurrentVersion := StagingRequest_ExpectedCurrentVersion request |>)
    bundle) <| StagingRecord_LastError := "" |> <| StagingRecord_State := StateActive |>);
  err ← Save record;
  ret (record, prefixed "persist active state" <$> err).

Definition markFailed (record : StagingRecord) (message : string) (cause : option Error) : M Result :=
  '(record, err) ← save (record <| StagingRecord_LastError := message |>) StateFailed;
  ret (record, match err with Some _ => err | None => cause end).

(** Whatever the cause, the caller sees [ErrRecoveryRequired]. *)
Definition markRecovery (record : StagingRecord) (message : string) : M Result :=
  let record := record <| StagingRecord_LastError := message |> in
  if StagingRecord_State record == StateRecoveryRequired then
    _ ← Save record; ret (record, Some (SentinelError ErrRecoveryRequired)) else
  '(record, err) ← save record StateRecoveryRequired;
  ret (record, match err with Some _ => err | None => Some (SentinelError ErrRecoveryRequired) end).

Definition revalidateActiveRecord (record : StagingRecord) : M Result :=
  match BundleSet_Get (Controller_Bundles c) (StagingRecord_ActiveVersion record) with
  | None => markRecovery record "recorded active version is not approved"
  | Some bundle =>
    active ← ReadActive;
    match active with
    | inl err => markRecovery record ("replay cannot read active state: " +:+ error_text err)
    | inr active =>
      match validateActiveBundle bundle active with
      | Some err => markRecovery record ("replay active mismatch: " +:+ error_text err)
      | None =>
        if (StagingRecord_ActiveComposeSHA256 record != ActiveState_ComposeSHA256 active) ||
           (StagingRecord_ActiveImage record != ActiveState_Image active) ||
           negb (StagingRecord_SchemaVersion record =? ActiveState_SchemaVersion active) then
          markRecovery record "persisted active identity does not match host"
        else ret (record, None)
      end
    end
  end.

(** The checks that end a switch to [bundle]: the evidence of the rollback, then
    the state of the host; [prefix] starts the messages. *)
Definition verify_rollback (record : StagingRecord) (bundle : Bundle) (prefix : string)
    (done : Evidence → M Result) : M Result :=
  evidence ← call (Host_VerifyRollback bundle) (λ evidence, [EvVerifyRollback bundle evidence]);
  match evidence with
  | inl err => markRecovery record (prefix +:+ "rollback evidence unavailable: " +:+ error_text err)
  | inr evidence =>
    match validateEvidence bundle evidence with
    | Some err => markRecovery record (prefix +:+ "rollback evidence invalid: " +:+ error_text err)
    | None =>
      actual ← ReadActive;
      match actual with
      | inl err => markRecovery record (prefix +:+ "rollback post-read failed: " +:+ error_text err)
      | inr actual =>
        match validateActiveBundle bundle actual with
        | Some err => markRecovery record (prefix +:+ "rollback post-read mismatch: " +:+ error_text err)
        | None => done evidence
        end
      end
    end
  end.

Definition compensate (record : StagingRecord) (previous : Bundle) (previousOK : bool)
    (message : string) (cause : Error) : M Result :=
  let record := record <| StagingRecord_LastError := message |> in
  if negb previousOK then markRecovery record (message +:+ "; no approved previous bundle") else
  '(record, err) ← save record StateRollingBack;
  match err with Some _ => ret (record, err) | None =>
  active ← call (Host_Rollback previous) (λ active, [EvRollback previous active]);
  match active with
  | inl err => markRecovery record (message +:+ "; rollback failed: " +:+ error_text err)
  | inr _ =>
    '(record, err) ← save record StateRollbackVerifying;
    match err with Some _ => ret (record, err) | None =>
    verify_rollback record previous (message +:+ "; ") (λ evidence,
      '(committed, err) ← commitActive record previous evidence;
      match err with Some _ => ret (committed, err) | None => ret (committed, Some cause) end)
    end
  end
  end.

(** ** Switching the version

    [Deploy] and [Rollback] share their first half: the replay of a finished
    run, the refusals, and the check of what the host runs. [pre] is the word
    their messages differ in. *)

Definition begin_switch (record : StagingRecord) (operation : string) (request : StagingRequest)
    (target : Bundle) (active : ActiveState) : StagingRecord :=
  record <| StagingRecord_Operation := operation |>
         <| StagingRecord_RunID := StagingRequest_RunID request |>
         <| StagingRecord_Attempt := StagingRequest_Attempt request |>
         <| StagingRecord_TargetVersion := Bundle_Version target |>
         <| StagingRecord_ExpectedCurrentVersion := StagingRequest_ExpectedCurrentVersion request |>
         <| StagingRecord_PreviousVersion := ActiveState_Version active |>
         <| StagingRecord_LastError := "" |>.

Definition admit_switch (operation pre : string) (request : StagingRequest) (bundle : Bundle)
    (record : StagingRecord) (switch : StagingRecord → Bundle → M Result) : M Result :=
  let '(done, err) := replay record operation request in
  if done || bool_decide (is_Some err) then
    if done && (StagingRecord_State record == StateActive) && bool_decide (err = None)
    then revalidateActiveRecord record else ret (record, err)
  else
  if StagingRecord_State record == StateRecoveryRequired then
    ret (record, Some (SentinelError ErrRecoveryRequired)) else
  if (StagingRecord_RunID record == StagingRequest_RunID request) &&
     (StagingRecord_Attempt record == StagingRequest_Attempt request) &&
     ((StagingRecord_Operation record != operation) ||
      (StagingRecord_TargetVersion record != StagingRequest_TargetVersion request)) then
    ret (record, Some (detailed ErrInvalidRequest
                         "run identity was already used for a different operation")) else
  if inProgress record then ret (record, Some (SentinelError ErrInProgress)) else
  validated ← readValidatedActive;
  match validated with
  | inl (err, _) =>
      markRecovery record (pre +:+ " active validation failed: " +:+ error_text err)
  | inr (active, current) =>
    if (StagingRequest_ExpectedCurrentVersion request != "") &&
       (ActiveState_Version active != StagingRequest_ExpectedCurrentVersion request) then
      markRecovery record ("expected current version " +:+
        StagingRequest_ExpectedCurrentVersion request +:+ " but found " +:+ ActiveState_Version active)
    else if ActiveState_Version active == Bundle_Version bundle then
      markActive record bundle operation request
    else switch (begin_switch record operation request bundle active) current
  end.

(** The checks, the lock, and the persisted record of both operations. *)
Definition locked_switch (request : StagingRequest) (body : Bundle → StagingRecord → M Result)
    : M Result :=
  match validate c with Some err => ret (go_zero, Some err) | None =>
  match validateRequest c request with inl err => ret (go_zero, Some err) | inr bundle =>
  err ← acquire;
  match err with Some err => ret (go_zero, Some err) | None =>
  record ← load;
  result ← match record with
    | inl err => ret (go_zero, Some err)
    | inr record => body bundle record
    end;
  _ ← unlock;
  ret result
  end end end.

Definition deploy_switch (bundle : Bundle) (record : StagingRecord) (current : Bundle) : M Result :=
  '(record, err) ← save record StatePrepared;
  match err with Some _ => ret (record, err) | None =>
  '(record, err) ← save record StateActivating;
  match err with Some _ => ret (record, err) | None =>
  active ← call (Host_Activate bundle) (λ active, [EvActivate bundle active]);
  match active with
  | inl err => compensate record current true ("activate failed: " +:+ error_text err) err
  | inr _ =>
    '(record, err) ← save record StateVerifying;
    match err with Some _ => ret (record, err) | None =>
    evidence ← call (Host_Verify bundle) (λ evidence, [EvVerify bundle evidence]);
    match evidence with
    | inl err => compensate record current true ("verify failed: " +:+ error_text err) err
    | inr evidence =>
      match validateEvidence bundle evidence with
      | Some err => compensate record current true
          ("verification evidence does not match target bundle: " +:+ error_text err) err
      | None => commitActive record bundle evidence
      end
    end
    end
  end
  end
  end.

Definition Deploy (request : StagingRequest) : M Result :=
  locked_switch request (λ bundle record,
    admit_switch "deploy" "pre-switch" request bundle record (deploy_switch bundle)).

Definition rollback_switch (bundle : Bundle) (record : StagingRecord) (_ : Bundle) : M Result :=
  '(record, err) ← save record StateRollingBack;
  match err with Some _ => ret (record, err) | None =>
  active ← call (Host_Rollback bundle) (λ active, [EvRollback bundle active]);
  match active with
  | inl err => markRecovery record ("rollback execution failed: " +:+ error_text err)
  | inr _ =>
    '(record, err) ← save record StateRollbackVerifying;
    match err with Some _ => ret (record, err) | None =>
    verify_rollback record bundle "" (λ evidence, commitActive record bundle evidence)
    end
  end
  end.

Definition Rollback (request : StagingRequest) : M Result :=
  locked_switch request (λ bundle record,
    admit_switch "rollback" "pre-rollback" request bundle record (rollback_switch bundle)).

(** ** Monitoring and resuming *)

Definition Monitor : M (Error + Evidence) :=
  match validate c with Some err => ret (inl err) | None =>
  active ← ReadActive;
  ret match active with
      | inl err => inl (prefixed "read active state" err)
      | inr active =>
        match BundleSet_Get (Controller_Bundles c) (ActiveState_Version active) with
        | None => inl (detailed ErrUnknownVersion (ActiveState_Version active))
        | Some bundle =>
          match ValidateActive bundle active with
          | Some err => inl err
          | None => inr (mkEvidence (ActiveState_Version active) (ActiveState_ComposeSHA256 active)
                           (ActiveState_Image active) (ActiveState_SchemaVersion active) true "")
          end
        end
      end
  end.

(** [ok && active.Version == bundle.Version && validateActiveBundle(bundle, active) == nil] *)
Definition runs_bundle (bundle : option Bundle) (active : ActiveState) : bool :=
  match bundle with
  | Some bundle => (ActiveState_Version active == Bundle_Version bundle) &&
                   bool_decide (validateActiveBundle bundle active = None)
  | None => false
  end.

(** The error of the store is dropped. *)
Definition resume_recovery (record : StagingRecord) (message : string) : M Result :=
  record ← stamp (record <| StagingRecord_State := StateRecoveryRequired |>
                         <| StagingRecord_LastError := message |>);
  _ ← Save record;
  ret (record, Some (SentinelError ErrRecoveryRequired)).

Definition resume_active (record : StagingRecord) (active : ActiveState) : M Result :=
  record ← stamp (record <| StagingRecord_State := StateActive |>
                         <| StagingRecord_ActiveVersion := ActiveState_Version active |>
                         <| StagingRecord_ActiveComposeSHA256 := ActiveState_ComposeSHA256 active |>
                         <| StagingRecord_ActiveImage := ActiveState_Image active |>
                         <| StagingRecord_SchemaVersion := ActiveState_SchemaVersion active |>);
  err ← Save record;
  ret (record, err).

Definition resume_record (runID attempt : string) (record : StagingRecord) : M Result :=
  if (StagingRecord_RunID record != runID) || (StagingRecord_Attempt record != attempt) then
    ret (record, Some (TextError "resume request does not match persisted run identity")) else
  if StagingRecord_State record == StateActive then revalidateActiveRecord record else
  if negb (inProgress record) && (StagingRecord_State record != StateFailed) then
    ret (record, None) else
  active ← ReadActive;
  match active with
  | inl err => resume_recovery record ("resume could not read host state: " +:+ error_text err)
  | inr active =>
    if runs_bundle (BundleSet_Get (Controller_Bundles c) (StagingRecord_TargetVersion record)) active ||
       runs_bundle (BundleSet_Get (Controller_Bundles c) (StagingRecord_PreviousVersion record)) active
    then resume_active record active
    else resume_recovery record
           "resume found an active version that does not match target or previous"
  end.

Definition Resume (runID attempt : string) : M Result :=
  match validate c with Some err => ret (go_zero, Some err) | None =>
  err ← acquire;
  match err with Some err => ret (go_zero, Some err) | None =>
  record ← load;
  result ← match record with
    | inl err => ret (go_zero, Some err)
    | inr record => resume_record runID attempt record
    end;
  _ ← unlock;
  ret result
  end end.

End with_ports.
