(* ===== verification/StagingTrace.v ===== *)
(** * Reasoning about the log of the staging controller

    [emits m P] says that [m] always returns a value, adds some calls to the log
    and that the value and the added calls satisfy [P]. *)
From S2P Require Import Prelude Errors GoLib StagingBundle Staging.

Section emits.
Context {W : Type}.

Definition emits {A} (m : GoM (Site W) A) (P : A → list Event → Prop) : Prop :=
  ∀ s, ∃ a w l, m s = (Ok a, mkSite w (site_log s ++ l)) ∧ P a l.

Lemma emits_ret {A} (a : A) (P : A → list Event → Prop) : P a [] → emits (ret a) P.
Proof. intros HP [w l]. exists a, w, []. by rewrite app_nil_r. Qed.

Lemma emits_bind {A B} (m : GoM (Site W) A) (f : A → GoM (Site W) B) P :
  emits m (λ a l1, emits (f a) (λ b l2, P b (l1 ++ l2))) → emits (m ≫= f) P.
Proof.
  intros Hm s. destruct (Hm s) as (a & w & l1 & Hrun & Hf).
  destruct (Hf (mkSite w (site_log s ++ l1))) as (b & w' & l2 & Hrun' & HP).
  exists b, w', (l1 ++ l2). split; [|done].
  unfold mbind, GoM_bind. rewrite Hrun, Hrun'. simpl. by rewrite app_assoc.
Qed.

Lemma emits_call {A} (op : W → A * W) event (P : A → list Event → Prop) :
  (∀ a, P a (event a)) → emits (call op event) P.
Proof. intros HP s. eauto 10. Qed.

Lemma emits_mono {A} (m : GoM (Site W) A) (P Q : A → list Event → Prop) :
  emits m P → (∀ a l, P a l → Q a l) → emits m Q.
Proof. intros Hm HPQ s. destruct (Hm s) as (a & w & l & ? & ?). eauto 10. Qed.

Lemma emits_and {A} (m : GoM (Site W) A) (P Q : A → list Event → Prop) :
  emits m P → emits m Q → emits m (λ a l, P a l ∧ Q a l).
Proof.
  intros HP HQ s. destruct (HP s) as (a & w & l & Hrun & ?), (HQ s) as (a' & w' & l' & Hrun' & ?).
  rewrite Hrun in Hrun'. simplify_eq. eauto 10.
Qed.

(** From a run to what it emitted. *)
Lemma emits_run {A} (m : GoM (Site W) A) P s o s' l :
  emits m P → m s = (o, s') → site_log s' = site_log s ++ l → ∃ a, o = Ok a ∧ P a l.
Proof.
  intros Hm Hrun Hl. destruct (Hm s) as (a & w & l' & Hrun' & HP).
  rewrite Hrun in Hrun'. simplify_eq. simpl in Hl. simplify_eq. eauto.
Qed.

(** What one call of the log satisfies, given the calls before it. *)
Fixpoint along (P : list Event → Event → Prop) (pre l : list Event) : Prop :=
  match l with
  | [] => True
  | e :: l => P pre e ∧ along P (pre ++ [e]) l
  end.

Lemma along_split P pre l :
  along P pre l → ∀ l1 e l2, l = l1 ++ e :: l2 → P (pre ++ l1) e.
Proof.
  revert pre. induction l as [|e' l IH]; intros pre Hl l1 e l2 Heq; [by destruct l1|].
  destruct Hl as [He Hl]. destruct l1 as [|e1 l1]; simplify_eq/=; [by rewrite app_nil_r|].
  rewrite (cons_middle e1), app_assoc. by eapply IH.
Qed.

Lemma along_app P pre l1 l2 : along P pre l1 → along P (pre ++ l1) l2 → along P pre (l1 ++ l2).
Proof.
  revert pre. induction l1 as [|e l1 IH]; intros pre; simpl.
  { by rewrite app_nil_r. }
  intros [? ?] Hl2. split; [done|]. apply IH; [done|]. by rewrite <- app_assoc.
Qed.
End emits.

(** Takes one step of the method under [emits]. *)
Ltac emits_step :=
  lazymatch goal with
  | |- emits (mbind _ _) _ => apply emits_bind
  | |- emits (ret _) _ => apply emits_ret
  | |- emits (call _ _) _ => apply emits_call; intros ?
  | |- emits (let x := ?a in @?b x) ?P => change (emits (b a) P); cbv beta
  | |- emits (match ?x with _ => _ end) _ => destruct x eqn:?
  end.
Ltac emits_go := repeat (cbv beta iota; emits_step).

(** ** The three methods that change the host or the record *)

Inductive Operation :=
| OpDeploy (request : StagingRequest)
| OpRollback (request : StagingRequest)
| OpResume (runID attempt : string).

Section with_ports.
Context {W : Type} `{!Platform, !MapRange, !StagingPorts W}.
Context (c : Controller).

Definition operate (op : Operation) : GoM (Site W) Result :=
  match op with
  | OpDeploy request => Deploy c request
  | OpRollback request => Rollback c request
  | OpResume runID attempt => Resume c runID attempt
  end.

(** ** What the log says at each point *)

(** The state of the persisted record: the one loaded, then the last one saved. *)
Definition event_state (state : State) (e : Event) : State :=
  match e with
  | EvLoad (inr (Some record)) => StagingRecord_State record
  | EvSave record None => StagingRecord_State record
  | _ => state
  end.
Definition state_of (l : list Event) : State := foldl event_state StateIdle l.

(** What the host said about itself: a snapshot, or evidence with a digest. *)
Definition of_evidence (e : Evidence) : ActiveState :=
  mkActiveState (Evidence_Version e) (Evidence_ComposeSHA256 e) (Evidence_Image e)
    (Evidence_SchemaVersion e) (Evidence_Healthy e).
Definition observed (e : Event) : list ActiveState :=
  match e with
  | EvReadActive (inr active) => [active]
  | EvVerify _ (inr evidence) | EvVerifyRollback _ (inr evidence) => [of_evidence evidence]
  | _ => []
  end.

Definition approved (bundle : Bundle) : Prop :=
  ∃ version, (Controller_Bundles c : gmap string Bundle) !! version = Some bundle.

Definition records_bundle (record : StagingRecord) (bundle : Bundle) : Prop :=
  StagingRecord_ActiveVersion record = Bundle_Version bundle ∧
  StagingRecord_ActiveComposeSHA256 record = Bundle_ComposeSHA256 bundle ∧
  StagingRecord_ActiveImage record = Bundle_Image bundle ∧
  StagingRecord_SchemaVersion record = Bundle_SchemaVersion bundle.

(** The steps the persisted state takes: those of the table; a state that is not
    in progress is confirmed active when the target already runs; an interrupted
    run is resolved. *)
Inductive state_step : State → State → Prop :=
| step_table s s' : TransitionAllowed s s' = true → state_step s s'
| step_confirm record : inProgress record = false →
    StagingRecord_State record ≠ StateRecoveryRequired →
    state_step (StagingRecord_State record) StateActive
| step_resume record s' :
    inProgress record = true ∨ StagingRecord_State record = StateFailed →
    s' = StateActive ∨ s' = StateRecoveryRequired →
    state_step (StagingRecord_State record) s'.

(** [e] is a legal next call after [pre]. *)
Definition legal (pre : list Event) (e : Event) : Prop :=
  match e with
  | EvSave record _ =>
      state_step (state_of pre) (StagingRecord_State record) ∧
      (StagingRecord_State record = StateActive → ∃ bundle active,
         approved bundle ∧ records_bundle record bundle ∧
         active ∈ (pre ≫= observed) ∧ validateActiveBundle bundle active = None)
  | EvActivate bundle _ =>
      approved bundle ∧ ∃ record pre', pre = pre' ++ [EvSave record None] ∧
      StagingRecord_State record = StateActivating ∧
      StagingRecord_TargetVersion record = Bundle_Version bundle
  | EvRollback bundle _ =>
      approved bundle ∧ ∃ record pre', pre = pre' ++ [EvSave record None] ∧
      StagingRecord_State record = StateRollingBack ∧
      (StagingRecord_TargetVersion record = Bundle_Version bundle ∨
       StagingRecord_PreviousVersion record = Bundle_Version bundle)
  | EvVerify bundle _ | EvVerifyRollback bundle _ => approved bundle
  | _ => True
  end.
End with_ports.
