(* ===== verification/StagingSteps.v ===== *)
(** * Every call of the staging controller is legal

    One lemma per method of the controller: the calls it makes are [legal] after
    the calls before it, and how it ends: settled, or halted by a save that failed with
    a record that says a switch is in progress. *)
From S2P Require Import Prelude Errors GoLib StagingBundle Staging StagingTrace.

(** No save of the log failed. *)
Definition clean (l : list Event) : Prop := ∀ record err, EvSave record (Some err) ∉ l.

Lemma clean_app l1 l2 : clean (l1 ++ l2) ↔ clean l1 ∧ clean l2.
Proof.
  unfold clean. split.
  - intros Hc. split; intros ?? Hin; eapply Hc, elem_of_app; eauto.
  - intros [H1 H2] ?? [Hin|Hin]%elem_of_app; [by eapply H1|by eapply H2].
Qed.
Lemma clean_cons e l : clean (e :: l) ↔ clean [e] ∧ clean l.
Proof. exact (clean_app [e] l). Qed.
Lemma clean_nil : clean [].
Proof. intros ??. apply not_elem_of_nil. Qed.
Lemma clean_failed record err : clean [EvSave record (Some err)] ↔ False.
Proof. split; [|done]. intros Hc. apply (Hc record err). by left. Qed.

(** Some save of the log failed. *)
Definition failed_save (l : list Event) : Prop := ∃ record err, EvSave record (Some err) ∈ l.
Lemma failed_save_app l1 l2 : failed_save (l1 ++ l2) ↔ failed_save l1 ∨ failed_save l2.
Proof. unfold failed_save. set_solver. Qed.
Lemma failed_save_cons e l : failed_save (e :: l) ↔ failed_save [e] ∨ failed_save l.
Proof. exact (failed_save_app [e] l). Qed.
Lemma failed_save_nil : ¬ failed_save [].
Proof. intros (? & ? & H). by apply not_elem_of_nil in H. Qed.
Lemma not_failed_save e : (∀ record err, e ≠ EvSave record (Some err)) → ¬ failed_save [e].
Proof. intros He (? & ? & H%list_elem_of_singleton). by eapply He. Qed.
Lemma clean_or_failed l : clean l ∨ failed_save l.
Proof.
  induction l as [|e l IH]; [left; apply clean_nil|]. rewrite clean_cons, failed_save_cons.
  destruct IH as [Hl|Hl]; [|by right; right].
  assert (clean [e] ∨ failed_save [e]) as [He|He]; [|by left|by right; left].
  destruct e as [| | |record [err|]| | | | |]; try (left; intros ?? H%list_elem_of_singleton; discriminate H).
  right. exists record, err. by left.
Qed.

Lemma state_of_snoc l e : state_of (l ++ [e]) = event_state (state_of l) e.
Proof. unfold state_of. by rewrite foldl_app. Qed.

Lemma observed_snoc l e : (l ++ [e]) ≫= observed = (l ≫= observed) ++ observed e.
Proof. rewrite bind_app. simpl. by rewrite app_nil_r. Qed.

Lemma validateEvidence_active bundle evidence : validateEvidence bundle evidence = None →
  validateActiveBundle bundle (of_evidence evidence) = None ∧ Evidence_Digest evidence ≠ "".
Proof.
  unfold validateEvidence. intros H. destruct (_ == "") eqn:Hd; [done|]. by go_bool.
Qed.

Lemma validateActiveBundle_None bundle active : validateActiveBundle bundle active = None ↔
  ActiveState_Version active = Bundle_Version bundle ∧ ActiveState_Healthy active = true ∧
  ActiveState_ComposeSHA256 active = Bundle_ComposeSHA256 bundle ∧
  ActiveState_Image active = Bundle_Image bundle ∧
  ActiveState_SchemaVersion active = Bundle_SchemaVersion bundle.
Proof.
  unfold validateActiveBundle. split.
  - intros H. repeat go_case; try done. go_bool. by rewrite Z.eqb_eq in *.
  - intros (-> & -> & -> & -> & ->). by rewrite !bool_decide_eq_true_2, Z.eqb_refl.
Qed.

Section with_ports.
Context {W : Type} `{!Platform, !MapRange, !StagingPorts W}.
Context (c : Controller).
Implicit Types (record : StagingRecord) (bundle : Bundle) (pre l : list Event).

(** ** What a run achieves *)

Definition switches l : Prop := ∃ bundle active, EvActivate bundle active ∈ l ∨ EvRollback bundle active ∈ l.

Lemma not_switches_nil : ¬ switches [].
Proof. intros (? & ? & [H1|H1]); by apply not_elem_of_nil in H1. Qed.
Lemma not_switches_save record err : ¬ switches [EvSave record err].
Proof. intros (? & ? & [H1|H1]); by apply list_elem_of_singleton in H1. Qed.
Lemma switches_cons e l : switches (e :: l) ↔ switches [e] ∨ switches l.
Proof. unfold switches. set_solver. Qed.

(** Some approved bundle is recorded as active, and the host said that it runs it. *)
Definition verified l (record : StagingRecord) : Prop :=
  StagingRecord_State record = StateActive ∧ ∃ bundle active,
    approved c bundle ∧ records_bundle record bundle ∧
    active ∈ (l ≫= observed) ∧ validateActiveBundle bundle active = None.

(** A state of a switch that is not over: it keeps every later switch away. *)
Definition in_flight (state : State) : Prop := inProgress (go_zero <| StagingRecord_State := state |>) = true.

(** When a save fails the run ends there, with an error and the state of the last save. *)
Definition halted pre (result : Result) l : Prop := failed_save l →
  is_Some result.2 ∧ (in_flight (state_of (pre ++ l)) ∨ state_of (pre ++ l) = state_of pre ∧ ¬ switches l).
Lemma halted_step pre e (result : Result) l : in_flight (state_of (pre ++ [e])) → ¬ failed_save [e] →
  halted (pre ++ [e]) result l → halted pre result (e :: l).
Proof.
  intros Hin He Hl [?|Hf]%failed_save_cons; [done|]. unfold halted in Hl. rewrite <- app_assoc in Hl.
  destruct (Hl Hf) as [? Hst]. split; [done|left]. destruct Hst as [?|[E _]]; [done|]. simpl in E. by rewrite E.
Qed.
Lemma halted_save pre record (result : Result) err : is_Some result.2 → halted pre result [EvSave record (Some err)].
Proof. intros ? _. split; [done|right]. rewrite state_of_snoc. split; [done|apply not_switches_save]. Qed.
Lemma halted_saved pre record (result : Result) : halted pre result [EvSave record None].
Proof. by intros ?%not_failed_save. Qed.

(** ** Saving *)

Lemma stamp_emits record (P : StagingRecord → list Event → Prop) :
  (∀ time, P (record <| StagingRecord_UpdatedAt := time |>) []) →
  emits (W := W) (stamp record) P.
Proof. intros HP. unfold stamp, Now. emits_go. apply HP. Qed.

Lemma save_emits record next (P : Result → list Event → Prop) :
  (StagingRecord_State record = next → P (record, None) []) →
  (∀ err, TransitionAllowed (StagingRecord_State record) next = false → P (record, Some err) []) →
  (∀ time err, TransitionAllowed (StagingRecord_State record) next = true →
     let record' := record <| StagingRecord_State := next |> <| StagingRecord_UpdatedAt := time |> in
     P (record', prefixed "persist staging state" <$> err) [EvSave record' err]) →
  emits (W := W) (save record next) P.
Proof.
  intros Hsame Hno Hsave. unfold save. emits_go; go_bool.
  - by apply Hsame.
  - by apply Hno.
  - apply stamp_emits. intros time. unfold Save. emits_go. simpl. by apply Hsave.
Qed.

(** A save of the table from a known state. *)
Lemma save_step record next pre (P : Result → list Event → Prop) :
  state_of pre = StagingRecord_State record →
  TransitionAllowed (StagingRecord_State record) next = true → next ≠ StateActive →
  StagingRecord_State record ≠ next →
  (∀ time err, let record' := record <| StagingRecord_State := next |>
                                     <| StagingRecord_UpdatedAt := time |> in
     legal c pre (EvSave record' err) →
     P (record', prefixed "persist staging state" <$> err) [EvSave record' err]) →
  emits (W := W) (save record next) P.
Proof.
  intros Hpre Hallowed Hactive Hsame HP. apply save_emits; [done|congruence|].
  intros time err _. apply HP. split; [|done]. rewrite Hpre. by apply step_table.
Qed.

Definition recovery_result (result : Result) : Prop :=
  StagingRecord_State result.1 = StateRecoveryRequired ∧
  result.2 = Some (SentinelError ErrRecoveryRequired).

Lemma markRecovery_emits record message pre :
  state_of pre = StagingRecord_State record →
  StagingRecord_State record ≠ StateRecoveryRequired →
  emits (W := W) (markRecovery record message) (λ result l,
    along (legal c) pre l ∧ is_Some result.2 ∧ ¬ switches l ∧ halted pre result l ∧
    (TransitionAllowed (StagingRecord_State record) StateRecoveryRequired = true → clean l →
     recovery_result result)).
Proof.
  intros Hpre Hne. unfold markRecovery. emits_go; go_bool; [done|].
  apply save_emits; simpl; [done|intros err Hno; emits_go; split_and!; [done|done|apply not_switches_nil|by intros ?%failed_save_nil|congruence]|].
  intros time err Hallowed. emits_go; simpl.
  split_and!; [|done|done|by destruct err|apply not_switches_save|destruct err; [by apply halted_save|apply halted_saved]|].
  - rewrite Hpre. by apply step_table.
  - intros _ Hc. destruct err; [by apply clean_failed in Hc|]. done.
Qed.

(** ** Ending a switch *)

(** [record'] is [record] in the state [next]. *)
Definition moved record (next : State) (record' : StagingRecord) : Prop :=
  StagingRecord_State record' = next ∧
  StagingRecord_TargetVersion record' = StagingRecord_TargetVersion record ∧
  StagingRecord_PreviousVersion record' = StagingRecord_PreviousVersion record.

(** The switch ended with [bundle] active. *)
Definition active_result (target previous : string) bundle (result : Result) : Prop :=
  StagingRecord_State result.1 = StateActive ∧ records_bundle result.1 bundle ∧
  StagingRecord_TargetVersion result.1 = target ∧
  StagingRecord_PreviousVersion result.1 = previous.

Lemma commitActive_emits record bundle evidence pre :
  state_of pre = StagingRecord_State record →
  TransitionAllowed (StagingRecord_State record) StateActive = true →
  approved c bundle → of_evidence evidence ∈ (pre ≫= observed) →
  validateEvidence bundle evidence = None →
  emits (W := W) (commitActive record bundle evidence) (λ result l,
    along (legal c) pre l ∧ (result.2 = None → verified (pre ++ l) result.1) ∧ halted pre result l ∧
    (clean l → active_result (StagingRecord_TargetVersion record)
                 (StagingRecord_PreviousVersion record) bundle result ∧ result.2 = None)).
Proof.
  intros Hpre Hallowed Happ Hobs Hev. unfold commitActive. emits_go. apply stamp_emits. intros time.
  unfold Save. emits_go; simpl.
  all: split_and!; try done.
  all: try (rewrite Hpre; by apply step_table).
  all: try (intros _; exists bundle, (of_evidence evidence); split_and!; try done;
            by apply validateEvidence_active).
  all: try (by apply halted_save || apply halted_saved).
  - intros Hc. by apply clean_failed in Hc.
  - intros _. split; [done|]. exists bundle, (of_evidence evidence).
    split_and!; [done|done| |by apply validateEvidence_active].
    rewrite bind_app, elem_of_app. by left.
Qed.

(** The calls are legal; without a failing store the result is [good], or the
    record demands manual recovery. *)
Definition ends pre (good : Result → Prop) (result : Result) l : Prop :=
  along (legal c) pre l ∧ (clean l → good result ∨ recovery_result result) ∧
  (result.2 = None → verified (pre ++ l) result.1) ∧ halted pre result l.

Lemma ends_mono (m : GoM (Site W) Result) pre (good good' : Result → Prop) :
  emits m (ends pre good) → (∀ result, good result → good' result) → emits m (ends pre good').
Proof.
  intros Hm Hg. eapply emits_mono; [exact Hm|]. intros result l (Hl & Hr & Hv & Hh).
  split_and!; [done| |done|done]. intros Hc. destruct (Hr Hc); eauto.
Qed.

Lemma call_ends {A} (op : W → A * W) (event : A → Event) (f : A → GoM (Site W) Result) pre good :
  (∀ a, legal c pre (event a)) →
  (∀ a, in_flight (state_of (pre ++ [event a])) ∧ ¬ failed_save [event a]) →
  (∀ a, emits (f a) (ends (pre ++ [event a]) good)) →
  emits (call op (λ a, [event a]) ≫= f) (ends pre good).
Proof.
  intros Hlegal Hin Hf. emits_go. eapply emits_mono; [apply Hf|]. intros result l (Hl & Hr & Hv & Hh).
  split; [by split|]. rewrite <- app_assoc in Hv. split; [|split; [done|]].
  2: destruct (Hin a); by apply halted_step.
  intros Hc. apply Hr. by apply clean_cons in Hc as [_ ?].
Qed.

Lemma save_ends record next (f : Result → GoM (Site W) Result) (k : StagingRecord → GoM (Site W) Result)
    pre good :
  (∀ r, f (r, None) = k r) → (∀ r e, f (r, Some e) = ret (r, Some e)) →
  state_of pre = StagingRecord_State record →
  TransitionAllowed (StagingRecord_State record) next = true → next ≠ StateActive →
  StagingRecord_State record ≠ next → in_flight next →
  (∀ record', moved record next record' →
     emits (k record') (ends (pre ++ [EvSave record' None]) good)) →
  emits (save record next ≫= f) (ends pre good).
Proof.
  intros Hk Hret Hpre Hallowed Hactive Hsame Hin Hok. apply emits_bind.
  eapply save_step; [done..|]. intros time err record' Hlegal. destruct err as [err|].
  - simpl. rewrite Hret. apply emits_ret. split; [by split|]. split; [|split; [done|by apply halted_save]].
    intros Hc. by apply clean_failed in Hc.
  - simpl. rewrite Hk. eapply emits_mono; [by apply Hok|]. intros result l (Hl & Hr & Hv & Hh).
    rewrite <- app_assoc in Hv. split; [by split|]. split; [|split; [done|]].
    2: { apply halted_step; [by rewrite state_of_snoc|by apply not_failed_save|done]. }
    intros Hc. apply Hr. by apply clean_cons in Hc as [_ ?].
Qed.

Lemma markRecovery_ends record message pre good :
  state_of pre = StagingRecord_State record →
  StagingRecord_State record ≠ StateRecoveryRequired →
  TransitionAllowed (StagingRecord_State record) StateRecoveryRequired = true →
  emits (W := W) (markRecovery record message) (ends pre good).
Proof.
  intros Hpre Hne Hallowed. eapply emits_mono; [by apply markRecovery_emits|].
  intros result l (Hl & [err Herr] & _ & Hh & Hr). split_and!; [done|auto|congruence|done].
Qed.

Lemma commitActive_ends record bundle evidence pre :
  state_of pre = StagingRecord_State record →
  TransitionAllowed (StagingRecord_State record) StateActive = true →
  approved c bundle → of_evidence evidence ∈ (pre ≫= observed) →
  validateEvidence bundle evidence = None →
  emits (W := W) (commitActive record bundle evidence)
    (ends pre (λ result, active_result (StagingRecord_TargetVersion record) (StagingRecord_PreviousVersion record) bundle result ∧ result.2 = None)).
Proof.
  intros. eapply emits_mono; [by apply commitActive_emits|].
  intros result l (Hl & Hv & Hh & Hr). split_and!; [done|auto|done|done].
Qed.

(** [state_of] of a log whose last calls are known. *)
Ltac at_state := rewrite ?state_of_snoc; simpl; (done || congruence).
(** The record says that a switch is in progress, and the call is not a save. *)
Ltac flying := intros ?; split; [rewrite !state_of_snoc; simpl; repeat match goal with
  | H : state_of _ = _ |- _ => rewrite H | H : StagingRecord_State _ = _ |- _ => rewrite H end; done|by apply not_failed_save].

Lemma verify_rollback_ends record bundle prefix finish pre good :
  state_of pre = StateRollbackVerifying → StagingRecord_State record = StateRollbackVerifying →
  approved c bundle →
  (∀ evidence pre', of_evidence evidence ∈ (pre' ≫= observed) →
     validateEvidence bundle evidence = None → state_of pre' = StateRollbackVerifying →
     emits (finish evidence) (ends pre' good)) →
  emits (W := W) (verify_rollback record bundle prefix finish) (ends pre good).
Proof.
  intros Hpre Hs Happ Hfinish. unfold verify_rollback.
  apply call_ends; [done|flying|]. intros [err|evidence].
  { apply markRecovery_ends; by rewrite ?state_of_snoc, ?Hs. }
  destruct (validateEvidence bundle evidence) eqn:Hev.
  { apply markRecovery_ends; by rewrite ?state_of_snoc, ?Hs. }
  apply (call_ends _ EvReadActive); [done|flying|]. intros [err|actual].
  { apply markRecovery_ends; by rewrite ?state_of_snoc, ?Hs. }
  destruct (validateActiveBundle bundle actual) eqn:Hact.
  { apply markRecovery_ends; by rewrite ?state_of_snoc, ?Hs. }
  apply Hfinish; [|done|by rewrite !state_of_snoc].
  rewrite !observed_snoc. rewrite !elem_of_app. left. right. by left.
Qed.

(** The host is told to switch back to [bundle], and the switch is verified. *)
Lemma compensate_ends record previous message cause pre target before :
  state_of pre = StagingRecord_State record →
  StagingRecord_State record = StateActivating ∨ StagingRecord_State record = StateVerifying →
  approved c previous → before = Bundle_Version previous →
  StagingRecord_TargetVersion record = target → StagingRecord_PreviousVersion record = before →
  emits (W := W) (compensate record previous true message cause)
    (ends pre (λ result, active_result target before previous result ∧ result.2 = Some cause)).
Proof.
  intros Hpre Hs Happ Hprev Ht Hp. unfold compensate. simpl negb. cbv iota.
  eapply save_ends; [by intros|by intros|done|simpl; try done; by destruct Hs as [-> | ->]..|].
  intros r1 (Hs1 & Ht1 & Hp1). simpl in *. eapply call_ends; [|flying|].
  { intros a. split; [done|]. eexists _, _. split_and!; [done|done|right; congruence]. }
  intros [err|active]; [apply markRecovery_ends; [at_state|by rewrite Hs1..]|].
  eapply save_ends; [by intros|by intros|at_state|by rewrite Hs1|done|by rewrite Hs1|done|].
  intros r2 (Hs2 & Ht2 & Hp2). apply verify_rollback_ends; [at_state|done|done|].
  intros evidence pre' Hobs Hev Hst. apply emits_bind.
  eapply emits_mono; [apply (commitActive_ends r2 previous evidence pre'); by rewrite ?Hs2|].
  intros [committed err] l (Hl & Hr & _ & Hh). destruct err as [err|]; apply emits_ret; rewrite app_nil_r.
  - split_and!; [done| |done|done]. intros Hc. destruct (Hr Hc) as [[_ ?]|?]; [done|by right].
  - split_and!; [done| |done|intros Hf; by destruct (Hh Hf) as [[? ?] _]]. intros Hc. destruct (Hr Hc) as [[Ha _]|[_ ?]]; [|done]. left.
    split; [|done]. by rewrite Ht2, Ht1, Ht, Hp2, Hp1, Hp in Ha.
Qed.

Definition switched target before bundle current (result : Result) : Prop :=
  active_result target before bundle result ∧ result.2 = None ∨
  active_result target before current result ∧ is_Some result.2.

Lemma compensate_after record bundle previous message cause pre target before :
  state_of pre = StagingRecord_State record →
  StagingRecord_State record = StateActivating ∨ StagingRecord_State record = StateVerifying →
  approved c previous → before = Bundle_Version previous →
  StagingRecord_TargetVersion record = target → StagingRecord_PreviousVersion record = before →
  emits (W := W) (compensate record previous true message cause)
    (ends pre (switched target before bundle previous)).
Proof.
  intros. eapply ends_mono; [by eapply compensate_ends|].
  intros result [? Herr]. right. by rewrite Herr.
Qed.

Lemma deploy_switch_ends record bundle current pre :
  state_of pre = StagingRecord_State record →
  TransitionAllowed (StagingRecord_State record) StatePrepared = true →
  approved c bundle → approved c current →
  StagingRecord_TargetVersion record = Bundle_Version bundle →
  StagingRecord_PreviousVersion record = Bundle_Version current →
  emits (W := W) (deploy_switch bundle record current) (ends pre
    (switched (Bundle_Version bundle) (Bundle_Version current) bundle current)).
Proof.
  intros Hpre Hallowed Happ Happ' Htarget Hprev. unfold deploy_switch.
  eapply save_ends; [by intros|by intros|done|done|done|by intros Hs; rewrite Hs in Hallowed|done|].
  intros r1 (Hs1 & Ht1 & Hp1).
  eapply save_ends; [by intros|by intros|at_state|by rewrite Hs1|done|by rewrite Hs1|done|].
  intros r2 (Hs2 & Ht2 & Hp2). eapply call_ends; [|flying|].
  { intros a. split; [done|]. eexists _, _. split_and!; [done|done|congruence]. }
  intros [err|active];
    [apply compensate_after; [at_state|by left|done|done|congruence..]|].
  eapply save_ends; [by intros|by intros|at_state|by rewrite Hs2|done|by rewrite Hs2|done|].
  intros r3 (Hs3 & Ht3 & Hp3). eapply call_ends; [done|flying|].
  intros [err|evidence]; [apply compensate_after; [at_state|by right|done|done|congruence..]|].
  destruct (validateEvidence bundle evidence) eqn:Hev;
    [apply compensate_after; [at_state|by right|done|done|congruence..]|].
  eapply ends_mono; [apply (commitActive_ends r3 bundle evidence)|].
  - at_state.
  - by rewrite Hs3.
  - done.
  - rewrite observed_snoc, elem_of_app. right. by left.
  - done.
  - intros result [Ha Herr]. left.
    split; [|done]. by rewrite Ht3, Ht2, Ht1, Htarget, Hp3, Hp2, Hp1, Hprev in Ha.
Qed.

(** ** A whole run *)

(** How a run of [Deploy] or [Rollback] that told the host to switch ends. *)
Definition settled bundle pre l (result : Result) : Prop := switches l →
  (clean l → recovery_result result ∨ ∃ current, approved c current ∧
    switched (Bundle_Version bundle) (Bundle_Version current) bundle current result) ∧
  (failed_save l → is_Some result.2 ∧ in_flight (state_of (pre ++ l))).

Definition run_post bundle pre (result : Result) l : Prop :=
  along (legal c) pre l ∧ settled bundle pre l result ∧
  (result.2 = None → verified (pre ++ l) result.1).

Lemma ends_run_post bundle current pre (result : Result) l : approved c current →
  ends pre (switched (Bundle_Version bundle) (Bundle_Version current) bundle current) result l →
  run_post bundle pre result l.
Proof.
  intros Happ (Hl & Hr & Hv & Hh). split_and!; [done| |done]. intros Hsw. split.
  - intros Hc. destruct (Hr Hc) as [?|?]; [right; eauto|by left].
  - intros Hf. by destruct (Hh Hf) as [? [?|[_ ?]]].
Qed.

(** A result reached without calls. *)
Lemma run_post_refused bundle pre record err : run_post bundle pre (record, Some err) [].
Proof. split_and!; [done| |done]. intros Hs. by apply not_switches_nil in Hs. Qed.

Lemma run_post_read bundle pre active (result : Result) l :
  run_post bundle (pre ++ [EvReadActive active]) result l →
  run_post bundle pre result (EvReadActive active :: l).
Proof.
  intros (Hl & Hset & Hv). unfold settled in Hset. rewrite <- app_assoc in Hv, Hset. split_and!; [by split| |done].
  intros [(? & ? & [H1|H1])|Hs]%switches_cons; [by apply list_elem_of_singleton in H1..|].
  destruct (Hset Hs) as [Hclean Hfail]. split; [intros [_ ?]%clean_cons; auto|].
  intros [?%not_failed_save|?]%failed_save_cons; [done..|auto].
Qed.

Lemma markRecovery_post bundle record message pre :
  state_of pre = StagingRecord_State record →
  StagingRecord_State record ≠ StateRecoveryRequired →
  emits (W := W) (markRecovery record message) (run_post bundle pre).
Proof.
  intros Hpre Hne. eapply emits_mono; [by apply markRecovery_emits|].
  intros result l (Hl & [err Herr] & Hs & _). split_and!; [done|by intros ?%Hs|congruence].
Qed.

Lemma rollback_switch_post record bundle current pre :
  state_of pre = StagingRecord_State record →
  inProgress record = false → approved c bundle → approved c current →
  StagingRecord_TargetVersion record = Bundle_Version bundle →
  StagingRecord_PreviousVersion record = Bundle_Version current →
  emits (W := W) (rollback_switch bundle record current) (run_post bundle pre).
Proof.
  intros Hpre Hprog Happ Happ' Htarget Hprev.
  destruct (TransitionAllowed (StagingRecord_State record) StateRollingBack) eqn:Hallowed; last first.
  { unfold rollback_switch. apply emits_bind. apply save_emits; [|intros|congruence].
    - intros Hs. unfold inProgress in Hprog. by rewrite Hs in Hprog.
    - apply emits_ret. apply run_post_refused. }
  eapply emits_mono; [|intros result l; by apply (ends_run_post _ current)].
  unfold rollback_switch.
  eapply save_ends; [by intros|by intros|done|done|done|by intros Hs; rewrite Hs in Hallowed|done|].
  intros r1 (Hs1 & Ht1 & Hp1). eapply call_ends; [|flying|].
  { intros a. split; [done|]. eexists _, _. split_and!; [done|done|left; congruence]. }
  intros [err|active]; [apply markRecovery_ends; [at_state|by rewrite Hs1..]|].
  eapply save_ends; [by intros|by intros|at_state|by rewrite Hs1|done|by rewrite Hs1|done|].
  intros r2 (Hs2 & Ht2 & Hp2). apply verify_rollback_ends; [at_state|done|done|].
  intros evidence pre' Hobs Hev Hst.
  eapply ends_mono; [apply (commitActive_ends r2 bundle evidence pre'); by rewrite ?Hs2|].
  intros result [Ha Herr]. left. split; [|done].
  by rewrite Ht2, Ht1, Htarget, Hp2, Hp1, Hprev in Ha.
Qed.

Lemma deploy_switch_post record bundle current pre :
  state_of pre = StagingRecord_State record →
  inProgress record = false → approved c bundle → approved c current →
  StagingRecord_TargetVersion record = Bundle_Version bundle →
  StagingRecord_PreviousVersion record = Bundle_Version current →
  emits (W := W) (deploy_switch bundle record current) (run_post bundle pre).
Proof.
  intros Hpre Hprog Happ Happ' Htarget Hprev.
  destruct (TransitionAllowed (StagingRecord_State record) StatePrepared) eqn:Hallowed; last first.
  { unfold deploy_switch. apply emits_bind. apply save_emits; [|intros|congruence].
    - intros Hs. unfold inProgress in Hprog. by rewrite Hs in Hprog.
    - apply emits_ret. apply run_post_refused. }
  eapply emits_mono; [by apply (deploy_switch_ends record bundle current pre)|].
  intros result l. by apply (ends_run_post _ current).
Qed.

Context (Hwf : ∀ version bundle, (Controller_Bundles c : gmap string Bundle) !! version = Some bundle →
     Bundle_Version bundle = version).

Lemma revalidate_post bundle record pre :
  state_of pre = StagingRecord_State record → StagingRecord_State record = StateActive →
  emits (W := W) (revalidateActiveRecord c record) (run_post bundle pre).
Proof.
  intros Hpre Hs. unfold revalidateActiveRecord, BundleSet_Get.
  destruct (_ !! _) as [recorded|] eqn:Hb; [|apply markRecovery_post; [done|by rewrite Hs]].
  apply emits_bind, emits_call. intros active.
  assert (Hpost : ∀ f, emits f (run_post bundle (pre ++ [EvReadActive active])) →
    emits (W := W) f (λ b l2, run_post bundle pre b ([EvReadActive active] ++ l2))).
  { intros f Hf. eapply emits_mono; [exact Hf|]. intros. by apply run_post_read. }
  apply Hpost. destruct active as [err|active]; [apply markRecovery_post; [at_state|by rewrite Hs]|].
  destruct (validateActiveBundle recorded active) eqn:Hv;
    [apply markRecovery_post; [at_state|by rewrite Hs]|].
  destruct (_ || _) eqn:Hsame; [apply markRecovery_post; [at_state|by rewrite Hs]|].
  apply emits_ret. go_bool. split_and!; [done|by intros Hn%not_switches_nil|]. intros _. split; [done|].
  exists recorded, active. apply validateActiveBundle_None in Hv as Hv'.
  destruct Hv' as (? & ? & ? & ? & ?). rewrite Z.eqb_eq in *.
  split; [by eexists|]. split; [|split; [|done]].
  - unfold records_bundle. simpl. rewrite (Hwf _ _ Hb). split_and!; congruence.
  - rewrite app_nil_r, bind_app, elem_of_app. right. by left.
Qed.

Lemma quiet_read active l : ¬ switches l → ¬ switches (EvReadActive active :: l).
Proof.
  intros Hl [(? & ? & [H1|H1])|Hs]%switches_cons; [by apply list_elem_of_singleton in H1..|done].
Qed.

Lemma markRecovery_quiet record message :
  emits (W := W) (markRecovery record message) (λ _ l, ¬ switches l).
Proof.
  unfold markRecovery, Save. emits_go; [apply not_switches_save|].
  apply save_emits; intros; emits_go; (apply not_switches_nil || apply not_switches_save).
Qed.

Lemma revalidate_quiet record : emits (W := W) (revalidateActiveRecord c record) (λ _ l, ¬ switches l).
Proof.
  unfold revalidateActiveRecord. destruct (BundleSet_Get _ _) as [bundle|]; [|apply markRecovery_quiet].
  apply emits_bind, emits_call. intros active.
  eapply emits_mono; [|intros result l Hl; exact (quiet_read active l Hl)].
  repeat case_match; (apply markRecovery_quiet || apply emits_ret, not_switches_nil).
Qed.

Lemma markActive_post bundle record operation request active pre :
  state_of pre = StagingRecord_State record → inProgress record = false →
  StagingRecord_State record ≠ StateRecoveryRequired → approved c bundle →
  active ∈ (pre ≫= observed) → validateActiveBundle bundle active = None →
  emits (W := W) (markActive record bundle operation request) (run_post bundle pre).
Proof.
  intros Hpre Hprog Hne Happ Hobs Hv. unfold markActive. emits_go. apply stamp_emits. intros time.
  unfold Save. emits_go. simpl. split; [split; [|done]|split].
  - split; [rewrite Hpre; by apply step_confirm|]. intros _. by exists bundle, active.
  - by intros ?%not_switches_save.
  - intros _. split; [done|]. exists bundle, active. split; [done|]. split; [done|].
    split; [|done]. rewrite bind_app, elem_of_app. by left.
Qed.

(** The first half of [Deploy] and [Rollback], before any [switch] that behaves. *)
Lemma admit_switch_post operation words request bundle record switch pre :
  state_of pre = StagingRecord_State record → approved c bundle →
  (∀ record' current pre', state_of pre' = StagingRecord_State record' →
     inProgress record' = false → approved c current →
     StagingRecord_TargetVersion record' = Bundle_Version bundle →
     StagingRecord_PreviousVersion record' = Bundle_Version current →
     emits (switch record' current) (run_post bundle pre')) →
  emits (W := W) (admit_switch c operation words request bundle record switch) (run_post bundle pre).
Proof.
  intros Hpre Happ Hswitch. unfold admit_switch.
  destruct (replay record operation request) as [finished err] eqn:Hreplay.
  destruct (finished || _) eqn:Hdone.
  { destruct (finished && _ && _) eqn:Hactive; [go_bool; by apply revalidate_post|].
    apply emits_ret. destruct err as [err|]; [apply run_post_refused|]. exfalso.
    unfold replay in Hreplay. repeat case_match; simplify_eq; go_bool; congruence. }
  destruct (_ == StateRecoveryRequired) eqn:Hrec; [apply emits_ret, run_post_refused|].
  destruct (_ && _ && _); [apply emits_ret, run_post_refused|].
  destruct (inProgress record) eqn:Hprog; [apply emits_ret, run_post_refused|].
  unfold readValidatedActive. apply emits_bind, emits_bind, emits_call. intros active.
  apply emits_ret. simpl.
  eapply emits_mono; [|intros result l; by apply run_post_read].
  go_bool. destruct active as [cause|active]; [apply markRecovery_post; [at_state|done]|].
  unfold BundleSet_Get. destruct (_ !! _) as [current|] eqn:Hcur;
    [|apply markRecovery_post; [at_state|done]].
  destruct (validateActiveBundle current active) eqn:Hv; [apply markRecovery_post; [at_state|done]|].
  destruct (_ && _); [apply markRecovery_post; [at_state|done]|].
  apply validateActiveBundle_None in Hv as (Hversion & Hrest).
  destruct (_ == _) eqn:Hsame; go_bool.
  - apply (markActive_post _ _ _ _ active); [at_state|done|done|done| |].
    + rewrite observed_snoc, elem_of_app. right. by left.
    + apply validateActiveBundle_None. assert (current = bundle) as ->; [|done].
      destruct Happ as [version Hbundle]. apply Hwf in Hbundle as Hversions.
      rewrite <- Hversions, <- Hsame in Hbundle.
      apply (inj Some). etrans; [symmetry; exact Hcur|exact Hbundle].
  - apply Hswitch; [at_state|done|by eexists|done|done].
Qed.

Lemma resume_recovery_emits record message pre :
  state_of pre = StagingRecord_State record →
  inProgress record = true ∨ StagingRecord_State record = StateFailed →
  emits (W := W) (resume_recovery record message) (λ result l,
    along (legal c) pre l ∧ ¬ switches l).
Proof.
  intros Hpre Hs. unfold resume_recovery. apply emits_bind, stamp_emits. intros time.
  unfold Save. emits_go. simpl. split; [|apply not_switches_save].
  split; [|done]. split; [|done]. rewrite Hpre. apply step_resume; auto.
Qed.

Lemma resume_active_emits record bundle active pre :
  state_of pre = StagingRecord_State record →
  inProgress record = true ∨ StagingRecord_State record = StateFailed →
  approved c bundle → active ∈ (pre ≫= observed) → validateActiveBundle bundle active = None →
  emits (W := W) (resume_active record active) (λ result l,
    along (legal c) pre l ∧ ¬ switches l).
Proof.
  intros Hpre Hs Happ Hobs Hv. unfold resume_active. apply emits_bind, stamp_emits. intros time.
  unfold Save. emits_go. simpl. split; [|apply not_switches_save].
  split; [|done]. split; [rewrite Hpre; apply step_resume; auto|]. intros _.
  exists bundle, active. apply validateActiveBundle_None in Hv as Hv'.
  destruct Hv' as (? & ? & ? & ? & ?). by unfold records_bundle.
Qed.

Lemma resume_record_emits runID attempt record pre :
  state_of pre = StagingRecord_State record →
  emits (W := W) (resume_record c runID attempt record) (λ result l,
    along (legal c) pre l ∧ ¬ switches l).
Proof.
  intros Hpre. unfold resume_record.
  destruct (_ || _); [apply emits_ret; split; [done|apply not_switches_nil]|].
  destruct (_ == StateActive) eqn:Ha; go_bool.
  { eapply emits_mono; [apply emits_and; [by apply (revalidate_post go_zero)|apply revalidate_quiet]|].
    intros result l [(? & _) ?]. by split. }
  destruct (negb _ && _) eqn:Hs; [apply emits_ret; split; [done|apply not_switches_nil]|].
  assert (inProgress record = true ∨ StagingRecord_State record = StateFailed) as Hopen.
  { go_bool_cases; auto. }
  apply emits_bind, emits_call. intros active.
  eapply (emits_mono _ (λ _ l, along (legal c) (pre ++ [EvReadActive active]) l ∧ ¬ switches l));
    [|intros result l [Hl Hq]; split; [by split|exact (quiet_read active l Hq)]].
  destruct active as [cause|active]; [apply resume_recovery_emits; [at_state|done]|].
  destruct (runs_bundle _ _ || runs_bundle _ _) eqn:Hruns; [|apply resume_recovery_emits; [at_state|done]].
  assert (∃ bundle, approved c bundle ∧ validateActiveBundle bundle active = None) as (bundle & Happ & Hv).
  { unfold runs_bundle, BundleSet_Get in Hruns.
    go_bool_cases; (destruct (_ !! _) as [bundle|] eqn:Hb; [|done]); go_bool;
      exists bundle; (split; [by eexists|done]). }
  apply (resume_active_emits _ bundle); [at_state|done|done| |done].
  rewrite observed_snoc, elem_of_app. right. by left.
Qed.

(** ** The three operations *)

Definition loaded_record (loaded : option StagingRecord) : StagingRecord :=
  default (go_zero <| StagingRecord_Format := RecordFormat |> <| StagingRecord_State := StateIdle |>) loaded.

(** The calls of a run: nothing, a refused lock, or the lock, the load, the calls
    of the body, and the release of the lock. *)
Definition framed (body : option StagingRecord → Result → list Event → Prop) (result : Result) l : Prop :=
  (is_Some result.2 ∧ (l = [] ∨ (∃ err, l = [EvLock (Some err)]) ∨
                       ∃ loaded, l = [EvLock None; EvLoad loaded; EvUnlock])) ∨
  ∃ loaded mid, l = [EvLock None; EvLoad (inr loaded)] ++ mid ++ [EvUnlock] ∧
    body loaded result mid.

Lemma framed_run (body : StagingRecord → GoM (Site W) Result) P :
  (∀ loaded, emits (body (loaded_record loaded)) (P loaded)) →
  emits (W := W) (err ← acquire;
    match err with Some err => ret (go_zero, Some err) | None =>
    record ← load;
    result ← match record with inl err => ret (go_zero, Some err) | inr record => body record end;
    _ ← unlock; ret result end) (framed P).
Proof.
  intros Hbody. unfold acquire, load, unlock.
  apply emits_bind, emits_bind, emits_call. intros [err|]; apply emits_ret; simpl.
  { apply emits_ret. left. split; [done|]. right. left. by exists err. }
  apply emits_bind, emits_bind, emits_call. intros loaded. apply emits_ret. simpl.
  apply emits_bind.
  assert (∀ err : Error, emits (W := W) (ret (go_zero, Some err)) (λ (a : Result) l1,
    emits (_ ← call (W := W) (λ w, (tt, Locker_unlock w)) (λ _, [EvUnlock]); ret a)
      (λ b l2, framed P b (EvLock None :: EvLoad loaded :: l1 ++ l2)))) as Herr.
  { intros err. emits_go. left. split; [done|]. right. right. by exists loaded. }
  assert (∀ r record, loaded = inr r → record = loaded_record r →
    emits (body record) (λ (a : Result) l1,
    emits (_ ← call (W := W) (λ w, (tt, Locker_unlock w)) (λ _, [EvUnlock]); ret a)
      (λ b l2, framed P b (EvLock None :: EvLoad loaded :: l1 ++ l2)))) as Hok.
  { intros r record -> ->. eapply emits_mono; [apply Hbody|]. intros result l Hl.
    emits_go. right. exists r, l. by split. }
  destruct loaded as [err|[record|]]; [apply Herr| |by apply (Hok None)].
  destruct (_ != _); [apply Herr|by apply (Hok (Some record))].
Qed.

Lemma approved_request request bundle : validateRequest c request = inr bundle →
  (Controller_Bundles c : gmap string Bundle) !! StagingRequest_TargetVersion request = Some bundle.
Proof. unfold validateRequest, BundleSet_Get. intros Hv. repeat case_match; by simplify_eq. Qed.

Lemma locked_switch_emits request body P :
  (∀ bundle loaded, validateRequest c request = inr bundle →
     emits (body bundle (loaded_record loaded)) (P bundle loaded)) →
  emits (W := W) (locked_switch c request body) (framed (λ loaded result l,
    ∃ bundle, validateRequest c request = inr bundle ∧ P bundle loaded result l)).
Proof.
  intros Hbody. unfold locked_switch.
  destruct (validate c) as [err|]; [apply emits_ret; left; eauto|].
  destruct (validateRequest c request) as [err|bundle] eqn:Hv; [apply emits_ret; left; eauto|].
  apply framed_run. intros loaded. eapply emits_mono; [by apply Hbody|]. eauto.
Qed.

Lemma Resume_emits runID attempt P :
  (∀ loaded, emits (resume_record c runID attempt (loaded_record loaded)) (P loaded)) →
  emits (W := W) (Resume c runID attempt) (framed P).
Proof.
  intros Hbody. unfold Resume. destruct (validate c) as [err|]; [apply emits_ret; left; eauto|].
  by apply framed_run.
Qed.

(** The log when the body starts. *)
Definition opened (loaded : option StagingRecord) : list Event := [EvLock None; EvLoad (inr loaded)].

Lemma state_of_opened loaded : state_of (opened loaded) = StagingRecord_State (loaded_record loaded).
Proof. by destruct loaded. Qed.

(** [Deploy] and [Rollback] *)
Definition switch_post (request : StagingRequest) (loaded : option StagingRecord) (result : Result) l : Prop :=
  ∃ bundle, (Controller_Bundles c : gmap string Bundle) !! StagingRequest_TargetVersion request = Some bundle ∧
            run_post bundle (opened loaded) result l.

Lemma switch_emits request operation words (switch : Bundle → StagingRecord → Bundle → GoM (Site W) Result) :
  (∀ bundle record current pre, state_of pre = StagingRecord_State record →
     inProgress record = false → approved c bundle → approved c current →
     StagingRecord_TargetVersion record = Bundle_Version bundle →
     StagingRecord_PreviousVersion record = Bundle_Version current →
     emits (switch bundle record current) (run_post bundle pre)) →
  emits (W := W) (locked_switch c request (λ bundle record,
    admit_switch c operation words request bundle record (switch bundle))) (framed (switch_post request)).
Proof.
  intros Hswitch. eapply emits_mono.
  - apply (locked_switch_emits _ _ (λ bundle loaded, run_post bundle (opened loaded))).
    intros bundle loaded Hv%approved_request.
    apply admit_switch_post; [by rewrite state_of_opened|by eexists|].
    intros. apply Hswitch; try done. by eexists.
  - intros result l [?|(loaded & mid & Hl & bundle & Hv & Hpost)]; [by left|right].
    exists loaded, mid. split; [done|]. exists bundle. split; [by apply approved_request|done].
Qed.

Lemma Deploy_emits request : emits (W := W) (Deploy c request) (framed (switch_post request)).
Proof. apply switch_emits. intros. by eapply deploy_switch_post. Qed.
Lemma Rollback_emits request : emits (W := W) (Rollback c request) (framed (switch_post request)).
Proof. apply switch_emits. intros. by eapply rollback_switch_post. Qed.
Lemma Resume_quiet runID attempt : emits (W := W) (Resume c runID attempt)
  (framed (λ loaded _ l, along (legal c) (opened loaded) l ∧ ¬ switches l)).
Proof. apply Resume_emits. intros loaded. apply resume_record_emits, state_of_opened. Qed.

Lemma framed_legal P (result : Result) l :
  (∀ loaded mid, P loaded result mid → along (legal c) (opened loaded) mid) →
  framed P result l → along (legal c) [] l.
Proof.
  intros HP [(_ & [->|[(err & ->)|(loaded & ->)]])|(loaded & mid & -> & Hbody)]; [done..|].
  apply along_app; [done|]. apply along_app; [by apply HP|done].
Qed.

Lemma operate_legal op : emits (W := W) (operate c op) (λ _ l, along (legal c) [] l).
Proof.
  destruct op as [request|request|runID attempt]; simpl.
  - eapply emits_mono; [apply Deploy_emits|]. intros result l. apply framed_legal.
    by intros loaded mid (? & _ & ? & _).
  - eapply emits_mono; [apply Rollback_emits|]. intros result l. apply framed_legal.
    by intros loaded mid (? & _ & ? & _).
  - eapply emits_mono; [apply Resume_quiet|]. intros result l. apply framed_legal.
    by intros loaded mid [? _].
Qed.
End with_ports.
