(* ===== verification/StagingProperties.v ===== *)
(** * What the staging controller guarantees *)
From S2P Require Import Prelude Errors GoLib StagingBundle Staging StagingTrace StagingSteps.

(** ** A laboratory host: it runs one version, and may refuse to activate. *)

Record Lab := mkLab { lab_active : ActiveState; lab_record : option StagingRecord; lab_refuses : bool }.

Definition lab_run (bundle : Bundle) (lab : Lab) : Lab :=
  mkLab (mkActiveState (Bundle_Version bundle) (Bundle_ComposeSHA256 bundle) (Bundle_Image bundle)
           (Bundle_SchemaVersion bundle) true) (lab_record lab) (lab_refuses lab).
Definition lab_evidence (lab : Lab) : Evidence :=
  let active := lab_active lab in
  mkEvidence (ActiveState_Version active) (ActiveState_ComposeSHA256 active) (ActiveState_Image active)
    (ActiveState_SchemaVersion active) (ActiveState_Healthy active) "digest".

#[export] Instance lab_ports : StagingPorts Lab := {|
  Host_ReadActive lab := (inr (lab_active lab), lab);
  Host_Activate bundle lab :=
    if lab_refuses lab then (inl (TextError "injected activation failure"), lab)
    else (inr (lab_active (lab_run bundle lab)), lab_run bundle lab);
  Host_Verify _ lab := (inr (lab_evidence lab), lab);
  Host_Rollback bundle lab := (inr (lab_active (lab_run bundle lab)), lab_run bundle lab);
  Host_VerifyRollback _ lab := (inr (lab_evidence lab), lab);
  Store_Load lab := (inr (lab_record lab), lab);
  Store_Save record lab := (None, mkLab (lab_active lab) (Some record) (lab_refuses lab));
  Locker_Acquire _ lab := (None, lab);
  Locker_unlock lab := lab;
  Clock lab := (0, lab)
|}.

Definition lab_bundle (version : string) : Bundle :=
  go_zero <| Bundle_Version := version |> <| Bundle_Image := "image " +:+ version |>
          <| Bundle_SchemaVersion := 3 |>.
Definition lab_controller : Controller :=
  mkController (list_to_map ((λ version, (version, lab_bundle version)) <$> supportedVersions)) true true true.
Definition lab_start (refuses : bool) : Site Lab :=
  mkSite (lab_run (lab_bundle VersionV011) (mkLab go_zero None refuses)) [].
Definition lab_request : StagingRequest := mkStagingRequest "7" "1" VersionV020 VersionV011.
#[local] Existing Instance canonical_range.

Definition lab_deploy (refuses : bool) : Outcome Result * Site Lab :=
  Deploy lab_controller lab_request (lab_start refuses).

Lemma lab_operates refuses : operate lab_controller (OpDeploy lab_request) (lab_start refuses) =
  ((lab_deploy refuses).1, (lab_deploy refuses).2).
Proof. apply surjective_pairing. Qed.

Definition bundles_wf (c : Controller) : Prop :=
  ∀ version bundle, (Controller_Bundles c : gmap string Bundle) !! version = Some bundle →
    Bundle_Version bundle = version.

Lemma lab_bundles_wf : bundles_wf lab_controller.
Proof.
  intros version bundle Hb%elem_of_list_to_map_2%list_elem_of_fmap.
  by destruct Hb as (v & [= -> ->] & _).
Qed.

(** ** Admission *)

Section with_ports.
Context {W : Type} `{!Platform, !MapRange, !StagingPorts W}.
Context (c : Controller).

Lemma recovery_is_final state : TransitionAllowed StateRecoveryRequired state = false.
Proof.
  unfold TransitionAllowed.
  assert (transitionTable !! StateRecoveryRequired = Some ∅) as -> by (vm_compute; reflexivity).
  unfold map_get. by rewrite lookup_empty.
Qed.

Lemma admit_switch_blocked operation words request bundle record switch :
  inProgress record = true ∨ StagingRecord_State record = StateRecoveryRequired →
  emits (W := W) (admit_switch c operation words request bundle record switch)
    (λ result l, l = [] ∧ result.1 = record ∧ is_Some result.2).
Proof.
  intros Hs. unfold admit_switch. destruct (replay record operation request) as [finished err] eqn:Hr.
  assert (StagingRecord_State record ≠ StateActive) as Hna.
  { destruct Hs as [Hs|Hs]; intros Ha; [unfold inProgress in Hs|]; by rewrite Ha in Hs. }
  destruct (finished || _) eqn:Hd.
  - rewrite (bool_decide_eq_false_2 (StagingRecord_State record = StateActive)) by done.
    rewrite andb_false_r. simpl. apply emits_ret. split_and!; [done|done|].
    unfold replay in Hr. repeat case_match; simplify_eq; go_bool; done.
  - destruct (_ == StateRecoveryRequired) eqn:Hrec; [by apply emits_ret|].
    destruct (_ && _ && _); [by apply emits_ret|]. go_bool.
    destruct Hs as [->|]; [by apply emits_ret|done].
Qed.
End with_ports.

(** The calls around a body do not switch the host. *)
Lemma short_quiet l : l = [] ∨ (∃ err, l = [EvLock (Some err)]) ∨
  (∃ loaded, l = [EvLock None; EvLoad loaded; EvUnlock]) → ¬ switches l.
Proof. intros [->|[(? & ->)|(? & ->)]]; unfold switches; set_solver. Qed.
Lemma switches_framed loaded mid :
  switches ([EvLock None; EvLoad (inr loaded)] ++ mid ++ [EvUnlock]) → switches mid.
Proof. unfold switches. set_solver. Qed.

(** ** The properties *)

(** C25: every save of the controller, in any deployment, rollback or resumption
    and whatever the host, the store and the clock answer, takes the persisted
    record along one step of the transition table, confirms as active a target
    that already runs, or resolves an interrupted run; in particular nothing ever
    leaves RECOVERY_REQUIRED. *)
Theorem staging_saves_follow_table {W} `{!Platform, !MapRange, !StagingPorts W} c op (s : Site W) o s' l :
  bundles_wf c → operate c op s = (o, s') → site_log s' = site_log s ++ l →
  ∀ pre record err post, l = pre ++ EvSave record err :: post →
    state_step (state_of pre) (StagingRecord_State record) ∧ state_of pre ≠ StateRecoveryRequired.
Proof.
  intros Hwf Hrun Hl pre record err post Hsplit.
  destruct (emits_run _ _ _ _ _ _ (operate_legal c Hwf op) Hrun Hl) as (result & _ & Hlegal).
  apply along_split with (l1 := pre) (e := EvSave record err) (l2 := post) in Hlegal as [Hstep _]; [|done].
  simpl in Hstep. split; [done|]. intros Hrec. rewrite Hrec in Hstep.
  inversion Hstep as [s1 s2 Hallowed|r Hprog Hne Heq|r s2 [Hprog|Hfailed] ? Heq]; subst.
  - by rewrite recovery_is_final in Hallowed.
  - done.
  - unfold inProgress in Hprog. by rewrite Heq in Hprog.
  - by rewrite Heq in Hfailed.
Qed.

Definition deploy_log (refuses : bool) : list Event := site_log (lab_deploy refuses).2.
Definition saved_records (l : list Event) : list StagingRecord :=
  omap (λ e, match e with EvSave record None => Some record | _ => None end) l.

(** A deployment that fails and is compensated goes through six states. *)
Lemma deploy_log_states : StagingRecord_State <$> saved_records (deploy_log true) =
  [StatePrepared; StateActivating; StateRollingBack; StateRollbackVerifying; StateActive].
Proof. vm_compute. reflexivity. Qed.

(** The record of the last save of the deployment that fails. *)
Definition lab_compensated : StagingRecord := default go_zero (last (saved_records (deploy_log true))).

Lemma deploy_log_ends : deploy_log true =
  take 11 (deploy_log true) ++ EvSave lab_compensated None :: [EvUnlock].
Proof. vm_compute. reflexivity. Qed.

Lemma staging_saves_follow_table_witness :
  state_step (state_of (take 11 (deploy_log true))) (StagingRecord_State lab_compensated).
Proof.
  apply (staging_saves_follow_table lab_controller (OpDeploy lab_request) (lab_start true)
    (lab_deploy true).1 (lab_deploy true).2 (deploy_log true) lab_bundles_wf) with (err := None) (post := [EvUnlock]).
  - apply surjective_pairing.
  - reflexivity.
  - exact deploy_log_ends.
Defined.

(** C26: the controller records a version as ACTIVE only after the host said, in
    the same run, that it runs the approved bundle of that version, healthy and
    with the bundle's image, Compose digest and schema; so a deployment or
    rollback that reports success has left, or found again, such a record. *)
Theorem active_records_are_verified {W} `{!Platform, !MapRange, !StagingPorts W} c op (s : Site W) result s' l :
  bundles_wf c → operate c op s = (Ok result, s') → site_log s' = site_log s ++ l →
  (∀ pre record err post, l = pre ++ EvSave record err :: post →
     StagingRecord_State record = StateActive → verified c pre record) ∧
  (result.2 = None → match op with OpResume _ _ => True | _ => verified c l result.1 end).
Proof.
  intros Hwf Hrun Hl. split.
  - intros pre record err post Hsplit Hactive.
    destruct (emits_run _ _ _ _ _ _ (operate_legal c Hwf op) Hrun Hl) as (? & _ & Hlegal).
    apply along_split with (l1 := pre) (e := EvSave record err) (l2 := post) in Hlegal as [_ Hv]; [|done].
    split; [done|]. by apply Hv.
  - intros Hok.
    assert (∀ request, emits (operate c op) (framed (switch_post c request)) →
      verified c l result.1) as Hswitch.
    { intros request Hemits. destruct (emits_run _ _ _ _ _ _ Hemits Hrun Hl) as (r & [= <-] & Hframed).
      destruct Hframed as [([? Herr] & _)|(loaded & mid & -> & bundle & _ & _ & _ & Hv)]; [congruence|].
      destruct (Hv Hok) as (? & b & active & Happ & Hb & Hin & Hval). split; [done|].
      exists b, active. split_and!; try done. rewrite app_assoc, bind_app, elem_of_app. by left. }
    destruct op as [request|request|]; [| |done]; apply (Hswitch request); simpl.
    + by apply Deploy_emits.
    + by apply Rollback_emits.
Qed.

Definition lab_deployed : StagingRecord :=
  lab_compensated <| StagingRecord_ActiveVersion := VersionV020 |>
                  <| StagingRecord_ActiveImage := "image v0.2.0" |>.
Lemma lab_deploy_runs : lab_deploy false = (Ok (lab_deployed, None), (lab_deploy false).2).
Proof. vm_compute. reflexivity. Qed.

Lemma active_records_are_verified_witness : verified lab_controller (deploy_log false) lab_deployed.
Proof.
  apply (active_records_are_verified lab_controller (OpDeploy lab_request) (lab_start false)
    (lab_deployed, None) (lab_deploy false).2 (deploy_log false) lab_bundles_wf lab_deploy_runs);
    reflexivity.
Defined.

(** C27: the host is told to activate or to roll back to a bundle only if that
    bundle is approved and directly after the record that announces the switch
    was saved, so an interrupted switch is always visible to the next run; a
    resumption, which reads that record, never switches the host itself. *)
Theorem switches_are_announced {W} `{!Platform, !MapRange, !StagingPorts W} c op (s : Site W) o s' l :
  bundles_wf c → operate c op s = (o, s') → site_log s' = site_log s ++ l →
  (∀ pre bundle active post, l = pre ++ EvActivate bundle active :: post →
     approved c bundle ∧ ∃ record pre', pre = pre' ++ [EvSave record None] ∧
       StagingRecord_State record = StateActivating ∧
       StagingRecord_TargetVersion record = Bundle_Version bundle) ∧
  (∀ pre bundle active post, l = pre ++ EvRollback bundle active :: post →
     approved c bundle ∧ ∃ record pre', pre = pre' ++ [EvSave record None] ∧
       StagingRecord_State record = StateRollingBack ∧
       (StagingRecord_TargetVersion record = Bundle_Version bundle ∨
        StagingRecord_PreviousVersion record = Bundle_Version bundle)) ∧
  (∀ runID attempt, op = OpResume runID attempt → ¬ switches l).
Proof.
  intros Hwf Hrun Hl.
  destruct (emits_run _ _ _ _ _ _ (operate_legal c Hwf op) Hrun Hl) as (result & -> & Hlegal).
  split_and!.
  - intros pre bundle active post Hsplit. by apply (along_split _ _ _ Hlegal _ _ _ Hsplit).
  - intros pre bundle active post Hsplit. by apply (along_split _ _ _ Hlegal _ _ _ Hsplit).
  - intros runID attempt ->. simpl in Hrun.
    destruct (emits_run _ _ _ _ _ _ (Resume_quiet c Hwf runID attempt) Hrun Hl) as (? & _ & Hframed).
    destruct Hframed as [(_ & Hshort)|(loaded & mid & -> & _ & Hq)]; [by apply short_quiet|].
    by intros ?%switches_framed.
Qed.








Lemma switches_are_announced_witness : approved lab_controller (lab_bundle VersionV020).
Proof.
  eapply (proj1 (switches_are_announced lab_controller (OpDeploy lab_request) (lab_start true)
    (lab_deploy true).1 (lab_deploy true).2 (deploy_log true) lab_bundles_wf
    (lab_operates true) eq_refl) (take 5 (deploy_log true)) (lab_bundle VersionV020)
    (inl (TextError "injected activation failure")) (drop 6 (deploy_log true))).
  vm_compute. reflexivity.
Defined.

Definition blocked (record : StagingRecord) : Prop :=
  inProgress record = true ∨ StagingRecord_State record = StateRecoveryRequired.
#[export] Instance blocked_dec record : Decision (blocked record).
Proof. unfold blocked. apply _. Defined.

(** C29: while a switch is in progress or manual recovery is required, every
    deployment and rollback is refused: it locks, loads, unlocks and returns an
    error; neither the host nor the store is touched. *)
Theorem blocked_record_refuses {W} `{!Platform, !MapRange, !StagingPorts W} c request op record (s : Site W) result s' l :
  bundles_wf c → op = OpDeploy request ∨ op = OpRollback request →
  operate c op s = (Ok result, s') → site_log s' = site_log s ++ l →
  l !! 1%nat = Some (EvLoad (inr (Some record))) → blocked record →
  l = [EvLock None; EvLoad (inr (Some record)); EvUnlock] ∧ is_Some result.2.
Proof.
  intros Hwf Hop Hrun Hl Hin Hs.
  assert (emits (operate c op) (framed (λ loaded result l, ∃ bundle, validateRequest c request = inr bundle ∧
    (blocked (loaded_record loaded) → l = [] ∧ result.1 = loaded_record loaded ∧ is_Some result.2)))) as Hemits.
  { destruct Hop as [->| ->]; apply (locked_switch_emits c request _ (λ _ loaded result l,
      blocked (loaded_record loaded) → l = [] ∧ result.1 = loaded_record loaded ∧ is_Some result.2));
      intros bundle loaded Hv%approved_request;
      (destruct (decide (blocked (loaded_record loaded))) as [Hb|Hb];
       [eapply emits_mono; [by apply admit_switch_blocked|done]|]).
    all: eapply emits_mono; [apply (admit_switch_post c Hwf _ _ _ _ _ _ (opened loaded));
      [apply state_of_opened|by eexists|]|done].
    - intros. eapply deploy_switch_post; try done. by eexists.
    - intros. eapply rollback_switch_post; try done. by eexists. }
  destruct (emits_run _ _ _ _ _ _ Hemits Hrun Hl) as (r & [= <-] & Hframed).
  destruct Hframed as [(Herr & Hshort)|(loaded & mid & -> & bundle & _ & Hbody)].
  - destruct Hshort as [->|[(err & ->)|(loaded & ->)]]; by simplify_eq/=.
  - simplify_eq/=. by destruct (Hbody Hs) as (-> & _ & ?).
Qed.

Definition lab_recovery : Site Lab :=
  mkSite (mkLab go_zero (Some (go_zero <| StagingRecord_Format := RecordFormat |>
                                       <| StagingRecord_State := StateRecoveryRequired |>)) false) [].

Lemma lab_recovery_runs : ∃ result s', operate lab_controller (OpDeploy lab_request) lab_recovery = (Ok result, s') ∧
  site_log s' = site_log lab_recovery ++ [EvLock None; EvLoad (inr (lab_record (site_env lab_recovery))); EvUnlock].
Proof. eexists _, _. split; vm_compute; reflexivity. Qed.

Lemma blocked_record_refuses_witness : ∃ result : Result, is_Some result.2.
Proof.
  destruct lab_recovery_runs as (result & s' & Hrun & Hl). exists result.
  apply (blocked_record_refuses lab_controller lab_request (OpDeploy lab_request) _ lab_recovery result s' _
    lab_bundles_wf (or_introl eq_refl) Hrun Hl eq_refl). right. reflexivity.
Defined.

(** ** A repeated request after a compensated failure

    The first deployment fails and is compensated; the same request, sent again,
    finds its own record ACTIVE, confirms the version that was restored and
    returns no error, although the target version does not run. *)
Theorem compensated_deploy_replays : ∃ err s'',
  lab_deploy true = (Ok (lab_compensated, Some err), (lab_deploy true).2) ∧
  Deploy lab_controller lab_request (lab_deploy true).2 = (Ok (lab_compensated, None), s'') ∧
  StagingRecord_TargetVersion lab_compensated = VersionV020 ∧
  StagingRecord_ActiveVersion lab_compensated = VersionV011.
Proof. eexists _, _. split_and!; vm_compute; reflexivity. Qed.

(** ** Bundles *)

Section bundles.
Context `{!Platform, !MapRange, !BundleFiles}.
Implicit Types (bundle : Bundle).

(** The file of a bundle has the digest the bundle records for it. *)
Definition file_matches (directory : string) (file : string * string) : Prop :=
  ∃ contents, ReadFile (JoinPath directory file.1) = inr contents ∧
              HexEncodeToString (sha256 contents) = file.2.

Lemma check_files_None directory files :
  check_files directory files = None → Forall (file_matches directory) files.
Proof.
  induction files as [|[name want] files IH]; [done|]. simpl. unfold fileSHA256. intros Hc.
  destruct (ReadFile _) as [err|contents] eqn:Hread; [done|]. destruct (_ != _) eqn:Hsame; [done|].
  go_bool. constructor; [|by apply IH]. by exists contents.
Qed.

Lemma check_operations_None seen l :
  check_operations seen l = None → NoDup l ∧ ∀ x, x ∈ l → x ∈ operations ∧ x ∉ seen.
Proof.
  revert seen. induction l as [|operation l IH]; intros seen; simpl.
  { split; [constructor|]. by intros x ?%not_elem_of_nil. }
  intros Hc. destruct (_ || _) eqn:Hbad; [done|]. go_bool. apply IH in Hc as [Hnd Hin].
  split; [constructor; [|done]; intros Hx; apply Hin in Hx; set_solver|].
  intros x [->|Hx]%elem_of_cons; [done|]. apply Hin in Hx. set_solver.
Qed.

Definition approved_metadata bundle : Prop :=
  isSupportedVersion (Bundle_Version bundle) = true ∧ Bundle_SchemaVersion bundle = schemaVersion ∧
  commitPattern (Bundle_SourceCommit bundle) = true ∧ imagePattern (Bundle_Image bundle) = true ∧
  Forall (λ digest, digestPattern digest = true) (bundle_files bundle).*2 ∧
  NoDup (Bundle_Operations bundle) ∧ list_to_set (Bundle_Operations bundle) = operations.

Lemma bundle_digests_elem bundle name value :
  (name, value) ∈ [("compose_sha256", Bundle_ComposeSHA256 bundle);
                   ("deploy_script_sha256", Bundle_DeployScriptSHA256 bundle);
                   ("monitor_script_sha256", Bundle_MonitorScriptSHA256 bundle);
                   ("recovery_script_sha256", Bundle_RecoveryScriptSHA256 bundle)] →
  bundle_digests bundle !! name = Some value.
Proof.
  intros Hin. unfold bundle_digests. apply elem_of_list_to_map_1; [|exact Hin].
  cbn [fmap list_fmap fst]. apply (bool_decide_unpack _). vm_compute. exact I.
Qed.

Lemma validateBundleMetadata_None bundle :
  validateBundleMetadata bundle = None → approved_metadata bundle.
Proof.
  unfold validateBundleMetadata, approved_metadata. intros Hv.
  destruct (Bundle_Format bundle != _); [done|].
  destruct (negb (isSupportedVersion _)) eqn:Hversion; [done|].
  destruct (negb (commitPattern _)) eqn:Hcommit; [done|].
  destruct (negb (imagePattern _)) eqn:Himage; [done|].
  destruct (list_find _ _) as [[i [name value]]|] eqn:Hfind; [done|].
  destruct (negb (_ =? schemaVersion)) eqn:Hschema; [done|].
  destruct (_ || _ || _); [done|]. destruct (negb (zlen _ =? _)) eqn:Hlen; [done|]. go_bool.
  apply check_operations_None in Hv as [Hnd Hin]. apply list_find_None in Hfind.
  rewrite Z.eqb_eq in Hschema, Hlen.
  assert (∀ name value, bundle_digests bundle !! name = Some value → digestPattern value = true) as Hdigest.
  { intros name value Hnv. apply (elem_of_map_range 0) in Hnv. rewrite Forall_forall in Hfind.
    apply Hfind in Hnv. by apply not_false_is_true. }
  split_and!; [assumption..| |assumption|].
  - unfold bundle_files. cbn [fmap list_fmap snd].
    repeat apply Forall_cons_2; [..|apply Forall_nil_2].
    + apply (Hdigest "compose_sha256"), bundle_digests_elem. by left.
    + apply (Hdigest "deploy_script_sha256"), bundle_digests_elem. right. by left.
    + apply (Hdigest "monitor_script_sha256"), bundle_digests_elem. do 2 right. by left.
    + apply (Hdigest "recovery_script_sha256"), bundle_digests_elem. do 3 right. by left.
  - revert Hin Hlen. generalize operations as approved_operations. intros approved_operations Hin Hlen.
    apply set_subseteq_size_eq; [intros x Hx; apply Hin; set_solver|].
    rewrite size_list_to_set by done. unfold zlen in Hlen. lia.
Qed.

Lemma loadBundle_inr directory bundle : loadBundle directory = inr bundle →
  Bundle_Directory bundle = directory ∧ approved_metadata bundle ∧
  Forall (file_matches directory) (bundle_files bundle).
Proof.
  unfold loadBundle. intros Hl.
  destruct (ReadFile _) as [?|contents]; [done|]. destruct (DecodeBundle contents) as [?|decoded]; [done|].
  destruct (validateBundleMetadata _) eqn:Hv; [done|]. destruct (check_files _ _) eqn:Hf; [done|].
  simplify_eq. split_and!; [done|by apply validateBundleMetadata_None|by apply check_files_None].
Qed.

(** The loaded allowlist holds exactly the supported versions, each under
    its own name; every bundle in it comes from the directory of its version,
    names an image and a commit by full digests, has the supported schema and
    each approved operation once, and every one of its four files has exactly
    the SHA-256 the bundle records. The controller's assumption that a bundle is
    stored under its version therefore holds. *)
Theorem loaded_bundles_are_approved root set : LoadBundles root = inr set →
  (∀ version, is_Some ((set : gmap string Bundle) !! version) ↔ version = VersionV011 ∨ version = VersionV020) ∧
  ∀ version bundle, (set : gmap string Bundle) !! version = Some bundle →
    Bundle_Version bundle = version ∧ Bundle_Directory bundle = JoinPath root version ∧
    approved_metadata bundle ∧
    Forall (file_matches (JoinPath root version)) (bundle_files bundle).
Proof.
  unfold LoadBundles. simpl. intros Hl.
  destruct (loadBundle (JoinPath root VersionV011)) as [?|b1] eqn:Hl1; [done|].
  destruct (Bundle_Version b1 != _) eqn:Hv1; [done|].
  destruct (loadBundle (JoinPath root VersionV020)) as [?|b2] eqn:Hl2; [done|].
  destruct (Bundle_Version b2 != _) eqn:Hv2; [done|]. go_bool. simplify_eq.
  apply loadBundle_inr in Hl1, Hl2. split.
  - intros version. split.
    + intros [bundle Hb]. apply lookup_insert_Some in Hb as [[<- _]|[_ Hb]]; [by right|].
      apply lookup_insert_Some in Hb as [[<- _]|[_ Hb]]; [by left|]. destruct (lookup_empty_Some (M:=gmap string) _ _ Hb).
    + intros [->| ->]; [|eexists; apply lookup_insert_eq].
      rewrite lookup_insert_ne by done. eexists. apply lookup_insert_eq.
  - intros version bundle Hb.
    apply lookup_insert_Some in Hb as [[<- <-]|[_ Hb]]; [naive_solver|].
    apply lookup_insert_Some in Hb as [[<- <-]|[_ Hb]]; [naive_solver|].
    destruct (lookup_empty_Some (M:=gmap string) _ _ Hb).
Qed.
End bundles.

(** Files on which the bundles load: every file holds its own name. *)
Definition example_bundle (version : string) : Bundle :=
  let digest name := HexEncodeToString (sha256 name) in
  mkBundle BundleFormat version (String.concat "" (replicate 40 "a"))
    (image_prefix +:+ String.concat "" (replicate 64 "0"))
    (digest "compose.yaml") (digest "deploy-staging.sh") (digest "monitor-staging.sh")
    (digest "recover-staging.sh") 3 "asteria-drive-staging-deployment/v2"
    "asteria-drive-staging-monitor/v2" "asteria-drive-staging-recovery/v2"
    ["deploy"; "rollback"; "monitor"; "recovery"] "".
#[local] Instance example_files : BundleFiles := {|
  ReadFile path := inr path;
  JoinPath directory name := if name == "bundle.json" then directory else name;
  BasePath path := path;
  DecodeBundle contents := inr (example_bundle contents)
|}.
Definition example_set : BundleSet :=
  match LoadBundles "releases" with inr set => set | inl _ => ∅ end.
Lemma example_set_loads : LoadBundles "releases" = inr example_set.
Proof. vm_compute. reflexivity. Qed.

Lemma loaded_bundles_are_approved_witness :
  is_Some ((example_set : gmap string Bundle) !! VersionV020).
Proof.
  apply (proj1 (loaded_bundles_are_approved "releases" example_set
    example_set_loads) VersionV020). right. reflexivity.
Defined.
