(* ===== verification/Auth.v ===== *)
(** * Bearer token authentication (src/internal/auth/trusted.go)

    [Trusted] maps configured tokens to principals; only the SHA-256 of a token
    is kept. Contexts are modelled by what the code stores in them. *)
From S2P Require Import Prelude Errors GoLib Codecs Types.

Record Principal := mkPrincipal {
  Principal_Identity : Identity;
  Principal_TenantDisplayName : string;
  Principal_Role : AccessRole
}.
#[export] Instance eta_Principal : Eta Principal := λ r,
  mkPrincipal (Principal_Identity r) (Principal_TenantDisplayName r) (Principal_Role r).
#[export] Instance zero_Principal : GoZero Principal := mkPrincipal go_zero go_zero go_zero.

Record ExternalIdentity := mkExternalIdentity {
  ExternalIdentity_Issuer : string;
  ExternalIdentity_Subject : string
}.

Definition HasPermission (p : Principal) (permission : Permission) : bool :=
  bool_decide (permission ∈ PermissionsForRole (Principal_Role p)).

Record trustedEntry := mkTrustedEntry { te_hash : string; te_principal : Principal }.
Record Trusted := mkTrusted { Trusted_entries : list trustedEntry }.

Definition bearer_prefix : string := "Bearer ".
Definition bearer_required : GoError := E CodeUnauthenticated "a valid bearer token is required".

(** [strings.ContainsAny(s, " \t\r\n")] *)
Definition is_token_space (b : Z) : bool := (b =? 32) || (b =? 9) || (b =? 13) || (b =? 10).
Definition contains_space (s : string) : bool := existsb is_token_space (bytes s).

(** [header[len("Bearer "):]] *)
Definition after_prefix (header : string) : string :=
  String.substring (String.length bearer_prefix) (String.length header - String.length bearer_prefix) header.

Section with_platform.
Context `{!Platform, !MapRange}.

(** The loop over the tokens, which range over a map. *)
Fixpoint trusted_entries (tokens : list (string * Principal)) : Outcome (list trustedEntry) :=
  match tokens with
  | [] => Ok []
  | (token, principal) :: tokens =>
    if (zstrlen token <? 32) || (Identity_TenantID (Principal_Identity principal) == "") ||
       (Identity_PrincipalID (Principal_Identity principal) == "") then
      Err (E CodeInvalidRequest "trusted tokens must be high entropy and map to tenant and principal ids")
    else
      let principal := if Principal_Role principal == ""
                       then principal <| Principal_Role := RoleOwner |> else principal in
      if negb (ValidAccessRole (Principal_Role principal)) then
        Err (E CodeInvalidRequest "trusted token role is invalid")
      else
        entries ← trusted_entries tokens;
        Ok (mkTrustedEntry (sha256 token) principal :: entries)
  end.

Definition NewTrusted (tokens : gmap string Principal) : Outcome Trusted :=
  if bool_decide (size tokens = 0%nat) then
    Err (E CodeInvalidRequest "at least one trusted token is required")
  else
    entries ← trusted_entries (map_range 0 tokens);
    Ok (mkTrusted entries).

(** The loop never stops early: the last entry with an equal hash wins. *)
Fixpoint last_match (candidate : string) (entries : list trustedEntry) (matched : option Principal)
    : option Principal :=
  match entries with
  | [] => matched
  | entry :: entries =>
      last_match candidate entries
        (if candidate == te_hash entry then Some (te_principal entry) else matched)
  end.

Definition Authenticate (a : Trusted) (header : string) : Outcome Principal :=
  if negb (HasPrefix header bearer_prefix) || (zstrlen header =? zstrlen bearer_prefix) ||
     contains_space (after_prefix header) then Err bearer_required
  else
    match last_match (sha256 (after_prefix header)) (Trusted_entries a) None with
    | None => Err bearer_required
    | Some principal => Ok principal
    end.

(** The identity [ExternalMiddleware] passes on. *)
Definition Trusted_ExternalIdentity (a : Trusted) (header : string) : Outcome ExternalIdentity :=
  principal ← Authenticate a header;
  Ok (mkExternalIdentity "trusted-dev" (Identity_PrincipalID (Principal_Identity principal))).

End with_platform.

(** ** Lemmas *)

Lemma after_prefix_app token : after_prefix (bearer_prefix +:+ token) = token.
Proof.
  unfold after_prefix, bearer_prefix.
  replace (String.length ("Bearer " +:+ token) - String.length "Bearer ")%nat with (String.length token)
    by (rewrite length_append; simpl; lia).
  change (String.substring 0 (String.length token) token = token).
  induction token as [|a token IH]; [done|]. simpl. by rewrite IH.
Qed.

Lemma HasPrefix_split header : HasPrefix header bearer_prefix = true ↔
  header = bearer_prefix +:+ after_prefix header.
Proof.
  split.
  - intros Hp. assert (∃ token, header = bearer_prefix +:+ token) as [token ->].
    { unfold HasPrefix in Hp. generalize dependent header. generalize bearer_prefix as p.
      induction p as [|a p IH]; intros header Hp; [by exists header|].
      destruct header as [|b header]; [done|]. simpl in Hp. destruct (Ascii.ascii_dec a b); [|done].
      subst. destruct (IH header Hp) as [token ->]. by exists token. }
    by rewrite after_prefix_app.
  - intros ->. unfold HasPrefix. generalize (after_prefix header) as token, bearer_prefix as p. clear.
    intros token p. induction p as [|a p IH]; [by destruct token|]. simpl.
    destruct (Ascii.ascii_dec a a); done.
Qed.

Section entries.
Context `{!Platform, !MapRange}.

Lemma last_match_spec candidate entries matched p : last_match candidate entries matched = Some p →
  matched = Some p ∨ ∃ entry, entry ∈ entries ∧ te_hash entry = candidate ∧ te_principal entry = p.
Proof.
  revert matched. induction entries as [|e entries IH]; intros matched; [by left|]. simpl. intros Hm.
  destruct (IH _ Hm) as [Hif|(entry & ? & ? & ?)]; [|right; exists entry; set_solver].
  case_bool_decide as He; [|by left]. simplify_eq. right. exists e. set_solver.
Qed.

Lemma last_match_found candidate entries matched :
  (∃ entry, entry ∈ entries ∧ te_hash entry = candidate) ∨ is_Some matched →
  is_Some (last_match candidate entries matched).
Proof.
  revert matched. induction entries as [|e entries IH]; intros matched; simpl.
  { intros [(entry & Hin & _)|?]; [by apply not_elem_of_nil in Hin|done]. }
  intros [(entry & [->|Hin]%elem_of_cons & He)|Hm]; apply IH.
  - right. by rewrite bool_decide_eq_true_2 by done.
  - left. eauto.
  - right. by case_bool_decide.
Qed.

(** The principal a token stands for: without a role it is an owner. *)
Definition with_default_role (p : Principal) : Principal :=
  if Principal_Role p == "" then p <| Principal_Role := RoleOwner |> else p.

Lemma trusted_entries_spec tokens entries : trusted_entries tokens = Ok entries →
  entries = (λ '(token, p), mkTrustedEntry (sha256 token) (with_default_role p)) <$> tokens ∧
  Forall (λ '(token, p), 32 ≤ zstrlen token ∧ Identity_TenantID (Principal_Identity p) ≠ "" ∧
     Identity_PrincipalID (Principal_Identity p) ≠ "" ∧
     ValidAccessRole (Principal_Role (with_default_role p)) = true) tokens.
Proof.
  revert entries. induction tokens as [|[token p] tokens IH]; intros entries; simpl; [by intros [= <-]|].
  destruct (_ || _ || _) eqn:Hbad; [done|]. fold (with_default_role p).
  destruct (negb (ValidAccessRole _)) eqn:Hrole; [done|].
  destruct (trusted_entries tokens) as [rest| | |] eqn:Hrest; try done. intros [= <-].
  destruct (IH _ eq_refl) as [-> Hall]. split; [done|]. constructor; [|done].
  go_bool. split_and!; [lia|done|done|done].
Qed.
End entries.
