(* ===== verification/OIDC.v ===== *)
(** * OIDC authentication (src/internal/auth/oidc.go)

    The identity provider, its HTTP transport, the JSON decoder, the parser of
    floating point numbers, and the signature primitives are classes; the checks
    on the token, the selection of the key, the cache of keys and the claims are
    here. [W] is the outside world: what the provider answers and the clock. *)
From S2P Require Import Prelude Errors GoLib Codecs Types Validation Auth.

(** ** Data *)

Record OIDCClaims := mkOIDCClaims {
  OIDCClaims_Issuer : string;
  OIDCClaims_Subject : string;
  OIDCClaims_Audience : list string;
  OIDCClaims_AuthorizedParty : string;
  OIDCClaims_ExpiresAt : Time;
  OIDCClaims_NotBefore : option Time
}.

Record jwk := mkJwk {
  jwk_Kty : string;
  jwk_Kid : string;
  jwk_Alg : string;
  jwk_Use : string;
  jwk_N : string;
  jwk_E : string;
  jwk_Crv : string;
  jwk_X : string;
  jwk_Y : string
}.

(** The token header, and the claims before they are checked; [Audience] and
    [NotBefore] are raw JSON, empty when the member is missing. *)
Record JWTHeader := mkJWTHeader { Header_Alg : string; Header_Kid : string }.
Record JWTPayload := mkJWTPayload {
  Payload_Issuer : string;
  Payload_Subject : string;
  Payload_Audience : string;
  Payload_AuthorizedParty : string;
  Payload_ExpiresAt : string;
  Payload_NotBefore : string
}.

Record jwksVerifier := mkVerifier {
  v_issuer : string;
  v_jwks : string;
  v_keys : gmap string jwk;
  v_refreshedAt : Time
}.
#[export] Instance eta_jwksVerifier : Eta jwksVerifier := λ r,
  mkVerifier (v_issuer r) (v_jwks r) (v_keys r) (v_refreshedAt r).

(** ** What is not computed *)

(** A finite float is an exact rational, numerator over a positive denominator. *)
Inductive Float := FloatNaN | FloatInf | FloatFinite (num : Z) (den : positive).

Inductive Curve := P256 | P384 | P521.
Record RSAKey := mkRSAKey { RSA_N : Z; RSA_E : Z }.
Record ECKey := mkECKey { EC_Curve : Curve; EC_X : Z; EC_Y : Z }.

(** The answer to a GET request: no response, or a status and a body, which may
    fail to be read. *)
Inductive HTTPAnswer := HTTPBadRequest (err : GoError) | HTTPFailed (err : GoError)
| HTTPResponse (status : Z) (body : GoError + string).

Class Provider (W : Type) := {
  HTTPGet : string → W → HTTPAnswer * W;
  WallClock : W → Time * W
}.

(** The JSON documents of the package: [json.Unmarshal], or a decoder that is
    then checked to be at the end of its input. *)
(** [url.Parse]; [URL_User] tells whether there is user information. *)
Record URL := mkURL {
  URL_Scheme : string;
  URL_Host : string;
  URL_User : bool;
  URL_Path : string;
  URL_RawQuery : string;
  URL_Fragment : string
}.
Class URLParser := { ParseURL : string → GoError + URL }.

Record discoveryDocument := mkDiscovery { Discovery_Issuer : string; Discovery_JWKSURI : string }.

Class TokenJSON := {
  DecodeDiscovery : string → GoError + discoveryDocument;
  DecodeHeader : string → GoError + JWTHeader;
  DecodePayload : string → GoError + JWTPayload;
  DecodeKeySet : string → GoError + list jwk;
  DecodeString : string → GoError + string;
  DecodeStrings : string → GoError + list string;
  DecodeNumber : string → GoError + string;
  ParseFloat : string → option Float;
  float_nanoseconds : Z → positive → Z
}.

Class Signatures := {
  sha384 : string → string;
  sha512 : string → string;
  VerifyPKCS1v15 : RSAKey → Z → string → string → option GoError;
  VerifyECDSA : ECKey → string → Z → Z → bool;
  IsOnCurve : Curve → Z → Z → bool
}.

(** ** Pure checks *)

Definition MaxToken : Z := 2 ^ 20.
Definition plain (message : string) : GoError := PlainError message.
Definition unauthenticated (message : string) : GoError := E CodeUnauthenticated message.

Definition bearerToken (header : string) : Outcome string :=
  if negb (HasPrefix header bearer_prefix) || (zstrlen header =? zstrlen bearer_prefix) ||
     (MaxToken <? zstrlen header - zstrlen bearer_prefix) || contains_space (after_prefix header)
  then Err bearer_required
  else Ok (after_prefix header).

(** [base64.URLEncoding.DecodeString], with padding. *)
Definition URLDecodeString (s : string) : option string :=
  of_bytes <$> b64_decode URLAlphabet true (filter (λ c, is_newline c = false) (chars s)).
Definition decodeURL (value : string) : option string :=
  match RawURLDecodeString value with
  | Some decoded => Some decoded
  | None => URLDecodeString value
  end.

Definition contains (values : list string) (target : string) : bool :=
  existsb (λ value, value == target) values.

(** [strings.Split(raw, ".")] *)
Fixpoint split_chars (l current : list Ascii.ascii) : list (list Ascii.ascii) :=
  match l with
  | [] => [reverse current]
  | ch :: l => if byte_val ch =? 46 then reverse current :: split_chars l []
               else split_chars l (ch :: current)
  end.
Definition SplitDots (s : string) : list string := of_chars <$> split_chars (chars s) [].

(** [new(big.Int).SetBytes] *)
Definition SetBytes (s : string) : Z := foldl (λ acc b, acc * 256 + b) 0 (bytes s).

Section with_libraries.
Context `{!Platform, !MapRange, !TokenJSON, !Signatures, !URLParser}.

Definition parseAudience (raw : string) : GoError + list string :=
  if raw == "" then inl (plain "missing audience") else
  let one := match DecodeString raw with inr one => one | inl _ => "" end in
  if one != "" then inr [one] else
  match DecodeStrings raw with
  | inr (audience :: many) => inr (audience :: many)
  | _ => inl (plain "invalid audience")
  end.

(** Seconds since 1970 to a time; [whole] is the integer part, rounded to zero. *)
Definition unix_epoch : Time := 719162 * (24 * Hour).
Definition parseUnixClaim (value : string) : GoError + Time :=
  match ParseFloat value with
  | Some (FloatFinite num den) =>
    if (num <? -62135596800 * Z.pos den) || (253402300799 * Z.pos den <? num) then
      inl (plain "invalid NumericDate")
    else inr (unix_epoch + Z.quot num (Z.pos den) * Second +
              float_nanoseconds (Z.rem num (Z.pos den)) den)
  | _ => inl (plain "invalid NumericDate")
  end.
Definition parseUnixRawClaim (raw : string) : GoError + Time :=
  match DecodeNumber raw with
  | inl err => inl err
  | inr value => parseUnixClaim value
  end.

Definition rsaKey (key : jwk) : GoError + RSAKey :=
  match decodeURL (jwk_N key) with
  | None => inl (plain "invalid RSA JWK")
  | Some modulus =>
    if (jwk_Kty key != "RSA") || (zstrlen modulus <? 256) then inl (plain "invalid RSA JWK") else
    let modulusValue := SetBytes modulus in
    if (modulusValue <=? 0) || negb (Z.testbit modulusValue 0) then inl (plain "invalid RSA modulus") else
    match decodeURL (jwk_E key) with
    | None => inl (plain "invalid RSA exponent")
    | Some exponentBytes =>
      if (zstrlen exponentBytes =? 0) || (4 <? zstrlen exponentBytes) then
        inl (plain "invalid RSA exponent") else
      let exponent := foldl (λ exponent value, Z.lor (Z.shiftl exponent 8) value) 0 (bytes exponentBytes) in
      if (exponent <? 3) || (Z.rem exponent 2 =? 0) then inl (plain "invalid RSA exponent")
      else inr (mkRSAKey modulusValue exponent)
    end
  end.

Definition curve_of (name : string) : option Curve :=
  if name == "P-256" then Some P256 else if name == "P-384" then Some P384
  else if name == "P-521" then Some P521 else None.
Definition BitSize (curve : Curve) : Z := match curve with P256 => 256 | P384 => 384 | P521 => 521 end.
Definition coordinateSize (curve : Curve) : Z := (BitSize curve + 7) / 8.

(** The text of a base64 error is not observed: the caller drops it. *)
Definition ecdsaKey (key : jwk) : GoError + ECKey :=
  match curve_of (jwk_Crv key) with
  | None => inl (plain "invalid ECDSA curve")
  | Some curve =>
    match decodeURL (jwk_X key) with
    | None => inl (plain "illegal base64 data")
    | Some x =>
      match decodeURL (jwk_Y key) with
      | None => inl (plain "invalid ECDSA JWK")
      | Some y =>
        if jwk_Kty key != "EC" then inl (plain "invalid ECDSA JWK") else
        if negb (zstrlen x =? coordinateSize curve) || negb (zstrlen y =? coordinateSize curve) then
          inl (plain "invalid ECDSA point size") else
        if negb (IsOnCurve curve (SetBytes x) (SetBytes y)) then
          inl (plain "ECDSA point is not on curve")
        else inr (mkECKey curve (SetBytes x) (SetBytes y))
      end
    end
  end.

Definition jwt_hash (algorithm : string) : option (string → string) :=
  if (algorithm == "RS256") || (algorithm == "ES256") then Some sha256
  else if (algorithm == "RS384") || (algorithm == "ES384") then Some sha384
  else if (algorithm == "RS512") || (algorithm == "ES512") then Some sha512
  else None.
Definition hashFor (algorithm : string) : Z :=
  if algorithm == "RS256" then 256 else if algorithm == "RS384" then 384 else 512.
(** A missing entry of the map is the empty string. *)
Definition expectedCurve (algorithm : string) : string :=
  if algorithm == "ES256" then "P-256" else if algorithm == "ES384" then "P-384"
  else if algorithm == "ES512" then "P-521" else "".

Definition string_half (s : string) : string * string :=
  let half := (String.length s / 2)%nat in
  (String.substring 0 half s, String.substring half (String.length s - half) s).

Definition boolError (valid : bool) : option GoError :=
  if valid then None else Some (plain "invalid ECDSA JWT signature").

Definition verifyJWTSignature (key : jwk) (algorithm signed signature : string) : option GoError :=
  match jwt_hash algorithm with
  | None => Some (plain "unsupported JWT algorithm")
  | Some hashFunc =>
    if HasPrefix algorithm "RS" && (jwk_Kty key != "RSA") then
      Some (plain "RSA JWT algorithm requires an RSA key") else
    if HasPrefix algorithm "ES" && (jwk_Kty key != "EC") then
      Some (plain "ECDSA JWT algorithm requires an EC key") else
    if HasPrefix algorithm "ES" && (jwk_Crv key != expectedCurve algorithm) then
      Some (plain "ECDSA JWT algorithm and curve do not match") else
    let sum := hashFunc signed in
    if HasPrefix algorithm "RS" then
      match rsaKey key with
      | inl err => Some err
      | inr publicKey => VerifyPKCS1v15 publicKey (hashFor algorithm) sum signature
      end
    else
      match ecdsaKey key with
      | inl err => Some err
      | inr publicKey =>
        if negb (zstrlen signature =? 2 * coordinateSize (EC_Curve publicKey)) then
          Some (plain "invalid ECDSA JWT signature size")
        else
          let '(r, s) := string_half signature in
          boolError (VerifyECDSA publicKey sum (SetBytes r) (SetBytes s))
      end
  end.

(** ** The key cache *)

(** The state of a verifier and its world. *)
Record AuthWorld (W : Type) := mkAuthWorld { aw_world : W; aw_verifier : jwksVerifier }.
Arguments mkAuthWorld {W} _ _.
Arguments aw_world {W} _.
Arguments aw_verifier {W} _.

Context {W : Type} `{!Provider W}.
Abbreviation A := (GoM (AuthWorld W)) (only parsing).

Definition wall_clock : A Time := λ s,
  (Ok (WallClock (aw_world s)).1, mkAuthWorld (WallClock (aw_world s)).2 (aw_verifier s)).
Definition http_get (url : string) : A HTTPAnswer := λ s,
  (Ok (HTTPGet url (aw_world s)).1, mkAuthWorld (HTTPGet url (aw_world s)).2 (aw_verifier s)).
Definition get_verifier : A jwksVerifier := λ s, (Ok (aw_verifier s), s).
Definition put_verifier (v : jwksVerifier) : A unit := λ s, (Ok tt, mkAuthWorld (aw_world s) v).

(** [decodeLimited]: at most 1 MiB, read completely before it is decoded. *)
Definition decodeLimited {B} (decode : string → GoError + B) (body : GoError + string) : GoError + B :=
  match body with
  | inl err => inl err
  | inr data =>
    if MaxToken <? zstrlen data then inl (plain "JSON document exceeds the allowed size") else decode data
  end.

(** The keys of the document with a key id and for signatures; the last of two
    keys with one id wins. *)
Definition usable (key : jwk) : bool :=
  negb ((jwk_Kid key == "") || ((jwk_Use key != "") && (jwk_Use key != "sig"))).
Definition key_map (document : list jwk) : gmap string jwk :=
  foldl (λ keys key, if usable key then <[jwk_Kid key := key]> keys else keys) ∅ document.

Definition loadKeysLocked : A (gmap string jwk) :=
  v ← get_verifier;
  answer ← http_get (v_jwks v);
  match answer with
  | HTTPBadRequest err =>
      throw (Retryable CodeDependencyUnavailable "OIDC key request could not be created" (Some err))
  | HTTPFailed err =>
      throw (Retryable CodeDependencyUnavailable "OIDC signing keys are unavailable" (Some err))
  | HTTPResponse status body =>
    if (status <? 200) || (300 <=? status) then
      throw (Retryable CodeDependencyUnavailable "OIDC signing keys returned an unexpected status"
               (Some (plain ("HTTP " +:+ json_int status)))) else
    match decodeLimited DecodeKeySet body with
    | inl err => throw (Retryable CodeDependencyUnavailable "OIDC signing keys are invalid" (Some err))
    | inr document =>
      let keys := key_map document in
      if bool_decide (size keys = 0%nat) then
        throw (Retryable CodeDependencyUnavailable "OIDC provider returned no signing keys" None) else
      t ← wall_clock;
      _ ← put_verifier (v <| v_keys := keys |> <| v_refreshedAt := t |>);
      ret keys
    end
  end.

Definition key (kid : string) : A jwk :=
  v ← get_verifier;
  cached ← match v_keys v !! kid with
    | Some key =>
      t ← wall_clock;
      ret (if SubTime t (v_refreshedAt v) <? 10 * Minute then Some key else None)
    | None => ret None
    end;
  match cached with
  | Some key => ret key
  | None =>
    keys ← loadKeysLocked;
    match keys !! kid with
    | None => throw (unauthenticated "OIDC token key is unknown")
    | Some key => ret key
    end
  end.

(** ** Creating a verifier *)

Definition validateOIDCConfig (issuer clientID : string) (hasResolver : bool) : option GoError :=
  let invalid := Some (E CodeInvalidRequest "OIDC issuer must be an HTTP(S) URL") in
  match ParseURL issuer with
  | inl _ => invalid
  | inr parsed =>
    if (URL_Host parsed == "") || ((URL_Scheme parsed != "https") && (URL_Scheme parsed != "http")) ||
       URL_User parsed || (URL_RawQuery parsed != "") || (URL_Fragment parsed != "") then invalid else
    if clientID == "" then Some (E CodeInvalidRequest "OIDC client id is required") else
    if negb hasResolver then Some (E CodeInvalidRequest "OIDC principal resolver is required")
    else None
  end.

(** [strings.TrimRight(issuer, "/")] *)
Fixpoint drop_slashes (l : list Ascii.ascii) : list Ascii.ascii :=
  match l with ch :: rest => if byte_val ch =? 47 then drop_slashes rest else l | [] => [] end.
Definition TrimRightSlash (s : string) : string := of_chars (reverse (drop_slashes (reverse (chars s)))).

Definition valid_jwks_url (issuerURL : URL) (jwksURL : GoError + URL) : bool :=
  match jwksURL with
  | inl _ => false
  | inr jwksURL =>
    negb ((URL_Host jwksURL == "") || ((URL_Scheme jwksURL != "https") && (URL_Scheme jwksURL != "http")) ||
          URL_User jwksURL || (URL_Fragment jwksURL != "") ||
          ((URL_Scheme issuerURL == "https") && (URL_Scheme jwksURL != "https")))
  end.

(** The redirects the client follows are part of [HTTPGet]. *)
Definition newJWKSVerifier (issuer : string) : A unit :=
  answer ← http_get (TrimRightSlash issuer +:+ "/.well-known/openid-configuration");
  document ← match answer with
    | HTTPBadRequest err => throw (WrapError "create OIDC discovery request" err)
    | HTTPFailed err => throw (WrapError "OIDC discovery failed" err)
    | HTTPResponse status body =>
      if (status <? 200) || (300 <=? status) then
        throw (plain ("OIDC discovery returned HTTP " +:+ json_int status)) else
      match decodeLimited DecodeDiscovery body with
      | inl err => throw (WrapError "decode OIDC discovery" err)
      | inr document => ret document
      end
    end;
  if (Discovery_Issuer document != issuer) || (Discovery_JWKSURI document == "") then
    throw (plain "OIDC discovery does not match configured issuer") else
  match ParseURL issuer with
  | inl err => throw (WrapError "configured OIDC issuer is invalid" err)
  | inr issuerURL =>
    if negb (valid_jwks_url issuerURL (ParseURL (Discovery_JWKSURI document))) then
      throw (plain "OIDC discovery returned an invalid JWKS URL") else
    _ ← put_verifier (mkVerifier issuer (Discovery_JWKSURI document) ∅ 0);
    loaded ← try_ loadKeysLocked;
    match loaded with
    | inl err => throw (WrapError "load OIDC signing keys" err)
    | inr _ => ret tt
    end
  end.

Definition NewOIDC (issuer clientID : string) (hasResolver : bool) : A unit :=
  _ ← check_err (validateOIDCConfig issuer clientID hasResolver);
  newJWKSVerifier issuer.

(** ** Verifying a token *)

Definition is_json_null (raw : string) : bool := TrimSpace raw == "null".

Definition parse_not_before (raw : string) : GoError + option Time :=
  if raw == "" then inr None else
  if is_json_null raw then inl (unauthenticated "OIDC token not-before is invalid") else
  match parseUnixRawClaim raw with
  | inl _ => inl (unauthenticated "OIDC token not-before is invalid")
  | inr value => inr (Some value)
  end.

(** The three parts of the token, decoded. *)
Definition split_token (raw : string) : GoError + (string * string * string * string) :=
  if (zstrlen raw =? 0) || (MaxToken <? zstrlen raw) then
    inl (unauthenticated "OIDC token is malformed") else
  match SplitDots raw with
  | [header; payload; signature] =>
    match decodeURL header with
    | None => inl (unauthenticated "OIDC token header is malformed")
    | Some headerBytes =>
      match decodeURL payload with
      | None => inl (unauthenticated "OIDC token payload is malformed")
      | Some payloadBytes =>
        match decodeURL signature with
        | None => inl (unauthenticated "OIDC token signature is malformed")
        | Some signatureBytes =>
            inr (headerBytes, payloadBytes, signatureBytes, header +:+ "." +:+ payload)
        end
      end
    end
  | _ => inl (unauthenticated "OIDC token is malformed")
  end.

(** The claims of the payload, for a verifier of [issuer]. *)
Definition parse_claims (issuer payloadBytes : string) : GoError + OIDCClaims :=
  match DecodePayload payloadBytes with
  | inl _ => inl (unauthenticated "OIDC token claims are invalid")
  | inr payload =>
    match parseAudience (Payload_Audience payload) with
    | inl _ => inl (unauthenticated "OIDC token claims are invalid")
    | inr audience =>
      if (Payload_Issuer payload != issuer) || (Payload_Subject payload == "") ||
         (Payload_ExpiresAt payload == "") then
        inl (unauthenticated "OIDC token claims are invalid") else
      match parseUnixClaim (Payload_ExpiresAt payload) with
      | inl _ => inl (unauthenticated "OIDC token expiry is invalid")
      | inr expiresAt =>
        match parse_not_before (Payload_NotBefore payload) with
        | inl err => inl err
        | inr notBefore =>
            inr (mkOIDCClaims (Payload_Issuer payload) (Payload_Subject payload) audience
                   (Payload_AuthorizedParty payload) expiresAt notBefore)
        end
      end
    end
  end.

Definition from_sum {B} (x : GoError + B) : A B :=
  match x with inl err => throw err | inr b => ret b end.

Definition Verify (raw : string) : A OIDCClaims :=
  '(headerBytes, payloadBytes, signature, signed) ← from_sum (split_token raw);
  header ← match DecodeHeader headerBytes with
    | inl _ => throw (unauthenticated "OIDC token header is invalid")
    | inr header => if Header_Kid header == "" then throw (unauthenticated "OIDC token header is invalid")
                    else ret header
    end;
  v ← get_verifier;
  claims ← from_sum (parse_claims (v_issuer v) payloadBytes);
  key ← key (Header_Kid header);
  if (jwk_Alg key != "") && (jwk_Alg key != Header_Alg header) then
    throw (unauthenticated "OIDC token algorithm is not allowed") else
  match verifyJWTSignature key (Header_Alg header) signed signature with
  | Some _ => throw (unauthenticated "OIDC token signature is invalid")
  | None => ret claims
  end.

(** ** Authenticating a request *)

Record OIDC := mkOIDC {
  oidc_issuer : string;
  oidc_client : string
}.

(** The resolver looks the identity up in the repository. *)
Context (resolve : string → string → string → A Principal).

Definition audience_mismatch (a : OIDC) (claims : OIDCClaims) : bool :=
  (OIDCClaims_Issuer claims != oidc_issuer a) || (OIDCClaims_Subject claims == "") ||
  negb (contains (OIDCClaims_Audience claims) (oidc_client a)) ||
  ((OIDCClaims_AuthorizedParty claims != "") && (OIDCClaims_AuthorizedParty claims != oidc_client a)) ||
  ((1 <? zlen (OIDCClaims_Audience claims)) && (OIDCClaims_AuthorizedParty claims != oidc_client a)).

Definition authenticateClaims (a : OIDC) (header : string) : A OIDCClaims :=
  raw ← lift (bearerToken header);
  claims ← Verify raw;
  if audience_mismatch a claims then throw (unauthenticated "a valid OIDC token is required") else
  expired ← (if IsZero (OIDCClaims_ExpiresAt claims) then ret true
             else t ← wall_clock; ret (negb (Before t (OIDCClaims_ExpiresAt claims))));
  if (expired : bool) then throw (unauthenticated "OIDC token has expired") else
  early ← match OIDCClaims_NotBefore claims with
    | None => ret false
    | Some notBefore => t ← wall_clock; ret (Before (AddTime t (30 * Second)) notBefore)
    end;
  if (early : bool) then throw (unauthenticated "OIDC token is not active") else ret claims.

Definition OIDC_Authenticate (a : OIDC) (header tenantID : string) : A Principal :=
  if negb (ValidID tenantID) then
    throw (E CodeInvalidRequest "a valid tenant selector is required") else
  claims ← authenticateClaims a header;
  principal ← resolve (OIDCClaims_Issuer claims) (OIDCClaims_Subject claims) tenantID;
  if (Identity_TenantID (Principal_Identity principal) != tenantID) ||
     negb (ValidID (Identity_PrincipalID (Principal_Identity principal))) ||
     negb (ValidAccessRole (Principal_Role principal)) then
    throw (E CodeForbidden "identity is not authorized for this tenant")
  else ret principal.

Definition OIDC_ExternalIdentity (a : OIDC) (header : string) : A ExternalIdentity :=
  claims ← authenticateClaims a header;
  ret (mkExternalIdentity (OIDCClaims_Issuer claims) (OIDCClaims_Subject claims)).

End with_libraries.
Arguments mkAuthWorld {W} _ _.
Arguments aw_world {W} _.
Arguments aw_verifier {W} _.
