(* ===== verification/AuthProperties.v ===== *)
(** * What authentication guarantees *)
From S2P Require Import Prelude Errors Logic GoLib Codecs Types Validation Auth OIDC.

(** ** Configured tokens *)

Section trusted.
Context `{!Platform, !MapRange}.

Lemma Authenticate_Ok a header p : Authenticate a header = Ok p →
  ∃ token entry, header = bearer_prefix +:+ token ∧ token ≠ "" ∧ contains_space token = false ∧
    entry ∈ Trusted_entries a ∧ te_hash entry = sha256 token ∧ te_principal entry = p.
Proof.
  unfold Authenticate. destruct (_ || _ || _) eqn:Hbad; [done|].
  destruct (last_match _ _ _) as [q|] eqn:Hm; [|done]. intros [= ->].
  apply orb_false_iff in Hbad as [[Hpre%negb_false_iff Hlen]%orb_false_iff Hspace].
  apply HasPrefix_split in Hpre. apply last_match_spec in Hm as [?|(entry & Hin & Hh & Hp)]; [done|].
  exists (after_prefix header), entry. split_and!; try done.
  intros He. rewrite Hpre, He in Hlen. by vm_compute in Hlen.
Qed.

(** Authentication with configured tokens accepts a header exactly when it is
    Bearer followed by a token whose SHA-256 is that of a configured token; the
    principal is the configured one, an owner when no role was configured, with
    a valid role and both identifiers. Every configured token without white
    space is accepted as its own principal unless another one has its hash, and
    every refusal is the same unauthenticated error. *)
Theorem trusted_tokens_authenticate tokens a : NewTrusted tokens = Ok a →
  (∀ header p, Authenticate a header = Ok p → ∃ token configured q,
     header = bearer_prefix +:+ token ∧ tokens !! configured = Some q ∧ sha256 token = sha256 configured ∧
     32 ≤ zstrlen configured ∧ p = with_default_role q ∧ ValidAccessRole (Principal_Role p) = true ∧
     Identity_TenantID (Principal_Identity p) ≠ "" ∧ Identity_PrincipalID (Principal_Identity p) ≠ "") ∧
  (∀ token q, tokens !! token = Some q → contains_space token = false →
     (∀ other, is_Some (tokens !! other) → sha256 other = sha256 token → other = token) →
     Authenticate a (bearer_prefix +:+ token) = Ok (with_default_role q)) ∧
  (∀ header, (∃ p, Authenticate a header = Ok p) ∨ Authenticate a header = Err bearer_required).
Proof.
  unfold NewTrusted. case_bool_decide; [done|]. intros Hnew.
  destruct (trusted_entries _) as [entries| | |] eqn:Hentries; [|done..]. simplify_eq/=.
  apply trusted_entries_spec in Hentries as [Heq Hall]. rewrite Forall_forall in Hall.
  assert (∀ token q, tokens !! token = Some q → 32 ≤ zstrlen token ∧
    Identity_TenantID (Principal_Identity q) ≠ "" ∧ Identity_PrincipalID (Principal_Identity q) ≠ "" ∧
    ValidAccessRole (Principal_Role (with_default_role q)) = true) as Hvalid.
  { intros token q Hq. apply (elem_of_map_range 0) in Hq. by apply Hall in Hq. }
  assert (∀ entry, entry ∈ entries ↔ ∃ token q, tokens !! token = Some q ∧
    te_hash entry = sha256 token ∧ te_principal entry = with_default_role q) as Hentry.
  { intros [h p]. rewrite Heq, list_elem_of_fmap. split.
    - intros ([token q] & [= -> ->] & Hin). exists token, q. split; [|done]. by apply elem_of_map_range in Hin.
    - intros (token & q & Hq & Hh & Hp). simpl in *. subst. exists (token, q).
      split; [done|]. by apply elem_of_map_range. }
  assert (∀ q, Principal_Identity (with_default_role q) = Principal_Identity q) as Hid.
  { intros q. unfold with_default_role. by case_bool_decide. }
  split_and!.
  - intros header p Hok. apply Authenticate_Ok in Hok as (token & entry & -> & _ & _ & Hin & Hh & <-).
    simpl in Hin. apply Hentry in Hin as (configured & q & Hq & Hh' & ->).
    apply Hvalid in Hq as Hv. exists token, configured, q. rewrite Hid. rewrite <- Hh, <- Hh'. tauto.
  - intros token q Hq Hspace Hunique. unfold Authenticate.
    assert (HasPrefix (bearer_prefix +:+ token) bearer_prefix = true) as ->.
    { apply HasPrefix_split. by rewrite after_prefix_app. }
    apply Hvalid in Hq as Hv.
    assert ((zstrlen (bearer_prefix +:+ token) =? zstrlen bearer_prefix) = false) as ->.
    { apply Z.eqb_neq. unfold zstrlen in *. rewrite length_append. lia. }
    rewrite after_prefix_app, Hspace. simpl.
    destruct (last_match_found (sha256 token) entries None) as [p Hp].
    { left. exists (mkTrustedEntry (sha256 token) (with_default_role q)). split; [|done].
      apply Hentry. by exists token, q. }
    rewrite Hp. f_equal. apply last_match_spec in Hp as [?|(entry & Hin & Hh & <-)]; [done|].
    apply Hentry in Hin as (other & q' & Hq' & Hh' & ->). f_equal.
    rewrite Hh' in Hh. rewrite (Hunique other) in Hq'; [congruence|by eexists|done].
  - intros header. unfold Authenticate. destruct (_ || _ || _); [by right|].
    destruct (last_match _ _ _); [left; by eexists|by right].
Qed.
End trusted.

(** Two configured tokens; the second has no role. *)
Definition example_tokens : gmap string Principal :=
  list_to_map [("0123456789abcdef0123456789abcdef", mkPrincipal (mkIdentity "t1" "p1") "One" RoleViewer);
               ("fedcba9876543210fedcba9876543210", mkPrincipal (mkIdentity "t1" "p2") "One" "")].
Definition example_trusted : Trusted :=
  match NewTrusted (H0 := canonical_range) example_tokens with Ok a => a | _ => mkTrusted [] end.
Lemma example_trusted_new : NewTrusted (H0 := canonical_range) example_tokens = Ok example_trusted.
Proof. vm_compute. reflexivity. Qed.

Lemma trusted_tokens_authenticate_witness :
  Authenticate example_trusted "Bearer wrong" = Err bearer_required ∨
  ∃ p, Authenticate example_trusted "Bearer wrong" = Ok p.
Proof.
  destruct (proj2 (proj2 (trusted_tokens_authenticate (H0 := canonical_range) example_tokens example_trusted
    example_trusted_new)) "Bearer wrong"); [right|left]; assumption.
Defined.

(** ** Tokens of an identity provider *)

Section oidc.
Context `{!Platform, !MapRange, !TokenJSON, !Signatures, !URLParser}.
Context {W : Type} `{!Provider W}.
Implicit Types (s : AuthWorld W).

Lemma wp_wall_clock (Q : Outcome Time → AuthWorld W → Prop) s :
  (∀ t w, WallClock (aw_world s) = (t, w) → Q (Ok t) (mkAuthWorld w (aw_verifier s))) → wp wall_clock Q s.
Proof. intros HQ. unfold wp, wall_clock. simpl. apply HQ. apply surjective_pairing. Qed.
Lemma wp_http_get url (Q : Outcome HTTPAnswer → AuthWorld W → Prop) s :
  (∀ answer w, HTTPGet url (aw_world s) = (answer, w) → Q (Ok answer) (mkAuthWorld w (aw_verifier s))) →
  wp (http_get url) Q s.
Proof. intros HQ. unfold wp, http_get. simpl. apply HQ. apply surjective_pairing. Qed.
Lemma wp_get_verifier (Q : Outcome jwksVerifier → AuthWorld W → Prop) s :
  Q (Ok (aw_verifier s)) s → wp get_verifier Q s.
Proof. exact id. Qed.
Lemma wp_put_verifier v (Q : Outcome unit → AuthWorld W → Prop) s :
  Q (Ok tt) (mkAuthWorld (aw_world s) v) → wp (put_verifier v) Q s.
Proof. exact id. Qed.

Lemma key_map_Some document kid k : key_map document !! kid = Some k →
  k ∈ document ∧ usable k = true ∧ jwk_Kid k = kid.
Proof.
  unfold key_map. assert (∀ keys : gmap string jwk,
    foldl (λ keys k, if usable k then <[jwk_Kid k := k]> keys else keys) keys document !! kid = Some k →
    keys !! kid = Some k ∨ (k ∈ document ∧ usable k = true ∧ jwk_Kid k = kid)) as Hfold.
  { induction document as [|k' document IH]; intros keys; simpl; [by left|]. intros [Hk|?]%IH;
      [|right; set_solver].
    destruct (usable k') eqn:Hu; [|by left].
    apply lookup_insert_Some in Hk as [[? ->]|[_ ?]]; [right; set_solver|by left]. }
  intros [Hk|?]%Hfold; [by rewrite lookup_empty in Hk|done].
Qed.

(** How the key of a verification got into the cache: it was there, and the last
    refresh was less than ten minutes before the clock was read; or the key set
    was fetched from the JWKS URL during this call. *)
Definition key_provenance s s' (kid : string) (k : jwk) : Prop :=
  v_keys (aw_verifier s') !! kid = Some k ∧ v_issuer (aw_verifier s') = v_issuer (aw_verifier s) ∧
  ((aw_verifier s' = aw_verifier s ∧ ∃ t, (WallClock (aw_world s)).1 = t ∧
      SubTime t (v_refreshedAt (aw_verifier s)) < 10 * Minute) ∨
   (∃ w status body data document, (HTTPGet (v_jwks (aw_verifier s)) w).1 = HTTPResponse status (inr body) ∧
      200 ≤ status < 300 ∧ zstrlen body ≤ MaxToken ∧ body = data ∧ DecodeKeySet data = inr document ∧
      k ∈ document ∧ usable k = true ∧ jwk_Kid k = kid)).

Lemma loadKeys_spec kid s : wp loadKeysLocked (λ o s', ∀ keys k, o = Ok keys → keys !! kid = Some k →
  v_keys (aw_verifier s') = keys ∧ v_issuer (aw_verifier s') = v_issuer (aw_verifier s) ∧
  ∃ status data document, (HTTPGet (v_jwks (aw_verifier s)) (aw_world s)).1 = HTTPResponse status (inr data) ∧
    200 ≤ status < 300 ∧ zstrlen data ≤ MaxToken ∧ DecodeKeySet data = inr document ∧
    k ∈ document ∧ usable k = true ∧ jwk_Kid k = kid) s.
Proof.
  unfold loadKeysLocked. apply wp_bind, wp_get_verifier. simpl. apply wp_bind, wp_http_get.
  intros answer w Hget. simpl. destruct answer as [| |status body]; try (by apply wp_throw).
  destruct (_ || _) eqn:Hstatus; [by apply wp_throw|].
  destruct (decodeLimited _ _) as [?|document] eqn:Hdoc; [by apply wp_throw|].
  case_bool_decide; [by apply wp_throw|].
  apply wp_bind, wp_wall_clock. intros t w' Hclock. simpl. apply wp_bind, wp_put_verifier. simpl.
  apply wp_ret. intros keys k [= <-] Hk. simpl. split; [done|]. split; [done|].
  unfold decodeLimited in Hdoc. destruct body as [?|data]; [done|]. destruct (MaxToken <? _) eqn:Hlen; [done|].
  exists status, data, document. rewrite Hget. apply key_map_Some in Hk as (? & ? & ?). go_bool. split_and!; try done; lia.
Qed.

Lemma key_spec kid s : wp (key kid) (λ o s', ∀ k, o = Ok k → key_provenance s s' kid k) s.
Proof.
  unfold key. apply wp_bind, wp_get_verifier. simpl. apply wp_bind.
  assert (∀ w, wp (keys ← loadKeysLocked;
      match keys !! kid with
      | None => throw (unauthenticated "OIDC token key is unknown") | Some k => ret k end)
    (λ o s', ∀ k, o = Ok k → key_provenance s s' kid k) (mkAuthWorld w (aw_verifier s))) as Hload.
  { intros w. apply wp_bind. eapply wp_mono; [apply (loadKeys_spec kid)|].
    intros o s' Ho. destruct o as [keys| | |]; simpl; try done.
    destruct (keys !! kid) as [k|] eqn:Hk; [|by apply wp_throw]. apply wp_ret. intros k' [= <-].
    destruct (Ho keys k eq_refl Hk) as (Hkeys & Hissuer & status & data & document & Hget & ? & ? & ? & ? & ? & ?).
    simpl in *. split; [by rewrite Hkeys|]. split; [done|]. right.
    exists w, status, data, data, document. done. }
  destruct (v_keys (aw_verifier s) !! kid) as [k|] eqn:Hcached.
  - apply wp_bind, wp_wall_clock. intros t w Hclock. simpl. apply wp_ret. simpl.
    destruct (SubTime t _ <? _) eqn:Hfresh; [|apply Hload].
    apply wp_ret. intros k' [= <-]. split; [done|]. split; [done|]. left. split; [done|].
    exists t. rewrite Hclock. split; [done|lia].
  - apply wp_ret. simpl. destruct s as [w v]. apply Hload.
Qed.

(** A signature that verified, by its family. *)
Definition signed_by (k : jwk) (algorithm signed signature : string) : Prop :=
  ∃ hashFunc, jwt_hash algorithm = Some hashFunc ∧
  ((algorithm ∈ ["RS256"; "RS384"; "RS512"] ∧ jwk_Kty k = "RSA" ∧ ∃ publicKey, rsaKey k = inr publicKey ∧
      VerifyPKCS1v15 publicKey (hashFor algorithm) (hashFunc signed) signature = None) ∨
   (algorithm ∈ ["ES256"; "ES384"; "ES512"] ∧ jwk_Kty k = "EC" ∧ jwk_Crv k = expectedCurve algorithm ∧
      ∃ publicKey, ecdsaKey k = inr publicKey ∧
      zstrlen signature = 2 * coordinateSize (EC_Curve publicKey) ∧
      VerifyECDSA publicKey (hashFunc signed) (SetBytes (string_half signature).1)
        (SetBytes (string_half signature).2) = true)).

Lemma jwt_hash_algorithms algorithm hashFunc : jwt_hash algorithm = Some hashFunc →
  (HasPrefix algorithm "RS" = true ∧ algorithm ∈ ["RS256"; "RS384"; "RS512"]) ∨
  (HasPrefix algorithm "RS" = false ∧ HasPrefix algorithm "ES" = true ∧ algorithm ∈ ["ES256"; "ES384"; "ES512"]).
Proof.
  intros Hh. assert (algorithm ∈ ["RS256"; "RS384"; "RS512"] ∨ algorithm ∈ ["ES256"; "ES384"; "ES512"]) as [Hin|Hin].
  { unfold jwt_hash in Hh. rewrite !elem_of_cons. repeat case_bool_decide; naive_solver. }
  - left. split; [|done]. rewrite !elem_of_cons in Hin.
    destruct Hin as [->|[->|[->|Hin]]]; [done..|by apply not_elem_of_nil in Hin].
  - right. split_and!; [..|done]; rewrite !elem_of_cons in Hin;
      (destruct Hin as [->|[->|[->|Hin]]]; [done..|by apply not_elem_of_nil in Hin]).
Qed.

Lemma verifyJWTSignature_None k algorithm signed signature :
  verifyJWTSignature k algorithm signed signature = None → signed_by k algorithm signed signature.
Proof.
  unfold verifyJWTSignature. destruct (jwt_hash algorithm) as [hashFunc|] eqn:Hh; [|done].
  intros Hv. exists hashFunc. split; [done|].
  apply jwt_hash_algorithms in Hh as [[Hrs Hin]|(Hrs & Hes & Hin)]; rewrite Hrs in Hv.
  - left. split; [done|]. simpl in Hv. destruct (jwk_Kty k != "RSA") eqn:Hk; [done|].
    repeat (destruct (_ && _); [done|]). go_bool. split; [done|].
    destruct (rsaKey k) as [?|publicKey]; [done|]. by exists publicKey.
  - right. split; [done|]. rewrite Hes in Hv. simpl in Hv.
    destruct (jwk_Kty k != "EC") eqn:Hk; [done|]. destruct (jwk_Crv k != _) eqn:Hc; [done|]. go_bool.
    split; [done|]. split; [done|]. destruct (ecdsaKey k) as [?|publicKey]; [done|]. exists publicKey.
    destruct (negb (_ =? _)) eqn:Hlen; [done|].
    destruct (VerifyECDSA _ _ _ _) eqn:Hv'; [|done]. go_bool.
    split; [done|]. split; [lia|done].
Qed.

(** The keys that pass: an odd modulus of at least 256 bytes and an odd exponent
    of at least 3, or a point of the curve. *)
Lemma rsaKey_inr k publicKey : rsaKey k = inr publicKey →
  Z.testbit (RSA_N publicKey) 0 = true ∧ 0 < RSA_N publicKey ∧ 3 ≤ RSA_E publicKey ∧
  Z.rem (RSA_E publicKey) 2 ≠ 0.
Proof.
  unfold rsaKey. intros Hk. repeat case_match; simplify_eq; simpl; go_bool_cases; split_and!; try done; lia.
Qed.

(** What [Verify] returns, and why. *)
Definition verified_token s s' (raw : string) (claims : OIDCClaims) : Prop :=
  ∃ header64 payload64 signature64 headerBytes payloadBytes signature header k,
    SplitDots raw = [header64; payload64; signature64] ∧
    decodeURL header64 = Some headerBytes ∧ decodeURL payload64 = Some payloadBytes ∧
    decodeURL signature64 = Some signature ∧ DecodeHeader headerBytes = inr header ∧
    parse_claims (v_issuer (aw_verifier s)) payloadBytes = inr claims ∧
    key_provenance s s' (Header_Kid header) k ∧
    (jwk_Alg k = "" ∨ jwk_Alg k = Header_Alg header) ∧
    signed_by k (Header_Alg header) (header64 +:+ "." +:+ payload64) signature.

Lemma split_token_inr raw headerBytes payloadBytes signature signed :
  split_token raw = inr (headerBytes, payloadBytes, signature, signed) →
  ∃ header64 payload64 signature64, SplitDots raw = [header64; payload64; signature64] ∧
    decodeURL header64 = Some headerBytes ∧ decodeURL payload64 = Some payloadBytes ∧
    decodeURL signature64 = Some signature ∧ signed = header64 +:+ "." +:+ payload64.
Proof.
  unfold split_token. destruct (_ || _); [done|].
  destruct (SplitDots raw) as [|h [|p [|sg [|]]]]; try done. intros Hs.
  destruct (decodeURL h) as [hb|] eqn:Hh; [|done]. destruct (decodeURL p) as [pb|] eqn:Hp; [|done].
  destruct (decodeURL sg) as [sb|] eqn:Hsg; [|done]. simplify_eq. by exists h, p, sg.
Qed.

Lemma Verify_spec raw s : wp (Verify raw) (λ o s', ∀ claims, o = Ok claims → verified_token s s' raw claims) s.
Proof.
  unfold Verify, from_sum. apply wp_bind.
  destruct (split_token raw) as [?|[[[hb pb] sg] signed]] eqn:Hsplit; [by apply wp_throw|].
  apply split_token_inr in Hsplit as (h64 & p64 & s64 & Hparts & Hh & Hp & Hsg & ->).
  apply wp_ret. simpl. apply wp_bind. destruct (DecodeHeader hb) as [?|header] eqn:Hheader; [by apply wp_throw|].
  destruct (_ == _); [by apply wp_throw|]. apply wp_ret. simpl. apply wp_bind, wp_get_verifier. simpl.
  apply wp_bind. destruct (parse_claims _ pb) as [?|claims] eqn:Hclaims; [by apply wp_throw|].
  apply wp_ret. simpl. apply wp_bind. eapply wp_mono; [apply key_spec|]. intros o s' Hkey.
  destruct o as [k| | |]; try done. simpl. destruct (_ && _) eqn:Halg; [by apply wp_throw|].
  destruct (verifyJWTSignature _ _ _ _) eqn:Hv; [by apply wp_throw|]. apply wp_ret.
  intros claims' [= <-]. exists h64, p64, s64, hb, pb, sg, header, k. split_and!; try done.
  - by apply Hkey.
  - go_bool_cases; auto.
  - by apply verifyJWTSignature_None.
Qed.

(** C30: the verifier accepts a token only if it has exactly three parts and its
    header and payload, as sent, carry a signature that verifies under a key of
    the provider with the token's key id: one cached for less than ten minutes,
    or fetched from the key set during the call. The algorithm is one of the six
    RSA and ECDSA ones, belongs to the key's type, curve and declared algorithm,
    so no token is accepted unsigned or under a key of another family; and the
    returned claims are those of the signed payload for the configured issuer. *)
Theorem verified_tokens_are_signed raw s claims s' : Verify raw s = (Ok claims, s') →
  verified_token s s' raw claims ∧ OIDCClaims_Issuer claims = v_issuer (aw_verifier s) ∧
  OIDCClaims_Subject claims ≠ "" ∧ OIDCClaims_Audience claims ≠ [].
Proof.
  intros Hrun. pose proof (wp_run _ _ _ _ _ (Verify_spec raw s) Hrun) as Hv. simpl in Hv.
  specialize (Hv claims eq_refl). split; [done|].
  destruct Hv as (h64 & p64 & s64 & hb & pb & sg & header & k & _ & _ & _ & _ & _ & Hclaims & _).
  unfold parse_claims in Hclaims. destruct (DecodePayload pb) as [?|payload]; [done|].
  destruct (parseAudience _) as [?|audience] eqn:Haud; [done|]. destruct (_ || _ || _) eqn:Hbad; [done|].
  destruct (parseUnixClaim _); [done|]. destruct (parse_not_before _); [done|]. simplify_eq/=. go_bool.
  split_and!; [done|done|]. unfold parseAudience in Haud. repeat case_match; by simplify_eq.
Qed.

(** ** A request *)

Context (resolve : string → string → string → GoM (AuthWorld W) Principal).

Definition accepted_claims a (claims : OIDCClaims) : Prop :=
  OIDCClaims_Issuer claims = oidc_issuer a ∧ oidc_client a ∈ OIDCClaims_Audience claims ∧
  (length (OIDCClaims_Audience claims) ≤ 1 ∨ OIDCClaims_AuthorizedParty claims = oidc_client a)%nat ∧
  (OIDCClaims_AuthorizedParty claims = "" ∨ OIDCClaims_AuthorizedParty claims = oidc_client a) ∧
  (∃ w, (WallClock w).1 < OIDCClaims_ExpiresAt claims) ∧
  (∀ notBefore, OIDCClaims_NotBefore claims = Some notBefore →
     ∃ w, notBefore ≤ (WallClock w).1 + 30 * Second).

Lemma audience_mismatch_false a claims : audience_mismatch a claims = false →
  OIDCClaims_Issuer claims = oidc_issuer a ∧ oidc_client a ∈ OIDCClaims_Audience claims ∧
  (length (OIDCClaims_Audience claims) ≤ 1 ∨ OIDCClaims_AuthorizedParty claims = oidc_client a)%nat ∧
  (OIDCClaims_AuthorizedParty claims = "" ∨ OIDCClaims_AuthorizedParty claims = oidc_client a).
Proof.
  unfold audience_mismatch, contains, zlen. intros Hm.
  apply orb_false_iff in Hm as [Hm Hmany]. apply orb_false_iff in Hm as [Hm Hparty].
  apply orb_false_iff in Hm as [Hm Haud]. apply orb_false_iff in Hm as [Hissuer Hsubject].
  apply negb_false_iff, existsb_exists in Haud as (x & Hin & Hx). apply list_elem_of_In in Hin.
  go_bool. subst x. split_and!; [done|done| |].
  - apply andb_false_iff in Hmany as [Hmany|Hmany]; [left; lia|right; by go_bool].
  - apply andb_false_iff in Hparty as [Hparty|Hparty]; go_bool; auto.
Qed.

Lemma authenticateClaims_spec a header s : wp (authenticateClaims a header) (λ o s', ∀ claims, o = Ok claims →
  ∃ raw s1, header = bearer_prefix +:+ raw ∧ contains_space raw = false ∧
    verified_token s s1 raw claims ∧ accepted_claims a claims) s.
Proof.
  unfold authenticateClaims, bearerToken. apply wp_bind, wp_lift.
  destruct (_ || _ || _ || _) eqn:Hbad; [done|]. simpl.
  apply orb_false_iff in Hbad as [Hbad Hspace]. apply orb_false_iff in Hbad as [Hbad _].
  apply orb_false_iff in Hbad as [Hpre%negb_false_iff _]. apply HasPrefix_split in Hpre.
  apply wp_bind. eapply wp_mono; [apply Verify_spec|]. intros o s1 Hv.
  destruct o as [claims| | |]; simpl; try done. specialize (Hv claims eq_refl).
  destruct (audience_mismatch a claims) eqn:Haud; [by apply wp_throw|].
  apply audience_mismatch_false in Haud as (? & ? & ? & ?).
  apply wp_bind. destruct (IsZero _); [apply wp_ret; simpl; by apply wp_throw|].
  apply wp_bind, wp_wall_clock. intros t w Hclock. simpl. apply wp_ret. simpl.
  destruct (negb (Before _ _)) eqn:Hexp; [by apply wp_throw|]. apply wp_bind.
  assert (∃ w, (WallClock w).1 < OIDCClaims_ExpiresAt claims) as Hexpiry.
  { exists (aw_world s1). rewrite Hclock. unfold Before in Hexp. go_bool. simpl. lia. }
  assert (∀ s2, (∀ notBefore, OIDCClaims_NotBefore claims = Some notBefore →
       ∃ w, notBefore ≤ (WallClock w).1 + 30 * Second) →
    wp (ret claims) (λ o _, ∀ claims', o = Ok claims' → ∃ raw s1, header = bearer_prefix +:+ raw ∧
      contains_space raw = false ∧ verified_token s s1 raw claims' ∧ accepted_claims a claims') s2) as Hret.
  { intros s2 Hnb. apply wp_ret. intros claims' [= <-]. exists (after_prefix header), s1.
    unfold accepted_claims. done. }
  destruct (OIDCClaims_NotBefore claims) as [notBefore|] eqn:Hnb.
  - apply wp_bind, wp_wall_clock. intros t2 w2 Hclock2. simpl. apply wp_ret. simpl.
    destruct (Before (AddTime _ _) _) eqn:Hearly; [by apply wp_throw|]. apply Hret. intros nb [= <-].
    eexists. rewrite Hclock2. unfold Before, AddTime in Hearly. simpl. lia.
  - apply wp_ret. simpl. by apply Hret.
Qed.

(** C31: a request is authenticated only for the tenant it selects: the bearer
    token was verified, is for the configured client (which must be the
    authorized party when there are several audiences), has an expiry that is
    after a reading of the clock and is at most thirty seconds early; and the principal
    is the one the repository resolves for the token's issuer and subject, with a
    valid role and identifier, in that tenant and no other. *)
Theorem oidc_principal_is_bound a header tenantID s p s' :
  OIDC_Authenticate resolve a header tenantID s = (Ok p, s') →
  Identity_TenantID (Principal_Identity p) = tenantID ∧ ValidID tenantID = true ∧
  ValidID (Identity_PrincipalID (Principal_Identity p)) = true ∧
  ValidAccessRole (Principal_Role p) = true ∧
  ∃ raw claims s1 s2, header = bearer_prefix +:+ raw ∧ contains_space raw = false ∧
    verified_token s s1 raw claims ∧ accepted_claims a claims ∧
    resolve (OIDCClaims_Issuer claims) (OIDCClaims_Subject claims) tenantID s2 = (Ok p, s').
Proof.
  intros Hrun. eapply (wp_inv _ _ _ _ _ Hrun). clear Hrun. unfold OIDC_Authenticate.
  destruct (negb (ValidID tenantID)) eqn:Htenant; [by apply wp_throw|].
  apply wp_bind. eapply wp_mono; [apply authenticateClaims_spec|]. intros o s2 Hclaims.
  destruct o as [claims| | |]; simpl; try done.
  destruct (Hclaims claims eq_refl) as (raw & s1 & Hheader & Hspace & Hv & Hacc).
  apply wp_bind. apply wp_of_run. intros o s3 Hres. destruct o as [q| | |]; simpl; try done.
  destruct (_ || _ || _) eqn:Hbad; [by apply wp_throw|]. apply wp_ret. intros [= ->] ->. go_bool.
  split_and!; try done. by exists raw, claims, s1, s2.
Qed.
End oidc.

(** ** A provider with one RSA key *)

Definition lab_key : jwk := mkJwk "RSA" "k1" "RS256" "sig"
  (RawURLEncodeToString (of_bytes (replicate 256 255))) "AQAB" "" "" "".
#[local] Instance lab_json : TokenJSON := {|
  DecodeDiscovery _ := inr (mkDiscovery "https://idp" "https://idp/keys");
  DecodeHeader _ := inr (mkJWTHeader "RS256" "k1");
  DecodePayload _ := inr (mkJWTPayload "https://idp" "alice" "drive" "" "100" "");
  DecodeKeySet _ := inr [lab_key];
  DecodeString raw := inr raw;
  DecodeStrings raw := inr [raw];
  DecodeNumber raw := inr raw;
  ParseFloat _ := Some (FloatFinite 100 1);
  float_nanoseconds _ _ := 0
|}.
#[local] Instance lab_signatures : Signatures := {|
  sha384 s := s; sha512 s := s;
  VerifyPKCS1v15 _ _ _ signature := if signature == "signature" then None else Some (plain "verification error");
  VerifyECDSA _ _ _ _ := false;
  IsOnCurve _ _ _ := false
|}.
#[local] Instance lab_urls : URLParser := {|
  ParseURL s := inr (mkURL "https" "idp" false "" "" "")
|}.
#[local] Instance lab_provider : Provider unit := {|
  HTTPGet _ w := (HTTPResponse 200 (inr "keys"), w);
  WallClock w := (unix_epoch, w)
|}.

Definition lab_token : string :=
  RawURLEncodeToString "header" +:+ "." +:+ RawURLEncodeToString "payload" +:+ "." +:+
  RawURLEncodeToString "signature".
Definition lab_world : AuthWorld unit := mkAuthWorld tt (mkVerifier "https://idp" "https://idp/keys" ∅ 0).
Definition lab_claims : OIDCClaims := mkOIDCClaims "https://idp" "alice" ["drive"] "" (unix_epoch + 100 * Second) None.

Lemma lab_token_verified : Verify lab_token lab_world = (Ok lab_claims, (Verify lab_token lab_world).2).
Proof. vm_compute. reflexivity. Qed.

Lemma verified_tokens_are_signed_witness : OIDCClaims_Subject lab_claims ≠ "".
Proof.
  apply (verified_tokens_are_signed lab_token lab_world lab_claims (Verify lab_token lab_world).2
    lab_token_verified).
Defined.

(** A token that is not signed is refused. *)
Example lab_unsigned : (Verify (RawURLEncodeToString "header" +:+ "." +:+ RawURLEncodeToString "payload" +:+ ".")
  lab_world).1 = Err (unauthenticated "OIDC token signature is invalid").
Proof. vm_compute. reflexivity. Qed.

Definition lab_tenant : string := "3f2504e0-4f89-41d3-9a0c-0305e82c3301".
Definition lab_principal : Principal :=
  mkPrincipal (mkIdentity lab_tenant "3f2504e0-4f89-41d3-9a0c-0305e82c3302") "Lab" RoleEditor.
Definition lab_resolve (issuer subject tenantID : string) : GoM (AuthWorld unit) Principal :=
  if (issuer == "https://idp") && (subject == "alice") then ret lab_principal
  else throw (E CodeForbidden "identity is not authorized for this tenant").
Definition lab_run_request : Outcome Principal * AuthWorld unit :=
  OIDC_Authenticate lab_resolve (mkOIDC "https://idp" "drive") (bearer_prefix +:+ lab_token) lab_tenant lab_world.
Lemma lab_authenticated : lab_run_request = (Ok lab_principal, lab_run_request.2).
Proof. vm_compute. reflexivity. Qed.

Lemma oidc_principal_is_bound_witness : ValidAccessRole (Principal_Role lab_principal) = true.
Proof.
  apply (oidc_principal_is_bound lab_resolve (mkOIDC "https://idp" "drive") (bearer_prefix +:+ lab_token)
    lab_tenant lab_world lab_principal lab_run_request.2 lab_authenticated).
Defined.
