(* ===== verification/ServerWire.v ===== *)
(** * Requests and responses of the HTTP API (src/internal/server/api.go)

    A request is what the handlers read of [http.Request]; the identity the
    middleware put in its context is a field. A response is its status, its
    headers and its JSON body as a value: [json.Encoder] turns it into text. *)
From S2P Require Import Prelude Errors GoLib Types Validation ServiceNamespace Auth Codecs.

(** ** JSON values *)

Inductive JSON :=
| JNull
| JBool (b : bool)
| JInt (z : Z)
| JString (s : string)
| JTime (t : Time)
| JArray (items : list JSON)
| JObject (fields : list (string * JSON)).

(** A field with [omitempty]: absent when it has the zero value of its type. *)
Definition omit_empty {A} `{GoZero A} `{!EqDecision A} (name : string) (value : A) (json : A → JSON)
    : list (string * JSON) :=
  if value == go_zero then [] else [(name, json value)].

(** ** Requests and responses *)

Record Request := mkRequest {
  req_headers : gmap string (list string);
  req_query : gmap string string;
  req_path : gmap string string;
  req_ContentLength : Z;
  req_body : string;
  req_principal : option Principal;
  req_external : option ExternalIdentity;
  req_requestID : string
}.
#[export] Instance eta_Request : Eta Request := λ r,
  mkRequest (req_headers r) (req_query r) (req_path r) (req_ContentLength r) (req_body r)
    (req_principal r) (req_external r) (req_requestID r).

(** [r.Header.Get], [r.URL.Query().Get] and [r.PathValue]: empty when missing. *)
Definition Header_Get (r : Request) (name : string) : string :=
  match req_headers r !! name with Some (value :: _) => value | _ => "" end.
Definition Query_Get (r : Request) (name : string) : string := map_get (req_query r) name.
Definition PathValue (r : Request) (name : string) : string := map_get (req_path r) name.

Record Response := mkResponse {
  resp_status : Z;
  resp_headers : list (string * string);
  resp_body : list JSON
}.
#[export] Instance eta_Response : Eta Response := λ r,
  mkResponse (resp_status r) (resp_headers r) (resp_body r).

Definition set_header (name value : string) (r : Response) : Response :=
  r <| resp_headers := (name, value) :: resp_headers r |>.

Definition StatusOK : Z := 200.
Definition StatusCreated : Z := 201.
Definition StatusNoContent : Z := 204.
Definition StatusBadRequest : Z := 400.
Definition StatusUnauthorized : Z := 401.
Definition StatusForbidden : Z := 403.
Definition StatusNotFound : Z := 404.
Definition StatusConflict : Z := 409.
Definition StatusPreconditionFailed : Z := 412.
Definition StatusRequestEntityTooLarge : Z := 413.
Definition StatusUnsupportedMediaType : Z := 415.
Definition StatusInternalServerError : Z := 500.
Definition StatusServiceUnavailable : Z := 503.

Definition writeJSON (status : Z) (value : JSON) : Response :=
  mkResponse status [("Content-Type", "application/json; charset=utf-8")] [value].
Definition writeData (status : Z) (data : JSON) : Response := writeJSON status (JObject [("data", data)]).
(** [w.WriteHeader(http.StatusNoContent)] *)
Definition no_content : Response := mkResponse StatusNoContent [] [].

Definition nullableString (value : string) : JSON := if value == "" then JNull else JString value.
Definition nullableInt64 (value : Z) : JSON := if value =? 0 then JNull else JInt value.

(** ** Errors *)

Definition statusFor (code : ErrorCode) : Z :=
  if (code == CodeInvalidRequest) || (code == CodeInvalidCursor) then StatusBadRequest
  else if code == CodeUnauthenticated then StatusUnauthorized
  else if code == CodeForbidden then StatusForbidden
  else if code == CodeNotFound then StatusNotFound
  else if (code == CodeNameConflict) || (code == CodeInvalidState) || (code == CodeIdempotencyConflict) ||
          (code == CodeRestoreConflict) then StatusConflict
  else if code == CodeRevisionMismatch then StatusPreconditionFailed
  else if code == CodeRequestTooLarge then StatusRequestEntityTooLarge
  else if code == CodeUnsupportedMediaType then StatusUnsupportedMediaType
  else if code == CodeDependencyUnavailable then StatusServiceUnavailable
  else StatusInternalServerError.

Definition externalMessage (code : ErrorCode) : string :=
  if code == CodeUnauthenticated then "a valid bearer token is required"
  else if code == CodeForbidden then
    "the authenticated principal is not allowed to perform this operation"
  else if code == CodeNotFound then "resource was not found"
  else if code == CodeNameConflict then "an active item with this name already exists"
  else if code == CodeInvalidState then "resource is not in a valid state for this operation"
  else if code == CodeIdempotencyConflict then "request differs from the first completed operation"
  else if code == CodeRestoreConflict then "the original location is unavailable"
  else if code == CodeRequestTooLarge then "request exceeds the allowed size"
  else if code == CodeUnsupportedMediaType then "content type must be application/json"
  else if code == CodeDependencyUnavailable then "a required dependency is unavailable"
  else if code == CodeInvalidCursor then "cursor is invalid"
  else if code == CodeRevisionMismatch then "resource revision does not match"
  else if code == CodeInvalidRequest then "request is invalid"
  else "internal server error".

Definition error_message (err : GoError) : string :=
  let code := CodeOf (Some err) in
  match AsDomain err with
  | Some (DomainError _ message _ _) =>
    if (code == CodeInvalidRequest) || (code == CodeInvalidCursor) || (code == CodeRevisionMismatch)
    then message else externalMessage code
  | _ => externalMessage code
  end.

(** What is logged about the error is not modelled. *)
Definition writeError (r : Request) (err : GoError) : Response :=
  let code := CodeOf (Some err) in
  writeJSON (statusFor code) (JObject [("error", JObject
    [("code", JString code); ("message", JString (error_message err));
     ("request_id", JString (req_requestID r))])]).

(** ** Parsing *)

Definition parseLimit (value : string) : Outcome Z :=
  if value == "" then Ok 50 else
  match Atoi value with
  | Some limit => if (limit <? 1) || (200 <? limit)
                  then Err (E CodeInvalidRequest "limit must be between 1 and 200") else Ok limit
  | None => Err (E CodeInvalidRequest "limit must be between 1 and 200")
  end.

Definition parsePartListLimit (value : string) : Outcome Z :=
  if value == "" then Ok 0 else
  match Atoi value with
  | Some limit => if (limit <? 1) || (MaxUploadParts <? limit)
                  then Err (E CodeInvalidRequest "limit must be between 1 and 10000") else Ok limit
  | None => Err (E CodeInvalidRequest "limit must be between 1 and 10000")
  end.

(** [value[0]] and [value[len(value)-1]] *)
Definition first_byte (s : string) : option Z := head (bytes s).
Definition last_byte (s : string) : option Z := last (bytes s).
Definition inner (s : string) : string := String.substring 1 (String.length s - 2) s.

Definition parseETag (value : string) : Outcome Z :=
  let invalid := Err (E CodeInvalidRequest "If-Match must contain a quoted revision") in
  if (zstrlen value <? 3) || (first_byte value != Some 34) || (last_byte value != Some 34) then invalid else
  match ParseInt (inner value) with
  | Some revision => if revision <=? 0 then invalid else Ok revision
  | None => invalid
  end.

Definition etag (revision : Z) : string := dquote +:+ json_int revision +:+ dquote.
Definition setETag (revision : Z) (r : Response) : Response := set_header "ETag" (etag revision) r.

Definition idempotencyKeyHeader : string := "Idempotency-Key".
Definition idempotencyReplayedHeader : string := "Idempotency-Replayed".

Definition parseIdempotencyKey (r : Request) : Outcome string :=
  match default [] (req_headers r !! idempotencyKeyHeader) with
  | [] => Ok ""
  | [value] => match ValidateIdempotencyKey value with
               | Some err => Err err
               | None => Ok value
               end
  | _ => Err (E CodeInvalidRequest "Idempotency-Key must be provided at most once")
  end.

(** [time.Parse] with the RFC 3339 layout, in UTC. *)
Class TimeParser := { ParseRFC3339 : string → option Time }.

Definition parseOptionalTime `{!TimeParser} (raw : string) : Outcome Time :=
  if raw == "" then Ok 0 else
  match ParseRFC3339 raw with
  | Some value => Ok value
  | None => Err (E CodeInvalidRequest "time filter must use RFC3339")
  end.

Definition parseAuditFilter `{!TimeParser} (r : Request) : Outcome (Z * Time * Time * Z) :=
  let raw := Query_Get r "after_sequence" in
  after ← (if raw == "" then Ok 0 else
           match ParseInt raw with
           | Some after => if after <? 0 then Err (E CodeInvalidRequest "after_sequence is invalid") else Ok after
           | None => Err (E CodeInvalidRequest "after_sequence is invalid")
           end);
  limit ← parseLimit (Query_Get r "limit");
  from ← parseOptionalTime (Query_Get r "from");
  until ← parseOptionalTime (Query_Get r "until");
  Ok (after, from, until, limit).

(** ** Bodies

    [decode_body] is what two calls of the decoder, with unknown fields refused
    and the body cut at the limit, find in a body. *)

Definition maxJSONBody : Z := 2 ^ 20.

Inductive Decoded (A : Type) :=
| BodyTooLarge
| BodyEmpty
| BodyInvalid
| BodyTrailing (a : A)
| BodyValue (a : A).
Arguments BodyTooLarge {A}.
Arguments BodyEmpty {A}.
Arguments BodyInvalid {A}.
Arguments BodyTrailing {A} a.
Arguments BodyValue {A} a.

Class BodyDecoder (A : Type) := { decode_body : Z → string → Decoded A }.

(** [None] is the destination left as it was, for an empty body that is allowed. *)
Definition decodeJSON {A} `{!Platform, !BodyDecoder A} (r : Request) (max : Z) (allowEmpty : bool)
    : Outcome (option A) :=
  if ParseMediaType (Header_Get r "Content-Type") != Some "application/json" then
    Err (E CodeUnsupportedMediaType "content type must be application/json") else
  match decode_body max (req_body r) with
  | BodyTooLarge => Err (E CodeRequestTooLarge "request body exceeds the allowed size")
  | BodyEmpty => if allowEmpty then Ok None
                 else Err (E CodeInvalidRequest "request body must be a valid JSON object")
  | BodyInvalid => Err (E CodeInvalidRequest "request body must be a valid JSON object")
  | BodyTrailing _ => Err (E CodeInvalidRequest "request body must contain one JSON object")
  | BodyValue a => Ok (Some a)
  end.

(** The bodies the handlers decode. *)
Record MemberBody := mkMemberBody { MemberBody_Role : option AccessRole; MemberBody_Status : option MemberStatus }.
Record InvitationBody := mkInvitationBody {
  InvitationBody_Issuer : string;
  InvitationBody_Subject : string;
  InvitationBody_DisplayName : string;
  InvitationBody_Role : AccessRole;
  InvitationBody_ExpiresAt : Time
}.
Record TokenBody := mkTokenBody { TokenBody_Token : string }.
Record GroupBody := mkGroupBody { GroupBody_Name : string }.
Record ACLBody := mkACLBody {
  ACLBody_SubjectType : ACLSubjectType;
  ACLBody_SubjectID : string;
  ACLBody_Role : ACLRole
}.
Record DirectoryBody := mkDirectoryBody { DirectoryBody_ParentID : string; DirectoryBody_Name : string }.
Record NodeBody := mkNodeBody { NodeBody_Name : option string; NodeBody_ParentID : option string }.
Record UploadBody := mkUploadBody {
  UploadBody_ParentID : string;
  UploadBody_Name : string;
  UploadBody_Size : Z;
  UploadBody_MimeType : string;
  UploadBody_Checksum : Checksum
}.
Record PartBody := mkPartBody { PartBody_PartNumber : Z; PartBody_Checksum : Checksum }.
Record CompleteBody := mkCompleteBody { CompleteBody_Parts : list CompletedPart }.

Class BodyDecoders := {
  decode_MemberBody :: BodyDecoder MemberBody;
  decode_InvitationBody :: BodyDecoder InvitationBody;
  decode_TokenBody :: BodyDecoder TokenBody;
  decode_GroupBody :: BodyDecoder GroupBody;
  decode_ACLBody :: BodyDecoder ACLBody;
  decode_DirectoryBody :: BodyDecoder DirectoryBody;
  decode_NodeBody :: BodyDecoder NodeBody;
  decode_UploadBody :: BodyDecoder UploadBody;
  decode_PartBody :: BodyDecoder PartBody;
  decode_CompleteBody :: BodyDecoder CompleteBody;
  decode_empty :: BodyDecoder unit
}.

(** ** Response bodies: the structs and their tags *)

Definition toTenantResponse (tenant : Tenant) : JSON :=
  JObject [("id", JString (Tenant_ID tenant)); ("display_name", JString (Tenant_DisplayName tenant));
           ("root_directory_id", JString (Tenant_RootNodeID tenant));
           ("created_at", JTime (Tenant_CreatedAt tenant))].
Definition toMemberResponse (member : PrincipalRecord) : JSON :=
  JObject [("principal_id", JString (Identity_PrincipalID (PrincipalRecord_Identity member)));
           ("display_name", JString (PrincipalRecord_DisplayName member));
           ("role", JString (PrincipalRecord_Role member));
           ("status", JString (PrincipalRecord_Status member))].
Definition toInvitationResponse (v : TenantInvitation) : JSON :=
  JObject [("id", JString (TenantInvitation_ID v)); ("issuer", JString (TenantInvitation_Issuer v));
           ("subject", JString (TenantInvitation_Subject v));
           ("display_name", JString (TenantInvitation_DisplayName v));
           ("role", JString (TenantInvitation_Role v)); ("status", JString (TenantInvitation_Status v));
           ("expires_at", JTime (TenantInvitation_ExpiresAt v));
           ("created_at", JTime (TenantInvitation_CreatedAt v))].
Definition toGroupResponse (group : TenantGroup) : JSON :=
  JObject [("id", JString (TenantGroup_ID group)); ("name", JString (TenantGroup_DisplayName group));
           ("created_at", JTime (TenantGroup_CreatedAt group));
           ("updated_at", JTime (TenantGroup_UpdatedAt group))].
Definition toACLResponse (entry : NodeACLEntry) : JSON :=
  JObject [("id", JString (NodeACLEntry_ID entry)); ("node_id", JString (NodeACLEntry_NodeID entry));
           ("subject_type", JString (NodeACLEntry_SubjectType entry));
           ("subject_id", JString (NodeACLEntry_SubjectID entry));
           ("role", JString (NodeACLEntry_Role entry));
           ("created_at", JTime (NodeACLEntry_CreatedAt entry));
           ("updated_at", JTime (NodeACLEntry_UpdatedAt entry))].
(** A map is encoded with its keys in increasing order. *)
Definition json_map `{!MapRange} (m : gmap string string) : JSON :=
  JObject ((λ '(k, v), (k, JString v)) <$>
    sort_slice (λ x y : string * string, str_ltb x.1 y.1) (map_range 0 m)).
Definition toAuditResponse `{!MapRange} (event : AuditEvent) : JSON :=
  JObject ([("sequence", JInt (AuditEvent_Sequence event)); ("id", JString (AuditEvent_ID event))] ++
    omit_empty "actor_principal_id" (AuditEvent_ActorPrincipalID event) JString ++
    [("action", JString (AuditEvent_Action event)); ("target_type", JString (AuditEvent_TargetType event))] ++
    omit_empty "target_id" (AuditEvent_TargetID event) JString ++
    omit_empty "request_id" (AuditEvent_RequestID event) JString ++
    [("metadata", json_map (AuditEvent_Metadata event)); ("occurred_at", JTime (AuditEvent_OccurredAt event))]).
Definition toNodeResponse (node : Node) : JSON :=
  JObject ([("id", JString (Node_ID node))] ++ omit_empty "parent_id" (Node_ParentID node) JString ++
    [("kind", JString (Node_Kind node)); ("name", JString (Node_DisplayName node))] ++
    omit_empty "size" (Node_Size node) JInt ++ omit_empty "mime_type" (Node_MimeType node) JString ++
    [("revision", JInt (Node_Revision node)); ("created_at", JTime (Node_CreatedAt node));
     ("updated_at", JTime (Node_UpdatedAt node))]).
Definition toUploadResponse (upload : UploadSession) : JSON :=
  JObject [("id", JString (UploadSession_ID upload)); ("parent_id", JString (UploadSession_ParentID upload));
           ("name", JString (UploadSession_DisplayName upload));
           ("expected_size", JInt (UploadSession_ExpectedSize upload));
           ("mime_type", JString (UploadSession_MimeType upload));
           ("status", JString (UploadSession_Status upload));
           ("part_size", JInt (UploadSession_PartSize upload));
           ("expires_at", JTime (UploadSession_ExpiresAt upload));
           ("committed_file_id", nullableString (UploadSession_CommittedNodeID upload))].
Definition toListedPartResponse (part : StoredPart) : JSON :=
  JObject ([("part_number", JInt (StoredPart_PartNumber part)); ("etag", JString (StoredPart_ETag part));
            ("size", JInt (StoredPart_Size part))] ++
    omit_empty "storage_sha256" (Checksum_Value (StoredPart_StorageChecksum part)) JString ++
    [("reusable", JBool (StoredPart_Reusable part))]).
Definition toUploadPartsResponse (listing : UploadPartListing) : JSON :=
  JObject [("upload_id", JString (UploadPartListing_UploadID listing));
           ("status", JString (UploadPartListing_Status listing));
           ("part_size", JInt (UploadPartListing_PartSize listing));
           ("parts", JArray (toListedPartResponse <$> UploadPartListing_Parts listing));
           ("complete", JBool (UploadPartListing_Complete listing))].

(** A page of a listing with its cursor. *)
Definition writePage {A} (to : A → JSON) (page : Page A) : Response :=
  writeJSON StatusOK (JObject [("data", JArray (to <$> Page_Items page));
    ("page", JObject [("next_cursor", nullableString (Page_NextCursor page))])]).
Definition writeList {A} (to : A → JSON) (items : list A) : Response :=
  writeJSON StatusOK (JObject [("data", JArray (to <$> items))]).
