(* ===== verification/ServerAPI.v ===== *)
(** * The handlers of the HTTP API (src/internal/server/api.go)

    A handler returns its response or the error it hands to [writeError]: every
    error path of the code is a call of [writeError] followed by a return, which
    [serve_handler] (Server.v) does for all of them. The handlers run in the
    world of the service. *)
From S2P Require Import Prelude Errors GoLib Types Validation Auth Ports Service ServiceNamespace ServiceUploads ServiceGovernance ServerWire.

Section handlers.
Context {R T : Type} `{!Platform, !MapRange, !CursorJSON, !Runtime, !RepositoryPort R, !StorageProvider T}.
Context `{!TimeParser, !BodyDecoders}.
Context (s : Service).
Abbreviation M := (GoM (World R T)) (only parsing).

(** ** The identity of a request *)

(** [r.Context()], as the service reads it. *)
Definition context (r : Request) : Context := mkContext (Some (req_requestID r)).
Definition identity (r : Request) : Identity :=
  match req_principal r with Some principal => Principal_Identity principal | None => go_zero end.
Definition memberActor (r : Request) : MemberActor :=
  let principal := default go_zero (req_principal r) in
  mkMemberActor (Principal_Identity principal) (Principal_Role principal).

(** [principal, ok := auth.FromContext(r.Context())] *)
Definition FromContext (r : Request) : M Principal :=
  match req_principal r with
  | Some principal => ret principal
  | None => throw (E CodeUnauthenticated "a valid bearer token is required")
  end.
Definition actor_of (principal : Principal) : MemberActor :=
  mkMemberActor (Principal_Identity principal) (Principal_Role principal).

(** A required body, and one that may be missing or empty. *)
Definition body_of (A : Type) `{!BodyDecoder A} `{!GoZero A} (r : Request) : M A :=
  input ← lift (decodeJSON r maxJSONBody false); ret (default go_zero input).
Definition empty_body (r : Request) : M unit :=
  if negb (req_ContentLength r =? 0) then
    _ ← lift (decodeJSON (A := unit) r maxJSONBody true); ret tt
  else ret tt.

#[local] Instance zero_MemberBody : GoZero MemberBody := mkMemberBody None None.
#[local] Instance zero_InvitationBody : GoZero InvitationBody := mkInvitationBody "" "" "" "" 0.
#[local] Instance zero_TokenBody : GoZero TokenBody := mkTokenBody "".
#[local] Instance zero_GroupBody : GoZero GroupBody := mkGroupBody "".
#[local] Instance zero_ACLBody : GoZero ACLBody := mkACLBody "" "" "".
#[local] Instance zero_DirectoryBody : GoZero DirectoryBody := mkDirectoryBody "" "".
#[local] Instance zero_NodeBody : GoZero NodeBody := mkNodeBody None None.
#[local] Instance zero_UploadBody : GoZero UploadBody := mkUploadBody "" "" 0 "" go_zero.
#[local] Instance zero_PartBody : GoZero PartBody := mkPartBody 0 go_zero.
#[local] Instance zero_CompleteBody : GoZero CompleteBody := mkCompleteBody [].

(** ** Elevation through access control lists *)

Definition authorizeACLElevation (r : Request) (nodeID : string) (permission : Permission)
    (capability : NodeCapability) : M unit :=
  principal ← FromContext r;
  if HasPermission principal permission then ret tt
  else ServiceGovernance.AuthorizeNode (Principal_Identity principal) nodeID capability.

Definition authorizeUploadElevation (r : Request) (uploadID : string) (permission : Permission)
    (capability : NodeCapability) : M unit :=
  principal ← FromContext r;
  if HasPermission principal permission then ret tt else
  upload ← ServiceUploads.Upload (Principal_Identity principal) uploadID;
  ServiceGovernance.AuthorizeNode (Principal_Identity principal) (UploadSession_ParentID upload) capability.

(** ** Service state *)

Definition health (r : Request) : M Response :=
  ret (writeJSON StatusOK (JObject [("service", JString "asteria-server"); ("status", JString "ok")])).
Definition ready (r : Request) : M Response :=
  result ← try_ ServiceNamespace.Ready;
  ret match result with
      | inl _ => writeJSON StatusServiceUnavailable
          (JObject [("service", JString "asteria-server"); ("status", JString "not_ready")])
      | inr _ => writeJSON StatusOK
          (JObject [("service", JString "asteria-server"); ("status", JString "ready")])
      end.
Definition notFound (r : Request) : M Response := throw (E CodeNotFound "API route was not found").

Definition getTenant (r : Request) : M Response :=
  tenant ← ServiceNamespace.GetTenant (Identity_TenantID (identity r));
  ret (writeData StatusOK (toTenantResponse tenant)).

(** ** Members and invitations *)

Definition listMembers (r : Request) : M Response :=
  limit ← lift (parseLimit (Query_Get r "limit"));
  page ← ServiceNamespace.ListMembers s (identity r) (Query_Get r "cursor") limit;
  ret (writePage toMemberResponse page).

Definition updateMember (r : Request) : M Response :=
  input ← body_of MemberBody r;
  principal ← FromContext r;
  member ← ServiceNamespace.UpdateMember (context r) (actor_of principal) (PathValue r "principal_id")
             (MemberBody_Role input) (MemberBody_Status input);
  ret (writeData StatusOK (toMemberResponse member)).

Definition deleteMember (r : Request) : M Response :=
  principal ← FromContext r;
  _ ← ServiceNamespace.DeleteMember (context r) (actor_of principal) (PathValue r "principal_id");
  ret no_content.

Definition createInvitation (r : Request) : M Response :=
  input ← body_of InvitationBody r;
  principal ← FromContext r;
  out ← ServiceNamespace.CreateInvitation (context r) (actor_of principal) (InvitationBody_Issuer input)
          (InvitationBody_Subject input) (InvitationBody_DisplayName input) (InvitationBody_Role input)
          (InvitationBody_ExpiresAt input);
  ret (writeData StatusCreated (JObject
    [("invitation", toInvitationResponse (InvitationOutput_Invitation out));
     ("token", JString (InvitationOutput_Token out))])).

Definition listInvitations (r : Request) : M Response :=
  principal ← FromContext r;
  items ← ServiceNamespace.ListInvitations (actor_of principal) (Query_Get r "status") 100;
  ret (writeList toInvitationResponse items).

Definition revokeInvitation (r : Request) : M Response :=
  principal ← FromContext r;
  v ← ServiceNamespace.RevokeInvitation (context r) (actor_of principal) (PathValue r "invitation_id");
  ret (writeData StatusOK (toInvitationResponse v)).

Definition acceptInvitation (r : Request) : M Response :=
  input ← body_of TokenBody r;
  match req_external r with
  | None => throw (E CodeUnauthenticated "a verified external identity is required")
  | Some external =>
    '(invitation, member, err) ← ServiceNamespace.AcceptInvitation (context r) (TokenBody_Token input)
       (ExternalIdentity_Issuer external) (ExternalIdentity_Subject external);
    _ ← check_err err;
    ret (writeData StatusOK (JObject [("tenant_id", JString (TenantInvitation_TenantID invitation));
                                      ("member", toMemberResponse member)]))
  end.

(** ** Groups *)

Definition createGroup (r : Request) : M Response :=
  input ← body_of GroupBody r;
  group ← ServiceGovernance.CreateGroup (context r) (memberActor r) (GroupBody_Name input);
  ret (set_header "Location" ("/api/v1/tenant/groups/" +:+ TenantGroup_ID group)
         (writeData StatusCreated (toGroupResponse group))).

Definition listGroups (r : Request) : M Response :=
  groups ← ServiceGovernance.ListGroups (memberActor r);
  ret (writeList toGroupResponse groups).

Definition updateGroup (r : Request) : M Response :=
  input ← body_of GroupBody r;
  group ← ServiceGovernance.UpdateGroup (context r) (memberActor r) (PathValue r "group_id") (GroupBody_Name input);
  ret (writeData StatusOK (toGroupResponse group)).

Definition deleteGroup (r : Request) : M Response :=
  _ ← ServiceGovernance.DeleteGroup (context r) (memberActor r) (PathValue r "group_id");
  ret no_content.

Definition listGroupMembers (r : Request) : M Response :=
  members ← ServiceGovernance.ListGroupMembers (memberActor r) (PathValue r "group_id");
  ret (writeList toMemberResponse members).

Definition addGroupMember (r : Request) : M Response :=
  _ ← ServiceGovernance.AddGroupMember (context r) (memberActor r) (PathValue r "group_id") (PathValue r "principal_id");
  ret no_content.

Definition removeGroupMember (r : Request) : M Response :=
  _ ← ServiceGovernance.RemoveGroupMember (context r) (memberActor r) (PathValue r "group_id") (PathValue r "principal_id");
  ret no_content.

(** ** Access control lists *)

Definition listNodeACL (r : Request) : M Response :=
  entries ← ServiceGovernance.ListNodeACL (memberActor r) (PathValue r "id");
  ret (writeList toACLResponse entries).

Definition setNodeACL (r : Request) : M Response :=
  input ← body_of ACLBody r;
  entry ← ServiceGovernance.SetNodeACL (context r) (memberActor r) (PathValue r "id")
            (ACLBody_SubjectType input) (ACLBody_SubjectID input) (ACLBody_Role input);
  ret (writeData StatusOK (toACLResponse entry)).

Definition deleteNodeACL (r : Request) : M Response :=
  _ ← ServiceGovernance.DeleteNodeACL (context r) (memberActor r) (PathValue r "id") (PathValue r "entry_id");
  ret no_content.

(** ** Audit trail *)

Definition listAuditEvents (r : Request) : M Response :=
  '(after, from, until, limit) ← lift (parseAuditFilter r);
  page ← ServiceGovernance.ListAudit (memberActor r) after from until limit;
  ret (writeJSON StatusOK (JObject [("data", JArray (toAuditResponse <$> AuditPage_Items page));
    ("page", JObject [("next_sequence", nullableInt64 (AuditPage_NextSequence page))])])).

Definition maxExport : Z := 10000.

(** The loop that collects the pages. A page that is not the last one holds 1000
    events, so after eleven pages the loop has ended: [fuel] counts them. *)
Fixpoint export_pages (r : Request) (from until : Time) (fuel : nat) (after : Z) (events : list AuditEvent)
    : M (list AuditEvent) :=
  if negb (zlen events <=? maxExport) then ret events else
  match fuel with
  | O => lift Diverged
  | S fuel =>
    page ← ServiceGovernance.ListAudit (memberActor r) after from until 1000;
    let events := events ++ AuditPage_Items page in
    if AuditPage_NextSequence page =? 0 then ret events
    else export_pages r from until fuel (AuditPage_NextSequence page) events
  end.

Definition exportAuditEvents (r : Request) : M Response :=
  '(_, from, until, _) ← lift (parseAuditFilter r);
  if IsZero from || IsZero until then
    throw (E CodeInvalidRequest "audit export requires from and until") else
  events ← export_pages r from until 11 0 [];
  if maxExport <? zlen events then
    throw (E CodeInvalidRequest "audit export exceeds 10000 events; narrow the time range")
  else ret (mkResponse StatusOK
    [("Content-Type", "application/x-ndjson");
     ("Content-Disposition", "attachment; filename=" +:+ dquote +:+ "asteria-audit.ndjson" +:+ dquote);
     ("X-Content-Type-Options", "nosniff")] (toAuditResponse <$> events)).

(** ** Namespace *)

Definition format_bool (b : bool) : string := if b then "true" else "false".
Definition replay_header (key : string) (replayed : bool) (resp : Response) : Response :=
  if key != "" then set_header idempotencyReplayedHeader (format_bool replayed) resp else resp.

Definition createDirectory (r : Request) : M Response :=
  input ← body_of DirectoryBody r;
  _ ← authorizeACLElevation r (DirectoryBody_ParentID input) PermissionFilesWrite NodeCapabilityWrite;
  key ← lift (parseIdempotencyKey r);
  output ← ServiceNamespace.CreateDirectoryWithIdempotency s (context r) (identity r)
             (DirectoryBody_ParentID input) (DirectoryBody_Name input) key;
  let node := CreateDirectoryOutput_Node output in
  ret (replay_header key (CreateDirectoryOutput_Replayed output)
         (set_header "Location" ("/api/v1/directories/" +:+ Node_ID node)
            (setETag (Node_Revision node) (writeData StatusCreated (toNodeResponse node))))).

Definition node_response (node : Node) : Response :=
  setETag (Node_Revision node) (writeData StatusOK (toNodeResponse node)).

Definition getDirectory (r : Request) : M Response :=
  node ← ServiceNamespace.GetNode (identity r) (PathValue r "id") NodeDirectory;
  ret (node_response node).
Definition getFile (r : Request) : M Response :=
  node ← ServiceNamespace.GetNode (identity r) (PathValue r "id") NodeFile;
  ret (node_response node).

Definition listChildren (r : Request) : M Response :=
  limit ← lift (parseLimit (Query_Get r "limit"));
  page ← ServiceNamespace.ListChildren s (identity r) (PathValue r "id") (Query_Get r "cursor") limit;
  ret (writePage toNodeResponse page).

Definition updateNode (r : Request) : M Response :=
  revision ← lift (parseETag (Header_Get r "If-Match"));
  input ← body_of NodeBody r;
  _ ← authorizeACLElevation r (PathValue r "id") PermissionFilesWrite NodeCapabilityWrite;
  _ ← match NodeBody_ParentID input with
      | Some parentID => authorizeACLElevation r parentID PermissionFilesWrite NodeCapabilityWrite
      | None => ret tt
      end;
  node ← ServiceNamespace.UpdateNode (context r) (identity r) (PathValue r "id")
           (NodeBody_Name input) (NodeBody_ParentID input) revision;
  ret (node_response node).

Definition recycleNode (r : Request) : M Response :=
  revision ← lift (parseETag (Header_Get r "If-Match"));
  _ ← authorizeACLElevation r (PathValue r "id") PermissionFilesDelete NodeCapabilityDelete;
  _ ← ServiceNamespace.Recycle (context r) (identity r) (PathValue r "id") revision;
  ret no_content.

Definition toRecycleResponse (entry : RecycleEntry) : JSON :=
  JObject [("node", toNodeResponse (RecycleEntry_Node entry));
           ("original_parent_id", JString (RecycleEntry_OriginalParentID entry));
           ("deleted_at", JTime (RecycleEntry_DeletedAt entry))].

Definition listRecycle (r : Request) : M Response :=
  limit ← lift (parseLimit (Query_Get r "limit"));
  page ← ServiceNamespace.ListRecycle s (identity r) (Query_Get r "cursor") limit;
  ret (writePage toRecycleResponse page).

Definition restoreNode (r : Request) : M Response :=
  revision ← lift (parseETag (Header_Get r "If-Match"));
  _ ← empty_body r;
  _ ← authorizeACLElevation r (PathValue r "id") PermissionFilesWrite NodeCapabilityWrite;
  node ← ServiceNamespace.Restore (context r) (identity r) (PathValue r "id") revision;
  ret (node_response node).

Definition purgeNode (r : Request) : M Response :=
  revision ← lift (parseETag (Header_Get r "If-Match"));
  _ ← authorizeACLElevation r (PathValue r "id") PermissionFilesDelete NodeCapabilityDelete;
  _ ← ServiceNamespace.Purge (context r) (identity r) (PathValue r "id") revision;
  ret no_content.

Definition no_store (resp : Response) : Response := set_header "Cache-Control" "no-store" resp.

Definition createDownloadAuthorization (r : Request) : M Response :=
  _ ← empty_body r;
  signed ← ServiceNamespace.Download s (identity r) (PathValue r "id");
  ret (no_store (writeData StatusCreated (JObject
    [("method", JString (SignedDownload_Method signed)); ("url", JString (SignedDownload_URL signed));
     ("expires_at", JTime (SignedDownload_ExpiresAt signed))]))).

(** ** Uploads *)

Definition createUpload (r : Request) : M Response :=
  input ← body_of UploadBody r;
  _ ← authorizeACLElevation r (UploadBody_ParentID input) PermissionFilesWrite NodeCapabilityWrite;
  key ← lift (parseIdempotencyKey r);
  output ← ServiceUploads.CreateUploadWithIdempotency s (identity r)
    (mkCreateUploadInput (UploadBody_ParentID input) (UploadBody_Name input) (UploadBody_Size input)
       (UploadBody_MimeType input) (UploadBody_Checksum input)) key;
  let upload := CreateUploadOutput_Upload output in
  ret (replay_header key (CreateUploadOutput_Replayed output)
         (set_header "Location" ("/api/v1/uploads/" +:+ UploadSession_ID upload)
            (writeData StatusCreated (toUploadResponse upload)))).

Definition getUpload (r : Request) : M Response :=
  upload ← ServiceUploads.Upload (identity r) (PathValue r "id");
  ret (writeData StatusOK (toUploadResponse upload)).

Definition listUploadParts (r : Request) : M Response :=
  limit ← lift (parsePartListLimit (Query_Get r "limit"));
  listing ← ServiceUploads.ListUploadParts (identity r) (PathValue r "id") limit;
  ret (no_store (writeData StatusOK (toUploadPartsResponse listing))).

Definition signUploadPart (r : Request) : M Response :=
  input ← body_of PartBody r;
  _ ← authorizeUploadElevation r (PathValue r "id") PermissionFilesWrite NodeCapabilityWrite;
  signed ← ServiceUploads.SignUploadPart s (identity r) (PathValue r "id")
             (PartBody_PartNumber input) (PartBody_Checksum input);
  ret (no_store (writeData StatusOK (JObject
    [("part_number", JInt (SignedPart_PartNumber signed)); ("method", JString (SignedPart_Method signed));
     ("url", JString (SignedPart_URL signed));
     ("required_headers", json_map (SignedPart_RequiredHeaders signed));
     ("expires_at", JTime (SignedPart_ExpiresAt signed))]))).

Definition completeUpload (r : Request) : M Response :=
  input ← body_of CompleteBody r;
  _ ← authorizeUploadElevation r (PathValue r "id") PermissionFilesWrite NodeCapabilityWrite;
  result ← ServiceUploads.CompleteUpload (context r) (identity r) (PathValue r "id") (CompleteBody_Parts input);
  ret (writeData (if CompleteOutput_First result then StatusCreated else StatusOK)
    (JObject [("upload", toUploadResponse (CompleteOutput_Upload result));
              ("file", toNodeResponse (CompleteOutput_Node result))])).

Definition abortUpload (r : Request) : M Response :=
  _ ← authorizeUploadElevation r (PathValue r "id") PermissionFilesWrite NodeCapabilityWrite;
  _ ← ServiceUploads.AbortUpload (identity r) (PathValue r "id");
  ret no_content.

End handlers.
