(* ===== verification/Server.v ===== *)
(** * Routes and middleware of the HTTP server (src/internal/server/server.go)

    [http.ServeMux] chooses the route of a request and is not modelled: a request
    comes with the route the mux chose. Logging, metrics and the listener are
    left out. *)
From S2P Require Import Prelude Errors GoLib Types Validation Auth Ports Service ServiceNamespace ServerWire ServerAPI.

Section server.
Context {R T : Type} `{!Platform, !MapRange, !CursorJSON, !Runtime, !RepositoryPort R, !StorageProvider T}.
Context `{!TimeParser, !BodyDecoders}.
Context (s : Service).
Abbreviation M := (GoM (World R T)) (only parsing).

Record apiRoute := mkApiRoute {
  route_pattern : string;
  route_permission : Permission;
  route_aclElevation : bool;
  route_handler : Request → M Response
}.

Definition publicAPIRoutes : list apiRoute :=
  [mkApiRoute "GET /healthz" "" false health; mkApiRoute "GET /readyz" "" false ready].
Definition externalAPIRoutes : list apiRoute :=
  [mkApiRoute "POST /api/v1/invitations/accept" "" false acceptInvitation].
Definition protectedAPIRoutes : list apiRoute :=
  [mkApiRoute "GET /api/v1/tenant" PermissionTenantRead false getTenant;
   mkApiRoute "GET /api/v1/tenant/members" PermissionMembersRead false (listMembers s);
   mkApiRoute "PATCH /api/v1/tenant/members/{principal_id}" PermissionMembersManage false updateMember;
   mkApiRoute "DELETE /api/v1/tenant/members/{principal_id}" PermissionMembersManage false deleteMember;
   mkApiRoute "POST /api/v1/tenant/invitations" PermissionMembersManage false createInvitation;
   mkApiRoute "GET /api/v1/tenant/invitations" PermissionMembersManage false listInvitations;
   mkApiRoute "POST /api/v1/tenant/invitations/{invitation_id}/revoke" PermissionMembersManage false revokeInvitation;
   mkApiRoute "POST /api/v1/tenant/groups" PermissionGroupsManage false createGroup;
   mkApiRoute "GET /api/v1/tenant/groups" PermissionGroupsManage false listGroups;
   mkApiRoute "PATCH /api/v1/tenant/groups/{group_id}" PermissionGroupsManage false updateGroup;
   mkApiRoute "DELETE /api/v1/tenant/groups/{group_id}" PermissionGroupsManage false deleteGroup;
   mkApiRoute "GET /api/v1/tenant/groups/{group_id}/members" PermissionGroupsManage false listGroupMembers;
   mkApiRoute "PUT /api/v1/tenant/groups/{group_id}/members/{principal_id}" PermissionGroupsManage false addGroupMember;
   mkApiRoute "DELETE /api/v1/tenant/groups/{group_id}/members/{principal_id}" PermissionGroupsManage false removeGroupMember;
   mkApiRoute "GET /api/v1/tenant/audit-events" PermissionAuditRead false listAuditEvents;
   mkApiRoute "GET /api/v1/tenant/audit-events/export" PermissionAuditRead false exportAuditEvents;
   mkApiRoute "POST /api/v1/directories" PermissionFilesWrite true (createDirectory s);
   mkApiRoute "GET /api/v1/directories/{id}" PermissionFilesRead false getDirectory;
   mkApiRoute "GET /api/v1/directories/{id}/children" PermissionFilesRead false (listChildren s);
   mkApiRoute "GET /api/v1/files/{id}" PermissionFilesRead false getFile;
   mkApiRoute "POST /api/v1/files/{id}/download-authorizations" PermissionFilesRead false (createDownloadAuthorization s);
   mkApiRoute "PATCH /api/v1/nodes/{id}" PermissionFilesWrite true updateNode;
   mkApiRoute "DELETE /api/v1/nodes/{id}" PermissionFilesDelete true recycleNode;
   mkApiRoute "GET /api/v1/nodes/{id}/acl" PermissionFilesRead false listNodeACL;
   mkApiRoute "PUT /api/v1/nodes/{id}/acl" PermissionFilesRead false setNodeACL;
   mkApiRoute "DELETE /api/v1/nodes/{id}/acl/{entry_id}" PermissionFilesRead false deleteNodeACL;
   mkApiRoute "POST /api/v1/uploads" PermissionFilesWrite true (createUpload s);
   mkApiRoute "GET /api/v1/uploads/{id}" PermissionFilesRead false getUpload;
   mkApiRoute "GET /api/v1/uploads/{id}/parts" PermissionFilesRead false listUploadParts;
   mkApiRoute "POST /api/v1/uploads/{id}/parts/sign" PermissionFilesWrite true (signUploadPart s);
   mkApiRoute "POST /api/v1/uploads/{id}/complete" PermissionFilesWrite true completeUpload;
   mkApiRoute "DELETE /api/v1/uploads/{id}" PermissionFilesWrite true abortUpload;
   mkApiRoute "GET /api/v1/recycle-bin" PermissionFilesRead false (listRecycle s);
   mkApiRoute "POST /api/v1/recycle-bin/{id}/restore" PermissionFilesWrite true restoreNode;
   mkApiRoute "DELETE /api/v1/recycle-bin/{id}" PermissionFilesDelete true purgeNode].

(** ** Middleware *)

(** An authenticator finds the principal of a request; one that knows external
    identities also finds those. *)
Record Authenticator := mkAuthenticator {
  auth_Principal : Request → M Principal;
  auth_External : option (Request → M ExternalIdentity)
}.

Definition is_request_rune (rune : Z) : bool :=
  (rune =? 45) || (rune =? 95) || (rune =? 46) || in_range 48 57 rune || in_range 97 122 rune || in_range 65 90 rune.
Definition validRequestID (value : string) : bool :=
  if (zstrlen value <? 8) || (128 <? zstrlen value) then false
  else forallb (λ '(_, rune, _), is_request_rune rune) (range_string value).

(** The identifier of the request: the client's if it is acceptable. *)
Definition requestID (r : Request) : M string :=
  let id := Header_Get r "X-Request-ID" in
  if validRequestID id then ret id else
  rnd ← rand_read 16;
  ret match NewID rnd with Ok generated => "req_" +:+ generated | _ => "req_unavailable" end.

Definition authorize (permission : Permission) (aclElevation : bool) (r : Request) : M unit :=
  principal ← FromContext r;
  if (permission != "") && negb (HasPermission principal permission) && negb aclElevation then
    throw (E CodeForbidden "the authenticated principal lacks this permission")
  else ret tt.

Definition protected (authenticator : Authenticator) (permission : Permission) (aclElevation : bool)
    (next : Request → M Response) (r : Request) : M Response :=
  principal ← auth_Principal authenticator r;
  let r := r <| req_principal := Some principal |> in
  _ ← authorize permission aclElevation r;
  next r.

Definition external (authenticator : Authenticator) (next : Request → M Response) (r : Request) : M Response :=
  match auth_External authenticator with
  | Some authenticate =>
      identity ← authenticate r;
      next (r <| req_external := Some identity |>)
  | None => throw (E CodeUnauthenticated "external identity authentication is unavailable")
  end.

(** What the mux chose: one of the routes, or the fallback of "/api/". *)
Inductive Routed :=
| PublicRoute (route : apiRoute)
| ExternalRoute (route : apiRoute)
| ProtectedRoute (route : apiRoute)
| UnknownRoute.

Definition dispatch (authenticator : Authenticator) (routed : Routed) (r : Request) : M Response :=
  match routed with
  | PublicRoute route => route_handler route r
  | ExternalRoute route => external authenticator (route_handler route) r
  | ProtectedRoute route =>
      protected authenticator (route_permission route) (route_aclElevation route) (route_handler route) r
  | UnknownRoute => protected authenticator "" false notFound r
  end.

(** An error becomes a response, and so does a panic. *)
Definition serve_handler (handler : Request → M Response) (r : Request) : M Response := λ w,
  match handler r w with
  | (Err err, w') => (Ok (writeError r err), w')
  | (Panicked _, w') => (Ok (writeError r (E CodeInternal "internal server error")), w')
  | result => result
  end.

Definition ServeHTTP (authenticator : Authenticator) (routed : Routed) (r : Request) : M Response :=
  id ← requestID r;
  resp ← serve_handler (dispatch authenticator routed) (r <| req_requestID := id |>);
  ret (set_header "X-Request-ID" id resp).

(** The checks of [New]. *)
Definition NewServer (hasService hasAuthenticator : bool) : option GoError :=
  if negb hasService || negb hasAuthenticator then
    Some (E CodeInvalidRequest "service and authenticator are required") else None.

(** Authentication with configured tokens. *)
Definition trusted_authenticator (a : Trusted) : Authenticator :=
  mkAuthenticator (λ r, lift (Authenticate a (Header_Get r "Authorization")))
    (Some (λ r, lift (Trusted_ExternalIdentity a (Header_Get r "Authorization")))).

End server.
