(* ===== verification/ServerProperties.v ===== *)
(** * What the HTTP server guarantees *)
From S2P Require Import Prelude Errors Logic GoLib Types Validation MemoryState MemoryGroups Ports Service.
From S2P Require Import ServiceNamespace ServiceUploads ServiceGovernance WorldLogic Demo Auth AuthProperties Codecs.
From S2P Require Import ServerWire ServerAPI Server Sessions MemorySteps.
From S2P Require MemoryUploads MemoryStorage MemoryGovernance.

(** ** Requests without permission *)

Section permissions.
Context `{!Platform, !MapRange, !CursorJSON, !Runtime, !TimeParser, !BodyDecoders}.
Context (s : Service).
Abbreviation State := (World Repository MemoryStorage.Storage) (only parsing).
Implicit Types (w : State) (r : Request).

(** The repository lets the identity use the capability on the node. *)
Definition granted (repo : Repository) (i : Identity) (need : string * NodeCapability) : Prop :=
  authorizeNodeLocked repo i need.1 need.2 = Ok tt.

(** The nodes a request on an elevated route works on, with the capability it needs on
    each; none when the body cannot be read or the upload is not there. *)
Definition needed_access (pattern : string) (r : Request) (repo : Repository) (i : Identity)
    : option (list (string * NodeCapability)) :=
  let node := PathValue r "id" in
  let parent_of_upload := match repo_uploads repo !! node with
    | Some upload => if UploadSession_TenantID upload == Identity_TenantID i
                     then Some [(UploadSession_ParentID upload, NodeCapabilityWrite)] else None
    | None => None
    end in
  if pattern == "POST /api/v1/directories" then
    match decodeJSON (A := DirectoryBody) r maxJSONBody false with
    | Ok (Some input) => Some [(DirectoryBody_ParentID input, NodeCapabilityWrite)] | _ => None end
  else if pattern == "PATCH /api/v1/nodes/{id}" then
    match decodeJSON (A := NodeBody) r maxJSONBody false with
    | Ok (Some input) => Some ((node, NodeCapabilityWrite) ::
        match NodeBody_ParentID input with Some parent => [(parent, NodeCapabilityWrite)] | None => [] end)
    | _ => None end
  else if pattern == "POST /api/v1/uploads" then
    match decodeJSON (A := UploadBody) r maxJSONBody false with
    | Ok (Some input) => Some [(UploadBody_ParentID input, NodeCapabilityWrite)] | _ => None end
  else if (pattern == "DELETE /api/v1/nodes/{id}") || (pattern == "DELETE /api/v1/recycle-bin/{id}")
  then Some [(node, NodeCapabilityDelete)]
  else if pattern == "POST /api/v1/recycle-bin/{id}/restore" then Some [(node, NodeCapabilityWrite)]
  else if (pattern == "POST /api/v1/uploads/{id}/parts/sign") || (pattern == "POST /api/v1/uploads/{id}/complete") ||
          (pattern == "DELETE /api/v1/uploads/{id}")
  then parent_of_upload else None.
Definition permitted (pattern : string) (r : Request) (repo : Repository) (i : Identity) : Prop :=
  ∃ needs, needed_access pattern r repo i = Some needs ∧ Forall (granted repo i) needs.

(** [m] does not succeed and leaves the repository and the store as they were. *)
Definition refused {A} (m : GoM State A) w : Prop :=
  wp m (λ o w', (∀ a, o ≠ Ok a) ∧ w_repo w' = w_repo w ∧ w_storage w' = w_storage w) w.

Lemma refused_throw {A} e w : refused (throw (A := A) e) w.
Proof. by apply wp_throw. Qed.

Lemma refused_bind {A B} (m : GoM State A) (f : A → GoM State B) w : refused m w → refused (m ≫= f) w.
Proof.
  unfold refused. intros Hm. apply wp_bind. eapply wp_mono; [exact Hm|]. intros o w1 (Ho & Hs).
  destruct o as [a| | |]; simpl; try (by split). by destruct (Ho a).
Qed.

(** A first step that only checks. *)
Lemma refused_lift {A B} (o : Outcome A) (f : A → GoM State B) w :
  (∀ a, o = Ok a → refused (f a) w) → refused (lift o ≫= f) w.
Proof. intros Hf. apply wp_bind, wp_lift. destruct o; simpl; try done. by apply Hf. Qed.
Lemma refused_check {B} err (f : unit → GoM State B) w : refused (f tt) w → refused (check_err err ≫= f) w.
Proof. intros Hf. apply wp_bind, wp_check. by destruct err. Qed.
(** A first step that changes nothing, and whose success says [P]. *)
Lemma refused_after {A B} (P : Prop) (m : GoM State A) (f : A → GoM State B) w :
  wp m (λ o w', w_repo w' = w_repo w ∧ w_storage w' = w_storage w ∧ ∀ a, o = Ok a → P) w →
  (∀ a w', P → w_repo w' = w_repo w → refused (f a) w') → refused (m ≫= f) w.
Proof.
  intros Hm Hf. apply wp_bind. eapply wp_mono; [exact Hm|]. intros [a| | |] w1 (Hr & Hs & HP); simpl; try done.
  eapply wp_mono; [apply (Hf a w1); eauto|]. simpl. intros o w2 (? & -> & ->). done.
Qed.
Lemma refused_body {A B} `{!BodyDecoder A} `{!GoZero A} r (f : A → GoM State B) w :
  (∀ a, decodeJSON r maxJSONBody false = Ok (Some a) → refused (f a) w) → refused (body_of A r ≫= f) w.
Proof.
  intros Hf. unfold body_of. apply wp_bind, wp_bind, wp_lift.
  destruct (decodeJSON _ _ _) as [[a|]| | |] eqn:Hd; simpl; try done; [by apply Hf|].
  unfold decodeJSON in Hd. by repeat case_match.
Qed.
Lemma refused_empty_body {B} r (f : unit → GoM State B) w :
  refused (f tt) w → refused (empty_body r ≫= f) w.
Proof.
  intros Hf. unfold empty_body. destruct (negb _); [|by apply wp_bind, wp_ret].
  apply wp_bind, wp_bind, wp_lift. by destruct (decodeJSON _ _ _) as [a| | |].
Qed.

Lemma authorize_node i nodeID capability w : wp (ServiceGovernance.AuthorizeNode i nodeID capability)
  (λ o w', w_repo w' = w_repo w ∧ w_storage w' = w_storage w ∧
     ∀ a, o = Ok a → granted (w_repo w) i (nodeID, capability)) w.
Proof.
  unfold ServiceGovernance.AuthorizeNode.
  do 3 (apply wp_bind, wp_check; case_match; [done|]; simpl).
  destruct (negb _); [by apply wp_throw|]. apply wp_on_repo. unfold R_AuthorizeNode. simpl.
  unfold AuthorizeNode. apply wp_bind, wp_get. simpl. apply wp_lift.
  destruct w. split_and!; [done|done|]. by intros [].
Qed.

(** The check of the nine routes: nothing changes, and success is a grant. *)
Lemma elevation r p nodeID permission capability w :
  req_principal r = Some p → HasPermission p permission = false →
  wp (authorizeACLElevation r nodeID permission capability)
    (λ o w', w_repo w' = w_repo w ∧ w_storage w' = w_storage w ∧
       ∀ a, o = Ok a → granted (w_repo w) (Principal_Identity p) (nodeID, capability)) w.
Proof.
  intros Hp Hlacks. unfold authorizeACLElevation, FromContext. rewrite Hp.
  apply wp_bind, wp_ret. simpl. rewrite Hlacks. apply authorize_node.
Qed.
Lemma upload_elevation r p uploadID permission capability w :
  req_principal r = Some p → HasPermission p permission = false →
  wp (authorizeUploadElevation r uploadID permission capability)
    (λ o w', w_repo w' = w_repo w ∧ w_storage w' = w_storage w ∧
       ∀ a, o = Ok a → ∃ upload, repo_uploads (w_repo w) !! uploadID = Some upload ∧
         UploadSession_TenantID upload = Identity_TenantID (Principal_Identity p) ∧
         granted (w_repo w) (Principal_Identity p) (UploadSession_ParentID upload, capability)) w.
Proof.
  intros Hp Hlacks. unfold authorizeUploadElevation, FromContext. rewrite Hp.
  apply wp_bind, wp_ret. simpl. rewrite Hlacks. unfold ServiceUploads.Upload.
  apply wp_bind, wp_bind, wp_check. destruct (validateID uploadID); [done|]. simpl.
  apply wp_on_repo. unfold R_Upload. simpl. unfold MemoryUploads.Upload. apply wp_bind, wp_get. simpl. apply wp_lift.
  destruct (MemoryUploads.uploadFor _ _ _) as [upload| | |] eqn:Hu; simpl; try (by destruct w).
  apply uploadFor_lookup in Hu as [? ?].
  destruct w as [repo store readings draws]. unfold with_repo. simpl.
  eapply wp_mono; [apply authorize_node|]. simpl. intros o w' (-> & -> & Hg). split_and!; [done|done|].
  intros a Ha. exists upload. split_and!; [done|done|]. by eapply Hg.
Qed.

Ltac refuse_upload := eapply refused_after; [by apply upload_elevation|];
  intros _ w' (upload & Hu & Ht & Hg) _; lazymatch goal with H : ¬ ∃ needs, _ |- _ => destruct H end;
  rewrite Hu, Ht, bool_decide_eq_true_2 by done; eauto.
Lemma refused_elevated_route route r p w :
  route ∈ protectedAPIRoutes s → route_aclElevation route = true →
  req_principal r = Some p → HasPermission p (route_permission route) = false →
  ¬ permitted (route_pattern route) r (w_repo w) (Principal_Identity p) → refused (route_handler route r) w.
Proof.
  intros Hin Hel Hp Hlacks Hdenied. unfold protectedAPIRoutes in Hin.
  repeat (apply elem_of_cons in Hin as [->|Hin]; [try done; simpl in *|]); [..|by apply not_elem_of_nil in Hin];
    unfold permitted, needed_access in Hdenied; simpl in Hdenied.
  - unfold createDirectory. apply refused_body. intros input Hbody. rewrite Hbody in Hdenied.
    eapply refused_after; [by apply elevation|]. intros _ w' Hg _. destruct Hdenied. eauto.
  - unfold updateNode. apply refused_lift. intros revision _. apply refused_body. intros input Hbody.
    rewrite Hbody in Hdenied. eapply refused_after; [by apply elevation|]. intros _ w' Hg Hw.
    destruct (NodeBody_ParentID input) as [parent|]; [|destruct Hdenied; eauto].
    eapply refused_after; [by apply elevation|]. rewrite Hw. intros _ w'' Hg' _. destruct Hdenied. eauto 10.
  - unfold recycleNode. apply refused_lift. intros revision _.
    eapply refused_after; [by apply elevation|]. intros _ w' Hg _. destruct Hdenied. eauto.
  - unfold createUpload. apply refused_body. intros input Hbody. rewrite Hbody in Hdenied.
    eapply refused_after; [by apply elevation|]. intros _ w' Hg _. destruct Hdenied. eauto.
  - unfold signUploadPart. apply refused_body. intros input _. refuse_upload.
  - unfold completeUpload. apply refused_body. intros input _. refuse_upload.
  - unfold abortUpload. refuse_upload.
  - unfold restoreNode. apply refused_lift. intros revision _. apply refused_empty_body.
    eapply refused_after; [by apply elevation|]. intros _ w' Hg _. destruct Hdenied. eauto.
  - unfold purgeNode. apply refused_lift. intros revision _.
    eapply refused_after; [by apply elevation|]. intros _ w' Hg _. destruct Hdenied. eauto.
Qed.

(** C32: over the in-memory repository and store, a request on a protected route
    by a caller whose role does not have the permission of the route changes nothing
    and is answered with an error, unless it is one of the nine elevated routes and
    the repository grants the caller the capability of the route (to write, to delete)
    on every node the request works on: the parent of a new directory or upload, the
    node and its new parent, the recycled node, the parent of the session. A request
    that fails authentication changes nothing either, on any protected route. *)
Theorem unauthorized_requests_change_nothing authenticator route r w resp w' :
  route ∈ protectedAPIRoutes s →
  (∀ o w1, auth_Principal authenticator r w = (o, w1) → w1 = w ∧ ∀ p, o = Ok p →
     HasPermission p (route_permission route) = false ∧
     (route_aclElevation route = true →
        ¬ permitted (route_pattern route) r (w_repo w) (Principal_Identity p))) →
  serve_handler (dispatch authenticator (ProtectedRoute route)) r w = (Ok resp, w') →
  w_repo w' = w_repo w ∧ w_storage w' = w_storage w ∧ ∃ err, resp = writeError r err.
Proof.
  intros Hin Hauth Hserve.
  assert (refused (dispatch authenticator (ProtectedRoute route) r) w) as Hrefused.
  { simpl. unfold protected. apply wp_bind, wp_of_run. intros o w1 Hrun.
    destruct (Hauth o w1 Hrun) as [-> Hp]. destruct o as [p| | |]; simpl; try done.
    destruct (Hp p eq_refl) as [Hlacks Helevated]. unfold authorize, FromContext. simpl.
    apply wp_bind, wp_bind, wp_ret. simpl. rewrite Hlacks. simpl.
    assert (route_permission route ≠ "") as Hnonempty.
    { unfold protectedAPIRoutes in Hin.
      repeat (apply elem_of_cons in Hin as [->|Hin]; [done|]). by apply not_elem_of_nil in Hin. }
    rewrite (bool_decide_eq_false_2 (route_permission route = "")) by done. simpl.
    destruct (route_aclElevation route) eqn:Hel; simpl; [|by apply wp_throw].
    apply wp_ret. simpl. by eapply refused_elevated_route; [..|apply Helevated]. }
  unfold refused, wp in Hrefused. unfold serve_handler in Hserve.
  destruct (dispatch _ _ _ w) as [o w1]. simpl in Hrefused. destruct Hrefused as (Ho & Hrepo & Hstorage).
  destruct o as [a|err|message|]; [by destruct (Ho a)|..]; simplify_eq; eauto.
Qed.
End permissions.

(** ** Examples: requests to the service over the states of [Demo] *)

#[export] Instance example_times : TimeParser :=
  {| ParseRFC3339 raw := match ParseInt raw with Some t => Some t | None => None end |}.

(** A decoder that reads no body. *)
Definition no_body {A} : BodyDecoder A := {| decode_body max body := BodyInvalid |}.
#[export] Instance example_bodies : BodyDecoders :=
  {| decode_MemberBody := no_body; decode_InvitationBody := no_body; decode_TokenBody := no_body;
     decode_GroupBody := no_body; decode_ACLBody := no_body; decode_DirectoryBody := no_body;
     decode_NodeBody := no_body; decode_UploadBody := no_body; decode_PartBody := no_body;
     decode_CompleteBody := no_body; decode_empty := no_body |}.

Definition lab_authenticator : Authenticator (R := Repository) (T := MemoryStorage.Storage) :=
  trusted_authenticator example_trusted.
(** A viewer asks for the removal of the member [p9]. *)
Definition lab_request : Request :=
  mkRequest {["Authorization" := ["Bearer 0123456789abcdef0123456789abcdef"]]} ∅ {["principal_id" := "p9"]}
    0 "" None None "req_1".
Definition lab_route : apiRoute (R := Repository) (T := MemoryStorage.Storage) :=
  mkApiRoute "DELETE /api/v1/tenant/members/{principal_id}" PermissionMembersManage false deleteMember.
Definition lab_viewer : Principal := mkPrincipal (mkIdentity "t1" "p1") "One" RoleViewer.
Definition lab_response : Outcome Response :=
  (serve_handler (dispatch lab_authenticator (ProtectedRoute lab_route)) lab_request (world_of demo6)).1.

Lemma lab_viewer_authenticated : Authenticate example_trusted (Header_Get lab_request "Authorization") = Ok lab_viewer.
Proof. vm_compute. reflexivity. Qed.
Lemma lab_served : serve_handler (dispatch lab_authenticator (ProtectedRoute lab_route)) lab_request (world_of demo6) =
  (lab_response, world_of demo6).
Proof.
  unfold lab_response, serve_handler. simpl. unfold protected, lab_authenticator, trusted_authenticator. simpl.
  unfold mbind, GoM_bind, lift. rewrite lab_viewer_authenticated. reflexivity.
Qed.
Lemma lab_response_forbidden : lab_response = Ok (writeError lab_request
  (E CodeForbidden "the authenticated principal lacks this permission")).
Proof.
  unfold lab_response, serve_handler. simpl. unfold protected, lab_authenticator, trusted_authenticator. simpl.
  unfold mbind, GoM_bind, lift. rewrite lab_viewer_authenticated. reflexivity.
Qed.

(** A viewer who may read [docs] by role and write it by an entry asks to recycle it,
    which takes the capability to delete. *)
Definition viewer1 : string := "00000000-0000-4000-8000-000000000021".
Definition contributor : SetNodeACLCommand :=
  mkSetNodeACLCommand "00000000-0000-4000-8000-000000000022" tenant1 docs1 ACLSubjectPrincipal viewer1
    ACLContributor owner1 RoleOwner 120.
Definition viewer_demo : Repository :=
  after (MemoryGroups.SetNodeACL no_context random16 contributor) (after (MemoryGovernance.EnsureOIDCMember (seed viewer1 RoleViewer)) demo6).
Definition viewer_principal : Principal := mkPrincipal (mkIdentity tenant1 viewer1) "Viewer" RoleViewer.
Definition viewer_authenticator : Authenticator (R := Repository) (T := MemoryStorage.Storage) :=
  mkAuthenticator (λ _, ret viewer_principal) None.
Definition recycle_request : Request :=
  mkRequest {["If-Match" := [dquote +:+ "1" +:+ dquote]]} ∅ {["id" := docs1]} 0 "" None None "req_1".
Definition recycle_route : apiRoute (R := Repository) (T := MemoryStorage.Storage) :=
  mkApiRoute "DELETE /api/v1/nodes/{id}" PermissionFilesDelete true recycleNode.
Definition recycle_response : Response := writeError recycle_request (E CodeForbidden "node access denied").

Example viewer_may_write :
  authorizeNodeLocked viewer_demo (mkIdentity tenant1 viewer1) docs1 NodeCapabilityWrite = Ok tt ∧
  authorizeNodeLocked viewer_demo (mkIdentity tenant1 viewer1) docs1 NodeCapabilityDelete =
    Err (E CodeForbidden "node access denied").
Proof. vm_compute. done. Qed.
Lemma recycle_served : serve_handler (dispatch viewer_authenticator (ProtectedRoute recycle_route)) recycle_request
  (world_of viewer_demo) = (Ok recycle_response, world_of viewer_demo).
Proof. vm_compute. reflexivity. Qed.

Lemma unauthorized_requests_change_nothing_witness :
  (∃ err, writeError lab_request (E CodeForbidden "the authenticated principal lacks this permission") =
     writeError lab_request err) ∧
  ∃ err, recycle_response = writeError recycle_request err.
Proof.
  split.
  - apply (unauthorized_requests_change_nothing service1 lab_authenticator lab_route lab_request (world_of demo6) _
      (world_of demo6)).
    + unfold protectedAPIRoutes. do 3 apply list_elem_of_further. apply list_elem_of_here.
    + intros o w1. simpl. unfold lift. rewrite lab_viewer_authenticated. intros [= <- <-].
      split; [reflexivity|]. intros p [= <-]. split; [vm_compute; reflexivity|intros [=]].
    + rewrite lab_served, lab_response_forbidden. reflexivity.
  - apply (unauthorized_requests_change_nothing service1 viewer_authenticator recycle_route recycle_request
      (world_of viewer_demo) _ (world_of viewer_demo)).
    + unfold protectedAPIRoutes. do 22 apply list_elem_of_further. apply list_elem_of_here.
    + intros o w1 [= <- <-]. split; [reflexivity|]. intros p [= <-]. split; [vm_compute; reflexivity|].
      intros _ (needs & [= <-] & [Hg _]%Forall_cons). unfold granted in Hg.
      change (authorizeNodeLocked viewer_demo (mkIdentity tenant1 viewer1) docs1 NodeCapabilityDelete = Ok tt) in Hg.
      rewrite (proj2 viewer_may_write) in Hg. discriminate Hg.
    + exact recycle_served.
Defined.

(** ** Errors *)

Definition client_codes : list ErrorCode := [CodeInvalidRequest; CodeInvalidCursor; CodeRevisionMismatch].
Definition known_codes : list ErrorCode :=
  client_codes ++ [CodeUnauthenticated; CodeForbidden; CodeNotFound; CodeNameConflict; CodeInvalidState;
    CodeIdempotencyConflict; CodeRestoreConflict; CodeRequestTooLarge; CodeUnsupportedMediaType;
    CodeDependencyUnavailable].
Definition internal_response (r : Request) : Response := writeError r (E CodeInternal "internal server error").

Lemma statusFor_known code : code ∈ known_codes → 400 ≤ statusFor code ≤ 503 ∧ statusFor code ≠ 500.
Proof.
  intros Hin. unfold known_codes, client_codes in Hin. simpl in Hin.
  repeat (apply elem_of_cons in Hin as [->|Hin]; [vm_compute; repeat split; discriminate|]).
  by apply not_elem_of_nil in Hin.
Qed.
Lemma statusFor_unknown code : code ∉ known_codes → statusFor code = 500.
Proof.
  unfold known_codes, client_codes, statusFor. simpl. rewrite !not_elem_of_cons. intros Hcode. destruct_and! Hcode.
  by rewrite !bool_decide_eq_false_2.
Qed.

Lemma error_message_fixed err : CodeOf (Some err) ∉ client_codes →
  error_message err = externalMessage (CodeOf (Some err)).
Proof.
  unfold client_codes. rewrite !not_elem_of_cons. intros Hcode. destruct_and! Hcode. unfold error_message.
  destruct (AsDomain err) as [[]|]; [|done..]. by rewrite !bool_decide_eq_false_2.
Qed.

(** C33: an error response is a function of the code of the error alone, except
    for the three codes that explain the client's own request, whose message is
    the one written for it; the cause of an error never shows, an error outside
    the domain and a panic give the same response as an internal error, and the
    status is 500 exactly for a code the server does not know. *)
Theorem error_responses_hide_causes {R T} (r : Request) :
  (∀ code message retryable cause cause',
     writeError r (DomainError code message retryable cause) = writeError r (DomainError code message retryable cause')) ∧
  (∀ err err', CodeOf (Some err) = CodeOf (Some err') → CodeOf (Some err) ∉ client_codes →
     writeError r err = writeError r err') ∧
  (∀ err, AsDomain err = None → writeError r err = internal_response r) ∧
  (∀ err, resp_status (writeError r err) = 500 ↔ CodeOf (Some err) ∉ known_codes) ∧
  (∀ err, 400 ≤ resp_status (writeError r err) ≤ 503) ∧
  (∀ (handler : Request → GoM (World R T) Response) w message w',
     handler r w = (Panicked message, w') → serve_handler handler r w = (Ok (internal_response r), w')).
Proof.
  assert (∀ err err', CodeOf (Some err) = CodeOf (Some err') → CodeOf (Some err) ∉ client_codes →
     writeError r err = writeError r err') as Hcode.
  { intros err err' Heq Hout. unfold writeError. rewrite !error_message_fixed by congruence. by rewrite Heq. }
  assert (CodeInternal ∉ client_codes) as Hinternal.
  { unfold client_codes. rewrite !not_elem_of_cons. repeat split; try discriminate. apply not_elem_of_nil. }
  split_and!; [done|done| | | |].
  - intros err Hdomain.
    assert (CodeOf (Some err) = CodeInternal) as Hc by (unfold CodeOf; simpl; by rewrite Hdomain).
    apply Hcode; rewrite Hc; done.
  - intros err. unfold writeError. simpl. split; [|apply statusFor_unknown].
    intros H500 Hin. by apply statusFor_known in Hin as [_ ?].
  - intros err. unfold writeError. simpl. destruct (decide (CodeOf (Some err) ∈ known_codes)) as [Hin|Hout].
    + by apply statusFor_known.
    + rewrite statusFor_unknown by done. lia.
  - intros handler w message w' Hrun. unfold serve_handler. by rewrite Hrun.
Qed.

Lemma error_responses_hide_causes_witness :
  writeError lab_request (WrapError "save" (PlainError "password is 1234")) = internal_response lab_request.
Proof.
  destruct (error_responses_hide_causes (R := unit) (T := unit) lab_request) as (_ & _ & H & _). apply H. reflexivity.
Defined.

(** ** Parameters of a request *)

Lemma byte_val_quote ch : byte_val ch = 34 → ch = byte_chr 34.
Proof. intros <-. by rewrite byte_chr_val. Qed.

Lemma inner_quoted s : inner (dquote +:+ s +:+ dquote) = s.
Proof.
  unfold inner. change (dquote +:+ s +:+ dquote) with (String (byte_chr 34) (s +:+ dquote)).
  cbn [String.length String.substring]. rewrite length_append. simpl.
  replace (String.length s + 1 - 1)%nat with (String.length s) by lia.
  induction s as [|ch s IH]; simpl; [done|]. by rewrite IH.
Qed.

Lemma unquoted_end s : last_byte s = Some 34 → s = String.substring 0 (String.length s - 1) s +:+ dquote.
Proof.
  unfold last_byte. induction s as [|ch s IH]; [done|]. destruct s as [|ch' s].
  - simpl. intros [= Hch]. by rewrite (byte_val_quote ch Hch).
  - intros Hlast. specialize (IH Hlast).
    assert (String.substring 0 (String.length (String ch (String ch' s)) - 1) (String ch (String ch' s)) =
      String ch (String.substring 0 (String.length (String ch' s) - 1) (String ch' s))) as ->
      by (simpl; by rewrite Nat.sub_0_r).
    transitivity (String ch (String.substring 0 (String.length (String ch' s) - 1) (String ch' s) +:+ dquote));
      [by rewrite <- IH|reflexivity].
Qed.
Lemma quoted_inner s : 2 ≤ zstrlen s → first_byte s = Some 34 → last_byte s = Some 34 →
  s = dquote +:+ inner s +:+ dquote.
Proof.
  unfold zstrlen. destruct s as [|ch s]; [done|]. destruct s as [|ch' s]; [done|]. intros _ [= Hch] Hlast.
  assert (inner (String ch (String ch' s)) = String.substring 0 (String.length (String ch' s) - 1) (String ch' s))
    as -> by (unfold inner; simpl; by rewrite Nat.sub_0_r).
  rewrite (byte_val_quote ch Hch).
  transitivity (String (byte_chr 34) (String ch' s)); [reflexivity|].
  transitivity (String (byte_chr 34) (String.substring 0 (String.length (String ch' s) - 1) (String ch' s) +:+ dquote));
    [|reflexivity].
  f_equal. by apply unquoted_end.
Qed.
Lemma zstrlen_quoted s : zstrlen (dquote +:+ s +:+ dquote) = zstrlen s + 2.
Proof. unfold zstrlen. rewrite !length_append. simpl. lia. Qed.
Lemma last_byte_quoted s : last_byte (s +:+ dquote) = Some 34.
Proof. unfold last_byte, bytes. rewrite chars_app, fmap_app. apply last_snoc. Qed.

Lemma ParseInt_nonempty t v : ParseInt t = Some v → 0 < zstrlen t.
Proof. destruct t; [done|]. unfold zstrlen. simpl. lia. Qed.

Lemma parseETag_Ok value revision : parseETag value = Ok revision ↔
  ∃ t, value = dquote +:+ t +:+ dquote ∧ ParseInt t = Some revision ∧ 0 < revision.
Proof.
  unfold parseETag. split.
  - destruct (_ || _ || _) eqn:Hshape; [done|].
    apply orb_false_iff in Hshape as [[Hlen Hfirst]%orb_false_iff Hlast].
    apply negb_false_iff, bool_decide_eq_true in Hfirst, Hlast. apply Z.ltb_ge in Hlen.
    destruct (ParseInt _) as [v|] eqn:Hparse; [|done]. destruct (v <=? 0) eqn:Hv; [done|]. intros [= <-].
    exists (inner value). split; [|split; [done|lia]]. by apply quoted_inner; [lia|..].
  - intros (t & -> & Hparse & Hpos). apply ParseInt_nonempty in Hparse as Hlen.
    rewrite zstrlen_quoted. replace (zstrlen t + 2 <? 3) with false by lia.
    assert (first_byte (dquote +:+ t +:+ dquote) = Some 34) as -> by reflexivity.
    assert (last_byte (dquote +:+ t +:+ dquote) = Some 34) as -> by exact (last_byte_quoted (dquote +:+ t)).
    rewrite inner_quoted, Hparse. simpl. by replace (revision <=? 0) with false by lia.
Qed.

(** C34: the entity tag sent for a revision is read back as this revision, for
    every revision the server stores; a header is accepted exactly when it is a
    decimal number of 64 bits, positive, in double quotes, and refused with the
    same error otherwise. A limit that is accepted lies between 1 and 200, or 1
    and 10000 for parts, and every such limit is read back from its decimal text. *)
Theorem etags_and_limits_round_trip :
  (∀ revision, 0 < revision < 2 ^ 63 → parseETag (etag revision) = Ok revision) ∧
  (∀ value revision, parseETag value = Ok revision ↔
     ∃ t, value = dquote +:+ t +:+ dquote ∧ ParseInt t = Some revision ∧ 0 < revision < 2 ^ 63) ∧
  (∀ value, (∃ revision, parseETag value = Ok revision) ∨
     parseETag value = Err (E CodeInvalidRequest "If-Match must contain a quoted revision")) ∧
  (∀ value limit, parseLimit value = Ok limit → 1 ≤ limit ≤ 200) ∧
  (∀ limit, 1 ≤ limit ≤ 200 → parseLimit (json_int limit) = Ok limit) ∧
  (∀ value limit, value ≠ "" → parsePartListLimit value = Ok limit → 1 ≤ limit ≤ 10000).
Proof.
  split_and!.
  - intros revision Hr. apply parseETag_Ok. exists (json_int revision). split; [done|].
    split; [|lia]. apply ParseInt_json_int; [unfold in_int64|]; lia.
  - intros value revision. rewrite parseETag_Ok. split; intros (t & Hv & Hparse & Hpos); exists t; [|by split_and!; try lia].
    apply ParseInt_range in Hparse as Hr. unfold in_int64 in Hr. by split_and!; try lia.
  - intros value. unfold parseETag. destruct (_ || _ || _); [by right|].
    destruct (ParseInt _) as [v|]; [|by right]. destruct (v <=? 0); [by right|left; by eexists].
  - intros value limit. unfold parseLimit. case_bool_decide; [intros [= <-]; lia|].
    destruct (Atoi value) as [v|]; [|done]. destruct (_ || _) eqn:Hr; [done|]. intros [= <-]. lia.
  - intros limit Hl. unfold parseLimit. unfold Atoi. rewrite ParseInt_json_int; [|unfold in_int64; lia|lia].
    rewrite bool_decide_eq_false_2.
    + by replace ((limit <? 1) || (200 <? limit)) with false by lia.
    + intros Hempty. assert (ParseInt (json_int limit) = Some limit) as Hp
        by (apply ParseInt_json_int; [unfold in_int64|]; lia). by rewrite Hempty in Hp.
  - intros value limit Hne. unfold parsePartListLimit. rewrite bool_decide_eq_false_2 by done.
    destruct (Atoi value) as [v|]; [|done]. destruct (_ || _) eqn:Hr; [done|]. intros [= <-].
    unfold MaxUploadParts in Hr. lia.
Qed.

Lemma etags_and_limits_round_trip_witness : parseETag (etag 7) = Ok 7.
Proof. apply (proj1 etags_and_limits_round_trip). split; reflexivity. Defined.
