(* ===== verification/AuditProperties.v ===== *)
(** * What the audit trail guarantees *)
From S2P Require Import Prelude Errors Logic GoLib Types Validation MemoryState Ports Service ServiceNamespace.
From S2P Require Import ServiceGovernance WorldLogic MemorySteps Demo Paging Auth AuthProperties ServerWire ServerAPI.
From S2P Require Import Server ServerProperties.
From S2P Require MemoryUploads MemoryStorage.

(** ** The trail *)

(** No method of the repository removes or changes an audit event, whatever
    its arguments and its outcome; in a reachable state the events are numbered
    one by one from 1 in the order they were recorded, as long as there are
    fewer than 2^63 of them. *)
Theorem audit_trail_append_only `{!Platform, !MapRange} (r r' : Repository) :
  (op_step r r' → repo_audit r `prefix_of` repo_audit r') ∧
  (reachable r → zlen (repo_audit r) < 2 ^ 63 → ∀ i e, repo_audit r !! i = Some e →
     AuditEvent_Sequence e = Z.of_nat i + 1).
Proof.
  split.
  - intros Hstep. by apply extends_prefix, op_step_extends.
  - intros Hr Hlen i e Hi. destruct (reachable_numbered r Hr Hlen) as [_ Hseq]. by eapply Hseq.
Qed.

Lemma audit_trail_append_only_witness : AuditEvent_Sequence <$> repo_audit demo6 !! 0%nat = Some 1.
Proof.
  destruct (repo_audit demo6 !! 0%nat) as [e|] eqn:He.
  - change (Some (AuditEvent_Sequence e) = Some 1). f_equal.
    apply (proj2 (audit_trail_append_only demo6 demo6) demo6_reachable) with (i := 0%nat); [|exact He].
    vm_compute. reflexivity.
  - exfalso. revert He. vm_compute. intros [=].
Defined.
Lemma demo_audit_length : zlen (repo_audit demo6) < 2 ^ 63.
Proof. vm_compute. reflexivity. Qed.

(** ** Pages of the trail *)

(** The test of [ListAudit] without the position. *)
Definition selected (tenantID : string) (from until : Time) (e : AuditEvent) : Prop :=
  AuditEvent_TenantID e = tenantID ∧ (from = 0 ∨ from ≤ AuditEvent_OccurredAt e) ∧
  (until = 0 ∨ AuditEvent_OccurredAt e ≤ until).
#[export] Instance selected_dec tenantID from until e : Decision (selected tenantID from until e).
Proof. unfold selected. apply _. Defined.

(** The events of an export: those of the tenant in the time range. *)
Definition selection (tenantID : string) (from until : Time) (audit : list AuditEvent) : list AuditEvent :=
  filter (selected tenantID from until) audit.

Definition later (after : Z) (e : AuditEvent) : Prop := after < AuditEvent_Sequence e.
#[export] Instance later_dec after e : Decision (later after e).
Proof. unfold later. apply _. Defined.

Lemma ListAudit_loop_spec f out audit :
  0 < AuditFilter_Limit f → zlen out < AuditFilter_Limit f →
  ListAudit_loop f out audit = out ++ take (Z.to_nat (AuditFilter_Limit f) - length out)
    (filter (later (AuditFilter_AfterSequence f)) (selection (AuditFilter_TenantID f) (AuditFilter_From f) (AuditFilter_Until f) audit)).
Proof.
  intros Hpos. unfold zlen. revert out. induction audit as [|e audit IH]; intros out Hout; simpl.
  { unfold selection. by rewrite !filter_nil, take_nil, app_nil_r. }
  unfold selection. rewrite filter_cons.
  destruct (_ && _ && _ && _) eqn:Hcond.
  - apply andb_true_iff in Hcond as [[[Htenant%bool_decide_eq_true Hlater]%andb_true_iff Hfrom]%andb_true_iff Huntil].
    unfold IsZero, Before, After in *.
    rewrite decide_True by (unfold selected; split_and!; [done|lia..]).
    rewrite filter_cons, decide_True by (unfold later; lia).
    replace (0 <? AuditFilter_Limit f) with true by lia.
    destruct (Z.to_nat (AuditFilter_Limit f) - length out)%nat as [|n] eqn:Hn; [lia|].
    simpl. unfold zlen. rewrite length_app. simpl.
    destruct (AuditFilter_Limit f <=? _) eqn:Hfull.
    + apply Z.leb_le in Hfull. assert (n = 0%nat) as -> by lia. by rewrite take_0.
    + apply Z.leb_gt in Hfull. rewrite IH by (rewrite length_app; simpl; lia). rewrite length_app. simpl.
      replace (Z.to_nat (AuditFilter_Limit f) - (length out + 1))%nat with n by lia.
      unfold selection. by rewrite <- app_assoc.
  - rewrite IH by done. unfold selection. f_equal. f_equal.
    destruct (decide (selected _ _ _ e)) as [(Htenant & Hfrom & Huntil)|]; [|done].
    rewrite filter_cons, decide_False; [done|]. unfold later. intros Hlater.
    unfold IsZero, Before, After in Hcond. rewrite Htenant, bool_decide_eq_true_2 in Hcond by done. lia.
Qed.

Definition seq_lt (e e' : AuditEvent) : Prop := AuditEvent_Sequence e < AuditEvent_Sequence e'.

Lemma numbered_sorted t : numbered t → zlen t.1 < 2 ^ 63 →
  StronglySorted seq_lt t.1 ∧ ∀ e, e ∈ t.1 → 0 < AuditEvent_Sequence e.
Proof.
  intros Ht Hlen. destruct (Ht Hlen) as [_ Hseq]. split.
  - clear Ht Hlen. revert Hseq. generalize 1 as k. induction t.1 as [|e l IH]; intros k Hseq; [constructor|].
    constructor.
    + apply (IH (k + 1)). intros i e' Hi. rewrite (Hseq (S i)) by done. lia.
    + apply Forall_forall. intros e' [i Hi]%list_elem_of_lookup. unfold seq_lt.
      rewrite (Hseq 0%nat e), (Hseq (S i) e') by done. lia.
  - intros e [i Hi]%list_elem_of_lookup. rewrite (Hseq i e Hi). lia.
Qed.

(** ** The export, over any repository that lists its trail *)

Section export.
Context {R T : Type} `{!Platform, !MapRange, !Runtime, !RepositoryPort R, !StorageProvider T, !TimeParser}.
Abbreviation State := (World R T) (only parsing).
Implicit Types (w : State) (r : Request).
Context (r : Request) (from until : Time).
Definition tenant_of : string := MemberActor_TenantID (memberActor r).

(** The caller manages the tenant and asks for a range of at most 31 days. *)
Definition export_allowed : Prop :=
  validateGovernanceManager (memberActor r) = None ∧ from ≠ 0 ∧ until ≠ 0 ∧ from < until ∧
  until - from ≤ 31 * 24 * Hour.

(** What the export needs of the repository: [ListAudit] answers a request for the
    range with the next 1000 events of [l], and leaves a state where [J] holds. *)
Record lists_trail (J : R → Prop) (l : list AuditEvent) : Prop := {
  lt_sorted : StronglySorted seq_lt l;
  lt_positive e : e ∈ l → 0 < AuditEvent_Sequence e;
  lt_page repo after : J repo → 0 ≤ after → ∃ repo', J repo' ∧
    R_ListAudit (mkAuditFilter tenant_of after from until 1000) repo =
      (Ok (take 1000 (filter (later after) l)), repo')
}.

(** The n-th event of the selection is the position after [n] events. *)
Definition position_after (l : list AuditEvent) (n : nat) : Z :=
  match n with O => 0 | S n => default 0 (AuditEvent_Sequence <$> l !! n) end.

Lemma position_nonnegative l n : (∀ e, e ∈ l → 0 < AuditEvent_Sequence e) → 0 ≤ position_after l n.
Proof.
  intros Hpos. destruct n as [|n]; simpl; [lia|]. destruct (l !! n) as [e|] eqn:He; simpl; [|lia].
  specialize (Hpos e (list_elem_of_lookup_2 _ _ _ He)). lia.
Qed.

Lemma later_position l n : StronglySorted seq_lt l → (∀ e, e ∈ l → 0 < AuditEvent_Sequence e) →
  (n ≤ length l)%nat → filter (later (position_after l n)) l = drop n l.
Proof.
  intros Hsorted Hpos Hn. destruct n as [|n]; simpl.
  - rewrite drop_0. apply filter_all, Hpos.
  - destruct (lookup_lt_is_Some_2 l n Hn) as [e He]. rewrite He. simpl.
    apply (filter_above_drop seq_lt) with e; unfold later, seq_lt; try done; intros; lia.
Qed.

(** The position of the last event of a full page. *)
Lemma last_position (l : list AuditEvent) n : length (take 1000 (drop n l)) = 1000%nat →
  ∃ e, last (take 1000 (drop n l)) = Some e ∧ AuditEvent_Sequence e = position_after l (n + 1000).
Proof.
  intros Hlen. rewrite last_lookup, Hlen. change (Nat.pred 1000) with 999%nat.
  rewrite lookup_take_lt, lookup_drop by lia. rewrite length_take, length_drop in Hlen.
  destruct (lookup_lt_is_Some_2 l (n + 999)) as [e He]; [lia|]. exists e. split; [done|].
  replace (n + 1000)%nat with (S (n + 999)) by lia. simpl. by rewrite He.
Qed.

Context (J : R → Prop) (l : list AuditEvent) (Hl : lists_trail J l) (Hallowed : export_allowed).

Lemma ListAudit_page w n : J (w_repo w) → (n ≤ length l)%nat → let items := take 1000 (drop n l) in
  ∃ repo, J repo ∧ ServiceGovernance.ListAudit (memberActor r) (position_after l n) from until 1000 w =
    (Ok (mkAuditPage items (if zlen items =? 1000 then position_after l (n + 1000) else 0)), with_repo w repo).
Proof using Hl Hallowed.
  destruct Hallowed as (Hactor & Hfrom & Huntil & Horder & Hrange), Hl as [Hsl Hpl Hpage]. intros HJ Hn items.
  pose proof (position_nonnegative l n Hpl) as Hnonneg.
  destruct (Hpage _ _ HJ Hnonneg) as (repo & HJ' & Hrun). exists repo. split; [done|].
  unfold ServiceGovernance.ListAudit. rewrite Hactor. unfold mbind at 1, GoM_bind at 1. simpl.
  unfold IsZero, After, SubTime. rewrite (proj2 (Z.eqb_neq from 0)), (proj2 (Z.eqb_neq until 0)) by done. simpl.
  replace (position_after l n <? 0) with false by lia. replace (from <? until) with true by lia. simpl.
  match goal with |- context [?a <? ?b] => replace (a <? b) with false by (unfold Hour, Minute, Second, Millisecond in *; lia) end.
  unfold mbind, GoM_bind, on_repo. fold tenant_of. rewrite Hrun, later_position by done. fold items.
  destruct (zlen items =? 1000) eqn:Hfull; [|done].
  assert (length items = 1000%nat) as Hlen' by (unfold zlen in Hfull; lia).
  destruct (last_position l n Hlen') as (e & He & <-). unfold items. by rewrite He.
Qed.

(** The loop collects the pages after the first [n] events. *)
Lemma export_pages_spec w fuel n : J (w_repo w) → (n ≤ length l)%nat → 11000 ≤ Z.of_nat n + Z.of_nat fuel * 1000 →
  ∃ events repo, J repo ∧
    export_pages r from until fuel (position_after l n) (take n l) w = (Ok events, with_repo w repo) ∧
    (zlen l ≤ 10000 → events = l) ∧ (10000 < zlen l → 10000 < zlen events).
Proof using Hl Hallowed.
  assert (∀ w, with_repo w (w_repo w) = w) as Hin by by intros [].
  revert w n. induction fuel as [|fuel IH]; intros w n HJ Hn Hfuel; simpl.
  - assert (zlen (take n l) = Z.of_nat n) as Hz by (unfold zlen; rewrite length_take; lia).
    rewrite Hz. unfold maxExport. replace (Z.of_nat n <=? 10000) with false by lia. simpl.
    exists (take n l), (w_repo w). rewrite Hin. unfold ret, zlen. rewrite length_take. split_and!; [done..|intros; exfalso; lia|lia].
  - assert (zlen (take n l) = Z.of_nat n) as Hz by (unfold zlen; rewrite length_take; lia).
    rewrite Hz. unfold maxExport. destruct (Z.of_nat n <=? 10000) eqn:Hmax; simpl.
    2: { exists (take n l), (w_repo w). rewrite Hin. unfold ret, zlen. rewrite length_take. split_and!; [done..|intros; exfalso; lia|lia]. }
    destruct (ListAudit_page w n HJ Hn) as (repo & HJ' & Hpage).
    unfold mbind at 1, GoM_bind at 1. rewrite Hpage. cbn [AuditPage_Items AuditPage_NextSequence].
    rewrite take_take_drop.
    destruct (zlen (take 1000 (drop n l)) =? 1000) eqn:Hfull.
    + apply Z.eqb_eq in Hfull. unfold zlen in Hfull. rewrite length_take, length_drop in Hfull.
      assert (position_after l (n + 1000) =? 0 = false) as ->.
      { replace (n + 1000)%nat with (S (n + 999)) by lia. simpl.
        destruct (lookup_lt_is_Some_2 l (n + 999)) as [e He]; [lia|]. rewrite He. simpl.
        apply Z.eqb_neq. apply list_elem_of_lookup_2, (lt_positive _ _ Hl) in He. lia. }
      destruct (IH (with_repo w repo) (n + 1000)%nat) as (events & repo' & ? & -> & ?); [done|lia..|].
      by exists events, repo'.
    + exists (take (n + 1000) l), repo. unfold ret. apply Z.eqb_neq in Hfull.
      unfold zlen in *. rewrite length_take, length_drop in Hfull.
      assert (length l < n + 1000)%nat by lia. rewrite take_ge by lia. by split_and!.
Qed.

Lemma export_lists w a limit : parseAuditFilter r = Ok (a, from, until, limit) → J (w_repo w) → ∃ repo, J repo ∧
  (zlen l ≤ 10000 → ∃ headers,
     exportAuditEvents r w = (Ok (mkResponse StatusOK headers (toAuditResponse <$> l)), with_repo w repo)) ∧
  (10000 < zlen l → exportAuditEvents r w =
     (Err (E CodeInvalidRequest "audit export exceeds 10000 events; narrow the time range"), with_repo w repo)).
Proof using Hl Hallowed.
  intros Hparse HJ. destruct (export_pages_spec w 11 0 HJ) as (events & repo & HJ' & Hrun & Hsmall & Hlarge); [lia..|].
  destruct Hallowed as (_ & Hfrom & Huntil & _).
  change (position_after l 0) with 0 in Hrun. change (take 0 l) with (@nil AuditEvent) in Hrun.
  assert (exportAuditEvents r w = (if maxExport <? zlen events
    then throw (E CodeInvalidRequest "audit export exceeds 10000 events; narrow the time range")
    else ret (mkResponse StatusOK
      [("Content-Type", "application/x-ndjson");
       ("Content-Disposition", "attachment; filename=" +:+ dquote +:+ "asteria-audit.ndjson" +:+ dquote);
       ("X-Content-Type-Options", "nosniff")] (toAuditResponse <$> events))) (with_repo w repo)) as ->.
  { unfold exportAuditEvents. rewrite Hparse. unfold mbind at 1, GoM_bind at 1, lift. unfold IsZero.
    rewrite (proj2 (Z.eqb_neq from 0)), (proj2 (Z.eqb_neq until 0)) by done. cbn [orb].
    unfold mbind at 1, GoM_bind at 1. by rewrite Hrun. }
  exists repo. split; [done|]. unfold maxExport. split; intros Hsize.
  - rewrite Hsmall by done. replace (10000 <? zlen l) with false by lia. by eexists.
  - specialize (Hlarge Hsize). by replace (10000 <? zlen events) with true by lia.
Qed.
End export.

(** ** The export over the repository in memory *)

Section memory_export.
Context `{!Platform, !MapRange, !Runtime, !TimeParser}.
Abbreviation State := (World Repository MemoryStorage.Storage) (only parsing).
Implicit Types (w : State).

Lemma memory_lists_trail r from until repo : reachable repo → zlen (repo_audit repo) < 2 ^ 63 →
  lists_trail r from until (λ repo', repo' = repo) (selection (tenant_of r) from until (repo_audit repo)).
Proof.
  intros Hreach Hlen. destruct (numbered_sorted _ (reachable_numbered _ Hreach) Hlen) as [Hsorted Hpos]. split.
  - by apply StronglySorted_filter.
  - intros e [_ He]%list_elem_of_filter. by apply Hpos.
  - intros ? after -> _. exists repo. split; [done|].
    unfold R_ListAudit. simpl. unfold MemoryState.ListAudit, mbind, GoM_bind, getS, ret. simpl.
    rewrite ListAudit_loop_spec by (unfold zlen; simpl; lia). done.
Qed.

(** The range as the interface documents it (src/docs/openapi.yaml): the upper bound is
    not in it. *)
Definition documented (tenantID : string) (from until : Time) (e : AuditEvent) : Prop :=
  AuditEvent_TenantID e = tenantID ∧ from ≤ AuditEvent_OccurredAt e < until.
#[export] Instance documented_dec tenantID from until e : Decision (documented tenantID from until e).
Proof. unfold documented. apply _. Defined.

(** C35: over the repository in memory an export by a manager of the tenant, over a
    range of at most 31 days, is answered with the events of the tenant from the lower
    bound to the upper bound, all of them, each once and in the order they were
    recorded, or with an error when there are more than 10000 of them; it ends after at
    most eleven pages and changes nothing. Unlike the interface documents it, the
    repository includes the events at the upper bound itself: without them the export
    is the documented one. *)
Theorem audit_export_complete r from until w a limit : parseAuditFilter r = Ok (a, from, until, limit) →
  export_allowed r from until → reachable (w_repo w) → zlen (repo_audit (w_repo w)) < 2 ^ 63 →
  let l := selection (tenant_of r) from until (repo_audit (w_repo w)) in
  (zlen l ≤ 10000 → ∃ headers, exportAuditEvents r w = (Ok (mkResponse StatusOK headers (toAuditResponse <$> l)), w)) ∧
  (10000 < zlen l → exportAuditEvents r w =
     (Err (E CodeInvalidRequest "audit export exceeds 10000 events; narrow the time range"), w)) ∧
  filter (λ e, AuditEvent_OccurredAt e ≠ until) l = filter (documented (tenant_of r) from until) (repo_audit (w_repo w)).
Proof.
  intros Hparse Hallowed Hreach Hlen l. pose proof (memory_lists_trail r from until _ Hreach Hlen) as Hlists.
  destruct (export_lists r from until _ _ Hlists Hallowed w a limit Hparse eq_refl) as (? & -> & Hfew & Hmany).
  replace (with_repo w (w_repo w)) with w in * by by destruct w. split_and!; [done..|].
  unfold l, selection. rewrite list_filter_filter. apply list_filter_iff. intros e.
  destruct Hallowed as (_ & ? & ? & _). unfold selected, documented. intuition lia.
Qed.
End memory_export.

(** The owner of the demo tenant exports the events of a short time. *)
Definition export_request : Request :=
  mkRequest ∅ (list_to_map [("from", "1"); ("until", "1000")]) ∅ 0 ""
    (Some (mkPrincipal alice "Owner" RoleOwner)) None "req_2".
Lemma export_parsed : parseAuditFilter export_request = Ok (0, 1, 1000, 50).
Proof. vm_compute. reflexivity. Qed.
Lemma export_request_allowed : export_allowed export_request 1 1000.
Proof. split; [vm_compute; reflexivity|]. repeat split; vm_compute; discriminate. Qed.
Lemma export_few : zlen (selection (tenant_of export_request) 1 1000 (repo_audit demo6)) ≤ 10000.
Proof. vm_compute. discriminate. Qed.

Lemma audit_export_complete_witness : ∃ headers, exportAuditEvents export_request (world_of demo6) =
  (Ok (mkResponse StatusOK headers
     (toAuditResponse <$> selection (tenant_of export_request) 1 1000 (repo_audit demo6))), world_of demo6).
Proof.
  apply (audit_export_complete export_request 1 1000 (world_of demo6) 0 50 export_parsed export_request_allowed
    demo6_reachable demo_audit_length), export_few.
Defined.

(** The grant of the demo is recorded at 104: an export until 104 has it. *)
Definition bound_request : Request := export_request <| req_query := list_to_map [("from", "1"); ("until", "104")] |>.
Example export_includes_upper_bound :
  (λ e, AuditEvent_OccurredAt e) <$> selection (tenant_of bound_request) 1 104 (repo_audit demo6) = [101; 102; 104] ∧
  (λ e, AuditEvent_OccurredAt e) <$> filter (documented (tenant_of bound_request) 1 104) (repo_audit demo6) = [101; 102].
Proof. vm_compute. done. Qed.
