(* ===== verification/S3Store.v ===== *)
(** * The S3 object store (src/internal/s3store/provider.go)

    The client of the AWS SDK is a parameter: each call takes the client it is made
    on, the input the provider builds, and answers in a state of its own. What the
    provider makes of the answers is modelled. *)
From S2P Require Import Prelude Errors GoLib Types Validation Ports Codecs.

(** ** Inputs and outputs of the SDK that the provider uses *)

Record S3Endpoint := mkS3Endpoint { ep_BaseEndpoint : string; ep_UsePathStyle : bool }.
Record CreateMultipartInput := mkCreateMultipartInput {
  cmi_Bucket : string; cmi_Key : string; cmi_ContentType : string; cmi_sha256 : bool
}.
Record UploadPartInput := mkUploadPartInput {
  upi_Bucket : string; upi_Key : string; upi_UploadId : string; upi_PartNumber : Z;
  upi_ChecksumSHA256 : option string
}.
Record S3CompletedPart := mkS3CompletedPart {
  scp_PartNumber : Z; scp_ETag : string; scp_ChecksumSHA256 : option string
}.
Record PresignedRequest := mkPresigned {
  ps_Method : string; ps_URL : string; ps_SignedHeader : gmap string (list string)
}.
Record S3Part := mkS3Part {
  s3p_PartNumber : option Z; s3p_ETag : option string; s3p_Size : option Z; s3p_ChecksumSHA256 : option string
}.
Record ListPartsOutput := mkListPartsOutput {
  lpo_Parts : list S3Part; lpo_IsTruncated : option bool; lpo_NextPartNumberMarker : option string
}.
Record HeadObjectOutput := mkHeadObjectOutput {
  ho_ContentLength : option Z; ho_ETag : option string; ho_ChecksumSHA256 : option string
}.
(** What [New] asks of [LoadDefaultConfig]. *)
Record S3LoadOptions := mkS3LoadOptions {
  lo_Region : string; lo_checksumWhenRequired : bool; lo_credentials : option (string * string)
}.

Class S3Client (W : Type) := {
  LoadDefaultConfig : S3LoadOptions → GoM W unit;
  HeadBucket : S3Endpoint → string → GoM W unit;
  CreateBucket : S3Endpoint → string → option string → GoM W unit;
  CreateMultipartUpload : S3Endpoint → CreateMultipartInput → GoM W (option string);
  PresignUploadPart : S3Endpoint → UploadPartInput → Duration → GoM W PresignedRequest;
  CompleteMultipartUpload : S3Endpoint → string → string → string → list S3CompletedPart → GoM W unit;
  AbortMultipartUpload : S3Endpoint → string → string → string → GoM W unit;
  ListPartsPage : S3Endpoint → string → string → string → option string → GoM W ListPartsOutput;
  HeadObject : S3Endpoint → string → string → GoM W HeadObjectOutput;
  PresignGetObject : S3Endpoint → string → string → string → Duration → GoM W PresignedRequest;
  DeleteS3Object : S3Endpoint → string → string → GoM W unit;
  (** [errors.As(err, &apiErr)] and [apiErr.ErrorCode()] *)
  api_code : GoError → option string;
  (** [mime.FormatMediaType("attachment", ...)] *)
  FormatAttachment : string → string
}.

(** [sort.Slice], which may order equal elements in any way. *)
Class SliceSort := {
  slice_sort : ∀ {A}, (A → A → bool) → list A → list A;
  slice_sort_perm {A} (less : A → A → bool) l : slice_sort less l ≡ₚ l;
  slice_sort_sorted {A} (less : A → A → bool) l : StrictWeakOrder less →
    StronglySorted (not_less less) (slice_sort less l)
}.

(** ** The provider *)

Definition maxListPartsPages : nat := 20.

Record S3Options := mkS3Options {
  S3Options_Endpoint : string;
  S3Options_PublicEndpoint : string;
  S3Options_Region : string;
  S3Options_Bucket : string;
  S3Options_AccessKey : string;
  S3Options_SecretKey : string;
  S3Options_UsePathStyle : bool;
  S3Options_AutoCreateBucket : bool;
  S3Options_EnableChecksumHeaders : bool;
  S3Options_TrustPartChecksums : bool
}.

Record Provider := mkProvider {
  p_client : S3Endpoint;
  p_presigner : S3Endpoint;
  p_bucket : string;
  p_checksumHeaders : bool;
  p_trustPartChecksums : bool
}.

(** [strings.TrimRight(s, "/")] *)
Fixpoint drop_trailing_slashes (l : list Ascii.ascii) : list Ascii.ascii :=
  match l with
  | [] => []
  | ch :: l =>
    match drop_trailing_slashes l with
    | [] => if byte_val ch =? 47 then [] else [ch]
    | rest => ch :: rest
    end
  end.
Definition TrimSlashes (s : string) : string := of_chars (drop_trailing_slashes (chars s)).

Definition wrap32 (z : Z) : Z := (z + 2 ^ 31) mod 2 ^ 32 - 2 ^ 31.

Section provider.
Context {W : Type} `{!S3Client W, !SliceSort}.

(** ** Errors *)

Definition has_code (err : GoError) (codes : list string) : bool :=
  match api_code err with Some code => bool_decide (code ∈ codes) | None => false end.
Definition isNotFound (err : GoError) : bool := has_code err ["NotFound"; "NoSuchKey"; "NoSuchUpload"; "404"].
Definition isBucketNotFound (err : GoError) : bool := has_code err ["NotFound"; "NoSuchBucket"; "404"].

Definition mapError (err : GoError) (message : string) : GoError :=
  if CodeOf (Some err) != CodeInternal then err
  else if isNotFound err then E CodeNotFound "object storage resource was not found"
  else if has_code err ["InvalidPart"; "InvalidPartOrder"; "EntityTooSmall"; "BadDigest"; "InvalidRequest"] then
    EC CodeInvalidRequest "object storage rejected the multipart request" (Some err)
  else Retryable CodeDependencyUnavailable message (Some err).

(** A call whose error is mapped. *)
Definition mapped {A} (m : GoM W A) (message : string) : GoM W A := λ w,
  match m w with
  | (Err err, w') => (Err (mapError err message), w')
  | result => result
  end.

(** ** Construction *)

Definition ensureBucket (p : Provider) (region : string) : GoM W unit :=
  result ← try_ (HeadBucket (p_client p) (p_bucket p));
  match result with
  | inr _ => ret tt
  | inl err =>
    if negb (isBucketNotFound err) then throw (mapError err "could not inspect S3 bucket") else
    mapped (CreateBucket (p_client p) (p_bucket p) (if region != "us-east-1" then Some region else None))
      "could not create S3 bucket"
  end.

Definition NewProvider (options : S3Options) : GoM W Provider :=
  if (S3Options_Region options == "") || (S3Options_Bucket options == "") then
    throw (E CodeInvalidRequest "S3 region and bucket are required") else
  credentials ←
    (if (S3Options_AccessKey options != "") || (S3Options_SecretKey options != "") then
       if (S3Options_AccessKey options == "") || (S3Options_SecretKey options == "") then
         throw (E CodeInvalidRequest "both S3 access key and secret key are required")
       else ret (Some (S3Options_AccessKey options, S3Options_SecretKey options))
     else ret None);
  loaded ← try_ (LoadDefaultConfig (mkS3LoadOptions (S3Options_Region options)
                   (S3Options_Endpoint options != "") credentials));
  match loaded with
  | inl err => throw (WrapError "load S3 configuration" err)
  | inr _ =>
    let endpoint := TrimSlashes (S3Options_Endpoint options) in
    let publicEndpoint := TrimSlashes (S3Options_PublicEndpoint options) in
    let publicEndpoint := if publicEndpoint == "" then endpoint else publicEndpoint in
    let headers := (S3Options_Endpoint options == "") || S3Options_EnableChecksumHeaders options in
    let p := mkProvider (mkS3Endpoint endpoint (S3Options_UsePathStyle options))
               (mkS3Endpoint publicEndpoint (S3Options_UsePathStyle options)) (S3Options_Bucket options)
               headers (S3Options_TrustPartChecksums options && headers) in
    _ ← (if S3Options_AutoCreateBucket options then ensureBucket p (S3Options_Region options) else ret tt);
    ret p
  end.

(** ** Methods *)

Definition Ready (p : Provider) : GoM W unit :=
  mapped (HeadBucket (p_client p) (p_bucket p)) "S3 bucket is unavailable".

(** The checksum of a part is part of what is signed or completed. *)
Definition bound_checksum (p : Provider) (checksum : Checksum) : bool :=
  p_checksumHeaders p && (Checksum_Algorithm checksum == "sha256").
Definition checksum_field (p : Provider) (checksum : Checksum) : option string :=
  if bound_checksum p checksum then Some (Checksum_Value checksum) else None.

Definition CreateMultipart (p : Provider) (key mimeType : string) (checksum : Checksum) : GoM W string :=
  output ← mapped (CreateMultipartUpload (p_client p)
             (mkCreateMultipartInput (p_bucket p) key mimeType (bound_checksum p checksum)))
             "could not create multipart upload";
  match output with
  | Some id => if id == "" then throw (E CodeDependencyUnavailable "object storage returned no upload id") else ret id
  | None => throw (E CodeDependencyUnavailable "object storage returned no upload id")
  end.

Definition flattenHeaders (headers : gmap string (list string)) : gmap string string := omap head headers.

Definition SignUploadPart (p : Provider) (now : Time) (key uploadID : string) (partNumber : Z)
    (checksum : Checksum) (ttl : Duration) : GoM W (SignedPart * bool) :=
  output ← mapped (PresignUploadPart (p_presigner p)
             (mkUploadPartInput (p_bucket p) key uploadID (wrap32 partNumber) (checksum_field p checksum)) ttl)
             "could not sign upload part";
  ret (mkSignedPart partNumber (ps_Method output) (ps_URL output) (flattenHeaders (ps_SignedHeader output))
         (AddTime now ttl), bound_checksum p checksum).

Definition StatObject (p : Provider) (key : string) : GoM W ObjectInfo :=
  output ← mapped (HeadObject (p_client p) (p_bucket p) key) "could not stat object";
  let info := mkObjectInfo (p_bucket p) key (default 0 (ho_ContentLength output)) (default "" (ho_ETag output))
                go_zero ChecksumUnavailable in
  ret match ho_ChecksumSHA256 output with
      | Some value => if value == "" then info
                      else info <| ObjectInfo_Checksum := mkChecksum "sha256" value |>
                                <| ObjectInfo_ChecksumStatus := ChecksumVerified |>
      | None => info
      end.

Definition CompleteMultipart (p : Provider) (key uploadID : string) (parts : list CompletedPart) : GoM W ObjectInfo :=
  let completed := (λ part, mkS3CompletedPart (wrap32 (CompletedPart_PartNumber part)) (CompletedPart_ETag part)
                              (checksum_field p (CompletedPart_Checksum part))) <$> parts in
  _ ← mapped (CompleteMultipartUpload (p_client p) (p_bucket p) key uploadID completed)
        "could not complete multipart upload";
  StatObject p key.

Definition AbortMultipart (p : Provider) (key uploadID : string) : GoM W unit :=
  result ← try_ (AbortMultipartUpload (p_client p) (p_bucket p) key uploadID);
  match result with
  | inl err => if isNotFound err then ret tt else throw (mapError err "could not abort multipart upload")
  | inr _ => ret tt
  end.

Definition sha256_checksum (value : string) : Checksum := mkChecksum "sha256" value.
Definition stored_part (p : Provider) (part : S3Part) : StoredPart :=
  let stored := mkStoredPart (default 0 (s3p_PartNumber part)) (default "" (s3p_ETag part))
                  (default 0 (s3p_Size part)) go_zero false false in
  let value := default "" (s3p_ChecksumSHA256 part) in
  if (value != "") && ValidChecksum (sha256_checksum value) then
    stored <| StoredPart_StorageChecksum := sha256_checksum value |>
           <| StoredPart_ChecksumAttested := p_trustPartChecksums p |>
  else stored.

Definition part_less (x y : StoredPart) : bool := StoredPart_PartNumber x <? StoredPart_PartNumber y.

(** The loop over the pages, at most [fuel] more. *)
Fixpoint list_pages (p : Provider) (key uploadID : string) (fuel : nat) (marker : option string) (previous : Z)
    (parts : list StoredPart) : GoM W (list StoredPart) :=
  match fuel with
  | O => throw (E CodeDependencyUnavailable "multipart part listing exceeded its page bound")
  | S fuel =>
    output ← mapped (ListPartsPage (p_client p) (p_bucket p) key uploadID marker) "could not list multipart parts";
    let parts := parts ++ (stored_part p <$> lpo_Parts output) in
    if MaxUploadParts <=? zlen parts then ret (slice_sort part_less (take (Z.to_nat MaxUploadParts) parts)) else
    if negb (default false (lpo_IsTruncated output)) then ret (slice_sort part_less parts) else
    match lpo_NextPartNumberMarker output, Atoi (default "" (lpo_NextPartNumberMarker output)) with
    | Some marker, Some next =>
      if next <=? previous then
        throw (E CodeDependencyUnavailable "multipart part listing returned a non-advancing cursor")
      else list_pages p key uploadID fuel (Some marker) next parts
    | _, _ => throw (E CodeDependencyUnavailable "multipart part listing returned a non-advancing cursor")
    end
  end.
Definition ListParts (p : Provider) (key uploadID : string) : GoM W (list StoredPart) :=
  list_pages p key uploadID maxListPartsPages None 0 [].

Definition SignDownload (p : Provider) (now : Time) (key filename : string) (ttl : Duration) : GoM W SignedDownload :=
  output ← mapped (PresignGetObject (p_presigner p) (p_bucket p) key (FormatAttachment filename) ttl)
             "could not sign download";
  ret (mkSignedDownload (ps_Method output) (ps_URL output) (AddTime now ttl)).

Definition DeleteObject (p : Provider) (key : string) : GoM W unit :=
  mapped (DeleteS3Object (p_client p) (p_bucket p) key) "could not delete object".

(** ** The port *)

Record S3State := mkS3State { s3_provider : Provider; s3_world : W }.
Definition on_s3 {A} (m : Provider → GoM W A) : GoM S3State A := λ s,
  let '(o, w) := m (s3_provider s) (s3_world s) in (o, mkS3State (s3_provider s) w).

#[export] Instance s3_storage : StorageProvider S3State := {|
  S_Bucket s := p_bucket (s3_provider s);
  S_Ready := on_s3 Ready;
  S_CreateMultipart _ key mimeType checksum := on_s3 (λ p, CreateMultipart p key mimeType checksum);
  S_SignUploadPart now key uploadID partNumber checksum ttl :=
    on_s3 (λ p, SignUploadPart p now key uploadID partNumber checksum ttl);
  S_CompleteMultipart key uploadID parts := on_s3 (λ p, CompleteMultipart p key uploadID parts);
  S_AbortMultipart key uploadID := on_s3 (λ p, AbortMultipart p key uploadID);
  S_ListParts key uploadID := on_s3 (λ p, ListParts p key uploadID);
  S_StatObject key := on_s3 (λ p, StatObject p key);
  S_SignDownload now key filename ttl := on_s3 (λ p, SignDownload p now key filename ttl);
  S_DeleteObject key := on_s3 (λ p, DeleteObject p key)
|}.
End provider.
