(* ===== verification/S3Properties.v ===== *)
(** * What the S3 object store guarantees *)
From S2P Require Import Prelude Errors Logic GoLib Types Validation Ports Paging Codecs S3Store.

Section provider.
Context {W : Type} `{!S3Client W, !SliceSort}.
Implicit Types (p : Provider).

(** ** Errors *)

Lemma mapError_classified err message : CodeOf (Some (mapError err message)) ≠ CodeInternal.
Proof.
  unfold mapError. destruct (bool_decide (CodeOf (Some err) = CodeInternal)) eqn:Hcode; simpl.
  - destruct (isNotFound err); [done|]. by destruct (has_code err _).
  - by apply bool_decide_eq_false in Hcode.
Qed.

Definition classified {A} (m : GoM W A) : Prop := ∀ w e w', m w = (Err e, w') → CodeOf (Some e) ≠ CodeInternal.

Lemma classified_mapped {A} (m : GoM W A) message : classified (mapped m message).
Proof. intros w e w'. unfold mapped. destruct (m w) as [[]?]; intros; simplify_eq. apply mapError_classified. Qed.
Lemma classified_ret {A} (a : A) : classified (ret a).
Proof. by intros ???. Qed.
Lemma classified_throw {A} code message : code ≠ CodeInternal → classified (throw (A := A) (E code message)).
Proof. intros Hcode w e w' [= <- <-]. exact Hcode. Qed.
Lemma classified_bind {A B} (m : GoM W A) (f : A → GoM W B) :
  classified m → (∀ a, classified (f a)) → classified (m ≫= f).
Proof.
  intros Hm Hf w e w'. unfold mbind, GoM_bind. destruct (m w) as [[]w1] eqn:Hw; intros He; simplify_eq.
  - by eapply Hf.
  - by eapply Hm.
Qed.
Lemma classified_try {A B} (m : GoM W A) (f : GoError + A → GoM W B) :
  (∀ r, classified (f r)) → classified (try_ m ≫= f).
Proof.
  intros Hf. apply classified_bind; [|done]. intros w e w'. unfold try_. by destruct (m w) as [[]?].
Qed.

Lemma list_pages_classified p key id fuel marker previous parts :
  classified (list_pages p key id fuel marker previous parts).
Proof.
  revert marker previous parts. induction fuel as [|fuel IH]; intros marker previous parts; simpl;
    [by apply classified_throw|].
  apply classified_bind; [apply classified_mapped|]. intros output.
  repeat case_match; first [apply classified_ret | by apply classified_throw | apply IH].
Qed.

(** ** Listing parts *)

(** What [stored_part] makes of a part: it counts as attested only under a trusted
    provider and with a checksum of the right form. *)
Definition part_ok p (part : StoredPart) : Prop :=
  StoredPart_Reusable part = false ∧
  (StoredPart_ChecksumAttested part = true →
     p_trustPartChecksums p = true ∧ StoredPart_StorageChecksum part ≠ go_zero ∧
     ValidChecksum (StoredPart_StorageChecksum part) = true).

Lemma stored_part_ok p part : part_ok p (stored_part p part).
Proof.
  unfold stored_part, part_ok. destruct (_ && _) eqn:Hvalid; [|done].
  apply andb_true_iff in Hvalid as [_ Hvalid]. done.
Qed.

#[export] Instance part_less_order : StrictWeakOrder part_less.
Proof. split; unfold part_less; intros; lia. Qed.

Lemma list_pages_bounded p key id fuel marker previous parts w result w' :
  zlen parts ≤ MaxUploadParts → Forall (part_ok p) parts →
  list_pages p key id fuel marker previous parts w = (Ok result, w') →
  zlen result ≤ MaxUploadParts ∧ StronglySorted (not_less part_less) result ∧ Forall (part_ok p) result.
Proof.
  revert marker previous parts w. induction fuel as [|fuel IH]; intros marker previous parts w Hlen Hok; simpl; [done|].
  rewrite bind_ok. intros (output & w1 & _ & Hrun).
  assert (Forall (part_ok p) (parts ++ (stored_part p <$> lpo_Parts output))) as Hok'.
  { apply Forall_app. split; [done|]. apply Forall_fmap, Forall_true. intros part. apply stored_part_ok. }
  revert Hrun Hok'. generalize (parts ++ (stored_part p <$> lpo_Parts output)). intros all Hrun Hok'.
  destruct (MaxUploadParts <=? zlen all) eqn:Hfull.
  { injection Hrun as <- <-. split_and!; [|by apply slice_sort_sorted, _|].
    - unfold zlen, MaxUploadParts. rewrite (Permutation_length (slice_sort_perm _ _)), length_take. lia.
    - rewrite slice_sort_perm. by apply Forall_take. }
  apply Z.leb_gt in Hfull.
  destruct (default false (lpo_IsTruncated output)); simpl in Hrun.
  2: { injection Hrun as <- <-. split_and!; [|by apply slice_sort_sorted, _|by rewrite slice_sort_perm].
       unfold zlen in *. rewrite (Permutation_length (slice_sort_perm _ _)). lia. }
  destruct (lpo_NextPartNumberMarker output) as [next|]; [|done].
  destruct (Atoi _) as [n|]; [|done]. destruct (n <=? previous); [done|]. eapply IH; [|done..]. lia.
Qed.
End provider.

(** ** A service that lists its parts honestly *)

Definition number (part : S3Part) : Z := default 0 (s3p_PartNumber part).
Definition above (n : Z) (part : S3Part) : Prop := n < number part.
#[export] Instance above_dec n part : Decision (above n part).
Proof. unfold above. apply _. Defined.

(** A page holds the first [size] parts above the marker, and a marker when there are more. *)
Definition page_after (stored : list S3Part) (size : nat) (marker : Z) : ListPartsOutput :=
  let rest := filter (above marker) stored in
  mkListPartsOutput (take size rest) (Some (bool_decide (size < length rest)%nat))
    ((λ part, json_int (number part)) <$> last (take size rest)).

Definition marker_value (marker : option string) : option Z :=
  match marker with Some s => Atoi s | None => Some 0 end.

(** The service answers every request for the upload with the page after its marker. *)
Record honest {W} `{!S3Client W} (p : Provider) (key id : string) (stored : list S3Part) (size : nat) : Prop := {
  honest_sorted : StronglySorted (λ x y, number x < number y) stored;
  honest_numbers part : part ∈ stored → 1 ≤ number part < 2 ^ 31;
  honest_few : zlen stored ≤ MaxUploadParts;
  honest_size : (500 ≤ size)%nat;
  honest_answer marker n w : marker_value marker = Some n →
    ListPartsPage (p_client p) (p_bucket p) key id marker w = (Ok (page_after stored size n), w)
}.

Section honest.
Context {W : Type} `{!S3Client W, !SliceSort}.
Context (p : Provider) (key id : string) (stored : list S3Part) (size : nat).

Lemma sort_stored : StronglySorted (λ x y, number x < number y) stored →
  slice_sort part_less (stored_part p <$> stored) = stored_part p <$> stored.
Proof.
  intros Hsorted. assert (∀ part, StoredPart_PartNumber (stored_part p part) = number part) as Hnumber.
  { intros part. unfold stored_part. by destruct (_ && _). }
  apply (StronglySorted_unique_strong (not_less part_less)); [|by apply slice_sort_sorted, _| |apply slice_sort_perm].
  - intros x y. rewrite slice_sort_perm, !list_elem_of_fmap. intros (a & -> & Ha) (b & -> & Hb).
    unfold not_less, part_less. rewrite !Hnumber. intros ?%Z.ltb_ge ?%Z.ltb_ge. f_equal.
    assert (number a = number b) as Heq by lia. clear -Hsorted Ha Hb Heq.
    induction Hsorted as [|x l Hs IH Hx]; [by apply not_elem_of_nil in Ha|].
    rewrite Forall_forall in Hx. apply elem_of_cons in Ha as [->|Ha], Hb as [->|Hb]; try done; [..|by apply IH].
    + specialize (Hx b Hb). simpl in Hx. lia.
    + specialize (Hx a Ha). simpl in Hx. lia.
  - clear -Hsorted Hnumber. induction Hsorted as [|x l Hs IH Hx]; simpl; constructor; [done|].
    apply Forall_fmap. eapply Forall_impl; [exact Hx|]. intros y Hy. unfold not_less, part_less. simpl.
    rewrite !Hnumber. simpl in Hy. lia.
Qed.

(** The part after which [n] parts have been listed. *)
Definition nth_number (n : nat) : Z :=
  match n with O => 0 | S n => default 0 (number <$> stored !! n) end.

Lemma above_drop n : (∀ part, part ∈ stored → 1 ≤ number part < 2 ^ 31) →
  StronglySorted (λ x y, number x < number y) stored → (n ≤ length stored)%nat →
  filter (above (nth_number n)) stored = drop n stored.
Proof.
  intros Hrange Hsorted Hn. destruct n as [|n]; simpl.
  - rewrite drop_0. apply filter_all. intros part Hin. unfold above. specialize (Hrange part Hin). lia.
  - destruct (lookup_lt_is_Some_2 stored n Hn) as [x Hx]. rewrite Hx. simpl.
    apply (filter_above_drop (λ x y, number x < number y)) with x; unfold above; try done; intros; lia.
Qed.

Lemma list_pages_honest fuel n marker w : honest p key id stored size → marker_value marker = Some (nth_number n) →
  (n ≤ length stored)%nat → (0 < fuel)%nat → (length stored ≤ n + fuel * size)%nat →
  list_pages p key id fuel marker (nth_number n) (stored_part p <$> take n stored) w = (Ok (stored_part p <$> stored), w).
Proof.
  intros [Hsorted Hrange Hfew Hsize Hanswer]. revert n marker. induction fuel as [|fuel IH]; intros n marker Hmarker Hn Hf Hlen; [lia|].
  simpl. unfold mapped, mbind at 1, GoM_bind at 1. rewrite (Hanswer marker _ w Hmarker). unfold page_after.
  rewrite above_drop by done. cbn [lpo_Parts lpo_IsTruncated lpo_NextPartNumberMarker].
  rewrite <- fmap_app, take_take_drop. unfold zlen, MaxUploadParts in *. rewrite length_fmap, length_take.
  assert (Hfinal : (length stored ≤ n + size)%nat → take (n + size) stored = stored) by (intros; by apply take_ge).
  destruct (10000 <=? Z.of_nat ((n + size) `min` length stored)) eqn:Hfull.
  { apply Z.leb_le in Hfull. rewrite (take_ge (stored_part p <$> _)) by (rewrite length_fmap, length_take; lia).
    rewrite Hfinal by lia. by rewrite sort_stored. }
  apply Z.leb_gt in Hfull. rewrite length_drop.
  destruct (decide (n + size < length stored)%nat) as [Hmore|Hlast].
  2: { rewrite bool_decide_eq_false_2 by lia. simpl. rewrite Hfinal by lia. by rewrite sort_stored. }
  rewrite bool_decide_eq_true_2 by lia. simpl.
  rewrite last_lookup, length_take, length_drop.
  replace (Nat.pred (size `min` (length stored - n))) with (size - 1)%nat by lia.
  rewrite lookup_take_lt, lookup_drop by lia.
  destruct (lookup_lt_is_Some_2 stored (n + (size - 1))) as [x Hx]; [lia|]. rewrite Hx. simpl.
  assert (nth_number (n + size) = number x) as Hnext.
  { replace (n + size)%nat with (S (n + (size - 1))) by lia. simpl. by rewrite Hx. }
  assert (Atoi (json_int (number x)) = Some (number x)) as Hatoi.
  { specialize (Hrange x (list_elem_of_lookup_2 _ _ _ Hx)). apply ParseInt_json_int; [unfold in_int64|]; lia. }
  rewrite Hatoi.
  assert (nth_number n < number x) as Hlt.
  { assert (x ∈ drop n stored) as Hin.
    { apply list_elem_of_lookup. exists (size - 1)%nat. by rewrite lookup_drop. }
    rewrite <- above_drop in Hin by done. by apply list_elem_of_filter in Hin as [? _]. }
  rewrite (proj2 (Z.leb_gt _ _) Hlt). rewrite <- Hnext. apply IH; [|lia..]. simpl. by rewrite Hnext.
Qed.
End honest.

(** ** The property *)

Lemma NewProvider_trust {W} `{!S3Client W} options w p w' : NewProvider options w = (Ok p, w') →
  p_trustPartChecksums p = true → S3Options_TrustPartChecksums options = true ∧ p_checksumHeaders p = true.
Proof.
  unfold NewProvider. destruct (_ || _); [done|]. rewrite bind_ok. intros (credentials & w1 & _ & Hrun).
  apply bind_ok in Hrun as ([err|[]] & w2 & _ & Hrun); [done|].
  apply bind_ok in Hrun as ([] & w3 & _ & Hrun). injection Hrun as <- _. simpl. by intros []%andb_true_iff.
Qed.

(** C38: a listing of parts is bounded whatever the service answers: it holds at most
    10000 parts in the order of their numbers, an error of it is never an internal
    one, and a part counts as attested only with a valid checksum reported by the
    service and a provider configured to trust it, which also binds checksums to
    the signatures of the parts. A service that pages honestly is listed
    completely, each part once. *)
Theorem part_listing_bounded_and_complete {W} `{!S3Client W, !SliceSort} p key id (w : W) :
  (∀ result w', ListParts p key id w = (Ok result, w') →
     zlen result ≤ 10000 ∧ StronglySorted (not_less part_less) result ∧
     ∀ part, part ∈ result → StoredPart_Reusable part = false ∧
       (StoredPart_ChecksumAttested part = true → p_trustPartChecksums p = true ∧
          StoredPart_StorageChecksum part ≠ go_zero ∧ ValidChecksum (StoredPart_StorageChecksum part) = true)) ∧
  (∀ e w', ListParts p key id w = (Err e, w') → CodeOf (Some e) ≠ CodeInternal) ∧
  (∀ options w0 w1, NewProvider options w0 = (Ok p, w1) → p_trustPartChecksums p = true →
     S3Options_TrustPartChecksums options = true ∧ p_checksumHeaders p = true) ∧
  (∀ stored size, honest p key id stored size → ListParts p key id w = (Ok (stored_part p <$> stored), w)).
Proof.
  split_and!.
  - intros result w' Hrun. apply list_pages_bounded in Hrun as (Hlen & Hsorted & Hok); [|done|by constructor].
    rewrite Forall_forall in Hok. split_and!; [done|done|]. exact Hok.
  - apply list_pages_classified.
  - intros options w0 w1. apply NewProvider_trust.
  - intros stored size Hhonest. destruct (Hhonest) as [_ _ Hfew Hsize _].
    assert (length stored ≤ 0 + 20 * size)%nat as Hfuel by (unfold zlen, MaxUploadParts in Hfew; lia).
    pose proof (list_pages_honest p key id stored size 20 0 None w Hhonest eq_refl (Nat.le_0_l _)
      (Nat.lt_0_succ _) Hfuel) as Hrun.
    exact Hrun.
Qed.

(** A service with three parts, and a provider that trusts it. *)
Definition lab_parts : list S3Part :=
  [mkS3Part (Some 1) (Some "a") (Some 5) None; mkS3Part (Some 2) (Some "b") (Some 5) None;
   mkS3Part (Some 7) (Some "c") (Some 1) None].
#[export] Instance lab_client : S3Client unit := {|
  LoadDefaultConfig _ := ret tt; HeadBucket _ _ := ret tt; CreateBucket _ _ _ := ret tt;
  CreateMultipartUpload _ _ := ret (Some "upload"); PresignUploadPart _ _ _ := ret (mkPresigned "PUT" "url" ∅);
  CompleteMultipartUpload _ _ _ _ _ := ret tt; AbortMultipartUpload _ _ _ _ := ret tt;
  ListPartsPage _ _ _ _ marker := ret (page_after lab_parts 500 (default 0 (marker_value marker)));
  HeadObject _ _ _ := ret (mkHeadObjectOutput (Some 11) (Some "e") None);
  PresignGetObject _ _ _ _ _ := ret (mkPresigned "GET" "url" ∅); DeleteS3Object _ _ _ := ret tt;
  api_code _ := None; FormatAttachment s := s
|}.
#[export] Program Instance merge_slice_sort : SliceSort := {| slice_sort A less l := sort_slice less l |}.
Next Obligation. intros. apply sort_slice_perm. Qed.
Next Obligation. intros. by apply sort_slice_sorted. Qed.

Definition lab_provider : Provider :=
  mkProvider (mkS3Endpoint "" false) (mkS3Endpoint "" false) "bucket" true true.
Lemma lab_honest : honest lab_provider "key" "id" lab_parts 500.
Proof.
  split.
  - unfold lab_parts. repeat constructor; unfold number; simpl; lia.
  - intros part Hin. unfold lab_parts in Hin. 
    repeat (apply elem_of_cons in Hin as [->|Hin]; [unfold number; simpl; lia|]). by apply not_elem_of_nil in Hin.
  - vm_compute. discriminate.
  - lia.
  - intros marker n []. simpl. by intros ->.
Qed.

Lemma part_listing_bounded_and_complete_witness :
  ListParts lab_provider "key" "id" tt = (Ok (stored_part lab_provider <$> lab_parts), tt).
Proof.
  destruct (part_listing_bounded_and_complete lab_provider "key" "id" tt) as (_ & _ & _ & Hcomplete).
  exact (Hcomplete lab_parts 500%nat lab_honest).
Defined.
