(* ===== verification/ConfigText.v ===== *)
(** * The text formats of the configuration

    [strconv.ParseBool], [time.ParseDuration], [net.SplitHostPort] and the string
    functions that internal/config uses. The product of a fraction with its unit,
    which Go computes with floating point numbers, is a parameter. *)
From S2P Require Import Prelude Errors GoLib Codecs.

(** ** Booleans *)

Definition ParseBool (s : string) : option bool :=
  if bool_decide (s ∈ ["1"; "t"; "T"; "true"; "TRUE"; "True"]) then Some true
  else if bool_decide (s ∈ ["0"; "f"; "F"; "false"; "FALSE"; "False"]) then Some false
  else None.

(** ** Durations *)

(** [uint64(float64(f) * (float64(unit) / 10^digits))] *)
Class FloatMath := { scaled_fraction : Z → Z → Z → Z }.

Definition is_digit_byte (ch : Ascii.ascii) : bool := in_range 48 57 (byte_val ch).

(** The digits at the front, and what follows; [None] when they exceed 2^63. *)
Fixpoint leading_int (x : Z) (l : list Ascii.ascii) : option (Z * list Ascii.ascii) :=
  match l with
  | ch :: rest =>
    if is_digit_byte ch then
      let y := x * 10 + (byte_val ch - 48) in
      if (2 ^ 63 / 10 <? x) || (2 ^ 63 <? y) then None else leading_int y rest
    else Some (x, l)
  | [] => Some (x, [])
  end.
(** The digits of a fraction and their number; digits beyond 2^63 are dropped. *)
Fixpoint leading_fraction (x digits : Z) (overflow : bool) (l : list Ascii.ascii) : Z * Z * list Ascii.ascii :=
  match l with
  | ch :: rest =>
    if is_digit_byte ch then
      let y := x * 10 + (byte_val ch - 48) in
      if overflow || ((2 ^ 63 - 1) / 10 <? x) || (2 ^ 63 <? y) then leading_fraction x digits true rest
      else leading_fraction y (digits + 1) false rest
    else (x, digits, l)
  | [] => (x, digits, [])
  end.
(** The name of the unit ends at a point or a digit. *)
Fixpoint take_unit (l : list Ascii.ascii) : list Ascii.ascii * list Ascii.ascii :=
  match l with
  | ch :: rest =>
    if (byte_val ch =? 46) || is_digit_byte ch then ([], l)
    else let '(u, rest) := take_unit rest in (ch :: u, rest)
  | [] => ([], [])
  end.
Definition duration_unit (u : string) : option Z :=
  if u == "ns" then Some 1
  else if (u == "us") || (u == of_bytes [194; 181; 115]) || (u == of_bytes [206; 188; 115]) then Some 1000
  else if u == "ms" then Some Millisecond
  else if u == "s" then Some Second
  else if u == "m" then Some Minute
  else if u == "h" then Some Hour
  else None.

(** The loop over the terms; every term consumes at least one byte. *)
Fixpoint duration_terms `{!FloatMath} (fuel : nat) (d : Z) (l : list Ascii.ascii) : option Z :=
  match l, fuel with
  | [], _ => Some d
  | _, O => None
  | ch :: _, S fuel =>
    if negb ((byte_val ch =? 46) || is_digit_byte ch) then None else
    '(v, rest) ← leading_int 0 l;
    let pre := negb (bool_decide (length rest = length l)) in
    let '(f, digits, after_fraction, post) :=
      match rest with
      | point :: frac =>
        if byte_val point =? 46 then
          let '(f, digits, rest') := leading_fraction 0 0 false frac in
          (f, digits, rest', negb (bool_decide (length rest' = length frac)))
        else (0, 0, rest, false)
      | [] => (0, 0, rest, false)
      end in
    if negb pre && negb post then None else
    let '(u, rest) := take_unit after_fraction in
    if bool_decide (u = []) then None else
    unit ← duration_unit (of_chars u);
    if 2 ^ 63 / unit <? v then None else
    let v := v * unit in
    let v := if 0 <? f then v + scaled_fraction f digits unit else v in
    if 2 ^ 63 <? v then None else
    let d := (d + v) mod 2 ^ 64 in
    if 2 ^ 63 <? d then None else duration_terms fuel d rest
  end.

Definition ParseDuration `{!FloatMath} (s : string) : option Duration :=
  let '(negative, l) := split_sign (chars s) in
  if bool_decide (of_chars l = "0") then Some 0 else
  if bool_decide (l = []) then None else
  d ← duration_terms (length l) 0 l;
  if negative then Some (- d)
  else if 2 ^ 63 - 1 <? d then None else Some d.


(** ** Addresses *)

Fixpoint index_byte (b : Z) (l : list Z) : option nat :=
  match l with
  | [] => None
  | x :: l => if x =? b then Some O else S <$> index_byte b l
  end.
Definition last_index_byte (b : Z) (l : list Z) : option nat :=
  i ← index_byte b (reverse l); Some (length l - S i)%nat.
Definition has_byte (b : Z) (l : list Z) : bool := bool_decide (b ∈ l).

(** [net.SplitHostPort]: the port; the host is not used. *)
Definition SplitPort (hostport : string) : option string :=
  let l := bytes hostport in
  i ← last_index_byte 58 l;
  '(j, k) ←
    (if bool_decide (head l = Some 91) then
       match index_byte 93 l with
       | None => None
       | Some e => if bool_decide (S e = i) then Some (1%nat, S e) else None
       end
     else if has_byte 58 (take i l) then None else Some (0%nat, 0%nat));
  if has_byte 91 (drop j l) || has_byte 93 (drop k l) then None
  else Some (of_bytes (drop (S i) l)).

(** ** Strings *)

(** [strings.TrimSuffix(s, suffix)] for a suffix of one byte. *)
Definition TrimSuffixByte (b : Z) (s : string) : string :=
  if bool_decide (last (bytes s) = Some b) then of_bytes (removelast (bytes s)) else s.

Example ParseDuration_examples `{!FloatMath} :
  ParseDuration "720h" = Some (720 * Hour) ∧ ParseDuration "1h15m" = Some (75 * Minute) ∧
  ParseDuration "-2ms" = Some (- 2 * Millisecond) ∧ ParseDuration "5" = None ∧ ParseDuration "" = None.
Proof. vm_compute. repeat split; reflexivity. Qed.
Example SplitPort_examples :
  SplitPort "127.0.0.1:8080" = Some "8080" ∧ SplitPort "[::1]:90" = Some "90" ∧ SplitPort "::1:90" = None ∧
  SplitPort "host" = None ∧ SplitPort ":80" = Some "80".
Proof. vm_compute. repeat split; reflexivity. Qed.
