(* ===== verification/Config.v ===== *)
(** * The configuration of the server (src/internal/config/config.go)

    [load] reads the environment through a function [lookup] and checks the result
    with [Validate]. Files, JSON, URLs and the texts of conversion errors are
    parameters. *)
From S2P Require Import Prelude Errors GoLib Types Validation Ports Service Auth OIDC Codecs ConfigText.
From S2P Require MaintenanceLoop Server S3Store.

Record Token := mkToken {
  Token_TenantID : string;
  Token_PrincipalID : string;
  Token_TenantName : string
}.
#[export] Instance eta_Token : Eta Token := λ r,
  mkToken (Token_TenantID r) (Token_PrincipalID r) (Token_TenantName r).
#[export] Instance zero_Token : GoZero Token :=
  mkToken go_zero go_zero go_zero.

Record OIDCBootstrap := mkOIDCBootstrap {
  OIDCBootstrap_Issuer : string;
  OIDCBootstrap_Subject : string;
  OIDCBootstrap_PrincipalID : string;
  OIDCBootstrap_TenantID : string;
  OIDCBootstrap_TenantName : string;
  OIDCBootstrap_DisplayName : string;
  OIDCBootstrap_Role : string
}.
#[export] Instance eta_OIDCBootstrap : Eta OIDCBootstrap := λ r,
  mkOIDCBootstrap (OIDCBootstrap_Issuer r) (OIDCBootstrap_Subject r) (OIDCBootstrap_PrincipalID r) (OIDCBootstrap_TenantID r) (OIDCBootstrap_TenantName r) (OIDCBootstrap_DisplayName r) (OIDCBootstrap_Role r).
#[export] Instance zero_OIDCBootstrap : GoZero OIDCBootstrap :=
  mkOIDCBootstrap go_zero go_zero go_zero go_zero go_zero go_zero go_zero.

Record Config := mkConfig {
  Config_Environment : string;
  Config_Address : string;
  Config_MetricsAddress : string;
  Config_AuthMode : string;
  Config_Tokens : gmap string Token;
  Config_OIDCIssuer : string;
  Config_OIDCClientID : string;
  Config_OIDCBootstrap : list OIDCBootstrap;
  Config_CursorKey : string;
  Config_MetadataDriver : string;
  Config_DatabaseURL : string;
  Config_DatabaseURLFromFile : bool;
  Config_AutoMigrate : bool;
  Config_StorageDriver : string;
  Config_S3Endpoint : string;
  Config_S3PublicEndpoint : string;
  Config_S3Region : string;
  Config_S3Bucket : string;
  Config_S3AccessKey : string;
  Config_S3AccessKeyFromFile : bool;
  Config_S3SecretKey : string;
  Config_S3SecretKeyFromFile : bool;
  Config_S3PathStyle : bool;
  Config_S3AutoCreate : bool;
  Config_S3ChecksumHeaders : bool;
  Config_S3TrustPartChecksums : bool;
  Config_MaxFileSize : Z;
  Config_PartSize : Z;
  Config_UploadTTL : Duration;
  Config_UploadSignTTL : Duration;
  Config_DownloadSignTTL : Duration;
  Config_MaintenanceEnabled : bool;
  Config_MaintenanceInterval : Duration;
  Config_MaintenanceLease : Duration;
  Config_MaintenanceStaleAfter : Duration;
  Config_RecycleRetention : Duration;
  Config_MaintenanceBatchSize : Z;
  Config_ReadHeaderTimeout : Duration;
  Config_ReadTimeout : Duration;
  Config_WriteTimeout : Duration;
  Config_IdleTimeout : Duration;
  Config_CursorKeyFromFile : bool
}.
#[export] Instance eta_Config : Eta Config := λ r,
  mkConfig (Config_Environment r) (Config_Address r) (Config_MetricsAddress r) (Config_AuthMode r) (Config_Tokens r) (Config_OIDCIssuer r) (Config_OIDCClientID r) (Config_OIDCBootstrap r) (Config_CursorKey r) (Config_MetadataDriver r) (Config_DatabaseURL r) (Config_DatabaseURLFromFile r) (Config_AutoMigrate r) (Config_StorageDriver r) (Config_S3Endpoint r) (Config_S3PublicEndpoint r) (Config_S3Region r) (Config_S3Bucket r) (Config_S3AccessKey r) (Config_S3AccessKeyFromFile r) (Config_S3SecretKey r) (Config_S3SecretKeyFromFile r) (Config_S3PathStyle r) (Config_S3AutoCreate r) (Config_S3ChecksumHeaders r) (Config_S3TrustPartChecksums r) (Config_MaxFileSize r) (Config_PartSize r) (Config_UploadTTL r) (Config_UploadSignTTL r) (Config_DownloadSignTTL r) (Config_MaintenanceEnabled r) (Config_MaintenanceInterval r) (Config_MaintenanceLease r) (Config_MaintenanceStaleAfter r) (Config_RecycleRetention r) (Config_MaintenanceBatchSize r) (Config_ReadHeaderTimeout r) (Config_ReadTimeout r) (Config_WriteTimeout r) (Config_IdleTimeout r) (Config_CursorKeyFromFile r).
#[export] Instance zero_Config : GoZero Config :=
  mkConfig go_zero go_zero go_zero go_zero go_zero go_zero go_zero go_zero go_zero go_zero go_zero go_zero go_zero go_zero go_zero go_zero go_zero go_zero go_zero go_zero go_zero go_zero go_zero go_zero go_zero go_zero go_zero go_zero go_zero go_zero go_zero go_zero go_zero go_zero go_zero go_zero go_zero go_zero go_zero go_zero go_zero go_zero.

Class ConfigEnv := {
  os_ReadFile : string → GoError + string;
  UnmarshalTokens : string → GoError + gmap string Token;
  UnmarshalBootstrap : string → GoError + list OIDCBootstrap;
  (** the error of a function of [strconv] or [time] for a text *)
  parse_error : string → string → GoError;
  (** [parsed.String()] and [parsed.Query()[key]] of the URL of a text *)
  URL_String : string → string;
  URL_Query : string → string → list string
}.

Section config.
Context `{!Platform, !MapRange, !FloatMath, !URLParser, !ConfigEnv}.

Definition fail {A} (message : string) : Outcome A := Err (PlainError message).
(** [if condition { return fmt.Errorf(message) }] *)
Definition refuse_if (condition : bool) (message : string) : Outcome unit :=
  if condition then fail message else Ok tt.

(** ** Sources *)

Definition sourcedValue (lookup : string → option string) (key fallback : string) (maxBytes : Z)
    : Outcome (string * bool) :=
  let inline := default "" (lookup key) in
  let path := default "" (lookup (key +:+ "_FILE")) in
  let inlineSet := inline != "" in
  let fileSet := path != "" in
  if inlineSet && fileSet then fail (key +:+ " and " +:+ key +:+ "_FILE are mutually exclusive") else
  if negb fileSet then Ok (if inlineSet then inline else fallback, false) else
  match os_ReadFile path with
  | inl err => Err (WrapError ("read " +:+ key +:+ "_FILE") err)
  | inr contents =>
    if (zstrlen contents =? 0) || (maxBytes <? zstrlen contents) then
      fail (key +:+ "_FILE must contain between 1 and " +:+ json_int maxBytes +:+ " bytes") else
    let value := TrimSuffixByte 13 (TrimSuffixByte 10 contents) in
    if (value == "") || has_byte 0 (bytes value) then fail (key +:+ "_FILE contains an invalid value")
    else Ok (value, true)
  end.

Definition validUUID (value : string) : bool :=
  let at_ (i : nat) := bytes value !! i in
  if (zstrlen value != 36) || (at_ 8%nat != Some 45) || (at_ 13%nat != Some 45) || (at_ 18%nat != Some 45) ||
     (at_ 23%nat != Some 45) then false
  else forallb (λ '(i, rune, _), (i =? 8) || (i =? 13) || (i =? 18) || (i =? 23) ||
                  in_range 48 57 rune || in_range 97 102 rune) (range_string (strings_ToLower value)).

Definition validAccessRole (role : string) : bool :=
  (role == "owner") || (role == "admin") || (role == "editor") || (role == "viewer").

Definition parseTokens (value : string) : Outcome (gmap string Token) :=
  if value == "" then Ok ∅ else
  match UnmarshalTokens value with
  | inl err => Err (WrapError "ASTERIA_TRUSTED_TOKENS_JSON must be a JSON object" err)
  | inr tokens =>
    if existsb (λ '(secret, token), (zstrlen secret <? 32) || negb (validUUID (Token_TenantID token)) ||
                  negb (validUUID (Token_PrincipalID token))) (map_range 0 tokens) then
      fail "trusted token entries require a 32-byte token and UUID tenant/principal ids"
    else Ok ((λ token, if Token_TenantName token == "" then token <| Token_TenantName := "Asteria tenant" |>
                       else token) <$> tokens)
  end.

Definition bootstrap_defaults (member : OIDCBootstrap) : OIDCBootstrap :=
  let named := if OIDCBootstrap_TenantName member == ""
               then member <| OIDCBootstrap_TenantName := "Asteria tenant" |> else member in
  if OIDCBootstrap_DisplayName member == ""
  then named <| OIDCBootstrap_DisplayName := OIDCBootstrap_Subject member |> else named.

Definition parseOIDCBootstrap (value : string) : Outcome (list OIDCBootstrap) :=
  if value == "" then Ok [] else
  match UnmarshalBootstrap value with
  | inl err => Err (WrapError "ASTERIA_OIDC_BOOTSTRAP_JSON must be a JSON array" err)
  | inr members =>
    if existsb (λ member, (OIDCBootstrap_Issuer member == "") || (OIDCBootstrap_Subject member == "") ||
                  negb (validUUID (OIDCBootstrap_PrincipalID member)) ||
                  negb (validUUID (OIDCBootstrap_TenantID member)) ||
                  negb (validAccessRole (OIDCBootstrap_Role member))) members then
      fail "OIDC bootstrap members require issuer, subject, UUID ids and a valid role"
    else Ok (bootstrap_defaults <$> members)
  end.

(** ** URLs *)

(** An HTTP(S) URL without credentials, query or fragment. *)
Definition plain_http_url (value : string) : option URL :=
  match ParseURL value with
  | inl _ => None
  | inr parsed =>
    if (URL_Host parsed == "") || ((URL_Scheme parsed != "http") && (URL_Scheme parsed != "https")) ||
       URL_User parsed || (URL_RawQuery parsed != "") || (URL_Fragment parsed != "") then None
    else Some parsed
  end.

Definition parseIssuerURL (value : string) : Outcome URL :=
  match plain_http_url value with
  | Some parsed => Ok parsed
  | None => fail "ASTERIA_OIDC_ISSUER must be an HTTP(S) URL without credentials, query, or fragment"
  end.

Definition validateS3Endpoint (name value : string) (production : bool) : Outcome unit :=
  match plain_http_url value with
  | None => fail (name +:+ " must be an HTTP(S) URL without credentials, query, or fragment")
  | Some parsed => refuse_if (production && (URL_Scheme parsed != "https")) ("production " +:+ name +:+ " must use HTTPS")
  end.

Definition validateDatabaseURL (value : string) (production fromFile : bool) : Outcome unit :=
  match ParseURL value with
  | inl _ => fail "ASTERIA_DATABASE_URL must be a PostgreSQL URL"
  | inr parsed =>
    if ((URL_Scheme parsed != "postgres") && (URL_Scheme parsed != "postgresql")) || (URL_Host parsed == "") then
      fail "ASTERIA_DATABASE_URL must be a PostgreSQL URL" else
    if negb production then Ok tt else
    if negb fromFile then fail "production database URL must use ASTERIA_DATABASE_URL_FILE" else
    refuse_if (URL_Query value "sslmode" != ["verify-full"]) "production PostgreSQL requires sslmode=verify-full"
  end.

(** ** Validation *)

Definition production (c : Config) : bool := Config_Environment c == "production".
Definition nul : string := of_bytes [0].

(** The loop over the bootstrap members. *)
Fixpoint check_bootstrap (issuer : string) (seenMembership : gmap string unit) (seenPrincipal : gmap string string)
    (members : list OIDCBootstrap) : Outcome unit :=
  match members with
  | [] => Ok tt
  | member :: members =>
    match parseIssuerURL (OIDCBootstrap_Issuer member) with
    | Ok _ =>
      if URL_String (OIDCBootstrap_Issuer member) != URL_String issuer then
        fail "OIDC bootstrap issuer must match ASTERIA_OIDC_ISSUER" else
      let external := OIDCBootstrap_Issuer member +:+ nul +:+ OIDCBootstrap_Subject member in
      let membership := OIDCBootstrap_TenantID member +:+ nul +:+ external in
      if bool_decide (is_Some (seenMembership !! membership)) then
        fail "OIDC bootstrap contains duplicate tenant membership" else
      let seenMembership := <[membership := tt]> seenMembership in
      let principal := OIDCBootstrap_PrincipalID member in
      if match seenPrincipal !! principal with Some previous => previous != external | None => false end then
        fail "OIDC bootstrap principal id maps to multiple external identities" else
      check_bootstrap issuer seenMembership (<[principal := external]> seenPrincipal) members
    | Err err => Err (WrapError "OIDC bootstrap issuer is invalid" err)
    | Panicked p => Panicked p
    | Diverged => Diverged
    end
  end.

Definition validate_auth (c : Config) : Outcome unit :=
  if Config_AuthMode c == "trusted-dev" then
    _ ← refuse_if (production c) "trusted-dev authentication is forbidden in production";
    refuse_if (bool_decide (size (Config_Tokens c) = 0%nat)) "ASTERIA_TRUSTED_TOKENS_JSON is required"
  else
    _ ← refuse_if ((Config_OIDCIssuer c == "") || (Config_OIDCClientID c == "") ||
                   bool_decide (length (Config_OIDCBootstrap c) = 0%nat))
          "OIDC issuer, client id and bootstrap members are required";
    parsed ← parseIssuerURL (Config_OIDCIssuer c);
    _ ← refuse_if (production c && (URL_Scheme parsed != "https")) "production OIDC issuer must use HTTPS";
    _ ← check_bootstrap (Config_OIDCIssuer c) ∅ ∅ (Config_OIDCBootstrap c);
    refuse_if (production c && ((Config_MetadataDriver c != "postgres") || (Config_StorageDriver c != "s3")))
      "production OIDC mode requires postgres metadata and s3 storage".

Definition valid_port (address : string) : bool :=
  match SplitPort address ≫= Atoi with
  | Some port => negb ((port <? 1) || (65535 <? port))
  | None => false
  end.
Fixpoint check_addresses (addresses : list (string * string)) : Outcome unit :=
  match addresses with
  | [] => Ok tt
  | (key, address) :: addresses =>
    _ ← refuse_if (negb (valid_port address)) (key +:+ " must be a valid host:port address");
    check_addresses addresses
  end.
Definition addresses (c : Config) : gmap string string :=
  list_to_map [("ASTERIA_SERVER_ADDRESS", Config_Address c); ("ASTERIA_METRICS_ADDRESS", Config_MetricsAddress c)].

Definition validate_metadata (c : Config) : Outcome unit :=
  let driver := Config_MetadataDriver c in
  _ ← refuse_if ((driver != "memory") && (driver != "postgres")) "ASTERIA_METADATA_DRIVER must be memory or postgres";
  _ ← refuse_if ((driver == "postgres") && (Config_DatabaseURL c == ""))
        "ASTERIA_DATABASE_URL or ASTERIA_DATABASE_URL_FILE is required for postgres";
  if driver == "postgres" then
    validateDatabaseURL (Config_DatabaseURL c) (production c) (Config_DatabaseURLFromFile c)
  else Ok tt.

Definition validate_storage (c : Config) : Outcome unit :=
  let s3 := Config_StorageDriver c == "s3" in
  _ ← refuse_if ((Config_StorageDriver c != "memory") && negb s3) "ASTERIA_STORAGE_DRIVER must be memory or s3";
  _ ← refuse_if (s3 && ((Config_S3Endpoint c == "") || (Config_S3PublicEndpoint c == "") ||
                        (Config_S3Region c == "") || (Config_S3Bucket c == "")))
        "S3 endpoint, public endpoint, region and bucket are required for s3";
  _ ← refuse_if (s3 && Config_S3TrustPartChecksums c && negb (Config_S3ChecksumHeaders c))
        "ASTERIA_S3_TRUST_PART_CHECKSUMS requires ASTERIA_S3_CHECKSUM_HEADERS=true";
  _ ← (if s3 then
         _ ← validateS3Endpoint "ASTERIA_S3_ENDPOINT" (Config_S3Endpoint c) (production c);
         validateS3Endpoint "ASTERIA_S3_PUBLIC_ENDPOINT" (Config_S3PublicEndpoint c) (production c)
       else Ok tt);
  refuse_if (production c && s3 && (Config_S3AccessKey c != "") &&
             (negb (Config_S3AccessKeyFromFile c) || negb (Config_S3SecretKeyFromFile c)))
    "production static S3 credentials must use *_FILE inputs".

Definition validate_production (c : Config) : Outcome unit :=
  if production c then
    _ ← refuse_if (negb (Config_CursorKeyFromFile c))
          "production cursor HMAC key must use ASTERIA_CURSOR_HMAC_KEY_FILE";
    _ ← refuse_if (Config_AutoMigrate c) "ASTERIA_AUTO_MIGRATE must be false in production";
    refuse_if (Config_S3AutoCreate c) "ASTERIA_S3_AUTO_CREATE_BUCKET must be false in production"
  else Ok tt.

Definition validate_limits (c : Config) : Outcome unit :=
  _ ← refuse_if ((Config_MaxFileSize c <=? 0) || (Config_PartSize c <? 5 * 1024 * 1024) ||
                 (5 * 1024 * 1024 * 1024 <? Config_PartSize c)) "file and part size limits are invalid";
  _ ← refuse_if ((Config_UploadTTL c <=? 0) || (Config_UploadSignTTL c <=? 0) || (Config_DownloadSignTTL c <=? 0) ||
                 (Hour <? Config_UploadSignTTL c) || (Hour <? Config_DownloadSignTTL c))
        "session and signing TTL values are invalid";
  _ ← refuse_if ((Config_MaintenanceInterval c <=? 0) || (Config_MaintenanceLease c <=? 0) ||
                 (Config_MaintenanceStaleAfter c <=? 0) || (Config_RecycleRetention c <=? 0) ||
                 (Config_MaintenanceBatchSize c <? 1) || (1000 <? Config_MaintenanceBatchSize c))
        "maintenance configuration is invalid";
  refuse_if ((Config_ReadHeaderTimeout c <=? 0) || (Config_ReadTimeout c <=? 0) || (Config_WriteTimeout c <=? 0) ||
             (Config_IdleTimeout c <=? 0)) "HTTP timeout values must be positive".

Definition Validate (c : Config) : Outcome unit :=
  _ ← refuse_if ((Config_Environment c != "development") && (Config_Environment c != "production"))
        "ASTERIA_ENV must be development or production";
  _ ← refuse_if ((Config_AuthMode c != "trusted-dev") && (Config_AuthMode c != "oidc"))
        "ASTERIA_AUTH_MODE must be trusted-dev or oidc";
  _ ← validate_auth c;
  _ ← refuse_if (zstrlen (Config_CursorKey c) <? 32) "ASTERIA_CURSOR_HMAC_KEY must contain at least 32 bytes";
  _ ← check_addresses (map_range 1 (addresses c));
  _ ← validate_metadata c;
  _ ← validate_storage c;
  _ ← validate_production c;
  validate_limits c.

(** ** Loading *)

Definition get (lookup : string → option string) (key fallback : string) : string :=
  match lookup key with Some value => if value != "" then value else fallback | None => fallback end.

Definition parse_option {A} (function key raw : string) (parsed : option A) : Outcome A :=
  match parsed with Some a => Ok a | None => Err (WrapError key (parse_error function raw)) end.
Definition get_bool lookup (key fallback : string) : Outcome bool :=
  let raw := get lookup key fallback in parse_option "ParseBool" key raw (ParseBool raw).
Definition get_int lookup (function key fallback : string) : Outcome Z :=
  let raw := get lookup key fallback in parse_option function key raw (ParseInt raw).

(** The durations and their defaults. *)
Definition duration_defaults : list (string * string) :=
  [("ASTERIA_UPLOAD_TTL", "24h"); ("ASTERIA_UPLOAD_SIGN_TTL", "15m"); ("ASTERIA_DOWNLOAD_SIGN_TTL", "15m");
   ("ASTERIA_MAINTENANCE_INTERVAL", "1m"); ("ASTERIA_MAINTENANCE_LEASE", "2m");
   ("ASTERIA_MAINTENANCE_STALE_AFTER", "15m"); ("ASTERIA_RECYCLE_RETENTION", "720h");
   ("ASTERIA_READ_HEADER_TIMEOUT", "5s"); ("ASTERIA_READ_TIMEOUT", "15s"); ("ASTERIA_WRITE_TIMEOUT", "30s");
   ("ASTERIA_IDLE_TIMEOUT", "60s")].

(** The loop over the map of targets; the result holds what was assigned. *)
Fixpoint load_durations (lookup : string → option string) (keys : list (string * string))
    (targets : gmap string Duration) : Outcome (gmap string Duration) :=
  match keys with
  | [] => Ok targets
  | (key, fallback) :: keys =>
    let raw := get lookup key fallback in
    d ← parse_option "ParseDuration" key raw (ParseDuration raw);
    load_durations lookup keys (<[key := d]> targets)
  end.

Definition load (lookup : string → option string) : Outcome Config :=
  '(databaseURL, databaseURLFromFile) ← sourcedValue lookup "ASTERIA_DATABASE_URL" "" (64 * 1024);
  '(s3AccessKey, s3AccessKeyFromFile) ← sourcedValue lookup "ASTERIA_S3_ACCESS_KEY_ID" "" (64 * 1024);
  '(s3SecretKey, s3SecretKeyFromFile) ← sourcedValue lookup "ASTERIA_S3_SECRET_ACCESS_KEY" "" (64 * 1024);
  '(cursorKey, cursorKeyFromFile) ← sourcedValue lookup "ASTERIA_CURSOR_HMAC_KEY" "" (64 * 1024);
  '(trustedTokens, _) ← sourcedValue lookup "ASTERIA_TRUSTED_TOKENS_JSON" "" (2 ^ 20);
  '(oidcBootstrap, _) ← sourcedValue lookup "ASTERIA_OIDC_BOOTSTRAP_JSON" "" (2 ^ 20);
  let s3Endpoint := get lookup "ASTERIA_S3_ENDPOINT" "" in
  tokens ← parseTokens trustedTokens;
  members ← parseOIDCBootstrap oidcBootstrap;
  autoMigrate ← get_bool lookup "ASTERIA_AUTO_MIGRATE" "false";
  pathStyle ← get_bool lookup "ASTERIA_S3_PATH_STYLE" "true";
  autoCreate ← get_bool lookup "ASTERIA_S3_AUTO_CREATE_BUCKET" "false";
  checksumHeaders ← get_bool lookup "ASTERIA_S3_CHECKSUM_HEADERS" "false";
  trustPartChecksums ← get_bool lookup "ASTERIA_S3_TRUST_PART_CHECKSUMS" "false";
  maintenanceEnabled ← get_bool lookup "ASTERIA_MAINTENANCE_ENABLED" "true";
  batchSize ← get_int lookup "Atoi" "ASTERIA_MAINTENANCE_BATCH_SIZE" "50";
  maxFileSize ← get_int lookup "ParseInt" "ASTERIA_MAX_FILE_SIZE" "53687091200";
  partSize ← get_int lookup "ParseInt" "ASTERIA_PART_SIZE" "8388608";
  durations ← load_durations lookup (map_range 2 (list_to_map duration_defaults)) ∅;
  let c := {|
    Config_Environment := get lookup "ASTERIA_ENV" "development";
    Config_Address := get lookup "ASTERIA_SERVER_ADDRESS" "127.0.0.1:8080";
    Config_MetricsAddress := get lookup "ASTERIA_METRICS_ADDRESS" "127.0.0.1:9090";
    Config_AuthMode := get lookup "ASTERIA_AUTH_MODE" "trusted-dev";
    Config_Tokens := tokens;
    Config_OIDCIssuer := get lookup "ASTERIA_OIDC_ISSUER" "";
    Config_OIDCClientID := get lookup "ASTERIA_OIDC_CLIENT_ID" "";
    Config_OIDCBootstrap := members;
    Config_CursorKey := cursorKey;
    Config_MetadataDriver := get lookup "ASTERIA_METADATA_DRIVER" "memory";
    Config_DatabaseURL := databaseURL;
    Config_DatabaseURLFromFile := databaseURLFromFile;
    Config_AutoMigrate := autoMigrate;
    Config_StorageDriver := get lookup "ASTERIA_STORAGE_DRIVER" "memory";
    Config_S3Endpoint := s3Endpoint;
    Config_S3PublicEndpoint := get lookup "ASTERIA_S3_PUBLIC_ENDPOINT" s3Endpoint;
    Config_S3Region := get lookup "ASTERIA_S3_REGION" "us-east-1";
    Config_S3Bucket := get lookup "ASTERIA_S3_BUCKET" "asteria-drive";
    Config_S3AccessKey := s3AccessKey;
    Config_S3AccessKeyFromFile := s3AccessKeyFromFile;
    Config_S3SecretKey := s3SecretKey;
    Config_S3SecretKeyFromFile := s3SecretKeyFromFile;
    Config_S3PathStyle := pathStyle;
    Config_S3AutoCreate := autoCreate;
    Config_S3ChecksumHeaders := checksumHeaders;
    Config_S3TrustPartChecksums := trustPartChecksums;
    Config_MaxFileSize := maxFileSize;
    Config_PartSize := partSize;
    Config_UploadTTL := map_get durations "ASTERIA_UPLOAD_TTL";
    Config_UploadSignTTL := map_get durations "ASTERIA_UPLOAD_SIGN_TTL";
    Config_DownloadSignTTL := map_get durations "ASTERIA_DOWNLOAD_SIGN_TTL";
    Config_MaintenanceEnabled := maintenanceEnabled;
    Config_MaintenanceInterval := map_get durations "ASTERIA_MAINTENANCE_INTERVAL";
    Config_MaintenanceLease := map_get durations "ASTERIA_MAINTENANCE_LEASE";
    Config_MaintenanceStaleAfter := map_get durations "ASTERIA_MAINTENANCE_STALE_AFTER";
    Config_RecycleRetention := map_get durations "ASTERIA_RECYCLE_RETENTION";
    Config_MaintenanceBatchSize := batchSize;
    Config_ReadHeaderTimeout := map_get durations "ASTERIA_READ_HEADER_TIMEOUT";
    Config_ReadTimeout := map_get durations "ASTERIA_READ_TIMEOUT";
    Config_WriteTimeout := map_get durations "ASTERIA_WRITE_TIMEOUT";
    Config_IdleTimeout := map_get durations "ASTERIA_IDLE_TIMEOUT";
    Config_CursorKeyFromFile := cursorKeyFromFile
  |} in
  _ ← Validate c; Ok c.

Definition LoadDatabaseURL (lookup : string → option string) : Outcome string :=
  let environment := get lookup "ASTERIA_ENV" "development" in
  _ ← refuse_if ((environment != "development") && (environment != "production"))
        "ASTERIA_ENV must be development or production";
  '(value, fromFile) ← sourcedValue lookup "ASTERIA_DATABASE_URL" "" (64 * 1024);
  _ ← refuse_if (value == "") "ASTERIA_DATABASE_URL or ASTERIA_DATABASE_URL_FILE is required";
  _ ← validateDatabaseURL value (environment == "production") fromFile;
  Ok value.
End config.

(** ** How the server is put together (src/cmd/asteria-server/main.go)

    What [main] makes of a configuration: the options of the object store, of the
    service and of the maintenance loop, the principals of the configured tokens,
    and the constructors that are given them. The repository, the OIDC
    authenticator and the seeding of tenants, which talk to a database or a
    provider first, and the running servers are not modelled here. *)

Definition s3_options (c : Config) : S3Store.S3Options :=
  {| S3Store.S3Options_Endpoint := Config_S3Endpoint c;
     S3Store.S3Options_PublicEndpoint := Config_S3PublicEndpoint c;
     S3Store.S3Options_Region := Config_S3Region c;
     S3Store.S3Options_Bucket := Config_S3Bucket c;
     S3Store.S3Options_AccessKey := Config_S3AccessKey c;
     S3Store.S3Options_SecretKey := Config_S3SecretKey c;
     S3Store.S3Options_UsePathStyle := Config_S3PathStyle c;
     S3Store.S3Options_AutoCreateBucket := Config_S3AutoCreate c;
     S3Store.S3Options_EnableChecksumHeaders := Config_S3ChecksumHeaders c;
     S3Store.S3Options_TrustPartChecksums := Config_S3TrustPartChecksums c |}.

(** The object store, [None] for the one in memory. *)
Definition start_storage {W} `{!S3Store.S3Client W} (c : Config) : GoM W (option S3Store.Provider) :=
  if Config_StorageDriver c == "s3" then p ← S3Store.NewProvider (s3_options c); ret (Some p) else ret None.

Definition service_options (c : Config) (cursor : CursorCodec) : ServiceOptions :=
  {| opt_hasRepository := true;
     opt_hasStorage := true;
     opt_Cursor := Some cursor;
     opt_MaxFileSize := Config_MaxFileSize c;
     opt_PartSize := Config_PartSize c;
     opt_UploadTTL := Config_UploadTTL c;
     opt_UploadSignTTL := Config_UploadSignTTL c;
     opt_DownloadSignTTL := Config_DownloadSignTTL c;
     opt_IdempotencyClaimTTL := 0;
     opt_IdempotencyRetention := 0 |}.

Definition maintenance_options (c : Config) : MaintenanceLoop.Options :=
  {| MaintenanceLoop.mo_hasRepository := true;
     MaintenanceLoop.mo_hasStorage := true;
     MaintenanceLoop.mo_Interval := Config_MaintenanceInterval c;
     MaintenanceLoop.mo_LeaseDuration := Config_MaintenanceLease c;
     MaintenanceLoop.mo_StaleAfter := Config_MaintenanceStaleAfter c;
     MaintenanceLoop.mo_RecycleRetention := Config_RecycleRetention c;
     MaintenanceLoop.mo_BatchSize := Config_MaintenanceBatchSize c |}.

Definition token_principal (configured : Token) : Principal :=
  mkPrincipal (mkIdentity (Token_TenantID configured) (Token_PrincipalID configured))
    (Token_TenantName configured) RoleOwner.
Definition trusted_principals (c : Config) : gmap string Principal := token_principal <$> Config_Tokens c.

(** The parts that need no connection; of [server.New], its checks. *)
Record Parts := mkParts {
  part_service : Service;
  part_maintenance : option MaintenanceLoop.Loop;
  part_trusted : option Trusted
}.

Definition start_parts `{!Platform, !MapRange} (rnd : RandRead) (c : Config) : Outcome Parts :=
  cursor ← NewCursorCodec (Config_CursorKey c);
  service ← NewService (service_options c cursor);
  trusted ← (if Config_AuthMode c == "trusted-dev"
             then a ← NewTrusted (trusted_principals c); Ok (Some a) else Ok None);
  _ ← (match Server.NewServer true true with Some err => Err err | None => Ok tt end);
  loop ← (if Config_MaintenanceEnabled c
          then l ← MaintenanceLoop.New rnd (maintenance_options c); Ok (Some l) else Ok None);
  Ok (mkParts service loop trusted).
