(* ===== verification/ConfigProperties.v ===== *)
(** * What a loaded configuration guarantees *)
From S2P Require Import Prelude Errors GoLib Types Validation Identifiers Ports Service Auth OIDC AuthProperties Codecs.
From S2P Require Import ConfigText Config.
From S2P Require MaintenanceLoop S3Store S3Properties.

(** ** Inversion of the checks *)

Lemma refuse_if_Ok b message : refuse_if b message = Ok tt ↔ b = false.
Proof. unfold refuse_if. by destruct b. Qed.
Lemma bind_Ok {A B} (o : Outcome A) (f : A → Outcome B) b : o ≫= f = Ok b ↔ ∃ a, o = Ok a ∧ f a = Ok b.
Proof. unfold mbind, Outcome_bind. destruct o; naive_solver. Qed.

Section config.
Context `{!Platform, !MapRange, !FloatMath, !URLParser, !ConfigEnv}.
Implicit Types (c : Config).

Lemma load_Ok lookup c : load lookup = Ok c →
  Validate c = Ok tt ∧ ∃ raw, parseTokens raw = Ok (Config_Tokens c).
Proof.
  unfold load. intros Hload. do 6 (apply bind_Ok in Hload as ([? ?] & _ & Hload)).
  apply bind_Ok in Hload as (tokens & Htokens & Hload).
  do 11 (apply bind_Ok in Hload as (? & _ & Hload)).
  apply bind_Ok in Hload as ([] & Hvalid & [= <-]). split; [exact Hvalid|by eexists].
Qed.

Lemma Validate_Ok c : Validate c = Ok tt →
  (Config_Environment c = "development" ∨ Config_Environment c = "production") ∧
  (Config_AuthMode c = "trusted-dev" ∨ Config_AuthMode c = "oidc") ∧
  validate_auth c = Ok tt ∧ 32 ≤ zstrlen (Config_CursorKey c) ∧
  check_addresses (map_range 1 (addresses c)) = Ok tt ∧ validate_metadata c = Ok tt ∧
  validate_storage c = Ok tt ∧ validate_production c = Ok tt ∧ validate_limits c = Ok tt.
Proof.
  unfold Validate. intros Hv.
  apply bind_Ok in Hv as ([] & Henv & Hv). apply bind_Ok in Hv as ([] & Hmode & Hv).
  apply bind_Ok in Hv as ([] & Hauth & Hv). apply bind_Ok in Hv as ([] & Hkey & Hv).
  do 4 (apply bind_Ok in Hv as ([] & ? & Hv)).
  apply refuse_if_Ok in Henv, Hmode, Hkey.
  split_and!; try done; [| |lia].
  - destruct (decide (Config_Environment c = "development")); [by left|].
    destruct (decide (Config_Environment c = "production")); [by right|].
    by rewrite !bool_decide_eq_false_2 in Henv.
  - destruct (decide (Config_AuthMode c = "trusted-dev")); [by left|].
    destruct (decide (Config_AuthMode c = "oidc")); [by right|].
    by rewrite !bool_decide_eq_false_2 in Hmode.
Qed.

(** ** Production *)

Lemma production_eq c : production c = true ↔ Config_Environment c = "production".
Proof. apply bool_decide_eq_true. Qed.

Lemma plain_http_url_Ok name value parsed : validateS3Endpoint name value true = Ok tt →
  plain_http_url value = Some parsed → URL_Scheme parsed = "https".
Proof.
  unfold validateS3Endpoint. intros Hv Hp. rewrite Hp in Hv. apply refuse_if_Ok in Hv. simpl in Hv.
  by apply negb_false_iff, bool_decide_eq_true in Hv.
Qed.
Lemma validateS3Endpoint_Ok name value : validateS3Endpoint name value true = Ok tt →
  ∃ parsed, plain_http_url value = Some parsed ∧ URL_Scheme parsed = "https".
Proof.
  intros Hv. destruct (plain_http_url value) as [parsed|] eqn:Hp.
  - exists parsed. split; [done|]. by eapply plain_http_url_Ok.
  - unfold validateS3Endpoint in Hv. by rewrite Hp in Hv.
Qed.

(** ** The object store

    One half of a pair of static credentials without the other. *)
Definition lone_key c : Prop :=
  (Config_S3AccessKey c = "" ∧ Config_S3SecretKey c ≠ "") ∨ (Config_S3AccessKey c ≠ "" ∧ Config_S3SecretKey c = "").
#[local] Instance lone_key_dec c : Decision (lone_key c).
Proof. unfold lone_key. apply _. Defined.
Definition static_keys c : option (string * string) :=
  if Config_S3AccessKey c == "" then None else Some (Config_S3AccessKey c, Config_S3SecretKey c).
Definition lone_key_error : GoError := E CodeInvalidRequest "both S3 access key and secret key are required".

Lemma validate_storage_Ok c : validate_storage c = Ok tt →
  Config_StorageDriver c = "memory" ∨ Config_StorageDriver c = "s3" ∧ Config_S3Endpoint c ≠ "" ∧
    Config_S3Region c ≠ "" ∧ Config_S3Bucket c ≠ "" ∧
    (Config_S3TrustPartChecksums c = true → Config_S3ChecksumHeaders c = true).
Proof.
  unfold validate_storage. intros Hv. apply bind_Ok in Hv as ([] & Hdriver%refuse_if_Ok & Hv).
  destruct (decide (Config_StorageDriver c = "s3")) as [Hs|Hs].
  - right. rewrite Hs in Hv. apply bind_Ok in Hv as ([] & Hset%refuse_if_Ok & Hv).
    apply bind_Ok in Hv as ([] & Htrust%refuse_if_Ok & _). simpl in Hset, Htrust.
    repeat match goal with H : _ || _ = false |- _ => apply orb_false_iff in H as [? ?] end.
    repeat match goal with H : bool_decide _ = false |- _ => apply bool_decide_eq_false in H end.
    split_and!; try done. intros Ht. rewrite Ht in Htrust. by apply negb_false_iff in Htrust.
  - left. rewrite (bool_decide_eq_false_2 _ Hs), andb_true_r in Hdriver.
    by apply negb_false_iff, bool_decide_eq_true in Hdriver.
Qed.

Lemma bind_run {S A B} (m : GoM S A) (f : A → GoM S B) s a s1 : m s = (Ok a, s1) → (m ≫= f) s = f a s1.
Proof. unfold mbind, GoM_bind. by intros ->. Qed.

Section storage.
Context {W : Type} `{!S3Store.S3Client W}.
Implicit Types (w : W).

Lemma start_storage_memory c w : Config_StorageDriver c = "memory" → start_storage c w = (Ok None, w).
Proof. intros Hs. unfold start_storage. by rewrite Hs. Qed.

Lemma start_storage_lone_key c w : Config_StorageDriver c = "s3" → Config_S3Region c ≠ "" → Config_S3Bucket c ≠ "" →
  lone_key c → start_storage c w = (Err lone_key_error, w).
Proof.
  intros Hs Hregion Hbucket Hlone. unfold start_storage, S3Store.NewProvider. rewrite Hs. simpl.
  rewrite (bool_decide_eq_false_2 _ Hregion), (bool_decide_eq_false_2 _ Hbucket). simpl.
  destruct Hlone as [[-> Hkey]|[Hkey ->]]; simpl; by rewrite (bool_decide_eq_false_2 _ Hkey).
Qed.

Lemma storage_keys c w : ¬ lone_key c →
  (if (Config_S3AccessKey c != "") || (Config_S3SecretKey c != "") then
     if (Config_S3AccessKey c == "") || (Config_S3SecretKey c == "") then throw lone_key_error
     else ret (Some (Config_S3AccessKey c, Config_S3SecretKey c))
   else ret None) w = (Ok (static_keys c), w).
Proof.
  unfold lone_key, static_keys. intros Hlone. do 2 case_bool_decide; simpl; try done; destruct Hlone; auto.
Qed.

(** With both halves or none the store is made as configured: it trusts the
    checksums of parts exactly when it is told to. *)
Lemma new_provider c w w1 : validate_storage c = Ok tt → Config_StorageDriver c = "s3" → ¬ lone_key c →
  S3Store.LoadDefaultConfig (S3Store.mkS3LoadOptions (Config_S3Region c) true (static_keys c)) w = (Ok tt, w1) →
  ∃ p, S3Store.p_bucket p = Config_S3Bucket c ∧
    S3Store.p_client p = S3Store.mkS3Endpoint (S3Store.TrimSlashes (Config_S3Endpoint c)) (Config_S3PathStyle c) ∧
    S3Store.p_trustPartChecksums p = Config_S3TrustPartChecksums c ∧
    S3Store.NewProvider (s3_options c) w =
      (_ ← (if Config_S3AutoCreate c then S3Store.ensureBucket p (Config_S3Region c) else ret tt); ret p) w1.
Proof.
  intros Hv Hs Hlone Hload. destruct (validate_storage_Ok c Hv) as [?|(_ & Hendpoint & Hregion & Hbucket & Htrust)]; [congruence|].
  eexists (S3Store.mkProvider _ _ _ _ _). split_and!; cycle 3.
  - unfold S3Store.NewProvider, s3_options. cbn -[S3Store.TrimSlashes mbind].
    rewrite (bool_decide_eq_false_2 _ Hregion), (bool_decide_eq_false_2 _ Hbucket), (bool_decide_eq_false_2 _ Hendpoint).
    cbn [orb negb]. rewrite (bind_run _ _ _ _ _ (storage_keys c w Hlone)).
    assert (try_ (S3Store.LoadDefaultConfig (S3Store.mkS3LoadOptions (Config_S3Region c) true (static_keys c))) w
      = (Ok (inr tt), w1)) as Htry by (unfold try_; by rewrite Hload).
    rewrite (bind_run _ _ _ _ _ Htry). reflexivity.
  - done.
  - done.
  - simpl. destruct (Config_S3TrustPartChecksums c); [|done]. by apply Htrust.
Qed.

Lemma started_storage c w : validate_storage c = Ok tt →
  (Config_StorageDriver c = "memory" ∧ start_storage c w = (Ok None, w)) ∨
  (Config_StorageDriver c = "s3" ∧ lone_key c ∧ start_storage c w = (Err lone_key_error, w)) ∨
  (Config_StorageDriver c = "s3" ∧ ¬ lone_key c ∧ ∀ w1,
     S3Store.LoadDefaultConfig (S3Store.mkS3LoadOptions (Config_S3Region c) true (static_keys c)) w = (Ok tt, w1) →
     ∃ p, S3Store.p_bucket p = Config_S3Bucket c ∧
       S3Store.p_client p = S3Store.mkS3Endpoint (S3Store.TrimSlashes (Config_S3Endpoint c)) (Config_S3PathStyle c) ∧
       S3Store.p_trustPartChecksums p = Config_S3TrustPartChecksums c ∧
       start_storage c w = (_ ← (if Config_S3AutoCreate c then S3Store.ensureBucket p (Config_S3Region c) else ret tt);
                            ret (Some p)) w1).
Proof.
  intros Hv. destruct (validate_storage_Ok c Hv) as [Hs|(Hs & _ & Hregion & Hbucket & _)].
  { left. split; [done|]. by apply start_storage_memory. }
  right. destruct (decide (lone_key c)) as [Hlone|Hlone].
  { left. split_and!; [done..|]. by apply start_storage_lone_key. }
  right. split_and!; [done..|]. intros w1 Hload.
  destruct (new_provider c w w1 Hv Hs Hlone Hload) as (p & Hp1 & Hp2 & Hp3 & Hnew).
  exists p. split_and!; [done..|]. unfold start_storage. rewrite (bool_decide_eq_true_2 _ Hs).
  unfold mbind, GoM_bind. rewrite Hnew.
  destruct (Config_S3AutoCreate c); [|done]. unfold mbind, GoM_bind. by destruct (S3Store.ensureBucket p (Config_S3Region c) w1) as [[]].
Qed.

(** The store is given no static credentials but a pair. *)
Lemma start_storage_keys c w p w' : start_storage c w = (Ok (Some p), w') →
  Config_StorageDriver c = "s3" ∧ ¬ lone_key c.
Proof.
  intros Hstart. destruct (decide (Config_StorageDriver c = "s3")) as [Hs|Hs]; [split; [done|]|].
  - intros Hlone. unfold start_storage in Hstart. rewrite Hs in Hstart. simpl in Hstart.
    apply bind_ok in Hstart as (p' & w1 & Hnew & _).
    revert Hnew. unfold S3Store.NewProvider. destruct (_ || _); [done|].
    unfold lone_key in Hlone. simpl. 
    destruct Hlone as [[Ha Hb]|[Ha Hb]]; rewrite ?Ha, ?Hb; simpl; (rewrite (bool_decide_eq_false_2 _ Ha) || rewrite (bool_decide_eq_false_2 _ Hb)); done.
  - unfold start_storage in Hstart. by rewrite (bool_decide_eq_false_2 _ Hs) in Hstart.
Qed.
End storage.

Lemma oidc_has_no_tokens c rnd parts : Config_AuthMode c = "oidc" → start_parts rnd c = Ok parts → part_trusted parts = None.
Proof.
  intros Hmode Hstart. unfold start_parts in Hstart. rewrite Hmode in Hstart.
  apply bind_Ok in Hstart as (cursor & _ & Hstart). apply bind_Ok in Hstart as (service & _ & Hstart).
  apply bind_Ok in Hstart as (trusted & [= <-] & Hstart). apply bind_Ok in Hstart as ([] & _ & Hstart).
  by apply bind_Ok in Hstart as (loop & _ & [= <-]).
Qed.

(** C36: a configuration that is accepted for production authenticates with OIDC over
    HTTPS against the issuer, keeps its metadata in PostgreSQL over a connection
    whose certificate is verified and its objects in an S3 store over HTTPS, takes
    the database URL and the cursor key from files, and neither migrates the
    database nor creates the bucket by itself. When it has an S3 access key, the
    key and its secret are from files. Of the inline secrets that it does not
    refuse, a secret without an access key and trusted tokens, the started server
    uses none: the store is refused or made without static credentials or with a
    pair from files, and no authenticator is made of the tokens. *)
Theorem production_is_hardened lookup c : load lookup = Ok c → Config_Environment c = "production" →
  Config_AuthMode c = "oidc" ∧
  (∃ issuer, plain_http_url (Config_OIDCIssuer c) = Some issuer ∧ URL_Scheme issuer = "https") ∧
  Config_MetadataDriver c = "postgres" ∧ Config_StorageDriver c = "s3" ∧
  Config_DatabaseURLFromFile c = true ∧ URL_Query (Config_DatabaseURL c) "sslmode" = ["verify-full"] ∧
  (∃ endpoint, plain_http_url (Config_S3Endpoint c) = Some endpoint ∧ URL_Scheme endpoint = "https") ∧
  (∃ endpoint, plain_http_url (Config_S3PublicEndpoint c) = Some endpoint ∧ URL_Scheme endpoint = "https") ∧
  Config_CursorKeyFromFile c = true ∧
  (Config_S3AccessKey c ≠ "" → Config_S3AccessKeyFromFile c = true ∧ Config_S3SecretKeyFromFile c = true) ∧
  Config_AutoMigrate c = false ∧ Config_S3AutoCreate c = false ∧
  (∀ W (client : S3Store.S3Client W) w p w', start_storage c w = (Ok (Some p), w') →
     Config_S3AccessKey c = "" ∧ Config_S3SecretKey c = "" ∨
     Config_S3AccessKeyFromFile c = true ∧ Config_S3SecretKeyFromFile c = true) ∧
  (∀ rnd parts, start_parts rnd c = Ok parts → part_trusted parts = None).
Proof.
  intros [Hvalid _]%load_Ok Henv. apply Validate_Ok in Hvalid as (_ & Hmode & Hauth & _ & _ & Hmeta & Hstorage & Hprod & _).
  apply production_eq in Henv as Hp.
  assert (Config_AuthMode c = "oidc") as Hoidc.
  { destruct Hmode as [Ht|]; [|done]. unfold validate_auth in Hauth. rewrite Ht, Hp in Hauth. done. }
  unfold validate_auth in Hauth. rewrite Hoidc, Hp in Hauth. simpl in Hauth.
  apply bind_Ok in Hauth as ([] & _ & Hauth). apply bind_Ok in Hauth as (issuer & Hissuer & Hauth).
  apply bind_Ok in Hauth as ([] & Hhttps%refuse_if_Ok & Hauth). apply bind_Ok in Hauth as ([] & _ & Hdrivers%refuse_if_Ok).
  apply orb_false_iff in Hdrivers as [Hm Hs]. apply negb_false_iff, bool_decide_eq_true in Hm, Hs, Hhttps.
  unfold validate_metadata in Hmeta. rewrite Hm, Hp in Hmeta. apply bind_Ok in Hmeta as ([] & _ & Hmeta).
  apply bind_Ok in Hmeta as ([] & _ & Hdb). simpl in Hdb. unfold validateDatabaseURL in Hdb.
  unfold validate_storage in Hstorage. rewrite Hs, Hp in Hstorage.
  do 3 (apply bind_Ok in Hstorage as ([] & _ & Hstorage)).
  apply bind_Ok in Hstorage as ([] & Hendpoints & Hcredentials%refuse_if_Ok). simpl in Hendpoints.
  apply bind_Ok in Hendpoints as ([] & He1 & He2).
  unfold validate_production in Hprod. rewrite Hp in Hprod.
  apply bind_Ok in Hprod as ([] & Hcursor%refuse_if_Ok & Hprod).
  apply bind_Ok in Hprod as ([] & Hmigrate%refuse_if_Ok & Hcreate%refuse_if_Ok).
  apply negb_false_iff in Hcursor.
  destruct (ParseURL (Config_DatabaseURL c)) as [|parsed]; [done|].
  destruct (_ || _); [done|]. simpl in Hdb. destruct (Config_DatabaseURLFromFile c) eqn:Hfile; [|done]. simpl in Hdb.
  apply refuse_if_Ok, negb_false_iff, bool_decide_eq_true in Hdb.
  assert (Config_S3AccessKey c ≠ "" → Config_S3AccessKeyFromFile c = true ∧ Config_S3SecretKeyFromFile c = true) as Hfiles.
  { intros Hkey. simpl in Hcredentials. rewrite (bool_decide_eq_false_2 (Config_S3AccessKey c = "")) in Hcredentials by done.
    simpl in Hcredentials. apply orb_false_iff in Hcredentials as [Ha Hb]. by apply negb_false_iff in Ha, Hb. }
  split_and!; try done.
  - unfold parseIssuerURL in Hissuer. destruct (plain_http_url _) as [u|]; [|done]. injection Hissuer as ->. by exists issuer.
  - by eapply validateS3Endpoint_Ok.
  - by eapply validateS3Endpoint_Ok.
  - intros W client w p w' [_ Hlone]%start_storage_keys. unfold lone_key in Hlone.
    destruct (decide (Config_S3AccessKey c = "")) as [Ha|Ha]; [|by right; apply Hfiles].
    destruct (decide (Config_S3SecretKey c = "")) as [Hb|Hb]; [by left|]. destruct Hlone. by left.
  - intros rnd parts. by apply oidc_has_no_tokens.
Qed.

(** ** Starting *)

Lemma trusted_entries_Ok (l : list (string * Principal)) :
  Forall (λ '(token, p), 32 ≤ zstrlen token ∧ Identity_TenantID (Principal_Identity p) ≠ "" ∧
    Identity_PrincipalID (Principal_Identity p) ≠ "" ∧ Principal_Role p = RoleOwner) l →
  ∃ entries, trusted_entries l = Ok entries.
Proof.
  induction 1 as [|[token p] l (Hlen & Ht & Hp & Hrole) _ [entries IH]]; simpl; [by eexists|].
  rewrite (proj2 (Z.ltb_ge _ _) Hlen), (bool_decide_eq_false_2 _ Ht), (bool_decide_eq_false_2 _ Hp), Hrole. simpl.
  rewrite Hrole. simpl. rewrite IH. by eexists.
Qed.

Lemma validUUID_nonempty s : validUUID s = true → s ≠ "".
Proof. by intros Hs ->. Qed.

Lemma parseTokens_valid raw tokens secret token : parseTokens raw = Ok tokens → tokens !! secret = Some token →
  32 ≤ zstrlen secret ∧ Token_TenantID token ≠ "" ∧ Token_PrincipalID token ≠ "".
Proof.
  unfold parseTokens. case_bool_decide; [by intros [= <-]|].
  destruct (UnmarshalTokens raw) as [|parsed]; [done|]. destruct (existsb _ _) eqn:Hbad; [done|]. intros [= <-].
  rewrite lookup_fmap. intros (token' & Hparsed & ->)%fmap_Some.
  apply (elem_of_map_range 0) in Hparsed.
  destruct ((zstrlen secret <? 32) || negb (validUUID (Token_TenantID token')) ||
    negb (validUUID (Token_PrincipalID token'))) eqn:Hthis.
  - rewrite <- not_true_iff_false, existsb_exists in Hbad. destruct Hbad. exists (secret, token').
    split; [by apply list_elem_of_In|done].
  - apply orb_false_iff in Hthis as [[Hlen Ht%negb_false_iff]%orb_false_iff Hp%negb_false_iff].
    apply validUUID_nonempty in Ht, Hp. apply Z.ltb_ge in Hlen. by case_bool_decide.
Qed.

Lemma NewTrusted_Ok c raw : parseTokens raw = Ok (Config_Tokens c) → size (Config_Tokens c) ≠ 0%nat →
  ∃ a, NewTrusted (trusted_principals c) = Ok a.
Proof.
  intros Htokens Hsize. unfold NewTrusted, trusted_principals.
  rewrite bool_decide_eq_false_2 by by rewrite map_size_fmap.
  edestruct (trusted_entries_Ok (map_range 0 (token_principal <$> Config_Tokens c))) as [entries ->].
  { apply Forall_forall. intros [secret p] Hin. apply elem_of_map_range in Hin. rewrite lookup_fmap in Hin.
    apply fmap_Some in Hin as (token & Hin & ->). destruct (parseTokens_valid _ _ _ _ Htokens Hin) as (? & ? & ?). done. }
  by eexists.
Qed.

Lemma default_positive_id v fallback : 0 < v → default_positive v fallback = v.
Proof. intros Hv. unfold default_positive. by rewrite (proj2 (Z.leb_gt _ _) Hv). Qed.

Record within_limits c : Prop := {
  wl_file : 0 < Config_MaxFileSize c;
  wl_part : 5 * 1024 * 1024 ≤ Config_PartSize c ≤ 5 * 1024 * 1024 * 1024;
  wl_upload : 0 < Config_UploadTTL c;
  wl_sign : 0 < Config_UploadSignTTL c ≤ Hour;
  wl_download : 0 < Config_DownloadSignTTL c ≤ Hour;
  wl_interval : 0 < Config_MaintenanceInterval c;
  wl_lease : 0 < Config_MaintenanceLease c;
  wl_stale : 0 < Config_MaintenanceStaleAfter c;
  wl_retention : 0 < Config_RecycleRetention c;
  wl_batch : 1 ≤ Config_MaintenanceBatchSize c ≤ 1000;
  wl_timeouts : 0 < Config_ReadHeaderTimeout c ∧ 0 < Config_ReadTimeout c ∧ 0 < Config_WriteTimeout c ∧ 0 < Config_IdleTimeout c
}.
Lemma validate_limits_Ok c : validate_limits c = Ok tt → within_limits c.
Proof.
  unfold validate_limits. intros Hv. do 3 (apply bind_Ok in Hv as ([] & ?%refuse_if_Ok & Hv)). apply refuse_if_Ok in Hv.
  repeat match goal with H : _ || _ = false |- _ => apply orb_false_iff in H as [? ?] end.
  repeat match goal with H : (_ <=? _) = false |- _ => apply Z.leb_gt in H | H : (_ <? _) = false |- _ => apply Z.ltb_ge in H end.
  by split.
Qed.

Lemma maintenance_starts c rnd : within_limits c → length rnd = 16%nat → Forall is_byte rnd →
  ∃ owner, MaintenanceLoop.New (Some rnd) (maintenance_options c) = Ok (MaintenanceLoop.mkLoop
    (Config_MaintenanceInterval c) (Config_MaintenanceLease c) (Config_MaintenanceStaleAfter c)
    (Config_RecycleRetention c) (Config_MaintenanceBatchSize c) owner).
Proof.
  intros [] Hlen Hbytes. destruct (NewID_valid rnd Hlen Hbytes) as (owner & Howner & _). exists owner.
  unfold MaintenanceLoop.New. rewrite Howner. cbn -[Z.leb Z.ltb].
  rewrite !default_positive_id by lia. by rewrite (proj2 (Z.ltb_ge 1000 (Config_MaintenanceBatchSize c))) by lia.
Qed.
Lemma service_starts c cursor : within_limits c →
  NewService (service_options c cursor) = Ok (mkService cursor (Config_MaxFileSize c) (Config_PartSize c)
    (Config_UploadTTL c) (Config_UploadSignTTL c) (Config_DownloadSignTTL c) Minute (24 * Hour)).
Proof.
  intros []. unfold NewService. cbn -[Z.leb Z.ltb default_positive].
  change (default_positive 0 (24 * Hour)) with (24 * Hour). change (default_positive 0 Minute) with Minute.
  change (24 * Hour <=? Minute) with false. cbv iota. by rewrite !default_positive_id by lia.
Qed.

(** C37: of every configuration that loads the parts that need no connection are
    made: with 16 bytes of entropy the constructors of the cursor codec, the
    service, the trusted authenticator and the maintenance loop and the checks of
    the server's constructor refuse nothing; the service and the maintenance loop
    run with exactly the configured sizes and times, which lie within the
    documented bounds, so that no default of a constructor replaces one; and in the
    development mode every configured token becomes the owner it names. The
    constructor of the S3 store is not as generous: it refuses an access key
    without a secret, and a secret without a key, which load; otherwise, once the
    SDK has loaded its own configuration, it gives the store of the configured
    bucket and endpoint, which trusts checksums exactly when told to, after it has
    ensured the bucket if that was asked for. The connection to PostgreSQL and the
    discovery of the OIDC provider are not among the parts. *)
Theorem loaded_configuration_starts lookup c rnd : load lookup = Ok c →
  length rnd = 16%nat → Forall is_byte rnd → within_limits c ∧ (∃ parts, start_parts (Some rnd) c = Ok parts ∧
    s_cursor (part_service parts) = mkCursorCodec (Config_CursorKey c) ∧
    s_maxFileSize (part_service parts) = Config_MaxFileSize c ∧ s_partSize (part_service parts) = Config_PartSize c ∧
    s_uploadTTL (part_service parts) = Config_UploadTTL c ∧
    s_uploadSignTTL (part_service parts) = Config_UploadSignTTL c ∧
    s_downloadSignTTL (part_service parts) = Config_DownloadSignTTL c ∧
    (Config_MaintenanceEnabled c = true → ∃ owner, part_maintenance parts = Some
       (MaintenanceLoop.mkLoop (Config_MaintenanceInterval c) (Config_MaintenanceLease c)
          (Config_MaintenanceStaleAfter c) (Config_RecycleRetention c) (Config_MaintenanceBatchSize c) owner)) ∧
    (Config_AuthMode c = "trusted-dev" → ∃ a, part_trusted parts = Some a ∧
       NewTrusted (trusted_principals c) = Ok a ∧ Config_Tokens c ≠ ∅)) ∧
    ∀ W (client : S3Store.S3Client W) w,
      (Config_StorageDriver c = "memory" ∧ start_storage c w = (Ok None, w)) ∨
      (Config_StorageDriver c = "s3" ∧ lone_key c ∧ start_storage c w = (Err lone_key_error, w)) ∨
      (Config_StorageDriver c = "s3" ∧ ¬ lone_key c ∧ ∀ w1,
         S3Store.LoadDefaultConfig (S3Store.mkS3LoadOptions (Config_S3Region c) true (static_keys c)) w = (Ok tt, w1) →
         ∃ p, S3Store.p_bucket p = Config_S3Bucket c ∧
           S3Store.p_client p = S3Store.mkS3Endpoint (S3Store.TrimSlashes (Config_S3Endpoint c)) (Config_S3PathStyle c) ∧
           S3Store.p_trustPartChecksums p = Config_S3TrustPartChecksums c ∧
           start_storage c w = (_ ← (if Config_S3AutoCreate c then S3Store.ensureBucket p (Config_S3Region c) else ret tt);
                                ret (Some p)) w1).
Proof.
  intros [Hvalid [raw Htokens]]%load_Ok Hlen Hbytes.
  apply Validate_Ok in Hvalid as (_ & Hmode & Hauth & Hkey & _ & _ & Hstorage_ok & _ & Hlimits%validate_limits_Ok).
  split; [done|]. split; [|intros W client w; exact (started_storage c w Hstorage_ok)].
  destruct (maintenance_starts c rnd Hlimits Hlen Hbytes) as [owner Hloop].
  unfold start_parts, NewCursorCodec. rewrite (proj2 (Z.ltb_ge _ _) Hkey).
  unfold mbind, Outcome_bind. rewrite (service_starts c _ Hlimits), Hloop.
  assert (Config_AuthMode c = "trusted-dev" → size (Config_Tokens c) ≠ 0%nat) as Hsize.
  { intros Ht. unfold validate_auth in Hauth. rewrite Ht in Hauth. simpl in Hauth.
    apply bind_Ok in Hauth as ([] & _ & Hauth%refuse_if_Ok). by apply bool_decide_eq_false in Hauth. }
  destruct (decide (Config_AuthMode c = "trusted-dev")) as [Ht|Ht].
  - rewrite Ht. simpl. destruct (NewTrusted_Ok c raw Htokens (Hsize Ht)) as [a Ha]. rewrite Ha. simpl.
    destruct (Config_MaintenanceEnabled c); simpl; eexists; split_and!; try done; intros _; eauto.
    all: exists a; split_and!; try done; intros He; apply (Hsize Ht); by rewrite He, map_size_empty.
  - rewrite (bool_decide_eq_false_2 _ Ht). simpl.
    destruct (Config_MaintenanceEnabled c); simpl; eexists; split_and!; try done; intros _; eauto.
Qed.
End config.

(** ** An environment for production and one for development *)

#[export] Instance example_floats : FloatMath := {| scaled_fraction f digits unit := f * unit / 10 ^ digits |}.
Definition example_urls : gmap string URL :=
  list_to_map [("https://issuer.test", mkURL "https" "issuer.test" false "" "" "");
               ("https://s3.test", mkURL "https" "s3.test" false "" "" "");
               ("postgres://db.test/asteria?sslmode=verify-full", mkURL "postgres" "db.test" false "/asteria" "sslmode=verify-full" "")].
#[local] Instance config_urls : URLParser :=
  {| ParseURL value := match example_urls !! value with Some u => inr u | None => inl (PlainError "parse") end |}.
Definition uuid_a : string := "aaaaaaaa-aaaa-4aaa-8aaa-aaaaaaaaaaaa".
Definition uuid_b : string := "11111111-1111-4111-8111-111111111111".
#[local] Instance config_env : ConfigEnv := {|
  os_ReadFile path := if path == "/secrets/key" then inr "test-cursor-hmac-key-at-least-32-bytes"
                      else inr "postgres://db.test/asteria?sslmode=verify-full";
  UnmarshalTokens value := inr {["0123456789abcdef0123456789abcdef" := mkToken uuid_b uuid_a ""]};
  UnmarshalBootstrap value := inr [mkOIDCBootstrap "https://issuer.test" "user-1" uuid_a uuid_b "" "" "owner"];
  parse_error function raw := PlainError (function +:+ ": " +:+ raw);
  URL_String value := value;
  URL_Query value key := if value == "postgres://db.test/asteria?sslmode=verify-full" then ["verify-full"] else []
|}.
Definition production_env : gmap string string := list_to_map
  [("ASTERIA_ENV", "production"); ("ASTERIA_AUTH_MODE", "oidc"); ("ASTERIA_OIDC_ISSUER", "https://issuer.test");
   ("ASTERIA_OIDC_CLIENT_ID", "asteria-api"); ("ASTERIA_OIDC_BOOTSTRAP_JSON", "[...]");
   ("ASTERIA_METADATA_DRIVER", "postgres"); ("ASTERIA_DATABASE_URL_FILE", "/secrets/url");
   ("ASTERIA_STORAGE_DRIVER", "s3"); ("ASTERIA_S3_ENDPOINT", "https://s3.test");
   ("ASTERIA_CURSOR_HMAC_KEY_FILE", "/secrets/key")].
Definition development_env : gmap string string := list_to_map
  [("ASTERIA_TRUSTED_TOKENS_JSON", "{...}"); ("ASTERIA_CURSOR_HMAC_KEY", "test-cursor-hmac-key-at-least-32-bytes");
   ("ASTERIA_UPLOAD_TTL", "1h30m")].

Definition loaded (env : gmap string string) : Outcome Config := load (H0 := canonical_range) (λ key, env !! key).
Definition production_config : Config := match loaded production_env with Ok c => c | _ => go_zero end.
Definition development_config : Config := match loaded development_env with Ok c => c | _ => go_zero end.
Lemma production_loaded : loaded production_env = Ok production_config.
Proof. vm_compute. reflexivity. Qed.
Lemma development_loaded : loaded development_env = Ok development_config.
Proof. vm_compute. reflexivity. Qed.
Lemma production_config_env : Config_Environment production_config = "production".
Proof. vm_compute. reflexivity. Qed.

#[local] Existing Instance S3Properties.lab_client.
(** Production loads inline trusted tokens, and an inline S3 secret without a key,
    which the store then refuses. *)
Definition inline_env : gmap string string :=
  <["ASTERIA_TRUSTED_TOKENS_JSON" := "{...}"]> (<["ASTERIA_S3_SECRET_ACCESS_KEY" := "inline-secret"]> production_env).
Definition inline_config : Config := match loaded inline_env with Ok c => c | _ => go_zero end.
Example production_loads_inline_secrets :
  loaded inline_env = Ok inline_config ∧ Config_Environment inline_config = "production" ∧
  size (Config_Tokens inline_config) = 1%nat ∧ Config_S3SecretKey inline_config = "inline-secret" ∧
  Config_S3SecretKeyFromFile inline_config = false ∧ start_storage inline_config tt = (Err lone_key_error, tt).
Proof. split_and!; vm_compute; reflexivity. Qed.

Definition production_provider : S3Store.Provider :=
  S3Store.mkProvider (S3Store.mkS3Endpoint "https://s3.test" true) (S3Store.mkS3Endpoint "https://s3.test" true)
    "asteria-drive" false false.
Lemma production_store : start_storage production_config tt = (Ok (Some production_provider), tt).
Proof. vm_compute. reflexivity. Qed.

Lemma production_is_hardened_witness : URL_Query (Config_DatabaseURL production_config) "sslmode" = ["verify-full"] ∧
  Config_S3AccessKey production_config = "" ∧ Config_S3SecretKey production_config = "".
Proof.
  destruct (production_is_hardened (H0 := canonical_range) _ _ production_loaded production_config_env)
    as (_ & _ & _ & _ & _ & Hssl & _ & _ & _ & _ & _ & _ & Hstore & _). split; [exact Hssl|].
  destruct (Hstore unit _ tt _ _ production_store) as [Hkeys|[Hfile _]]; [exact Hkeys|].
  vm_compute in Hfile. discriminate.
Defined.

Lemma loaded_configuration_starts_witness :
  (∃ parts, start_parts (H0 := canonical_range) (Some (replicate 16 7)) development_config = Ok parts ∧
    s_uploadTTL (part_service parts) = 90 * Minute) ∧
  ∃ p, start_storage production_config tt = (Ok (Some p), tt) ∧ S3Store.p_bucket p = Config_S3Bucket production_config.
Proof.
  assert (Forall is_byte (replicate 16 7)) as Hbytes by (apply Forall_replicate; unfold is_byte; lia). split.
  - destruct (loaded_configuration_starts (H0 := canonical_range) _ _ (replicate 16 7) development_loaded eq_refl Hbytes)
      as (_ & (parts & Hparts & _ & _ & _ & Httl & _) & _).
    exists parts. split; [exact Hparts|]. rewrite Httl. vm_compute. reflexivity.
  - destruct (loaded_configuration_starts (H0 := canonical_range) _ _ (replicate 16 7) production_loaded eq_refl Hbytes)
      as (_ & _ & Hstorage).
    destruct (Hstorage unit _ tt) as [[Hs _]|[(_ & Hs & _)|(_ & _ & Hs)]].
    + vm_compute in Hs. discriminate.
    + destruct Hs as [[_ Hs]|[Hs _]]; destruct Hs; vm_compute; reflexivity.
    + destruct (Hs tt eq_refl) as (p & Hbucket & _ & _ & Hstart). exists p. split; [|exact Hbucket].
      rewrite Hstart. vm_compute. reflexivity.
Defined.
