(* ===== verification/Recovery.v ===== *)
(** * The recovery verifier (src/internal/recovery/verifier.go)

    It compares the blobs a catalog lists with the objects of a store. The catalog
    is the interface of the package; the store is the port of the domain. The
    goroutines that check a batch take its blobs in some order and their results
    arrive in another one: [Schedule] stands for both. *)
From S2P Require Import Prelude Errors GoLib Types Validation Ports Service.

Record BlobRecord := mkBlobRecord {
  BlobRecord_ID : string;
  BlobRecord_TenantID : string;
  BlobRecord_Bucket : string;
  BlobRecord_ObjectKey : string;
  BlobRecord_Size : Z;
  BlobRecord_Checksum : Checksum;
  BlobRecord_ChecksumStatus : ChecksumStatus
}.
Record BlobCursor := mkBlobCursor { BlobCursor_TenantID : string; BlobCursor_BlobID : string }.

Class Catalog (C : Type) := {
  SchemaVersion : GoM C Z;
  ListAvailableBlobs : BlobCursor → Z → GoM C (list BlobRecord)
}.

Class Schedule := {
  schedule : ∀ {A}, nat → list A → list A;
  schedule_perm {A} n (l : list A) : schedule n l ≡ₚ l
}.

Record Finding := mkFinding { Finding_Code : string; Finding_TenantID : string; Finding_BlobID : string }.
Record Report := mkReport {
  Report_StartedAt : Time;
  Report_FinishedAt : Time;
  Report_SchemaVersion : Z;
  Report_Checked : Z;
  Report_Healthy : Z;
  Report_Counts : gmap string Z;
  Report_Findings : list Finding;
  Report_Truncated : bool;
  Report_Verified : bool
}.
#[export] Instance eta_Report : Eta Report := λ r,
  mkReport (Report_StartedAt r) (Report_FinishedAt r) (Report_SchemaVersion r) (Report_Checked r) (Report_Healthy r)
    (Report_Counts r) (Report_Findings r) (Report_Truncated r) (Report_Verified r).

Record VerifierOptions := mkVerifierOptions {
  vo_hasCatalog : bool; vo_hasStorage : bool; vo_BatchSize : Z; vo_Concurrency : Z; vo_MaxFindings : Z
}.
Record Verifier := mkVerifier { v_batchSize : Z; v_concurrency : Z; v_maxFindings : Z }.

Definition NewVerifier (options : VerifierOptions) : Outcome Verifier :=
  if negb (vo_hasCatalog options) || negb (vo_hasStorage options) then
    Err (E CodeInvalidRequest "catalog and storage are required") else
  let batchSize := if vo_BatchSize options =? 0 then 500 else vo_BatchSize options in
  let concurrency := if vo_Concurrency options =? 0 then 16 else vo_Concurrency options in
  let maxFindings := if vo_MaxFindings options =? 0 then 100 else vo_MaxFindings options in
  if (batchSize <? 1) || (10000 <? batchSize) || (concurrency <? 1) || (256 <? concurrency) ||
     (maxFindings <? 1) || (10000 <? maxFindings) then
    Err (E CodeInvalidRequest "verification limits are invalid")
  else Ok (mkVerifier batchSize concurrency maxFindings).

Section verifier.
Context {C T : Type} `{!Runtime, !Catalog C, !StorageProvider T, !Schedule}.
Context (v : Verifier).
Abbreviation M := (GoM (World C T)) (only parsing).

(** What is wrong with an object that was found. *)
Definition object_code (item : BlobRecord) (object : ObjectInfo) : option string :=
  if ObjectInfo_Size object != BlobRecord_Size item then Some "size_mismatch" else
  if (BlobRecord_ChecksumStatus item == ChecksumVerified) && (Checksum_Algorithm (BlobRecord_Checksum item) != "") &&
     ((ObjectInfo_ChecksumStatus object != ChecksumVerified) ||
      (ObjectInfo_Checksum object != BlobRecord_Checksum item)) then Some "checksum_mismatch" else
  if (BlobRecord_ChecksumStatus item == ChecksumDeclared) &&
     (ObjectInfo_ChecksumStatus object == ChecksumVerified) &&
     (ObjectInfo_Checksum object != BlobRecord_Checksum item) then Some "checksum_mismatch"
  else None.
(** The finding for the answer of the store. *)
Definition stat_code (item : BlobRecord) (answer : GoError + ObjectInfo) : option string :=
  match answer with
  | inl err =>
    let code := CodeOf (Some err) in
    Some (if code == CodeNotFound then "object_missing"
          else if code == CodeDependencyUnavailable then "storage_unavailable" else "storage_error")
  | inr object => object_code item object
  end.
Definition makeFinding (item : BlobRecord) (code : string) : Finding :=
  mkFinding code (BlobRecord_TenantID item) (BlobRecord_ID item).

Definition verifyBlob (item : BlobRecord) : M (option Finding) := λ w,
  if BlobRecord_Bucket item != S_Bucket (w_storage w) then (Ok (Some (makeFinding item "bucket_mismatch")), w)
  else (answer ← try_ (on_storage (S_StatObject (BlobRecord_ObjectKey item)));
        ret (makeFinding item <$> stat_code item answer)) w.

Fixpoint verify_each (items : list BlobRecord) : M (list (option Finding)) :=
  match items with
  | [] => ret []
  | item :: items => finding ← verifyBlob item; findings ← verify_each items; ret (finding :: findings)
  end.

Definition finding_less (x y : Finding) : bool :=
  str_ltb (Finding_TenantID x) (Finding_TenantID y) ||
  ((Finding_TenantID x == Finding_TenantID y) && str_ltb (Finding_BlobID x) (Finding_BlobID y)).

Definition verifyBatch (tick : nat) (items : list BlobRecord) : M (list Finding) :=
  results ← verify_each (schedule tick items);
  ret (sort_slice finding_less (omap id (schedule (S tick) results))).

(** The body of the loop over the findings of a batch. *)
Definition add_finding (report : Report) (finding : Finding) : Report :=
  let code := Finding_Code finding in
  let report := report <| Report_Counts := <[code := map_get (Report_Counts report) code + 1]> (Report_Counts report) |> in
  if zlen (Report_Findings report) <? v_maxFindings v
  then report <| Report_Findings := Report_Findings report ++ [finding] |>
  else report <| Report_Truncated := true |>.

(** A catalog that returns a full page for ever is read for ever: [fuel] bounds
    the pages, and [Diverged] is the run that goes on. *)
Fixpoint verify_loop (fuel : nat) (tick : nat) (cursor : BlobCursor) (report : Report) : M Report :=
  match fuel with
  | O => lift Diverged
  | S fuel =>
    items ← on_repo (ListAvailableBlobs cursor (v_batchSize v));
    match last items with
    | None => ret report
    | Some end_ =>
      findings ← verifyBatch tick items;
      let report := report <| Report_Checked := Report_Checked report + zlen items |>
                           <| Report_Healthy := Report_Healthy report + (zlen items - zlen findings) |> in
      let report := foldl add_finding report findings in
      if zlen items <? v_batchSize v then ret report
      else verify_loop fuel (S (S tick)) (mkBlobCursor (BlobRecord_TenantID end_) (BlobRecord_ID end_)) report
    end
  end.

Definition Verify (fuel : nat) : M Report :=
  started ← now;
  version ← on_repo SchemaVersion;
  report ← verify_loop fuel 0 (mkBlobCursor "" "") (mkReport started 0 version 0 0 ∅ [] false false);
  finished ← now;
  ret (report <| Report_FinishedAt := finished |>
              <| Report_Verified := bool_decide (size (Report_Counts report) = 0%nat) |>).
End verifier.
