(* ===== verification/RecoveryProperties.v ===== *)
(** * What a recovery report says *)
From S2P Require Import Prelude Errors Logic GoLib Types Validation Ports Service Paging Demo Recovery.
From S2P Require MemoryStorage.

(** ** Keys: a tenant and a blob *)

Definition key_less (x y : string * string) : bool :=
  str_ltb x.1 y.1 || ((x.1 == y.1) && str_ltb x.2 y.2).
Definition blob_key (b : BlobRecord) : string * string := (BlobRecord_TenantID b, BlobRecord_ID b).
Definition finding_key (f : Finding) : string * string := (Finding_TenantID f, Finding_BlobID f).

Lemma key_less_spec x y : key_less x y = true ↔
  str_ltb x.1 y.1 = true ∨ (x.1 = y.1 ∧ str_ltb x.2 y.2 = true).
Proof. unfold key_less. rewrite orb_true_iff, andb_true_iff, bool_decide_eq_true. done. Qed.
Lemma key_less_irrefl x : key_less x x ≠ true.
Proof. rewrite key_less_spec, !str_ltb_irrefl. naive_solver. Qed.
Lemma key_less_asym x y : key_less x y = true → key_less y x ≠ true.
Proof.
  rewrite !key_less_spec. intros [H|[Heq H]] [H'|[Heq' H']].
  - apply str_ltb_asym in H. congruence.
  - rewrite Heq', str_ltb_irrefl in H. done.
  - rewrite Heq, str_ltb_irrefl in H'. done.
  - apply str_ltb_asym in H. congruence.
Qed.
Lemma key_less_tricho x y : key_less x y = false → key_less y x = false → x = y.
Proof.
  unfold key_less. intros [H1 H2]%orb_false_iff [H3 H4]%orb_false_iff. destruct x as [a b], y as [c d]. simpl in *.
  assert (a = c) as -> by by apply str_ltb_tricho. rewrite bool_decide_eq_true_2 in H2, H4 by done.
  by f_equal; apply str_ltb_tricho.
Qed.
Lemma key_less_trans x y z : key_less x y = true → key_less y z = true → key_less x z = true.
Proof.
  rewrite !key_less_spec. intros [H|[Heq H]] [H'|[Heq' H']].
  - left. by eapply str_ltb_trans.
  - left. congruence.
  - left. congruence.
  - right. split; [congruence|]. by eapply str_ltb_trans.
Qed.
#[export] Instance key_less_swo : StrictWeakOrder key_less.
Proof.
  split.
  - intros x y H. by apply not_true_iff_false, key_less_asym.
  - intros x y z Hxy Hyz. destruct (key_less x z) eqn:Hxz; [|done]. exfalso.
    destruct (key_less y x) eqn:Hyx; [by rewrite (key_less_trans _ _ _ Hyx Hxz) in Hyz|].
    rewrite (key_less_tricho _ _ Hxy Hyx) in Hxz. congruence.
Qed.
#[export] Instance finding_less_swo : StrictWeakOrder finding_less := swo_by_key finding_key key_less _.

(** ** The summary of a list of findings *)

Definition occurrences (code : string) (all : list Finding) : Z :=
  zlen (filter (λ f, Finding_Code f = code) all).

Record summarises (v : Verifier) (all : list Finding) (report : Report) : Prop := {
  su_findings : Report_Findings report = take (Z.to_nat (v_maxFindings v)) all;
  su_truncated : Report_Truncated report = (v_maxFindings v <? zlen all);
  su_counts code : map_get (Report_Counts report) code = occurrences code all;
  su_empty : Report_Counts report = ∅ ↔ all = []
}.

Lemma summarises_add v all report f : 0 < v_maxFindings v → summarises v all report →
  summarises v (all ++ [f]) (add_finding v report f).
Proof.
  intros Hmax [Hfindings Htruncated Hcounts _]. unfold add_finding.
  assert (zlen (Report_Findings report) = Z.min (v_maxFindings v) (zlen all)) as Hlen.
  { rewrite Hfindings. unfold zlen. rewrite length_take. lia. }
  assert (∀ r, Report_Counts r = <[Finding_Code f := map_get (Report_Counts report) (Finding_Code f) + 1]> (Report_Counts report) →
    (∀ code, map_get (Report_Counts r) code = occurrences code (all ++ [f])) ∧
    (Report_Counts r = ∅ ↔ all ++ [f] = [])) as Hr.
  { intros r ->. split; [|split; intros Hnil; [by apply insert_non_empty in Hnil|by destruct all]].
    intros code. unfold occurrences. rewrite filter_app, filter_cons, filter_nil. unfold zlen. rewrite length_app.
    fold (zlen (filter (λ f, Finding_Code f = code) all)). specialize (Hcounts code). unfold occurrences, zlen in Hcounts.
    destruct (decide (Finding_Code f = code)) as [<-|Hne].
    - unfold map_get at 1. rewrite lookup_insert_eq. simpl. rewrite Hcounts. lia.
    - unfold map_get. rewrite lookup_insert_ne by done. unfold map_get in Hcounts. rewrite Hcounts. simpl. lia. }
  cbn [Report_Findings]. 
  match goal with |- context [zlen ?l <? _] => change l with (Report_Findings report) end.
  assert (zlen (all ++ [f]) = zlen all + 1) as Hall by (unfold zlen; rewrite length_app; simpl; lia).
  rewrite Hlen. destruct (Z.min (v_maxFindings v) (zlen all) <? v_maxFindings v) eqn:Hroom.
  - apply Z.ltb_lt in Hroom. unfold zlen in *. split; [| |apply Hr; reflexivity..].
    + change (Report_Findings report ++ [f] = take (Z.to_nat (v_maxFindings v)) (all ++ [f])).
      rewrite Hfindings, (take_ge all), (take_ge (all ++ [f])) by lia. done.
    + change (Report_Truncated report = (v_maxFindings v <? Z.of_nat (length (all ++ [f])))).
      rewrite Htruncated. apply eq_true_iff_eq. rewrite !Z.ltb_lt. lia.
  - apply Z.ltb_ge in Hroom. unfold zlen in *. split; [| |apply Hr; reflexivity..].
    + change (Report_Findings report = take (Z.to_nat (v_maxFindings v)) (all ++ [f])).
      rewrite Hfindings, take_app_le by lia. done.
    + change (true = (v_maxFindings v <? Z.of_nat (length (all ++ [f])))). symmetry. apply Z.ltb_lt. lia.
Qed.

Lemma summarises_fold v all report fs : 0 < v_maxFindings v → summarises v all report →
  summarises v (all ++ fs) (foldl (add_finding v) report fs).
Proof.
  intros Hmax. revert all report. induction fs as [|f fs IH]; intros all report Hs; simpl; [by rewrite app_nil_r|].
  replace (all ++ f :: fs) with ((all ++ [f]) ++ fs) by by rewrite <- app_assoc.
  by apply IH, summarises_add.
Qed.

(** ** A batch *)

(** A store whose answers do not change it. *)
Class ReadOnlyStore (T : Type) `{!StorageProvider T} := {
  stat_answer : T → string → GoError + ObjectInfo;
  stat_reads key s : S_StatObject key s = (match stat_answer s key with inl e => Err e | inr o => Ok o end, s)
}.
#[export] Instance memory_store_reads `{!Platform} : ReadOnlyStore MemoryStorage.Storage.
Proof.
  refine {| stat_answer s key := match (MemoryStorage.StatObject key s).1 with
                                 | Ok o => inr o | Err e => inl e | _ => inl (PlainError "") end |}.
  intros key s. simpl. unfold MemoryStorage.StatObject, mbind, GoM_bind, getS. simpl.
  by repeat case_match; simplify_eq/=.
Defined.

Section batch.
Context {C T : Type} `{!Runtime, !Catalog C, !StorageProvider T, !ReadOnlyStore T, !Schedule}.
Implicit Types (w : World C T).

(** The finding of a blob, from the state of the store. *)
Definition blob_finding (s : T) (item : BlobRecord) : option Finding :=
  if BlobRecord_Bucket item != S_Bucket s then Some (makeFinding item "bucket_mismatch")
  else makeFinding item <$> stat_code item (stat_answer s (BlobRecord_ObjectKey item)).

Lemma verifyBlob_run item w : verifyBlob item w = (Ok (blob_finding (w_storage w) item), w).
Proof.
  unfold verifyBlob, blob_finding. destruct (negb _); [done|].
  unfold mbind, GoM_bind, try_, on_storage. rewrite stat_reads. destruct w as [r s n d]. simpl.
  by destruct (stat_answer s _).
Qed.

Lemma verify_each_run items w : verify_each items w = (Ok (blob_finding (w_storage w) <$> items), w).
Proof.
  induction items as [|item items IH]; [done|]. simpl. unfold mbind at 1, GoM_bind at 1. rewrite verifyBlob_run.
  unfold mbind at 1, GoM_bind at 1. by rewrite IH.
Qed.

Lemma blob_finding_key s item f : blob_finding s item = Some f → finding_key f = blob_key item.
Proof.
  unfold blob_finding. destruct (negb _); [by intros [= <-]|].
  destruct (stat_code _ _); simpl; [by intros [= <-]|done].
Qed.

Definition findings_of (s : T) (items : list BlobRecord) : list Finding := omap (blob_finding s) items.

Lemma elem_of_findings s items f : f ∈ findings_of s items →
  ∃ item, item ∈ items ∧ blob_key item = finding_key f.
Proof.
  unfold findings_of. rewrite list_elem_of_omap. intros (item & Hin & Hf). exists item. split; [done|].
  symmetry. by eapply blob_finding_key.
Qed.

Lemma findings_sorted s items : StronglySorted (λ x y, key_less (blob_key x) (blob_key y) = true) items →
  StronglySorted (λ x y, key_less (finding_key x) (finding_key y) = true) (findings_of s items).
Proof.
  unfold findings_of. induction 1 as [|x l Hl IH Hx]; simpl; [constructor|].
  destruct (blob_finding s x) as [f|] eqn:Hf; [|done]. constructor; [done|].
  apply Forall_forall. intros g Hg. apply elem_of_findings in Hg as (item & Hin & <-).
  rewrite (blob_finding_key _ _ _ Hf). rewrite Forall_forall in Hx. by apply Hx.
Qed.

Lemma verifyBatch_run tick items w : StronglySorted (λ x y, key_less (blob_key x) (blob_key y) = true) items →
  verifyBatch tick items w = (Ok (findings_of (w_storage w) items), w).
Proof.
  intros Hsorted. unfold verifyBatch, mbind at 1, GoM_bind at 1. rewrite verify_each_run. unfold ret. f_equal. f_equal.
  pose proof (findings_sorted (w_storage w) items Hsorted) as Hfs.
  assert (∀ x y, x ∈ findings_of (w_storage w) items → y ∈ findings_of (w_storage w) items →
    finding_less x y = false → finding_less y x = false → x = y) as Huniq.
  { clear -Hfs. induction Hfs as [|x l Hl IH Hx]; [by intros ?? ?%not_elem_of_nil|].
    rewrite Forall_forall in Hx. intros a b Ha Hb Hab Hba.
    change (key_less (finding_key a) (finding_key b) = false) in Hab.
    change (key_less (finding_key b) (finding_key a) = false) in Hba.
    apply elem_of_cons in Ha as [->|Ha], Hb as [->|Hb]; [done| | |by apply IH].
    - specialize (Hx b Hb). simpl in Hx. congruence.
    - specialize (Hx a Ha). simpl in Hx. congruence. }
  assert (omap id (schedule (S tick) (blob_finding (w_storage w) <$> schedule tick items)) ≡ₚ
    findings_of (w_storage w) items) as Hperm.
  { rewrite schedule_perm, schedule_perm. unfold findings_of. clear. induction items as [|x l IH]; [done|].
    simpl. destruct (blob_finding _ x); simpl; by rewrite IH. }
  rewrite (sort_slice_unique finding_less _ (findings_of (w_storage w) items)); [|by intros x y; rewrite Hperm; apply Huniq|done].
  apply (sort_slice_id finding_less); [|exact Huniq]. clear -Hfs. induction Hfs as [|x l Hl IH Hx]; constructor; [done|].
  eapply Forall_impl; [exact Hx|]. intros y Hy. change (key_less (finding_key y) (finding_key x) = false). by apply not_true_iff_false, key_less_asym.
Qed.
End batch.

(** ** The whole catalog *)

(** The catalog lists its blobs in pages by key, and still does so after that. *)
Definition after_cursor (cursor : BlobCursor) (b : BlobRecord) : Prop :=
  key_less (BlobCursor_TenantID cursor, BlobCursor_BlobID cursor) (blob_key b) = true.
#[export] Instance after_cursor_dec cursor b : Decision (after_cursor cursor b).
Proof. unfold after_cursor. apply _. Defined.

(** The cursors of a verification: the start, and the blobs. *)
Definition blob_cursor (b : BlobRecord) : BlobCursor := mkBlobCursor (BlobRecord_TenantID b) (BlobRecord_ID b).
Record lists {C} `{!Catalog C} (I : C → Prop) (version : Z) (blobs : list BlobRecord) : Prop := {
  lists_sorted : StronglySorted (λ x y, key_less (blob_key x) (blob_key y) = true) blobs;
  lists_named b : b ∈ blobs → key_less ("", "") (blob_key b) = true;
  lists_version c : I c → ∃ c', SchemaVersion c = (Ok version, c') ∧ I c';
  lists_page c cursor n : I c → 0 < n → cursor ∈ mkBlobCursor "" "" :: (blob_cursor <$> blobs) →
    ∃ c', ListAvailableBlobs cursor n c = (Ok (take (Z.to_nat n) (filter (after_cursor cursor) blobs)), c') ∧ I c'
}.

Section loop.
Context {C T : Type} `{!Runtime, !Catalog C, !StorageProvider T, !ReadOnlyStore T, !Schedule}.
Context (v : Verifier) (I : C → Prop) (version : Z) (blobs : list BlobRecord).
Implicit Types (w : World C T).

(** The cursor after [n] blobs. *)
Definition cursor_after (n : nat) : BlobCursor :=
  match n with
  | O => mkBlobCursor "" ""
  | S n => match blobs !! n with
           | Some b => blob_cursor b
           | None => mkBlobCursor "" ""
           end
  end.

Lemma cursor_after_listed n : cursor_after n ∈ mkBlobCursor "" "" :: (blob_cursor <$> blobs).
Proof.
  destruct n as [|n]; simpl; [by left|]. destruct (blobs !! n) as [b|] eqn:Hb; [|by left].
  right. apply list_elem_of_fmap. exists b. split; [done|]. by eapply list_elem_of_lookup_2.
Qed.
Lemma after_cursor_drop n : lists I version blobs → (n ≤ length blobs)%nat →
  filter (after_cursor (cursor_after n)) blobs = drop n blobs.
Proof.
  intros [Hsorted Hnamed _ _] Hn. destruct n as [|n]; simpl.
  - rewrite drop_0. apply filter_all. intros b Hb. by apply Hnamed.
  - destruct (lookup_lt_is_Some_2 blobs n Hn) as [x Hx]. rewrite Hx.
    apply (filter_above_drop (λ x y, key_less (blob_key x) (blob_key y) = true)) with x; try done.
    + intros y. apply key_less_asym.
    + apply key_less_irrefl.
Qed.

Record verified_so_far (s : T) (done_ : list BlobRecord) (report : Report) : Prop := {
  vs_checked : Report_Checked report = zlen done_;
  vs_healthy : Report_Healthy report = zlen done_ - zlen (findings_of s done_);
  vs_summary : summarises v (findings_of s done_) report
}.

Lemma add_finding_totals report fs :
  Report_Checked (foldl (add_finding v) report fs) = Report_Checked report ∧
  Report_Healthy (foldl (add_finding v) report fs) = Report_Healthy report ∧
  Report_SchemaVersion (foldl (add_finding v) report fs) = Report_SchemaVersion report.
Proof.
  revert report. induction fs as [|f fs IH]; intros report; [done|]. simpl.
  destruct (IH (add_finding v report f)) as (-> & -> & ->). unfold add_finding. by destruct (_ <? _).
Qed.

Lemma verified_step s done_ report items : 0 < v_maxFindings v → verified_so_far s done_ report →
  verified_so_far s (done_ ++ items) (foldl (add_finding v)
    (report <| Report_Checked := Report_Checked report + zlen items |>
            <| Report_Healthy := Report_Healthy report + (zlen items - zlen (findings_of s items)) |>)
    (findings_of s items)).
Proof.
  intros Hmax [Hchecked Hhealthy Hsummary].
  assert (findings_of s (done_ ++ items) = findings_of s done_ ++ findings_of s items) as Happ by apply omap_app.
  destruct (add_finding_totals (report <| Report_Checked := Report_Checked report + zlen items |>
            <| Report_Healthy := Report_Healthy report + (zlen items - zlen (findings_of s items)) |>)
            (findings_of s items)) as (Hc & Hh & _).
  split.
  - rewrite Hc. change (Report_Checked report + zlen items = zlen (done_ ++ items)).
    rewrite Hchecked. unfold zlen. rewrite length_app. lia.
  - rewrite Hh. change (Report_Healthy report + (zlen items - zlen (findings_of s items)) =
      zlen (done_ ++ items) - zlen (findings_of s (done_ ++ items))).
    rewrite Hhealthy, Happ. unfold zlen. rewrite !length_app. lia.
  - rewrite Happ. apply summarises_fold; [done|]. destruct Hsummary. by split.
Qed.

Lemma verify_loop_run fuel tick n report w : lists I version blobs → I (w_repo w) → 0 < v_batchSize v →
  0 < v_maxFindings v → (n ≤ length blobs)%nat → (length blobs - n < fuel)%nat →
  verified_so_far (w_storage w) (take n blobs) report → Report_SchemaVersion report = version →
  ∃ report' c, verify_loop v fuel tick (cursor_after n) report w = (Ok report', mkWorld c (w_storage w) (w_readings w) (w_draws w)) ∧ I c ∧
    verified_so_far (w_storage w) blobs report' ∧ Report_SchemaVersion report' = version.
Proof.
  intros Hlists HI Hbatch Hmax. revert n tick report w HI.
  induction fuel as [|fuel IH]; intros n tick report w HI Hn Hfuel Hsofar Hversion; [lia|].
  simpl. unfold mbind at 1, GoM_bind at 1, on_repo.
  destruct (Hlists) as [Hsorted Hnamed _ Hpage].
  destruct (Hpage (w_repo w) (cursor_after n) (v_batchSize v) HI Hbatch (cursor_after_listed n)) as (c & -> & HIc).
  rewrite after_cursor_drop by done.
  set (w1 := mkWorld c (w_storage w) (w_readings w) (w_draws w)).
  change (w_storage w) with (w_storage w1) in Hsofar |- *.
  set (k := Z.to_nat (v_batchSize v)). set (items := take k (drop n blobs)).
  assert (length items = (k `min` (length blobs - n))%nat) as Hlen by (unfold items; by rewrite length_take, length_drop).
  assert (0 < k)%nat as Hk by (unfold k; lia).
  destruct (last items) as [end_|] eqn:Hend.
  2: { apply last_None in Hend. rewrite Hend in Hlen. simpl in Hlen. assert (n = length blobs) as -> by lia.
       rewrite take_ge in Hsofar by done. by exists report, c. }
  assert (StronglySorted (λ x y, key_less (blob_key x) (blob_key y) = true) items) as Hitems.
  { rewrite <- (take_drop n blobs) in Hsorted. apply StronglySorted_app_1_r in Hsorted.
    rewrite <- (take_drop k (drop n blobs)) in Hsorted. by apply StronglySorted_app_1_l in Hsorted. }
  unfold mbind at 1, GoM_bind at 1. rewrite verifyBatch_run by done.
  pose proof (verified_step _ _ _ items Hmax Hsofar) as Hstep. unfold items in Hstep at 1. rewrite take_take_drop in Hstep.
  match type of Hstep with verified_so_far _ _ ?r => set (report' := r) in * end.
  assert (Report_SchemaVersion report' = version) as Hversion'.
  { unfold report'. destruct (add_finding_totals (report <| Report_Checked := Report_Checked report + zlen items |>
      <| Report_Healthy := Report_Healthy report + (zlen items - zlen (findings_of (w_storage w1) items)) |>)
      (findings_of (w_storage w1) items)) as (_ & _ & ->). exact Hversion. }
  destruct (zlen items <? v_batchSize v) eqn:Hshort.
  - apply Z.ltb_lt in Hshort. unfold zlen in Hshort. rewrite take_ge in Hstep by lia. by exists report', c.
  - apply Z.ltb_ge in Hshort. unfold zlen in Hshort.
    assert (mkBlobCursor (BlobRecord_TenantID end_) (BlobRecord_ID end_) = cursor_after (n + k)) as ->.
    { replace (n + k)%nat with (S (n + (k - 1))) by lia. simpl.
      rewrite last_lookup, Hlen in Hend. replace (Nat.pred (k `min` (length blobs - n))) with (k - 1)%nat in Hend by lia.
      unfold items in Hend. rewrite lookup_take_lt, lookup_drop in Hend by lia. by rewrite Hend. }
    destruct (IH (n + k)%nat (S (S tick)) report' w1 HIc) as (r & c' & Hrun & HIc' & Hsf & Hv); [lia|lia|done|done|].
    exists r, c'. split; [exact Hrun|done].
Qed.
End loop.

(** Over a catalog that lists its blobs in pages by key, while its state satisfies
    [I], and a store that only answers, a verification ends, checks every blob once, and reports exactly what
    is wrong: the findings are those of the blobs in the order of the catalog, cut
    at the limit with a mark, counted by their code, and the report is verified
    when there is none; the batch size, the order in which the workers check the
    blobs and the order in which their results arrive make no difference. *)
Theorem recovery_report_is_exact {C T} `{!Runtime, !Catalog C, !StorageProvider T, !ReadOnlyStore T, !Schedule}
    v I version blobs fuel (w : World C T) :
  lists I version blobs → I (w_repo w) → 0 < v_batchSize v → 0 < v_maxFindings v → (length blobs < fuel)%nat →
  let all := omap (blob_finding (w_storage w)) blobs in
  ∃ report w', Verify v fuel w = (Ok report, w') ∧ I (w_repo w') ∧ w_storage w' = w_storage w ∧
    Report_SchemaVersion report = version ∧ Report_Checked report = zlen blobs ∧
    Report_Healthy report = zlen blobs - zlen all ∧
    Report_Findings report = take (Z.to_nat (v_maxFindings v)) all ∧
    Report_Truncated report = (v_maxFindings v <? zlen all) ∧
    (∀ code, map_get (Report_Counts report) code = occurrences code all) ∧
    (Report_Verified report = true ↔ all = []).
Proof.
  intros Hlists HI Hbatch Hmax Hfuel all. unfold Verify. destruct w as [c s n d]. simpl in *.
  unfold mbind, GoM_bind, now, on_repo. simpl. destruct (lists_version _ _ _ Hlists c HI) as (c1 & -> & HI1). simpl.
  destruct (verify_loop_run v I version blobs fuel 0 0 (mkReport (clock n) 0 version 0 0 ∅ [] false false)
    (mkWorld c1 s (S n) d) Hlists HI1 Hbatch Hmax (Nat.le_0_l _))
    as (report & c2 & Hrun & HI2 & [Hchecked Hhealthy [Hf Ht Hc He]] & Hversion);
    [lia| |done|].
  { split; [done..|]. change (summarises v [] (mkReport (clock n) 0 version 0 0 ∅ [] false false)).
    split; [by rewrite take_nil| |done|done]. symmetry. apply Z.ltb_ge. unfold zlen. simpl. lia. }
  change (cursor_after blobs 0) with (mkBlobCursor "" "") in Hrun. rewrite Hrun. simpl. eexists _, _.
  split; [done|]. simpl. split_and!; try done.
  rewrite bool_decide_eq_true. change (size (Report_Counts report) = 0%nat ↔ all = []).
  rewrite map_size_empty_iff. exact He.
Qed.

(** A catalog with three blobs over a store that holds the objects of two. *)
Definition blob_of (id : string) (size : Z) : BlobRecord :=
  mkBlobRecord id "t1" "bucket" ("t1/" +:+ id) size go_zero ChecksumUnavailable.
Definition lab_blobs : list BlobRecord := [blob_of "a" 3; blob_of "b" 4; blob_of "c" 3].
#[local] Instance lab_catalog : Catalog unit := {|
  SchemaVersion := ret 9;
  ListAvailableBlobs cursor n := ret (take (Z.to_nat n) (filter (after_cursor cursor) lab_blobs))
|}.
#[local] Program Instance in_order : Schedule := {| schedule A n l := reverse l |}.
Next Obligation. intros. apply reverse_Permutation. Qed.
Definition lab_object (key : string) (data : string) : MemoryStorage.storedObject :=
  MemoryStorage.mkStoredObject data (mkObjectInfo "bucket" key (zstrlen data) "" go_zero ChecksumUnavailable).
Definition lab_store : MemoryStorage.Storage :=
  MemoryStorage.mkStorage "bucket" ∅ (list_to_map [("t1/a", lab_object "t1/a" "xyz"); ("t1/b", lab_object "t1/b" "xyz")])
    None "memory://bucket".
Lemma lab_lists : lists (λ _, True) 9 lab_blobs.
Proof.
  split; [| |by eexists|by eexists].
  - unfold lab_blobs. repeat constructor; vm_compute; reflexivity.
  - intros b Hb. unfold lab_blobs in Hb.
    repeat (apply elem_of_cons in Hb as [->|Hb]; [vm_compute; reflexivity|]). by apply not_elem_of_nil in Hb.
Qed.

Lemma recovery_report_is_exact_witness : ∃ report w',
  Verify (mkVerifier 2 16 100) 4 (mkWorld tt lab_store 0 0) = (Ok report, w') ∧
  Report_Findings report = [mkFinding "size_mismatch" "t1" "b"; mkFinding "object_missing" "t1" "c"].
Proof.
  destruct (recovery_report_is_exact (mkVerifier 2 16 100) (λ _, True) 9 lab_blobs 4 (mkWorld tt lab_store 0 0) lab_lists
    Logic.I eq_refl eq_refl ltac:(repeat constructor)) as (report & w' & Hrun & _ & _ & _ & _ & _ & Hfindings & _).
  exists report, w'. split; [exact Hrun|]. rewrite Hfindings. vm_compute. reflexivity.
Defined.
