(* ===== verification/PgCore.v ===== *)
(** * Statements of the PostgreSQL adapter: the part of SQL they use

    A statement is a function [Stmt D A] on a database [D]: it gives a result and
    the next database, an error, or never ends (a recursive query on a cycle).
    It also gets the number of statements run before it, by which the engine and
    the environment choose what SQL leaves open. [PgEngine] is what the adapter
    takes from the server: the input syntax of [uuid], the collation, [jsonb], and
    the order of rows nothing sorts. [PgEnv] is what happens around a statement:
    its failure for any reason outside the model, the clock of the server, rows
    other transactions hold, the gaps of sequences. *)
From stdpp Require Import pretty.
From S2P Require Import Prelude Errors GoLib.

(** ** Errors of the driver *)

(** [*pgconn.PgError], the end of the context, or any other error. *)
Inductive Fault : Type :=
| SQLState (Code ConstraintName : string)
| ContextDone
| OtherFault (message : string).

Inductive PgErr : Type :=
| PgNoRows
| PgFault (f : Fault)
| PgDomain (e : GoError).

(** As the cause of a domain error. *)
Definition as_cause (e : PgErr) : GoError :=
  match e with
  | PgNoRows => PlainError "no rows in result set"
  | PgFault (SQLState code _) => PlainError ("ERROR (SQLSTATE " +:+ code +:+ ")")
  | PgFault ContextDone => PlainError "context canceled"
  | PgFault (OtherFault message) => PlainError message
  | PgDomain e => e
  end.

Definition unique_violation (constraint : string) : PgErr := PgFault (SQLState "23505" constraint).
Definition foreign_key_violation (constraint : string) : PgErr := PgFault (SQLState "23503" constraint).
Definition check_violation (table : string) : PgErr := PgFault (SQLState "23514" table).
Definition invalid_text : PgErr := PgFault (SQLState "22P02" "").
Definition out_of_range : PgErr := PgFault (SQLState "22003" "").
Definition invalid_limit : PgErr := PgFault (SQLState "2201W" "").
Definition indeterminate_datatype : PgErr := PgFault (SQLState "42P18" "").

(** ** The server and its environment *)

Class PgEngine := {
  (** the input of a [uuid] and its text form, in one *)
  uuid_in : string → option string;
  (** [a < b] under the collation of the database *)
  text_lt : string → string → bool;
  (** a text as [jsonb], in its text form *)
  jsonb_in : string → option string;
  (** the rows of an unordered result in the order of the scan *)
  heap_order : ∀ {A : Type}, nat → list A → list A
}.

Class PgEngineLaws (pg : PgEngine) := {
  uuid_in_canonical s u : uuid_in s = Some u → uuid_in u = Some u;
  uuid_in_nonempty s u : uuid_in s = Some u → u ≠ "";
  text_lt_order : StrictWeakOrder text_lt;
  text_lt_tricho a b : text_lt a b = false → text_lt b a = false → a = b;
  heap_order_perm {A : Type} n (l : list A) : heap_order n l ≡ₚ l
}.
#[export] Existing Instance text_lt_order.

Class PgEnv := {
  env_fault : nat → option Fault;
  (** whether a [COMMIT], or a statement outside a transaction, that failed took effect *)
  env_applied : nat → bool;
  (** the clocks of the server and of the program *)
  env_now : nat → Time;
  (** rows that [SKIP LOCKED] passes over *)
  env_locked : nat → string → bool;
  env_gap : nat → nat
}.

(** No faults, no locks: what a single client sees. *)
Definition quiet (env : PgEnv) : Prop :=
  (∀ n, env_fault n = None) ∧ (∀ n id, env_locked n id = false) ∧ ∀ n, env_gap n = 0%nat.

(** A time as [timestamptz], which counts microseconds. *)
Definition Microsecond : Duration := 1000.
Definition pg_time (t : Time) : Time := t / Microsecond * Microsecond.

Lemma pg_time_idem t : pg_time (pg_time t) = pg_time t.
Proof. unfold pg_time. by rewrite Z.div_mul. Qed.
Lemma pg_time_le t u : t ≤ u → pg_time t ≤ pg_time u.
Proof. unfold pg_time, Microsecond. intros. Z.to_euclidean_division_equations; lia. Qed.

(** The values of the column [maintenance_not_before], one of which is [infinity]. *)
Inductive Stamp : Type := Finite (t : Time) | Infinity.
#[export] Instance Stamp_eq_dec : EqDecision Stamp.
Proof. solve_decision. Defined.
Definition stamp_leb (s : Stamp) (t : Time) : bool :=
  match s with Finite u => u <=? t | Infinity => false end.
Definition stamp_lt (s1 s2 : Stamp) : bool :=
  match s1, s2 with
  | Finite t, Finite u => t <? u
  | Finite _, Infinity => true
  | Infinity, _ => false
  end.

(** ** Statements *)

Inductive Done (D A : Type) : Type :=
| Returns (a : A) (d : D)
| Fails (e : PgErr)
| Loops.
Arguments Returns {D A} a d.
Arguments Fails {D A} e.
Arguments Loops {D A}.

Definition Stmt (D A : Type) : Type := nat → D → Done D A.

#[export] Instance Stmt_ret D : MRet (Stmt D) := λ A a n d, Returns a d.
#[export] Instance Stmt_bind D : MBind (Stmt D) := λ A B f m n d,
  match m n d with
  | Returns a d' => f a n d'
  | Fails e => Fails e
  | Loops => Loops
  end.

Section stmt.
Context {D : Type}.

Definition refuse {A} (e : PgErr) : Stmt D A := λ _ _, Fails e.
Definition refuse_if (b : bool) (e : PgErr) : Stmt D unit := λ _ d, if b then Fails e else Returns tt d.
Definition table_of : Stmt D D := λ _ d, Returns d d.
Definition store (d : D) : Stmt D unit := λ _ _, Returns tt d.
Definition statement_number : Stmt D nat := λ n d, Returns n d.
Definition ends {A} (o : option A) : Stmt D A :=
  λ _ d, match o with Some a => Returns a d | None => Loops end.

(** A parameter of type [uuid], and one that may be [NULL]. *)
Definition uuid `{!PgEngine} (s : string) : Stmt D string :=
  match uuid_in s with Some u => mret u | None => refuse invalid_text end.
Definition uuid_null `{!PgEngine} (s : string) : Stmt D (option string) :=
  if s == "" then mret None else u ← uuid s; mret (Some u).

(** A parameter of type [integer]. *)
Definition integer (z : Z) : Stmt D Z :=
  if (- 2 ^ 31 <=? z) && (z <? 2 ^ 31) then mret z
  else refuse (PgFault (OtherFault "value is out of range for int4")).

(** [row.Scan] of the only row of a result, or of its first one. *)
Definition first_row {A} (rows : list A) : Stmt D A :=
  match rows with x :: _ => mret x | [] => refuse PgNoRows end.

(** [LIMIT n]. *)
Definition limit_rows {A} (n : Z) (rows : list A) : Stmt D (list A) :=
  if n <? 0 then refuse invalid_limit else mret (take (Z.to_nat n) rows).

(** Every placeholder from [$1] to the last must occur in the statement, as its
    type is inferred from where it occurs. *)
Definition placeholders (used : list nat) : Stmt D unit :=
  refuse_if (negb (forallb (λ i, bool_decide (i ∈ used)) (seq 1 (foldr Nat.max 0%nat used))))
    indeterminate_datatype.

(** [n + 1] in a column of [bits] bits. *)
Definition successor_fits (bits : Z) (values : list Z) : Stmt D unit :=
  refuse_if (existsb (λ z, 2 ^ (bits - 1) <=? z + 1) values) out_of_range.
End stmt.

(** ** Tables *)

Section tables.
Context {K V : Type} `{Countable K}.
Implicit Types (t : gmap K V) (p : K → V → bool).

(** [FROM t WHERE p], each row with its key. *)
Definition rows_where t p : list (K * V) := filter (λ kv, p kv.1 kv.2 = true) (map_to_list t).
Definition exists_row t p : bool := existsb (λ kv, p kv.1 kv.2) (map_to_list t).
(** [UPDATE t SET f WHERE p]. *)
Definition update_where t p (f : K → V → V) : gmap K V :=
  map_imap (λ k v, Some (if p k v then f k v else v)) t.
(** [DELETE FROM t WHERE p]. *)
Definition delete_where t p : gmap K V := filter (λ kv, p kv.1 kv.2 = false) t.

Lemma elem_of_rows_where t p k v : (k, v) ∈ rows_where t p ↔ t !! k = Some v ∧ p k v = true.
Proof. unfold rows_where. rewrite list_elem_of_filter, elem_of_map_to_list. simpl. tauto. Qed.

Lemma rows_where_first t p k v l : rows_where t p = (k, v) :: l → t !! k = Some v ∧ p k v = true.
Proof. intros E. apply elem_of_rows_where. rewrite E. by left. Qed.

Lemma exists_row_true t p : exists_row t p = true ↔ ∃ k v, t !! k = Some v ∧ p k v = true.
Proof.
  unfold exists_row. rewrite existsb_exists. split.
  - intros ([k v] & Hin%list_elem_of_In%elem_of_map_to_list & Hp). eauto.
  - intros (k & v & Hk & Hp). exists (k, v). split; [|done]. by apply list_elem_of_In, elem_of_map_to_list.
Qed.
Lemma exists_row_false t p : exists_row t p = false ↔ ∀ k v, t !! k = Some v → p k v = false.
Proof.
  rewrite <- not_true_iff_false, exists_row_true. split.
  - intros Hn k v Hk. apply not_true_iff_false. naive_solver.
  - intros Hf (k & v & Hk & Hp). by rewrite (Hf _ _ Hk) in Hp.
Qed.

Lemma lookup_update_where t p f k :
  update_where t p f !! k = (λ v, if p k v then f k v else v) <$> t !! k.
Proof. unfold update_where. rewrite map_lookup_imap. by destruct (t !! k). Qed.

Lemma lookup_delete_where t p k :
  delete_where t p !! k = t !! k ≫= λ v, if p k v then None else Some v.
Proof.
  unfold delete_where. destruct (t !! k) as [v|] eqn:Hk; simpl.
  - destruct (p k v) eqn:Hp.
    + apply map_lookup_filter_None. right. intros v' Hv'. simplify_eq. simpl. by rewrite Hp.
    + apply map_lookup_filter_Some. by split.
  - apply map_lookup_filter_None. by left.
Qed.

Lemma NoDup_rows_where t p : NoDup (rows_where t p).*1.
Proof.
  unfold rows_where. eapply sublist_NoDup; [apply (NoDup_fst_map_to_list t)|].
  apply fmap_sublist, sublist_filter.
Qed.

(** A condition that fixes the key selects at most one row. *)
Lemma rows_where_key t p k0 : (∀ k v, p k v = true → k = k0) →
  rows_where t p = match t !! k0 with Some v => if p k0 v then [(k0, v)] else [] | None => [] end.
Proof.
  intros Hp. pose proof (NoDup_rows_where t p) as Hnd.
  assert (Hall : ∀ kv, kv ∈ rows_where t p → t !! k0 = Some kv.2 ∧ p k0 kv.2 = true ∧ kv.1 = k0).
  { intros [k v] [Hk Hpk]%elem_of_rows_where. simpl. destruct (Hp _ _ Hpk). done. }
  destruct (rows_where t p) as [|kv1 [|kv2 l]] eqn:E.
  - destruct (t !! k0) as [v|] eqn:Hk; [|done]. destruct (p k0 v) eqn:Hpk; [|done].
    assert ((k0, v) ∈ rows_where t p) as Hin by (by apply elem_of_rows_where). rewrite E in Hin.
    by apply elem_of_nil in Hin.
  - destruct (Hall kv1) as (Hk & Hpk & <-); [by left|]. rewrite Hk, Hpk. by destruct kv1.
  - destruct (Hall kv1) as (_ & _ & E1); [by left|]. destruct (Hall kv2) as (_ & _ & E2); [right; by left|].
    simpl in Hnd. rewrite E1, E2 in Hnd. apply NoDup_cons in Hnd as [Hnd _]. destruct Hnd. by left.
Qed.
End tables.

(** ** [ORDER BY] *)

(** By a text and then by a uuid. *)
Definition text_uuid_lt `{!PgEngine} (x y : string * string) : bool :=
  if x.1 == y.1 then str_ltb x.2 y.2 else text_lt x.1 y.1.
(** [(a, b) > ($i, $j::uuid)]; [NULL] for the second makes the row comparison
    unknown when the first are equal. *)
Definition row_after `{!PgEngine} (name : string) (id : option string) (x : string * string) : bool :=
  if x.1 == name then match id with Some id => str_ltb id x.2 | None => false end
  else text_lt name x.1.
(** [ORDER BY a NULLS FIRST, ...]: lexicographic combination. *)
Definition null_first {A} (lt : A → A → bool) (x y : option A) : bool :=
  match x, y with
  | None, Some _ => true
  | Some a, Some b => lt a b
  | _, None => false
  end.
Definition lex {A B} `{EqDecision A} (lt1 : A → A → bool) (lt2 : B → B → bool) (x y : A * B) : bool :=
  if x.1 == y.1 then lt2 x.2 y.2 else lt1 x.1 y.1.

(** ** [WITH RECURSIVE]

    [UNION]: rows already in the result are dropped from each round, so that no
    more rounds than rows are needed; [UNION ALL] keeps them, and never ends on a
    cycle. The fuel is one round more than a chain of distinct rows has. *)
Section recursive.
Context {A : Type} `{EqDecision A}.

Fixpoint recursive_union (fuel : nat) (step : list A → list A) (working result : list A) : option (list A) :=
  match working, fuel with
  | [], _ => Some result
  | _, O => None
  | _, S fuel =>
    let new := filter (λ x, x ∉ result) (remove_dups (step working)) in
    recursive_union fuel step new (result ++ new)
  end.
Fixpoint recursive_union_all (fuel : nat) (step : list A → list A) (working result : list A)
    : option (list A) :=
  match working, fuel with
  | [], _ => Some result
  | _, O => None
  | _, S fuel => let new := step working in recursive_union_all fuel step new (result ++ new)
  end.
End recursive.
