(* ===== verification/PgSchema.v ===== *)
(** * The schema of the PostgreSQL adapter (src/internal/postgres/migrations)

    A record for the rows of each table, without the columns of the primary key,
    and one for the database. A nullable column is an [option]; a [uuid] is its
    text form; a column with enumerated values is the string. Writes enforce the
    constraints of the table in the order the server does: [CHECK], then the
    unique indexes, then the foreign keys that are not deferred; the deferred ones
    are [deferred_violation], for the end of the transaction. *)
From S2P Require Import Prelude Errors GoLib Types Validation PgCore.

(** [tenant], keyed by [id]. *)
Record tenant_row := mk_tenant_row {
  tenant_display_name : string;
  tenant_root_node_id : option string;
  tenant_created_at : Time
}.
#[export] Instance eta_tenant_row : Eta tenant_row := λ r,
  mk_tenant_row (tenant_display_name r) (tenant_root_node_id r) (tenant_created_at r).

(** [file_node], keyed by [id]. *)
Record file_node_row := mk_file_node_row {
  fn_tenant_id : string;
  fn_parent_id : option string;
  fn_kind : string;
  fn_display_name : string;
  fn_normalized_name : string;
  fn_current_version_id : option string;
  fn_size_bytes : Z;
  fn_mime_type : string;
  fn_status : string;
  fn_trashed_root_id : option string;
  fn_original_parent_id : option string;
  fn_revision : Z;
  fn_created_at : Time;
  fn_updated_at : Time;
  fn_deleted_at : option Time;
  fn_maintenance_owner : option string;
  fn_maintenance_lease_until : option Time;
  fn_maintenance_not_before : option Stamp;
  fn_maintenance_attempts : Z;
  fn_maintenance_error_code : string
}.
#[export] Instance eta_file_node_row : Eta file_node_row := λ r,
  mk_file_node_row (fn_tenant_id r) (fn_parent_id r) (fn_kind r) (fn_display_name r)
  (fn_normalized_name r) (fn_current_version_id r) (fn_size_bytes r) (fn_mime_type r) (fn_status
  r) (fn_trashed_root_id r) (fn_original_parent_id r) (fn_revision r) (fn_created_at r)
  (fn_updated_at r) (fn_deleted_at r) (fn_maintenance_owner r) (fn_maintenance_lease_until r)
  (fn_maintenance_not_before r) (fn_maintenance_attempts r) (fn_maintenance_error_code r).

(** [blob], keyed by [id]. *)
Record blob_row := mk_blob_row {
  blob_tenant_id : string;
  blob_bucket : string;
  blob_object_key : string;
  blob_size_bytes : Z;
  blob_mime_type : string;
  blob_checksum_algorithm : string;
  blob_checksum_value : string;
  blob_checksum_status : string;
  blob_status : string;
  blob_reference_count : Z;
  blob_created_at : Time;
  blob_deleted_at : option Time
}.
#[export] Instance eta_blob_row : Eta blob_row := λ r,
  mk_blob_row (blob_tenant_id r) (blob_bucket r) (blob_object_key r) (blob_size_bytes r)
  (blob_mime_type r) (blob_checksum_algorithm r) (blob_checksum_value r) (blob_checksum_status r)
  (blob_status r) (blob_reference_count r) (blob_created_at r) (blob_deleted_at r).

(** [file_version], keyed by [id]. *)
Record file_version_row := mk_file_version_row {
  fv_tenant_id : string;
  fv_node_id : string;
  fv_blob_id : string;
  fv_size_bytes : Z;
  fv_mime_type : string;
  fv_checksum_algorithm : string;
  fv_checksum_value : string;
  fv_created_by : string;
  fv_created_at : Time
}.
#[export] Instance eta_file_version_row : Eta file_version_row := λ r,
  mk_file_version_row (fv_tenant_id r) (fv_node_id r) (fv_blob_id r) (fv_size_bytes r)
  (fv_mime_type r) (fv_checksum_algorithm r) (fv_checksum_value r) (fv_created_by r)
  (fv_created_at r).

(** [upload_session], keyed by [id]. *)
Record upload_session_row := mk_upload_session_row {
  us_tenant_id : string;
  us_principal_id : string;
  us_parent_id : string;
  us_display_name : string;
  us_normalized_name : string;
  us_expected_size : Z;
  us_mime_type : string;
  us_declared_checksum_algorithm : string;
  us_declared_checksum_value : string;
  us_bucket : string;
  us_object_key : string;
  us_storage_upload_id : string;
  us_status : string;
  us_completion_digest : string;
  us_committed_node_id : option string;
  us_failure_code : string;
  us_part_size : Z;
  us_expires_at : Time;
  us_revision : Z;
  us_created_at : Time;
  us_updated_at : Time;
  us_cleanup_status : string;
  us_maintenance_owner : option string;
  us_maintenance_lease_until : option Time;
  us_maintenance_not_before : option Time;
  us_maintenance_attempts : Z;
  us_maintenance_error_code : string
}.
#[export] Instance eta_upload_session_row : Eta upload_session_row := λ r,
  mk_upload_session_row (us_tenant_id r) (us_principal_id r) (us_parent_id r) (us_display_name r)
  (us_normalized_name r) (us_expected_size r) (us_mime_type r) (us_declared_checksum_algorithm r)
  (us_declared_checksum_value r) (us_bucket r) (us_object_key r) (us_storage_upload_id r)
  (us_status r) (us_completion_digest r) (us_committed_node_id r) (us_failure_code r)
  (us_part_size r) (us_expires_at r) (us_revision r) (us_created_at r) (us_updated_at r)
  (us_cleanup_status r) (us_maintenance_owner r) (us_maintenance_lease_until r)
  (us_maintenance_not_before r) (us_maintenance_attempts r) (us_maintenance_error_code r).

(** [upload_part], keyed by [(tenant_id, upload_session_id, part_number)]. *)
Record upload_part_row := mk_upload_part_row {
  up_etag : string;
  up_checksum_algorithm : string;
  up_checksum_value : string;
  up_size_bytes : Z;
  up_created_at : Time
}.
#[export] Instance eta_upload_part_row : Eta upload_part_row := λ r,
  mk_upload_part_row (up_etag r) (up_checksum_algorithm r) (up_checksum_value r) (up_size_bytes r)
  (up_created_at r).

(** [upload_part_signature], keyed like [upload_part]. *)
Record upload_part_signature_row := mk_upload_part_signature_row {
  ups_size_bytes : Z;
  ups_content_sha256 : string;
  ups_created_at : Time
}.
#[export] Instance eta_upload_part_signature_row : Eta upload_part_signature_row := λ r,
  mk_upload_part_signature_row (ups_size_bytes r) (ups_content_sha256 r) (ups_created_at r).

(** [principal], keyed by [id]. *)
Record principal_row := mk_principal_row {
  pr_issuer : string;
  pr_subject : string;
  pr_display_name : string;
  pr_created_at : Time;
  pr_updated_at : Time
}.
#[export] Instance eta_principal_row : Eta principal_row := λ r,
  mk_principal_row (pr_issuer r) (pr_subject r) (pr_display_name r) (pr_created_at r)
  (pr_updated_at r).

(** [tenant_member], keyed by [(tenant_id, principal_id)]. *)
Record tenant_member_row := mk_tenant_member_row {
  tm_role : string;
  tm_status : string;
  tm_created_at : Time;
  tm_updated_at : Time
}.
#[export] Instance eta_tenant_member_row : Eta tenant_member_row := λ r,
  mk_tenant_member_row (tm_role r) (tm_status r) (tm_created_at r) (tm_updated_at r).

(** [idempotency_record], keyed by [(tenant_id, principal_id, scope, key_hash)]. *)
Record idempotency_row := mk_idempotency_row {
  ir_request_digest : string;
  ir_state : string;
  ir_claim_token : option string;
  ir_resource_id : option string;
  ir_locked_until : option Time;
  ir_expires_at : Time;
  ir_created_at : Time;
  ir_updated_at : Time
}.
#[export] Instance eta_idempotency_row : Eta idempotency_row := λ r,
  mk_idempotency_row (ir_request_digest r) (ir_state r) (ir_claim_token r) (ir_resource_id r)
  (ir_locked_until r) (ir_expires_at r) (ir_created_at r) (ir_updated_at r).

(** [tenant_invitation], keyed by [id]. *)
Record tenant_invitation_row := mk_tenant_invitation_row {
  ti_tenant_id : string;
  ti_issuer : string;
  ti_subject : string;
  ti_display_name : string;
  ti_role : string;
  ti_token_hash : string;
  ti_status : string;
  ti_accepted_principal_id : option string;
  ti_created_by : string;
  ti_expires_at : Time;
  ti_accepted_at : option Time;
  ti_revoked_at : option Time;
  ti_created_at : Time;
  ti_updated_at : Time
}.
#[export] Instance eta_tenant_invitation_row : Eta tenant_invitation_row := λ r,
  mk_tenant_invitation_row (ti_tenant_id r) (ti_issuer r) (ti_subject r) (ti_display_name r)
  (ti_role r) (ti_token_hash r) (ti_status r) (ti_accepted_principal_id r) (ti_created_by r)
  (ti_expires_at r) (ti_accepted_at r) (ti_revoked_at r) (ti_created_at r) (ti_updated_at r).

(** [tenant_group], keyed by [id]. *)
Record tenant_group_row := mk_tenant_group_row {
  tg_tenant_id : string;
  tg_display_name : string;
  tg_normalized_name : string;
  tg_created_by : string;
  tg_created_at : Time;
  tg_updated_at : Time
}.
#[export] Instance eta_tenant_group_row : Eta tenant_group_row := λ r,
  mk_tenant_group_row (tg_tenant_id r) (tg_display_name r) (tg_normalized_name r) (tg_created_by
  r) (tg_created_at r) (tg_updated_at r).

(** [tenant_group_member], keyed by [(tenant_id, group_id, principal_id)]. *)
Record tenant_group_member_row := mk_tenant_group_member_row {
  gm_added_by : string;
  gm_created_at : Time
}.
#[export] Instance eta_tenant_group_member_row : Eta tenant_group_member_row := λ r,
  mk_tenant_group_member_row (gm_added_by r) (gm_created_at r).

(** [node_acl], keyed by [id]. *)
Record node_acl_row := mk_node_acl_row {
  na_tenant_id : string;
  na_node_id : string;
  na_subject_type : string;
  na_principal_id : option string;
  na_group_id : option string;
  na_role : string;
  na_created_by : string;
  na_created_at : Time;
  na_updated_at : Time
}.
#[export] Instance eta_node_acl_row : Eta node_acl_row := λ r,
  mk_node_acl_row (na_tenant_id r) (na_node_id r) (na_subject_type r) (na_principal_id r)
  (na_group_id r) (na_role r) (na_created_by r) (na_created_at r) (na_updated_at r).

(** [audit_event], keyed by [sequence]. *)
Record audit_event_row := mk_audit_event_row {
  ae_id : string;
  ae_tenant_id : string;
  ae_actor_principal_id : option string;
  ae_action : string;
  ae_target_type : string;
  ae_target_id : option string;
  ae_request_id : string;
  ae_metadata : string;
  ae_occurred_at : Time
}.
#[export] Instance eta_audit_event_row : Eta audit_event_row := λ r,
  mk_audit_event_row (ae_id r) (ae_tenant_id r) (ae_actor_principal_id r) (ae_action r)
  (ae_target_type r) (ae_target_id r) (ae_request_id r) (ae_metadata r) (ae_occurred_at r).

(** The database: a map for each table, and the sequence behind [audit_event.sequence]. *)
Record DB := mk_DB {
  db_tenant : gmap string tenant_row;
  db_file_node : gmap string file_node_row;
  db_blob : gmap string blob_row;
  db_file_version : gmap string file_version_row;
  db_upload_session : gmap string upload_session_row;
  db_upload_part : gmap (string * string * Z) upload_part_row;
  db_upload_part_signature : gmap (string * string * Z) upload_part_signature_row;
  db_principal : gmap string principal_row;
  db_tenant_member : gmap (string * string) tenant_member_row;
  db_idempotency_record : gmap (string * string * string * string) idempotency_row;
  db_tenant_invitation : gmap string tenant_invitation_row;
  db_tenant_group : gmap string tenant_group_row;
  db_tenant_group_member : gmap (string * string * string) tenant_group_member_row;
  db_node_acl : gmap string node_acl_row;
  db_audit_event : gmap Z audit_event_row;
  db_audit_sequence : Z
}.
#[export] Instance eta_DB : Eta DB := λ r,
  mk_DB (db_tenant r) (db_file_node r) (db_blob r) (db_file_version r) (db_upload_session r)
  (db_upload_part r) (db_upload_part_signature r) (db_principal r) (db_tenant_member r)
  (db_idempotency_record r) (db_tenant_invitation r) (db_tenant_group r) (db_tenant_group_member
  r) (db_node_acl r) (db_audit_event r) (db_audit_sequence r).

Definition empty_db : DB := mk_DB ∅ ∅ ∅ ∅ ∅ ∅ ∅ ∅ ∅ ∅ ∅ ∅ ∅ ∅ ∅ 0.

(** ** References *)

Definition has_key {K V} `{Countable K} (t : gmap K V) (k : K) : bool :=
  match t !! k with Some _ => true | None => false end.
Definition node_ref (db : DB) (tenant id : string) : bool :=
  match db_file_node db !! id with Some n => fn_tenant_id n == tenant | None => false end.
Definition version_ref (db : DB) (tenant id : string) : bool :=
  match db_file_version db !! id with Some v => fv_tenant_id v == tenant | None => false end.
Definition blob_ref (db : DB) (tenant id : string) : bool :=
  match db_blob db !! id with Some b => blob_tenant_id b == tenant | None => false end.
Definition upload_ref (db : DB) (tenant id : string) : bool :=
  match db_upload_session db !! id with Some u => us_tenant_id u == tenant | None => false end.
Definition group_ref (db : DB) (tenant id : string) : bool :=
  match db_tenant_group db !! id with Some g => tg_tenant_id g == tenant | None => false end.
(** A foreign key with a [NULL] column is not checked. *)
Definition null_or (ref : string → bool) (id : option string) : bool :=
  match id with Some id => ref id | None => true end.

(** [column IN (...)], also for a [NULL] column, which is not in any list. *)
Definition one_of (s : string) (l : list string) : bool := existsb (λ x, s == x) l.

(** ** [tenant] *)

(** [INSERT ... ON CONFLICT (id) DO NOTHING]. *)
Definition insert_tenant_if_new (id : string) (row : tenant_row) : Stmt DB unit :=
  db ← table_of;
  if has_key (db_tenant db) id then mret tt
  else store (db <| db_tenant := <[id := row]> (db_tenant db) |>).

(** ** [file_node] *)

Definition file_node_check (n : file_node_row) : bool :=
  one_of (fn_kind n) ["directory"; "file"] && (0 <=? fn_size_bytes n) &&
  one_of (fn_status n) ["active"; "trashed"; "purging"] && (0 <? fn_revision n) &&
  (((fn_kind n == "directory") && (fn_current_version_id n == None) && (fn_size_bytes n =? 0) &&
    (fn_mime_type n == "")) ||
   ((fn_kind n == "file") && (fn_current_version_id n != None) && (0 <=? fn_size_bytes n) &&
    (fn_mime_type n != ""))) && (0 <=? fn_maintenance_attempts n).

Definition node_visible (n : file_node_row) : bool :=
  (fn_status n == "active") && (fn_trashed_root_id n == None).

(** Rows [file_node_one_root_per_tenant] and [file_node_active_name_unique] do
    not allow next to the row. *)
Definition second_root (t : gmap string file_node_row) (id : string) (n : file_node_row) : bool :=
  (fn_parent_id n == None) &&
  exists_row t (λ k m, (k != id) && (fn_parent_id m == None) && (fn_tenant_id m == fn_tenant_id n)).
Definition name_taken (t : gmap string file_node_row) (id : string) (n : file_node_row) : bool :=
  node_visible n && (fn_parent_id n != None) &&
  exists_row t (λ k m, (k != id) && node_visible m && (fn_parent_id m == fn_parent_id n) &&
    (fn_tenant_id m == fn_tenant_id n) && (fn_normalized_name m == fn_normalized_name n)).
Definition file_node_ref (db : DB) (n : file_node_row) : bool :=
  has_key (db_tenant db) (fn_tenant_id n) && null_or (node_ref db (fn_tenant_id n)) (fn_parent_id n).

(** The table [t] in place of the one there is, when the rows [rows] are those
    that changed. *)
Definition write_file_nodes (t : gmap string file_node_row) (rows : list (string * file_node_row))
    : Stmt DB unit :=
  db ← table_of;
  let db := db <| db_file_node := t |> in
  _ ← refuse_if (existsb (λ '(_, n), negb (file_node_check n)) rows) (check_violation "file_node");
  _ ← refuse_if (existsb (λ '(id, n), second_root t id n) rows)
        (unique_violation "file_node_one_root_per_tenant");
  _ ← refuse_if (existsb (λ '(id, n), name_taken t id n) rows)
        (unique_violation "file_node_active_name_unique");
  _ ← refuse_if (existsb (λ '(_, n), negb (file_node_ref db n)) rows)
        (foreign_key_violation "file_node_parent_fk");
  store db.
Definition insert_file_node (id : string) (n : file_node_row) : Stmt DB unit :=
  db ← table_of;
  _ ← refuse_if (has_key (db_file_node db) id && file_node_check n) (unique_violation "file_node_pkey");
  write_file_nodes (<[id := n]> (db_file_node db)) [(id, n)].
(** [UPDATE file_node SET f WHERE p]: the updated rows. *)
Definition update_file_nodes (p : string → file_node_row → bool) (f : string → file_node_row → file_node_row)
    : Stmt DB (list (string * file_node_row)) :=
  db ← table_of;
  let rows := (λ '(id, n), (id, f id n)) <$> rows_where (db_file_node db) p in
  _ ← write_file_nodes (update_where (db_file_node db) p f) rows;
  mret rows.

(** ** [blob] and [file_version] *)

Definition blob_check (b : blob_row) : bool :=
  (0 <=? blob_size_bytes b) &&
  one_of (blob_checksum_status b) ["verified"; "declared"; "unavailable"] &&
  one_of (blob_status b) ["available"; "pending_delete"; "deleted"] && (0 <=? blob_reference_count b).
Definition insert_blob (id : string) (b : blob_row) : Stmt DB unit :=
  db ← table_of;
  _ ← refuse_if (negb (blob_check b)) (check_violation "blob");
  _ ← refuse_if (has_key (db_blob db) id) (unique_violation "blob_pkey");
  _ ← refuse_if (exists_row (db_blob db) (λ _ c,
        (blob_bucket c == blob_bucket b) && (blob_object_key c == blob_object_key b)))
        (unique_violation "blob_bucket_object_key_key");
  _ ← refuse_if (negb (has_key (db_tenant db) (blob_tenant_id b)))
        (foreign_key_violation "blob_tenant_id_fkey");
  store (db <| db_blob := <[id := b]> (db_blob db) |>).
Definition update_blobs (p : string → blob_row → bool) (f : string → blob_row → blob_row) : Stmt DB unit :=
  db ← table_of;
  _ ← refuse_if (existsb (λ '(id, b), negb (blob_check (f id b))) (rows_where (db_blob db) p))
        (check_violation "blob");
  store (db <| db_blob := update_where (db_blob db) p f |>).

Definition insert_file_version (id : string) (v : file_version_row) : Stmt DB unit :=
  db ← table_of;
  _ ← refuse_if (fv_size_bytes v <? 0) (check_violation "file_version");
  _ ← refuse_if (has_key (db_file_version db) id) (unique_violation "file_version_pkey");
  _ ← refuse_if (negb (has_key (db_tenant db) (fv_tenant_id v) &&
                       blob_ref db (fv_tenant_id v) (fv_blob_id v)))
        (foreign_key_violation "file_version_blob_fk");
  store (db <| db_file_version := <[id := v]> (db_file_version db) |>).

(** ** [upload_session], [upload_part], [upload_part_signature] *)

Definition upload_check (u : upload_session_row) : bool :=
  (0 <? us_expected_size u) &&
  one_of (us_status u) ["created"; "uploading"; "completing"; "object_completed";
                        "committed"; "aborted"; "expired"; "failed"] &&
  (0 <? us_part_size u) && (0 <? us_revision u) &&
  (((us_status u == "committed") && (us_committed_node_id u != None)) || (us_status u != "committed")) &&
  one_of (us_cleanup_status u) ["none"; "pending"; "complete"] && (0 <=? us_maintenance_attempts u).
Definition insert_upload (id : string) (u : upload_session_row) : Stmt DB unit :=
  db ← table_of;
  _ ← refuse_if (negb (upload_check u)) (check_violation "upload_session");
  _ ← refuse_if (has_key (db_upload_session db) id) (unique_violation "upload_session_pkey");
  _ ← refuse_if (exists_row (db_upload_session db) (λ _ v,
        (us_bucket v == us_bucket u) && (us_object_key v == us_object_key u)))
        (unique_violation "upload_session_bucket_object_key_key");
  _ ← refuse_if (negb (has_key (db_tenant db) (us_tenant_id u) &&
                       node_ref db (us_tenant_id u) (us_parent_id u)))
        (foreign_key_violation "upload_parent_fk");
  store (db <| db_upload_session := <[id := u]> (db_upload_session db) |>).
(** [UPDATE upload_session SET f WHERE p]: the updated rows. No update changes a
    column of a unique index or of a foreign key that is not deferred. *)
Definition update_uploads (p : string → upload_session_row → bool)
    (f : string → upload_session_row → upload_session_row) : Stmt DB (list (string * upload_session_row)) :=
  db ← table_of;
  let rows := (λ '(id, u), (id, f id u)) <$> rows_where (db_upload_session db) p in
  _ ← refuse_if (existsb (λ '(_, u), negb (upload_check u)) rows) (check_violation "upload_session");
  _ ← store (db <| db_upload_session := update_where (db_upload_session db) p f |>);
  mret rows.

Definition upload_part_check (number : Z) (row : upload_part_row) : bool :=
  (1 <=? number) && (number <=? 10000) && (0 <=? up_size_bytes row).
(** [INSERT ... ON CONFLICT DO UPDATE SET ... WHERE] the part is the same: when it
    is not, the row stays and the statement succeeds. *)
Definition same_part (old new : upload_part_row) : bool :=
  (up_etag old == up_etag new) && (up_checksum_algorithm old == up_checksum_algorithm new) &&
  (up_checksum_value old == up_checksum_value new).
Definition upsert_upload_part (k : string * string * Z) (row : upload_part_row) : Stmt DB unit :=
  db ← table_of;
  _ ← refuse_if (negb (upload_part_check k.2 row)) (check_violation "upload_part");
  match db_upload_part db !! k with
  | Some old =>
    if same_part old row then
      store (db <| db_upload_part :=
        <[k := old <| up_etag := up_etag row |> <| up_checksum_algorithm := up_checksum_algorithm row |>
                   <| up_checksum_value := up_checksum_value row |>
                   <| up_size_bytes := up_size_bytes row |>]> (db_upload_part db) |>)
    else mret tt
  | None =>
    _ ← refuse_if (negb (upload_ref db k.1.1 k.1.2)) (foreign_key_violation "upload_part_session_fk");
    store (db <| db_upload_part := <[k := row]> (db_upload_part db) |>)
  end.

(** [content_sha256 ~ '^[A-Za-z0-9+/]{43}=$']. *)
Definition sha256_base64_text (s : string) : bool :=
  let l := chars s in
  (length l =? 44)%nat && forallb (λ c, match b64_val StdAlphabet c with Some _ => true | None => false end) (take 43 l) &&
  bool_decide (drop 43 l = [pad_char]).
Definition part_signature_check (number : Z) (row : upload_part_signature_row) : bool :=
  (1 <=? number) && (number <=? 10000) && (0 <? ups_size_bytes row) &&
  sha256_base64_text (ups_content_sha256 row).
(** [INSERT ... ON CONFLICT DO UPDATE]: every column is replaced. *)
Definition upsert_part_signature (k : string * string * Z) (row : upload_part_signature_row) : Stmt DB unit :=
  db ← table_of;
  _ ← refuse_if (negb (part_signature_check k.2 row)) (check_violation "upload_part_signature");
  _ ← refuse_if (negb (has_key (db_upload_part_signature db) k) && negb (upload_ref db k.1.1 k.1.2))
        (foreign_key_violation "upload_part_signature_session_fk");
  store (db <| db_upload_part_signature := <[k := row]> (db_upload_part_signature db) |>).

(** ** [principal] and [tenant_member] *)

Definition insert_principal (id : string) (p : principal_row) : Stmt DB unit :=
  db ← table_of;
  _ ← refuse_if ((pr_issuer p == "") || (pr_subject p == "")) (check_violation "principal");
  _ ← refuse_if (has_key (db_principal db) id) (unique_violation "principal_pkey");
  _ ← refuse_if (exists_row (db_principal db) (λ _ q,
        (pr_issuer q == pr_issuer p) && (pr_subject q == pr_subject p)))
        (unique_violation "principal_issuer_subject_key");
  store (db <| db_principal := <[id := p]> (db_principal db) |>).

Definition member_check (m : tenant_member_row) : bool :=
  one_of (tm_role m) ["owner"; "admin"; "editor"; "viewer"] &&
  one_of (tm_status m) ["active"; "suspended"].
Definition insert_member (k : string * string) (m : tenant_member_row) : Stmt DB unit :=
  db ← table_of;
  _ ← refuse_if (negb (member_check m)) (check_violation "tenant_member");
  _ ← refuse_if (has_key (db_tenant_member db) k) (unique_violation "tenant_member_pkey");
  _ ← refuse_if (negb (has_key (db_tenant db) k.1 && has_key (db_principal db) k.2))
        (foreign_key_violation "tenant_member_fkey");
  store (db <| db_tenant_member := <[k := m]> (db_tenant_member db) |>).
(** [INSERT ... ON CONFLICT (tenant_id, principal_id) DO NOTHING]. *)
Definition insert_member_if_new (k : string * string) (m : tenant_member_row) : Stmt DB unit :=
  db ← table_of;
  _ ← refuse_if (negb (member_check m)) (check_violation "tenant_member");
  if has_key (db_tenant_member db) k then mret tt else insert_member k m.
(** [UPDATE tenant_member SET f WHERE tenant_id = k.1 AND principal_id = k.2]: the
    number of rows. *)
Definition update_member (k : string * string) (f : tenant_member_row → tenant_member_row) : Stmt DB Z :=
  db ← table_of;
  match db_tenant_member db !! k with
  | None => mret 0
  | Some m =>
    _ ← refuse_if (negb (member_check (f m))) (check_violation "tenant_member");
    _ ← store (db <| db_tenant_member := <[k := f m]> (db_tenant_member db) |>);
    mret 1
  end.
(** [DELETE], with the rows the foreign keys [ON DELETE CASCADE] remove. *)
Definition delete_member (k : string * string) : Stmt DB unit :=
  db ← table_of;
  store (db <| db_tenant_member := delete k (db_tenant_member db) |>
            <| db_tenant_group_member := delete_where (db_tenant_group_member db)
                 (λ '(t, _, p) _, (t == k.1) && (p == k.2)) |>
            <| db_node_acl := delete_where (db_node_acl db)
                 (λ _ a, (na_tenant_id a == k.1) && (na_principal_id a == Some k.2)) |>).

(** ** [idempotency_record] *)

Definition idempotency_check (k : string * string * string * string) (r : idempotency_row) : bool :=
  let '(_, _, scope, _) := k in
  one_of scope ["create_directory"; "create_upload"] && one_of (ir_state r) ["pending"; "completed"] &&
  (((ir_state r == "pending") && (ir_claim_token r != None) && (ir_resource_id r == None) &&
    (ir_locked_until r != None)) ||
   ((ir_state r == "completed") && (ir_claim_token r == None) && (ir_resource_id r != None) &&
    (ir_locked_until r == None))).
(** [INSERT ... ON CONFLICT DO NOTHING]. *)
Definition insert_idempotency_if_new (k : string * string * string * string) (r : idempotency_row)
    : Stmt DB unit :=
  db ← table_of;
  _ ← refuse_if (negb (idempotency_check k r)) (check_violation "idempotency_record");
  if has_key (db_idempotency_record db) k then mret tt else
  let '(tenant, _, _, _) := k in
  _ ← refuse_if (negb (has_key (db_tenant db) tenant))
        (foreign_key_violation "idempotency_record_tenant_id_fkey");
  store (db <| db_idempotency_record := <[k := r]> (db_idempotency_record db) |>).
(** [UPDATE ... WHERE] the key and a condition on the row: the updated row. *)
Definition update_idempotency (k : string * string * string * string) (p : idempotency_row → bool)
    (f : idempotency_row → idempotency_row) : Stmt DB (list idempotency_row) :=
  db ← table_of;
  match db_idempotency_record db !! k with
  | None => mret []
  | Some r =>
    if negb (p r) then mret [] else
    _ ← refuse_if (negb (idempotency_check k (f r))) (check_violation "idempotency_record");
    _ ← store (db <| db_idempotency_record := <[k := f r]> (db_idempotency_record db) |>);
    mret [f r]
  end.

(** ** [tenant_invitation] *)

Definition invitation_check (i : tenant_invitation_row) : bool :=
  (ti_issuer i != "") && (ti_subject i != "") &&
  one_of (ti_role i) ["owner"; "admin"; "editor"; "viewer"] &&
  (((ti_status i == "pending") && (ti_accepted_principal_id i == None) && (ti_accepted_at i == None) &&
    (ti_revoked_at i == None)) ||
   ((ti_status i == "accepted") && (ti_accepted_principal_id i != None) && (ti_accepted_at i != None) &&
    (ti_revoked_at i == None)) ||
   ((ti_status i == "revoked") && (ti_accepted_principal_id i == None) && (ti_accepted_at i == None) &&
    (ti_revoked_at i != None)) ||
   ((ti_status i == "expired") && (ti_accepted_principal_id i == None) && (ti_accepted_at i == None) &&
    (ti_revoked_at i == None))).
Definition insert_invitation (id : string) (i : tenant_invitation_row) : Stmt DB unit :=
  db ← table_of;
  _ ← refuse_if (negb (invitation_check i)) (check_violation "tenant_invitation");
  _ ← refuse_if (has_key (db_tenant_invitation db) id) (unique_violation "tenant_invitation_pkey");
  _ ← refuse_if (exists_row (db_tenant_invitation db) (λ _ j, ti_token_hash j == ti_token_hash i))
        (unique_violation "tenant_invitation_token_hash_key");
  _ ← refuse_if ((ti_status i == "pending") && exists_row (db_tenant_invitation db) (λ _ j,
        (ti_status j == "pending") && (ti_tenant_id j == ti_tenant_id i) &&
        (ti_issuer j == ti_issuer i) && (ti_subject j == ti_subject i)))
        (unique_violation "tenant_invitation_pending_identity");
  _ ← refuse_if (negb (has_key (db_tenant db) (ti_tenant_id i)))
        (foreign_key_violation "tenant_invitation_tenant_id_fkey");
  store (db <| db_tenant_invitation := <[id := i]> (db_tenant_invitation db) |>).
(** [UPDATE tenant_invitation SET f WHERE id]: no update makes a row pending. *)
Definition update_invitation (id : string) (f : tenant_invitation_row → tenant_invitation_row)
    : Stmt DB unit :=
  db ← table_of;
  match db_tenant_invitation db !! id with
  | None => mret tt
  | Some i =>
    _ ← refuse_if (negb (invitation_check (f i))) (check_violation "tenant_invitation");
    store (db <| db_tenant_invitation := <[id := f i]> (db_tenant_invitation db) |>)
  end.

(** ** [tenant_group] and [tenant_group_member] *)

Definition group_name_taken (db : DB) (id tenant name : string) : bool :=
  exists_row (db_tenant_group db) (λ k g,
    (k != id) && (tg_tenant_id g == tenant) && (tg_normalized_name g == name)).
Definition insert_group (id : string) (g : tenant_group_row) : Stmt DB unit :=
  db ← table_of;
  _ ← refuse_if (has_key (db_tenant_group db) id) (unique_violation "tenant_group_pkey");
  _ ← refuse_if (group_name_taken db id (tg_tenant_id g) (tg_normalized_name g))
        (unique_violation "tenant_group_tenant_id_normalized_name_key");
  _ ← refuse_if (negb (has_key (db_tenant db) (tg_tenant_id g)))
        (foreign_key_violation "tenant_group_tenant_id_fkey");
  store (db <| db_tenant_group := <[id := g]> (db_tenant_group db) |>).
(** [UPDATE tenant_group SET f WHERE tenant_id AND id]: the updated rows. *)
Definition update_group (tenant id : string) (f : tenant_group_row → tenant_group_row)
    : Stmt DB (list (string * tenant_group_row)) :=
  db ← table_of;
  match db_tenant_group db !! id with
  | None => mret []
  | Some g =>
    if tg_tenant_id g != tenant then mret [] else
    _ ← refuse_if (group_name_taken db id tenant (tg_normalized_name (f g)))
          (unique_violation "tenant_group_tenant_id_normalized_name_key");
    _ ← store (db <| db_tenant_group := <[id := f g]> (db_tenant_group db) |>);
    mret [(id, f g)]
  end.
(** [DELETE ... WHERE tenant_id AND id], with the rows that cascade: the number
    of groups. *)
Definition delete_group (tenant id : string) : Stmt DB Z :=
  db ← table_of;
  if negb (group_ref db tenant id) then mret 0 else
  _ ← store (db <| db_tenant_group := delete id (db_tenant_group db) |>
                <| db_tenant_group_member := delete_where (db_tenant_group_member db)
                     (λ '(t, g, _) _, (t == tenant) && (g == id)) |>
                <| db_node_acl := delete_where (db_node_acl db)
                     (λ _ a, (na_tenant_id a == tenant) && (na_group_id a == Some id)) |>);
  mret 1.

(** [INSERT ... ON CONFLICT DO NOTHING]: the number of rows inserted. *)
Definition insert_group_member_if_new (k : string * string * string) (row : tenant_group_member_row)
    : Stmt DB Z :=
  db ← table_of;
  if has_key (db_tenant_group_member db) k then mret 0 else
  let '(tenant, group, principal) := k in
  _ ← refuse_if (negb (group_ref db tenant group && has_key (db_tenant_member db) (tenant, principal)))
        (foreign_key_violation "tenant_group_member_fk");
  _ ← store (db <| db_tenant_group_member := <[k := row]> (db_tenant_group_member db) |>);
  mret 1.
Definition delete_group_member (k : string * string * string) : Stmt DB Z :=
  db ← table_of;
  if negb (has_key (db_tenant_group_member db) k) then mret 0 else
  _ ← store (db <| db_tenant_group_member := delete k (db_tenant_group_member db) |>);
  mret 1.

(** ** [node_acl] *)

Definition acl_check (a : node_acl_row) : bool :=
  one_of (na_subject_type a) ["principal"; "group"] &&
  one_of (na_role a) ["reader"; "contributor"; "manager"] &&
  (((na_subject_type a == "principal") && (na_principal_id a != None) && (na_group_id a == None)) ||
   ((na_subject_type a == "group") && (na_principal_id a == None) && (na_group_id a != None))).
Definition acl_refs (db : DB) (a : node_acl_row) : bool :=
  node_ref db (na_tenant_id a) (na_node_id a) &&
  null_or (λ p, has_key (db_tenant_member db) (na_tenant_id a, p)) (na_principal_id a) &&
  null_or (group_ref db (na_tenant_id a)) (na_group_id a).
(** The entry of the same subject on the same node, for the partial unique index
    of the subject type. *)
Definition same_acl (a b : node_acl_row) : bool :=
  (na_subject_type b == na_subject_type a) && (na_tenant_id b == na_tenant_id a) &&
  (na_node_id b == na_node_id a) && (na_principal_id b == na_principal_id a) &&
  (na_group_id b == na_group_id a).
(** [INSERT ... ON CONFLICT (subject) DO UPDATE SET role, updated_at RETURNING]. *)
Definition upsert_acl (id : string) (a : node_acl_row) : Stmt DB (string * node_acl_row) :=
  db ← table_of;
  _ ← refuse_if (negb (acl_check a)) (check_violation "node_acl");
  match rows_where (db_node_acl db) (λ _ b, same_acl a b) with
  | (k, b) :: _ =>
    let b := b <| na_role := na_role a |> <| na_updated_at := na_updated_at a |> in
    _ ← store (db <| db_node_acl := <[k := b]> (db_node_acl db) |>);
    mret (k, b)
  | [] =>
    _ ← refuse_if (has_key (db_node_acl db) id) (unique_violation "node_acl_pkey");
    _ ← refuse_if (negb (acl_refs db a)) (foreign_key_violation "node_acl_fk");
    _ ← store (db <| db_node_acl := <[id := a]> (db_node_acl db) |>);
    mret (id, a)
  end.
Definition delete_acl (tenant node id : string) : Stmt DB Z :=
  db ← table_of;
  match db_node_acl db !! id with
  | Some a =>
    if (na_tenant_id a == tenant) && (na_node_id a == node) then
      _ ← store (db <| db_node_acl := delete id (db_node_acl db) |>); mret 1
    else mret 0
  | None => mret 0
  end.

(** ** [audit_event] *)

(** [~ '^[a-z][...]{lo,hi}$'], the class of the tail given by [tail]. *)
Definition lower_letter (b : Z) : bool := in_range 97 122 b.
Definition matches_identifier (tail : Z → bool) (lo hi : nat) (s : string) : bool :=
  match bytes s with
  | b :: l => lower_letter b && forallb tail l && (lo <=? length l)%nat && (length l <=? hi)%nat
  | [] => false
  end.
Definition action_byte (b : Z) : bool :=
  lower_letter b || in_range 48 57 b || (b =? 95) || (b =? 46).
Definition target_byte (b : Z) : bool := lower_letter b || in_range 48 57 b || (b =? 95).
Definition audit_check (e : audit_event_row) : bool :=
  matches_identifier action_byte 2 127 (ae_action e) &&
  matches_identifier target_byte 1 63 (ae_target_type e) &&
  (length (range_string (ae_request_id e)) <=? 128)%nat &&
  HasPrefix (ae_metadata e) "{" && (zstrlen (ae_metadata e) <=? 4096).
Definition insert_audit `{!PgEnv} (e : audit_event_row) : Stmt DB unit :=
  db ← table_of;
  n ← statement_number;
  let sequence := db_audit_sequence db + 1 + Z.of_nat (env_gap n) in
  _ ← refuse_if (2 ^ 63 <=? sequence) out_of_range;
  _ ← refuse_if (negb (audit_check e)) (check_violation "audit_event");
  _ ← refuse_if (exists_row (db_audit_event db) (λ _ f, ae_id f == ae_id e))
        (unique_violation "audit_event_id_key");
  _ ← refuse_if (negb (has_key (db_tenant db) (ae_tenant_id e)))
        (foreign_key_violation "audit_event_tenant_id_fkey");
  store (db <| db_audit_event := <[sequence := e]> (db_audit_event db) |>
            <| db_audit_sequence := sequence |>).

(** ** Deferred foreign keys *)

Definition deferred_violation (db : DB) : option PgErr :=
  if exists_row (db_file_node db) (λ _ n,
       negb (null_or (node_ref db (fn_tenant_id n)) (fn_trashed_root_id n)) ||
       negb (null_or (node_ref db (fn_tenant_id n)) (fn_original_parent_id n)) ||
       negb (null_or (version_ref db (fn_tenant_id n)) (fn_current_version_id n)))
  then Some (foreign_key_violation "file_node_deferred_fk")
  else if exists_row (db_file_version db) (λ _ v, negb (node_ref db (fv_tenant_id v) (fv_node_id v)))
  then Some (foreign_key_violation "file_version_node_fk")
  else if exists_row (db_tenant db) (λ id t, negb (null_or (node_ref db id) (tenant_root_node_id t)))
  then Some (foreign_key_violation "tenant_root_node_fk")
  else if exists_row (db_upload_session db) (λ _ u,
            negb (null_or (node_ref db (us_tenant_id u)) (us_committed_node_id u)))
  then Some (foreign_key_violation "upload_committed_node_fk")
  else None.
