(* ===== verification/PgRepository.v ===== *)
(** * The PostgreSQL repository: transactions, rows, the audit trail
    (src/internal/postgres/repository.go, scan.go, locking.go, governance.go)

    [Pg] is the committed database, the view of the open transaction, and the
    number of statements run so far. A method is a body in [GoM Pg]; its deferred
    [tx.Rollback] is [with_tx], so only [commit] changes the committed database. A
    transaction is one step: the row locks by which the code orders concurrent
    transactions are not modelled. A query outside a transaction is a transaction
    of its own. *)
From S2P Require Import Prelude Errors GoLib Types Validation PgCore PgSchema.

Record Pg := mkPg { pg_store : DB; pg_work : DB; pg_statements : nat }.
#[export] Instance eta_Pg : Eta Pg := λ s, mkPg (pg_store s) (pg_work s) (pg_statements s).

(** ** Errors *)

Definition mapError (err : PgErr) (fallback : ErrorCode) (message : string) : GoError :=
  let other := EC fallback message (Some (as_cause err)) in
  match err with
  | PgDomain e => if CodeOf (Some e) != CodeInternal then e else other
  | PgNoRows => E CodeNotFound "resource was not found"
  | PgFault (SQLState code constraint) =>
    if code == "23505" then
      if constraint == "file_node_active_name_unique" then
        if fallback == CodeRestoreConflict
        then E CodeRestoreConflict "original location is unavailable"
        else E CodeNameConflict "an active item with this name already exists"
      else other
    else if code == "23503" then E CodeNotFound "related resource was not found"
    else if code == "22P02" then E CodeInvalidRequest "identifier must be a valid UUID"
    else if (code == "40001") || (code == "40P01") || (code == "55P03") then
      Retryable CodeDependencyUnavailable "database transaction must be retried" (Some (as_cause err))
    else other
  | PgFault ContextDone =>
    Retryable CodeDependencyUnavailable "database operation was canceled" (Some (as_cause err))
  | PgFault (OtherFault _) => other
  end.

(** ** Statements and transactions *)

Section with_env.
Context `{!PgEnv}.

(** A statement of the open transaction: its result, or its error. *)
Definition tx_query {A} (q : Stmt DB A) : GoM Pg (PgErr + A) := λ s,
  let n := pg_statements s in
  let s := s <| pg_statements := S n |> in
  match env_fault n with
  | Some f => (Ok (inl (PgFault f)), s)
  | None =>
    match q n (pg_work s) with
    | Returns a db => (Ok (inr a), s <| pg_work := db |>)
    | Fails e => (Ok (inl e), s)
    | Loops => (Diverged, s)
    end
  end.

(** A statement of the pool commits on its own; one whose answer is lost may have
    taken effect. *)
Definition pool_query {A} (q : Stmt DB A) : GoM Pg (PgErr + A) := λ s,
  let n := pg_statements s in
  let s := s <| pg_statements := S n |> in
  let ran :=
    match q n (pg_store s) with
    | Returns a db =>
      match deferred_violation db with
      | Some e => (Ok (inl e), s)
      | None => (Ok (inr a), s <| pg_store := db |>)
      end
    | Fails e => (Ok (inl e), s)
    | Loops => (Diverged, s)
    end in
  match env_fault n with
  | Some f => (Ok (inl (PgFault f)), if env_applied n then ran.2 else s)
  | None => ran
  end.

Definition commit : GoM Pg unit := λ s,
  let n := pg_statements s in
  let s := s <| pg_statements := S n |> in
  let failed e := Err (mapError e CodeInternal "database commit failed") in
  match deferred_violation (pg_work s) with
  | Some e => (failed e, s)
  | None =>
    let committed := s <| pg_store := pg_work s |> in
    match env_fault n with
    | Some f => (failed (PgFault f), if env_applied n then committed else s)
    | None => (Ok tt, committed)
    end
  end.

Definition begin_tx (message : string) : GoM Pg unit := λ s,
  let n := pg_statements s in
  let s := s <| pg_statements := S n |> in
  match env_fault n with
  | Some f => (Err (mapError (PgFault f) CodeInternal message), s)
  | None => (Ok tt, s <| pg_work := pg_store s |>)
  end.

(** [tx, err := r.pool.Begin(ctx); ...; defer tx.Rollback(ctx)]. *)
Definition rolled_back (s : Pg) : Pg := s <| pg_work := pg_store s |>.
Definition then_rollback {A} (body : GoM Pg A) : GoM Pg A := λ s,
  let '(o, s') := body s in (o, rolled_back s').
Definition with_tx {A} (message : string) (body : GoM Pg A) : GoM Pg A :=
  _ ← begin_tx message; then_rollback body.

(** [if err != nil { return mapError(err, code, message) }]. *)
Definition must {A} (code : ErrorCode) (message : string) (q : GoM Pg (PgErr + A)) : GoM Pg A :=
  r ← q;
  match r with
  | inl err => throw (mapError err code message)
  | inr a => ret a
  end.
(** The same, after [errors.Is(err, pgx.ErrNoRows)]. *)
Definition must_find {A} (missing : GoError) (code : ErrorCode) (message : string)
    (q : GoM Pg (PgErr + A)) : GoM Pg A :=
  r ← q;
  match r with
  | inl PgNoRows => throw missing
  | inl err => throw (mapError err code message)
  | inr a => ret a
  end.
(** A query that may find nothing. *)
Definition may_find {A} (code : ErrorCode) (message : string) (q : GoM Pg (PgErr + A))
    : GoM Pg (option A) :=
  r ← q;
  match r with
  | inl PgNoRows => ret None
  | inl err => throw (mapError err code message)
  | inr a => ret (Some a)
  end.

(** [make([]T, 0, capacity)]. *)
Definition make_slice {S} (capacity : Z) : GoM S unit :=
  if capacity <? 0 then panic "makeslice: cap out of range" else ret tt.

(** [more := len(items) > limit; if more { items = items[:limit] }]. *)
Definition cut_page {A} (limit : Z) (items : list A) : GoM Pg (list A * bool) :=
  let more := limit <? zlen items in
  if more then items ← slice_to items limit; ret (items, true) else ret (items, false).
End with_env.

(** ** Rows as domain values *)

(** [COALESCE(column::text, '')]. *)
Definition text_or_empty (o : option string) : string := default "" o.
(** [nullString]: the parameter is [NULL] for the empty string. *)
Definition nullString (value : string) : option string := if value == "" then None else Some value.
(** The value [any] of a [uuid] parameter made by [nullString]. *)
Definition uuid_opt `{!PgEngine} {D} (value : option string) : Stmt D (option string) :=
  match value with Some v => u ← uuid v; mret (Some u) | None => mret None end.

Definition scanNode (kv : string * file_node_row) : Node :=
  let '(id, n) := kv in
  mkNode id (fn_tenant_id n) (text_or_empty (fn_parent_id n)) (fn_kind n) (fn_display_name n)
    (fn_normalized_name n) (text_or_empty (fn_current_version_id n)) (fn_size_bytes n) (fn_mime_type n)
    (fn_status n) (text_or_empty (fn_trashed_root_id n)) (text_or_empty (fn_original_parent_id n))
    (fn_revision n) (fn_created_at n) (fn_updated_at n) (fn_deleted_at n).

Definition scanUpload (kv : string * upload_session_row) : UploadSession :=
  let '(id, u) := kv in
  mkUploadSession id (us_tenant_id u) (us_principal_id u) (us_parent_id u) (us_display_name u)
    (us_normalized_name u) (us_expected_size u) (us_mime_type u)
    (mkChecksum (us_declared_checksum_algorithm u) (us_declared_checksum_value u)) (us_bucket u)
    (us_object_key u) (us_storage_upload_id u) (us_status u) (us_completion_digest u)
    (text_or_empty (us_committed_node_id u)) (us_failure_code u) (us_part_size u) (us_expires_at u)
    (us_revision u) (us_created_at u) (us_updated_at u).

Definition scanBlob (kv : string * blob_row) : Blob :=
  let '(id, b) := kv in
  mkBlob id (blob_tenant_id b) (blob_bucket b) (blob_object_key b) (blob_size_bytes b) (blob_mime_type b)
    (mkChecksum (blob_checksum_algorithm b) (blob_checksum_value b)) (blob_checksum_status b)
    (blob_status b) (blob_reference_count b) (blob_created_at b) (blob_deleted_at b).

Definition scanVersion (kv : string * file_version_row) : FileVersion :=
  let '(id, v) := kv in
  mkFileVersion id (fv_tenant_id v) (fv_node_id v) (fv_blob_id v) (fv_size_bytes v) (fv_mime_type v)
    (mkChecksum (fv_checksum_algorithm v) (fv_checksum_value v)) (fv_created_by v) (fv_created_at v).

Section with_engine.
Context `{!PgEngine, !PgEnv}.

(** ** Locks *)

Definition lockNamespace (tenantID : string) : GoM Pg string :=
  must CodeInternal "could not lock tenant namespace" (tx_query (
    t ← uuid tenantID;
    db ← table_of;
    row ← first_row (rows_where (db_tenant db) (λ id row, (id == t) && (tenant_root_node_id row != None)));
    mret (text_or_empty (tenant_root_node_id row.2)))).

Definition active_directory (tenant id : string) (k : string) (n : file_node_row) : bool :=
  (fn_tenant_id n == tenant) && (k == id) && (fn_kind n == "directory") && node_visible n.
Definition lockActiveDirectory (tenantID nodeID : string) : Stmt DB Node :=
  t ← uuid tenantID;
  i ← uuid nodeID;
  db ← table_of;
  row ← first_row (rows_where (db_file_node db) (active_directory t i));
  mret (scanNode row).

(** ** The audit trail *)

Definition encodeAuditMetadata `{!MapRange} (metadata : gmap string string) : Outcome string :=
  if existsb (λ '(key, value), (key == "") || (128 <? zstrlen key) || (2048 <? zstrlen value))
       (map_range 0 metadata) then
    Err (E CodeInvalidRequest "audit metadata is invalid")
  else
    let encoded := json_string_map metadata in
    if 4096 <? zstrlen encoded then Err (E CodeInvalidRequest "audit metadata is too large")
    else Ok encoded.

(** [INSERT INTO audit_event] with [NULLIF(actor, '')] and [NULLIF(target, '')]. *)
Definition audit_statement (id tenantID actorID action targetType targetID requestID encoded : string)
    (occurredAt : Time) : Stmt DB unit :=
  i ← uuid id;
  t ← uuid tenantID;
  actor ← uuid_null actorID;
  target ← uuid_null targetID;
  metadata ← match jsonb_in encoded with Some m => mret m | None => refuse invalid_text end;
  insert_audit (mk_audit_event_row i t actor action targetType target requestID metadata
                  (pg_time occurredAt)).

Definition appendAuditTx `{!MapRange} (ctx : Context) (rnd : RandRead)
    (tenantID actorID action targetType targetID : string) (occurredAt : Time)
    (metadata : list (string * string)) : GoM Pg unit :=
  id ← match NewID rnd with
       | Ok id => ret id
       | Err err => throw (EC CodeInternal "could not generate audit event id" (Some err))
       | Panicked p => panic p
       | Diverged => lift Diverged
       end;
  encoded ← lift (encodeAuditMetadata (list_to_map metadata));
  must CodeInternal "could not append audit event" (tx_query
    (audit_statement id tenantID actorID action targetType targetID (RequestIDFromContext ctx) encoded
       occurredAt)).
End with_engine.

(** [Ready]: [pool.Ping]. *)
Definition Ready `{!PgEnv} : GoM Pg unit := λ s,
  let n := pg_statements s in
  let s := s <| pg_statements := S n |> in
  match env_fault n with
  | Some f => (Err (as_cause (PgFault f)), s)
  | None => (Ok tt, s)
  end.
