(* ===== verification/PgIdempotency.v ===== *)
(** * Idempotency claims of the PostgreSQL repository
    (src/internal/postgres/idempotency.go) *)
From S2P Require Import Prelude Errors GoLib Types Validation PgCore PgSchema PgRepository.

Definition scanIdempotency (k : string * string * string * string) (r : idempotency_row)
    : IdempotencyRecord :=
  let '(tenant, principal, scope, key) := k in
  mkIdempotencyRecord (mkIdentity tenant principal) scope key (ir_request_digest r) (ir_state r)
    (text_or_empty (ir_claim_token r)) (text_or_empty (ir_resource_id r)) (default 0 (ir_locked_until r))
    (ir_expires_at r) (ir_created_at r) (ir_updated_at r).

Section with_engine.
Context `{!Platform, !PgEngine, !PgEnv}.

(** The condition [tenant_id=$1 AND principal_id=$2 AND scope=$3 AND key_hash=$4]. *)
Definition idempotency_key (request : IdempotencyRequest)
    : Stmt DB (string * string * string * string) :=
  t ← uuid (Identity_TenantID (IdempotencyRequest_Identity request));
  p ← uuid (Identity_PrincipalID (IdempotencyRequest_Identity request));
  mret (t, p, IdempotencyRequest_Scope request, IdempotencyRequest_KeyHash request).

Definition pending_row (token : string) (request : IdempotencyRequest) : idempotency_row :=
  mk_idempotency_row (IdempotencyRequest_RequestDigest request) "pending" (Some token) None
    (Some (pg_time (IdempotencyRequest_LockedUntil request)))
    (pg_time (IdempotencyRequest_ExpiresAt request)) (pg_time (IdempotencyRequest_Now request))
    (pg_time (IdempotencyRequest_Now request)).

Definition insert_claim (request : IdempotencyRequest) : Stmt DB unit :=
  k ← idempotency_key request;
  token ← uuid (IdempotencyRequest_ClaimToken request);
  insert_idempotency_if_new k (pending_row token request).
Definition select_claim (request : IdempotencyRequest) : Stmt DB IdempotencyRecord :=
  k ← idempotency_key request;
  db ← table_of;
  match db_idempotency_record db !! k with
  | Some r => mret (scanIdempotency k r)
  | None => refuse PgNoRows
  end.
(** The update of an expired claim: the row becomes that of the request. *)
Definition replace_claim (request : IdempotencyRequest) : Stmt DB IdempotencyRecord :=
  k ← idempotency_key request;
  token ← uuid (IdempotencyRequest_ClaimToken request);
  rows ← update_idempotency k (λ _, true) (λ _, pending_row token request);
  r ← first_row rows;
  mret (scanIdempotency k r).
(** The update of a claim whose lock has run out. *)
Definition take_over_claim (request : IdempotencyRequest) : Stmt DB IdempotencyRecord :=
  k ← idempotency_key request;
  token ← uuid (IdempotencyRequest_ClaimToken request);
  rows ← update_idempotency k (λ _, true) (λ r,
    r <| ir_claim_token := Some token |>
      <| ir_locked_until := Some (pg_time (IdempotencyRequest_LockedUntil request)) |>
      <| ir_expires_at := pg_time (IdempotencyRequest_ExpiresAt request) |>
      <| ir_updated_at := pg_time (IdempotencyRequest_Now request) |>);
  r ← first_row rows;
  mret (scanIdempotency k r).

Definition ClaimIdempotency (request : IdempotencyRequest) : GoM Pg IdempotencyRecord :=
  _ ← check_err (ValidateIdempotencyRequest request);
  with_tx "could not claim idempotent request" (
    _ ← must CodeInternal "could not create idempotency claim" (tx_query (insert_claim request));
    record ← must CodeInternal "could not read idempotency claim" (tx_query (select_claim request));
    record ← (
      if negb (Before (IdempotencyRequest_Now request) (IdempotencyRecord_ExpiresAt record)) then
        must CodeInternal "could not replace expired idempotency claim" (tx_query (replace_claim request))
      else if IdempotencyRecord_RequestDigest record != IdempotencyRequest_RequestDigest request then
        throw (E CodeIdempotencyConflict "Idempotency-Key was already used for a different request")
      else if (IdempotencyRecord_State record == IdempotencyPending) &&
              (IdempotencyRecord_ClaimToken record != IdempotencyRequest_ClaimToken request) then
        if Before (IdempotencyRequest_Now request) (IdempotencyRecord_LockedUntil record) then
          throw (Retryable CodeDependencyUnavailable "matching idempotent request is still in progress" None)
        else
          must CodeInternal "could not take over idempotency claim" (tx_query (take_over_claim request))
      else ret record);
    _ ← commit;
    ret record).

(** [request_digest=$5 AND state='pending' AND claim_token=$6]. *)
Definition owns_claim (request : IdempotencyRequest) (token : string) (r : idempotency_row) : bool :=
  (ir_request_digest r == IdempotencyRequest_RequestDigest request) && (ir_state r == "pending") &&
  (ir_claim_token r == Some token).

Definition ReleaseIdempotency (request : IdempotencyRequest) : GoM Pg unit :=
  _ ← check_err (ValidateIdempotencyRequest request);
  must CodeInternal "could not release idempotency claim" (pool_query (
    k ← idempotency_key request;
    token ← uuid (IdempotencyRequest_ClaimToken request);
    db ← table_of;
    store (db <| db_idempotency_record := delete_where (db_idempotency_record db)
                   (λ k' r, (k' == k) && owns_claim request token r) |>))).

Definition completeIdempotency (request : option IdempotencyRequest) (resourceID : string) (now : Time)
    : GoM Pg unit :=
  match request with
  | None => ret tt
  | Some request =>
    _ ← check_err (ValidateIdempotencyRequest request);
    if negb (ValidID resourceID) then
      throw (E CodeInvalidRequest "idempotency resource identifier is invalid") else
    affected ← must CodeInternal "could not complete idempotency claim" (tx_query (
      k ← idempotency_key request;
      token ← uuid (IdempotencyRequest_ClaimToken request);
      resource ← uuid resourceID;
      rows ← update_idempotency k (owns_claim request token) (λ r,
        r <| ir_state := "completed" |> <| ir_claim_token := None |>
          <| ir_resource_id := Some resource |> <| ir_locked_until := None |>
          <| ir_updated_at := pg_time now |>);
      mret (zlen rows)));
    if negb (affected =? 1) then
      throw (E CodeInvalidState "idempotency claim is no longer owned by this request")
    else ret tt
  end.

(** [DELETE ... WHERE ctid IN (SELECT ... ORDER BY expires_at LIMIT $2 FOR UPDATE
    SKIP LOCKED)] of maintenance.go; a locked row is named by its key hash. *)
Definition expired_rows (n : nat) (now : Time) (db : DB)
    : list ((string * string * string * string) * idempotency_row) :=
  sort_slice (λ x y, ir_expires_at x.2 <? ir_expires_at y.2)
    (heap_order n (filter (λ kr, env_locked n kr.1.2 = false)
       (rows_where (db_idempotency_record db) (λ _ r, ir_expires_at r <=? now)))).
Definition DeleteExpiredIdempotency (now : Time) (limit : Z) : GoM Pg Z :=
  must CodeInternal "could not delete expired idempotency records" (pool_query (
    n ← statement_number;
    db ← table_of;
    rows ← limit_rows limit (expired_rows n (pg_time now) db);
    _ ← store (db <| db_idempotency_record := delete_where (db_idempotency_record db)
                       (λ k _, bool_decide (k ∈ rows.*1)) |>);
    mret (zlen rows))).
End with_engine.
