(* ===== verification/PgNamespace.v ===== *)
(** * Tenants, the namespace and the recycle bin of the PostgreSQL repository
    (src/internal/postgres/namespace.go, recycle.go) *)
From S2P Require Import Prelude Errors GoLib Types Validation PgCore PgSchema PgRepository PgIdempotency.

Section with_engine.
Context `{!Platform, !MapRange, !PgEngine, !PgEnv}.

(** ** Tenants *)

Definition new_directory (tenant : string) (parent : option string) (display normalized : string)
    (now : Time) : file_node_row :=
  mk_file_node_row tenant parent "directory" display normalized None 0 "" "active" None None 1
    (pg_time now) (pg_time now) None None None None 0 "".

Definition EnsureTenant (seed : TenantSeed) : GoM Pg Tenant :=
  with_tx "could not initialize tenant" (
    let now := TenantSeed_Now seed in
    _ ← must CodeInternal "could not initialize tenant" (tx_query (
      id ← uuid (TenantSeed_TenantID seed);
      insert_tenant_if_new id (mk_tenant_row (TenantSeed_DisplayName seed) None (pg_time now))));
    row ← must CodeInternal "could not read tenant" (tx_query (
      id ← uuid (TenantSeed_TenantID seed);
      db ← table_of;
      first_row (rows_where (db_tenant db) (λ k _, k == id))));
    let '(id, row) := row in
    root ← match tenant_root_node_id row with
      | Some root => ret root
      | None =>
        _ ← must CodeInternal "could not create tenant root" (tx_query (
          root ← uuid (TenantSeed_RootNodeID seed);
          id ← uuid (TenantSeed_TenantID seed);
          insert_file_node root (new_directory id None "" "" now)));
        _ ← must CodeInternal "could not attach tenant root" (tx_query (
          id ← uuid (TenantSeed_TenantID seed);
          root ← uuid (TenantSeed_RootNodeID seed);
          db ← table_of;
          store (db <| db_tenant := update_where (db_tenant db) (λ k _, k == id)
                         (λ _ row, row <| tenant_root_node_id := Some root |>) |>)));
        ret (TenantSeed_RootNodeID seed)
      end;
    _ ← commit;
    ret (mkTenant id (tenant_display_name row) root (tenant_created_at row))).

Definition GetTenant (tenantID : string) : GoM Pg Tenant :=
  must CodeInternal "could not read tenant" (pool_query (
    id ← uuid tenantID;
    db ← table_of;
    row ← first_row (rows_where (db_tenant db) (λ k row, (k == id) && (tenant_root_node_id row != None)));
    mret (mkTenant row.1 (tenant_display_name row.2) (text_or_empty (tenant_root_node_id row.2))
            (tenant_created_at row.2)))).

(** ** Directories and nodes *)

Definition insert_directory (command : CreateDirectoryCommand) : Stmt DB Node :=
  id ← uuid (CreateDirectoryCommand_ID command);
  t ← uuid (Identity_TenantID (CreateDirectoryCommand_Identity command));
  parent ← uuid (CreateDirectoryCommand_ParentID command);
  let row := new_directory t (Some parent) (CreateDirectoryCommand_DisplayName command)
               (CreateDirectoryCommand_NormalizedName command) (CreateDirectoryCommand_Now command) in
  _ ← insert_file_node id row;
  mret (scanNode (id, row)).

Definition CreateDirectory (ctx : Context) (rnd : RandRead) (command : CreateDirectoryCommand)
    : GoM Pg Node :=
  let identity := CreateDirectoryCommand_Identity command in
  let tenantID := Identity_TenantID identity in
  let now := CreateDirectoryCommand_Now command in
  with_tx "could not create directory" (
    _ ← lockNamespace tenantID;
    _ ← must_find (E CodeNotFound "parent directory was not found") CodeInternal
          "could not lock parent directory"
          (tx_query (lockActiveDirectory tenantID (CreateDirectoryCommand_ParentID command)));
    node ← must CodeInternal "could not create directory" (tx_query (insert_directory command));
    _ ← completeIdempotency (CreateDirectoryCommand_Idempotency command) (Node_ID node) now;
    _ ← appendAuditTx ctx rnd tenantID (Identity_PrincipalID identity) "node.created" "node"
          (Node_ID node) now [("kind", Node_Kind node); ("parent_id", Node_ParentID node)];
    _ ← commit;
    ret node).

Definition GetNode (identity : Identity) (id : string) (includeTrashed : bool) : GoM Pg Node :=
  must CodeInternal "could not read node" (pool_query (
    t ← uuid (Identity_TenantID identity);
    i ← uuid id;
    db ← table_of;
    row ← first_row (rows_where (db_file_node db) (λ k n,
      (fn_tenant_id n == t) && (k == i) && (includeTrashed || node_visible n)));
    mret (scanNode row))).

(** The sort key and the page condition of listings by normalized name. *)
Definition name_key (kv : string * file_node_row) : string * string := (fn_normalized_name kv.2, kv.1).
Definition by_name (x y : string * file_node_row) : bool := text_uuid_lt (name_key x) (name_key y).
Definition after_name (name : string) (id : option string) (kv : string * file_node_row) : bool :=
  (name == "") || row_after name id (name_key kv).

(** [SELECT ... AND after ORDER BY normalized_name, id LIMIT $n]. *)
Definition page_of (p : string → file_node_row → bool) (after : CursorPosition) (limit : Z)
    : Stmt DB (list Node) :=
  id ← uuid_opt (nullString (CursorPosition_ID after));
  db ← table_of;
  rows ← limit_rows (wrap64 (limit + 1)) (sort_slice by_name
    (rows_where (db_file_node db) (λ k n, p k n && after_name (CursorPosition_Name after) id (k, n))));
  mret (scanNode <$> rows).

Definition ListChildren (identity : Identity) (parentID : string) (after : CursorPosition) (limit : Z)
    : GoM Pg (list Node * bool) :=
  exists_ ← must CodeInternal "could not read parent directory" (pool_query (
    t ← uuid (Identity_TenantID identity);
    i ← uuid parentID;
    db ← table_of;
    mret (exists_row (db_file_node db) (active_directory t i))));
  if negb exists_ then throw (E CodeNotFound "parent directory was not found") else
  rows ← pool_query (
    t ← uuid (Identity_TenantID identity);
    i ← uuid parentID;
    page_of (λ _ n, (fn_tenant_id n == t) && (fn_parent_id n == Some i) && node_visible n) after limit);
  _ ← make_slice (wrap64 (limit + 1));
  items ← must CodeInternal "could not list directory" (ret rows);
  cut_page limit items.

(** The recursive query of [UpdateNode]: [ancestors(id, parent_id)]. *)
Definition ancestor_rows (db : DB) (tenant : string) (p : string → bool) : list (string * option string) :=
  (λ '(k, n), (k, fn_parent_id n)) <$>
    rows_where (db_file_node db) (λ k n, (fn_tenant_id n == tenant) && p k).
Definition ancestors_step (db : DB) (tenant : string) (working : list (string * option string))
    : list (string * option string) :=
  working ≫= λ '(_, parent), match parent with
    | Some parent => ancestor_rows db tenant (λ k, k == parent)
    | None => []
    end.
Definition recursion_fuel (db : DB) : nat := S (S (size (db_file_node db))).
Definition creates_cycle (tenantID parentID nodeID : string) : Stmt DB bool :=
  t ← uuid tenantID;
  parent ← uuid parentID;
  node ← uuid nodeID;
  db ← table_of;
  let start := ancestor_rows db t (λ k, k == parent) in
  ancestors ← ends (recursive_union (recursion_fuel db) (ancestors_step db t) start start);
  mret (existsb (λ '(k, _), k == node) ancestors).

(** The checks on the target directory of a move. *)
Definition check_move (tenantID : string) (node : Node) (parentID : string) : GoM Pg unit :=
  _ ← must_find (E CodeNotFound "target directory was not found") CodeInternal
        "could not lock target directory" (tx_query (lockActiveDirectory tenantID parentID));
  if Node_Kind node == NodeDirectory then
    createsCycle ← must CodeInternal "could not validate directory move"
      (tx_query (creates_cycle tenantID parentID (Node_ID node)));
    if createsCycle : bool then
      throw (E CodeInvalidRequest "directory cannot be moved into itself or a descendant")
    else ret tt
  else ret tt.

Definition check_target (command : UpdateNodeCommand) (node : Node) (parentID : string) : GoM Pg unit :=
  if UpdateNodeCommand_ParentID command is Some _ then
    check_move (Identity_TenantID (UpdateNodeCommand_Identity command)) node parentID
  else ret tt.

(** The display and the normalized name after the update. *)
Definition new_names (command : UpdateNodeCommand) (node : Node) : GoM Pg (string * string) :=
  match UpdateNodeCommand_DisplayName command with
  | None => ret (Node_DisplayName node, Node_NormalizedName node)
  | Some display =>
    match UpdateNodeCommand_NormalizedName command with
    | Some normalized => ret (display, normalized)
    | None => panic "nil pointer dereference"
    end
  end.

Definition update_node_statement (tenantID nodeID parentID display normalized : string) (now : Time)
    (revision : Z) : Stmt DB Node :=
  t ← uuid tenantID;
  i ← uuid nodeID;
  parent ← uuid parentID;
  db ← table_of;
  let p := λ k n, (fn_tenant_id n == t) && (k == i) && (fn_revision n =? revision) in
  _ ← successor_fits 64 ((fn_revision ∘ snd) <$> rows_where (db_file_node db) p);
  rows ← update_file_nodes p (λ _ n,
    n <| fn_parent_id := Some parent |> <| fn_display_name := display |>
      <| fn_normalized_name := normalized |> <| fn_revision := fn_revision n + 1 |>
      <| fn_updated_at := pg_time now |>);
  row ← first_row rows;
  mret (scanNode row).

Definition UpdateNode (ctx : Context) (rnd : RandRead) (command : UpdateNodeCommand) : GoM Pg Node :=
  let identity := UpdateNodeCommand_Identity command in
  let tenantID := Identity_TenantID identity in
  let now := UpdateNodeCommand_Now command in
  with_tx "could not update node" (
    rootID ← lockNamespace tenantID;
    node ← must CodeInternal "could not read node" (tx_query (
      t ← uuid tenantID;
      i ← uuid (UpdateNodeCommand_NodeID command);
      db ← table_of;
      row ← first_row (rows_where (db_file_node db) (λ k n,
        (fn_tenant_id n == t) && (k == i) && node_visible n));
      mret (scanNode row)));
    if Node_ID node == rootID then throw (E CodeInvalidRequest "root directory cannot be changed") else
    if Node_Revision node != UpdateNodeCommand_ExpectedRevision command then
      throw (E CodeRevisionMismatch "resource revision does not match") else
    let parentID := default (Node_ParentID node) (UpdateNodeCommand_ParentID command) in
    _ ← check_target command node parentID;
    names ← new_names command node;
    updated ← must CodeInternal "could not update node" (tx_query (
      update_node_statement tenantID (Node_ID node) parentID names.1 names.2 now
        (UpdateNodeCommand_ExpectedRevision command)));
    _ ← appendAuditTx ctx rnd tenantID (Identity_PrincipalID identity) "node.updated" "node"
          (Node_ID updated) now [("parent_id", Node_ParentID updated)];
    _ ← commit;
    ret updated).

Definition DownloadBlob (identity : Identity) (nodeID : string) : GoM Pg (Node * Blob) :=
  let tenantID := Identity_TenantID identity in
  node ← must CodeInternal "could not read file" (pool_query (
    t ← uuid tenantID;
    i ← uuid nodeID;
    db ← table_of;
    row ← first_row (rows_where (db_file_node db) (λ k n,
      (fn_tenant_id n == t) && (k == i) && (fn_kind n == "file") && node_visible n));
    mret (scanNode row)));
  blobID ← must CodeInternal "could not read file version" (pool_query (
    t ← uuid tenantID;
    i ← uuid (Node_CurrentVersionID node);
    db ← table_of;
    row ← first_row (rows_where (db_file_version db) (λ k v, (fv_tenant_id v == t) && (k == i)));
    mret (fv_blob_id row.2)));
  blob ← must CodeInternal "could not read file content" (pool_query (
    t ← uuid tenantID;
    i ← uuid blobID;
    db ← table_of;
    row ← first_row (rows_where (db_blob db) (λ k b,
      (blob_tenant_id b == t) && (k == i) && (blob_status b == "available")));
    mret (scanBlob row)));
  ret (node, blob).

(** ** The recycle bin *)

(** The recursive query of [Recycle]: [tree(id)]. *)
Definition visible_rows (db : DB) (tenant : string) (p : string → file_node_row → bool) : list string :=
  (rows_where (db_file_node db) (λ k n, (fn_tenant_id n == tenant) && p k n && node_visible n)).*1.
Definition tree_step (db : DB) (tenant : string) (working : list string) : list string :=
  working ≫= λ id, visible_rows db tenant (λ _ n, fn_parent_id n == Some id).
Definition subtree (db : DB) (tenant id : string) : option (list string) :=
  let start := visible_rows db tenant (λ k _, k == id) in
  recursive_union (recursion_fuel db) (tree_step db tenant) start start.

Definition recycled_row (id : string) (now : Time) (k : string) (n : file_node_row) : file_node_row :=
  let n' := n <| fn_trashed_root_id := Some id |> <| fn_updated_at := pg_time now |> in
  if k == id then
    n' <| fn_status := "trashed" |> <| fn_original_parent_id := fn_parent_id n |>
       <| fn_deleted_at := Some (pg_time now) |> <| fn_revision := fn_revision n + 1 |>
  else n'.
Definition recycle_statement (tenantID nodeID : string) (now : Time) : Stmt DB unit :=
  t ← uuid tenantID;
  id ← uuid nodeID;
  db ← table_of;
  tree ← ends (subtree db t id);
  let p := λ k n, (fn_tenant_id n == t) && bool_decide (k ∈ tree) && node_visible n in
  _ ← successor_fits 64 ((fn_revision ∘ snd) <$> rows_where (db_file_node db) (λ k n, p k n && (k == id)));
  _ ← update_file_nodes p (recycled_row id now);
  mret tt.

Definition Recycle (ctx : Context) (rnd : RandRead) (identity : Identity) (nodeID : string)
    (revision : Z) (now : Time) : GoM Pg unit :=
  let tenantID := Identity_TenantID identity in
  with_tx "could not recycle node" (
    rootID ← lockNamespace tenantID;
    node ← must CodeInternal "could not read node" (tx_query (
      t ← uuid tenantID;
      i ← uuid nodeID;
      db ← table_of;
      row ← first_row (rows_where (db_file_node db) (λ k n, (fn_tenant_id n == t) && (k == i)));
      mret (scanNode row)));
    if Node_ID node == rootID then throw (E CodeInvalidRequest "root directory cannot be recycled") else
    if (Node_Status node == NodeTrashed) && (Node_TrashedRootID node == Node_ID node) then commit else
    if (Node_Status node != NodeActive) || (Node_TrashedRootID node != "") then
      throw (E CodeNotFound "resource was not found") else
    if Node_Revision node != revision then
      throw (E CodeRevisionMismatch "resource revision does not match") else
    _ ← must CodeInternal "could not recycle node" (tx_query (recycle_statement tenantID nodeID now));
    _ ← appendAuditTx ctx rnd tenantID (Identity_PrincipalID identity) "node.recycled" "node" nodeID now [];
    commit).

Definition recycle_entry (node : Node) : RecycleEntry :=
  mkRecycleEntry node (Node_OriginalParentID node) (default 0 (Node_DeletedAt node)).
Definition ListRecycle (identity : Identity) (after : CursorPosition) (limit : Z)
    : GoM Pg (list RecycleEntry * bool) :=
  rows ← pool_query (
    t ← uuid (Identity_TenantID identity);
    page_of (λ k n, (fn_tenant_id n == t) && (fn_status n == "trashed") &&
                      (fn_trashed_root_id n == Some k)) after limit);
  _ ← make_slice (wrap64 (limit + 1));
  items ← must CodeInternal "could not list recycle bin" (ret rows);
  cut_page limit (recycle_entry <$> items).

Definition restored_row (id : string) (now : Time) (k : string) (n : file_node_row) : file_node_row :=
  let n' := n <| fn_trashed_root_id := None |> <| fn_updated_at := pg_time now |> in
  if k == id then
    n' <| fn_status := "active" |> <| fn_parent_id := fn_original_parent_id n |>
       <| fn_original_parent_id := None |> <| fn_deleted_at := None |>
       <| fn_revision := fn_revision n + 1 |>
  else n'.
Definition restore_statement (tenantID nodeID : string) (now : Time) : Stmt DB unit :=
  t ← uuid tenantID;
  id ← uuid nodeID;
  db ← table_of;
  let p := λ (k : string) n, (fn_tenant_id n == t) && (fn_trashed_root_id n == Some id) in
  _ ← successor_fits 64 ((fn_revision ∘ snd) <$> rows_where (db_file_node db) (λ k n, p k n && (k == id)));
  _ ← update_file_nodes p (restored_row id now);
  mret tt.

Definition Restore (ctx : Context) (rnd : RandRead) (identity : Identity) (nodeID : string)
    (revision : Z) (now : Time) : GoM Pg Node :=
  let tenantID := Identity_TenantID identity in
  let unavailable := E CodeRestoreConflict "original location is unavailable" in
  with_tx "could not restore node" (
    _ ← lockNamespace tenantID;
    node ← must CodeInternal "could not read recycle entry" (tx_query (
      t ← uuid tenantID;
      i ← uuid nodeID;
      db ← table_of;
      row ← first_row (rows_where (db_file_node db) (λ k n,
        (fn_tenant_id n == t) && (k == i) && (fn_status n == "trashed") && (fn_trashed_root_id n == Some k)));
      mret (scanNode row)));
    if Node_Revision node != revision then
      throw (E CodeRevisionMismatch "resource revision does not match") else
    if Node_OriginalParentID node == "" then throw unavailable else
    _ ← must_find unavailable CodeInternal "could not lock restore target"
          (tx_query (lockActiveDirectory tenantID (Node_OriginalParentID node)));
    nameExists ← must CodeInternal "could not validate restore target" (tx_query (
      t ← uuid tenantID;
      parent ← uuid (Node_OriginalParentID node);
      i ← uuid (Node_ID node);
      db ← table_of;
      mret (exists_row (db_file_node db) (λ k n,
        (fn_tenant_id n == t) && (fn_parent_id n == Some parent) &&
        (fn_normalized_name n == Node_NormalizedName node) && (k != i) && node_visible n))));
    if nameExists : bool then throw unavailable else
    _ ← must CodeRestoreConflict "could not restore node" (tx_query (restore_statement tenantID nodeID now));
    restored ← must CodeInternal "could not read restored node" (tx_query (
      t ← uuid tenantID;
      i ← uuid nodeID;
      db ← table_of;
      row ← first_row (rows_where (db_file_node db) (λ k n, (fn_tenant_id n == t) && (k == i)));
      mret (scanNode row)));
    _ ← appendAuditTx ctx rnd tenantID (Identity_PrincipalID identity) "node.restored" "node"
          (Node_ID restored) now [];
    _ ← commit;
    ret restored).

(** ** Purging *)

Definition mark_purging (tenantID nodeID : string) (now : Time) : Stmt DB unit :=
  t ← uuid tenantID;
  id ← uuid nodeID;
  _ ← update_file_nodes (λ _ n, (fn_tenant_id n == t) && (fn_trashed_root_id n == Some id))
        (λ _ n, n <| fn_status := "purging" |> <| fn_updated_at := pg_time now |>);
  mret tt.

(** The blobs of versions of the purged nodes which no version of a node outside
    a purge refers to. *)
Definition blob_in_subtree (db : DB) (tenant root : string) (id : string) (b : blob_row) : bool :=
  exists_row (db_file_version db) (λ _ v,
    (fv_tenant_id v == blob_tenant_id b) && (fv_blob_id v == id) &&
    match db_file_node db !! fv_node_id v with
    | Some n => (fn_tenant_id n == tenant) && (fn_trashed_root_id n == Some root)
    | None => false
    end).
Definition blob_in_use (db : DB) (id : string) (b : blob_row) : bool :=
  exists_row (db_file_version db) (λ _ v,
    (fv_tenant_id v == blob_tenant_id b) && (fv_blob_id v == id) &&
    match db_file_node db !! fv_node_id v with
    | Some owner => (fn_tenant_id owner == fv_tenant_id v) && (fn_status owner != "purging")
    | None => false
    end).
Definition purge_blobs_query (tenantID nodeID : string) : Stmt DB (list Blob) :=
  t ← uuid tenantID;
  root ← uuid nodeID;
  db ← table_of;
  mret (scanBlob <$> sort_slice (λ x y : string * blob_row, str_ltb x.1 y.1)
    (rows_where (db_blob db) (λ id b,
       (blob_tenant_id b == t) && (blob_status b != "deleted") &&
       blob_in_subtree db t root id b && negb (blob_in_use db id b)))).

Definition mark_blob (tenantID blobID : string) : Stmt DB unit :=
  t ← uuid tenantID;
  id ← uuid blobID;
  update_blobs (λ k b, (blob_tenant_id b == t) && (k == id) && (blob_status b != "deleted"))
    (λ _ b, b <| blob_status := "pending_delete" |> <| blob_reference_count := 0 |>).

Definition PreparePurge (identity : Identity) (nodeID : string) (revision : Z) (now : Time)
    : GoM Pg PurgePlan :=
  let tenantID := Identity_TenantID identity in
  with_tx "could not prepare purge" (
    _ ← lockNamespace tenantID;
    node ← must CodeInternal "could not read recycle entry" (tx_query (
      t ← uuid tenantID;
      i ← uuid nodeID;
      db ← table_of;
      row ← first_row (rows_where (db_file_node db) (λ k n,
        (fn_tenant_id n == t) && (k == i) && one_of (fn_status n) ["trashed"; "purging"] &&
        (fn_trashed_root_id n == Some k)));
      mret (scanNode row)));
    if Node_Revision node != revision then
      throw (E CodeRevisionMismatch "resource revision does not match") else
    _ ← must CodeInternal "could not mark purge tree" (tx_query (mark_purging tenantID nodeID now));
    blobs ← must CodeInternal "could not identify purge blobs"
              (tx_query (purge_blobs_query tenantID nodeID));
    _ ← for_range blobs (λ blob,
          must CodeInternal "could not mark purge blob" (tx_query (mark_blob tenantID (Blob_ID blob))));
    _ ← commit;
    ret (mkPurgePlan nodeID
      ((λ blob, blob <| Blob_Status := BlobPendingDelete |> <| Blob_ReferenceCount := 0 |>) <$> blobs))).

Definition delete_blob (tenantID blobID : string) (now : Time) : Stmt DB unit :=
  t ← uuid tenantID;
  id ← uuid blobID;
  update_blobs (λ k b, (blob_tenant_id b == t) && (k == id) && (blob_status b == "pending_delete"))
    (λ _ b, b <| blob_status := "deleted" |> <| blob_deleted_at := Some (pg_time now) |>).

Definition FinishPurge (ctx : Context) (rnd : RandRead) (identity : Identity) (plan : PurgePlan)
    (now : Time) : GoM Pg unit :=
  let tenantID := Identity_TenantID identity in
  with_tx "could not finish purge" (
    rootExists ← must CodeInternal "could not validate purge plan" (tx_query (
      t ← uuid tenantID;
      root ← uuid (PurgePlan_RootID plan);
      db ← table_of;
      mret (exists_row (db_file_node db) (λ k n,
        (fn_tenant_id n == t) && (k == root) && (fn_status n == "purging")))));
    if negb rootExists then throw (E CodeNotFound "purge plan was not found") else
    _ ← for_range (PurgePlan_Blobs plan) (λ blob,
          must CodeInternal "could not finish purge blob" (tx_query (delete_blob tenantID (Blob_ID blob) now)));
    _ ← must CodeInternal "could not complete purge maintenance" (tx_query (
      t ← uuid tenantID;
      root ← uuid (PurgePlan_RootID plan);
      _ ← update_file_nodes (λ k n, (fn_tenant_id n == t) && (k == root)) (λ _ n,
        n <| fn_maintenance_owner := None |> <| fn_maintenance_lease_until := None |>
          <| fn_maintenance_not_before := Some Infinity |> <| fn_maintenance_error_code := "" |>);
      mret tt));
    _ ← appendAuditTx ctx rnd tenantID (Identity_PrincipalID identity) "node.purged" "node"
          (PurgePlan_RootID plan) now [];
    commit).
End with_engine.
