(* ===== verification/PgUploads.v ===== *)
(** * Upload sessions of the PostgreSQL repository
    (src/internal/postgres/upload.go) *)
From S2P Require Import Prelude Errors GoLib Types Validation PgCore PgSchema PgRepository.
From S2P Require Import PgIdempotency.

Section with_engine.
Context `{!Platform, !MapRange, !PgEngine, !PgEnv}.

(** ** Sessions *)

Definition check_upload_place (session : UploadSession) : Stmt DB (bool * bool) :=
  t ← uuid (UploadSession_TenantID session);
  parent ← uuid (UploadSession_ParentID session);
  db ← table_of;
  mret (exists_row (db_file_node db) (active_directory t parent),
        exists_row (db_file_node db) (λ _ n,
          (fn_tenant_id n == t) && (fn_parent_id n == Some parent) &&
          (fn_normalized_name n == UploadSession_NormalizedName session) && node_visible n)).

Definition insert_upload_statement (session : UploadSession) : Stmt DB UploadSession :=
  id ← uuid (UploadSession_ID session);
  t ← uuid (UploadSession_TenantID session);
  principal ← uuid (UploadSession_PrincipalID session);
  parent ← uuid (UploadSession_ParentID session);
  let row := mk_upload_session_row t principal parent (UploadSession_DisplayName session)
    (UploadSession_NormalizedName session) (UploadSession_ExpectedSize session)
    (UploadSession_MimeType session) (Checksum_Algorithm (UploadSession_DeclaredChecksum session))
    (Checksum_Value (UploadSession_DeclaredChecksum session)) (UploadSession_Bucket session)
    (UploadSession_ObjectKey session) (UploadSession_StorageUploadID session)
    (UploadSession_Status session) "" None "" (UploadSession_PartSize session)
    (pg_time (UploadSession_ExpiresAt session)) 1 (pg_time (UploadSession_CreatedAt session))
    (pg_time (UploadSession_CreatedAt session)) "none" None None None 0 "" in
  _ ← insert_upload id row;
  mret (scanUpload (id, row)).

Definition CreateUpload (command : CreateUploadCommand) : GoM Pg UploadSession :=
  let session := CreateUploadCommand_Session command in
  with_tx "could not create upload" (
    found ← must CodeInternal "could not validate upload" (tx_query (check_upload_place session));
    let '(parentExists, nameExists) := found in
    if negb parentExists then throw (E CodeNotFound "parent directory was not found") else
    if nameExists : bool then throw (E CodeNameConflict "an active item with this name already exists") else
    created ← must CodeInternal "could not create upload" (tx_query (insert_upload_statement session));
    _ ← completeIdempotency (CreateUploadCommand_Idempotency command) (UploadSession_ID created)
          (UploadSession_CreatedAt session);
    _ ← commit;
    ret created).

(** [SELECT ... FROM upload_session WHERE tenant_id=$1 AND id=$2]. *)
Definition upload_at (tenant id : string) (k : string) (u : upload_session_row) : bool :=
  (us_tenant_id u == tenant) && (k == id).
Definition select_upload (identity : Identity) (id : string) : Stmt DB UploadSession :=
  t ← uuid (Identity_TenantID identity);
  i ← uuid id;
  db ← table_of;
  row ← first_row (rows_where (db_upload_session db) (upload_at t i));
  mret (scanUpload row).
(** [UPDATE upload_session SET ..., revision=revision+1 WHERE ... RETURNING]. *)
Definition update_session (identity : Identity) (id : string) (p : upload_session_row → bool)
    (f : upload_session_row → upload_session_row) (now : Time) : Stmt DB (list UploadSession) :=
  t ← uuid (Identity_TenantID identity);
  i ← uuid id;
  db ← table_of;
  let q := λ k u, upload_at t i k u && p u in
  _ ← successor_fits 64 ((us_revision ∘ snd) <$> rows_where (db_upload_session db) q);
  rows ← update_uploads q (λ _ u,
    f u <| us_revision := us_revision u + 1 |> <| us_updated_at := pg_time now |>);
  mret (scanUpload <$> rows).

Definition Upload (identity : Identity) (id : string) : GoM Pg UploadSession :=
  must CodeInternal "could not read upload" (pool_query (select_upload identity id)).

Definition MarkUploading (identity : Identity) (id : string) (now : Time) : GoM Pg UploadSession :=
  with_tx "could not mark upload active" (
    session ← must CodeInternal "could not read upload" (tx_query (select_upload identity id));
    if UploadSession_Status session == UploadUploading then _ ← commit; ret session else
    if UploadSession_Status session != UploadCreated then
      throw (E CodeInvalidState "upload session cannot transition to uploading") else
    session ← must CodeInternal "could not mark upload active" (tx_query (
      rows ← update_session identity id (λ _, true) (λ u, u <| us_status := "uploading" |>) now;
      first_row rows));
    _ ← commit;
    ret session).

(** One round of the loop of [BeginComplete] over the parts. *)
Definition insert_part (identity : Identity) (id : string) (now : Time) (part : CompletedPart) : Stmt DB unit :=
  t ← uuid (Identity_TenantID identity);
  i ← uuid id;
  number ← integer (CompletedPart_PartNumber part);
  upsert_upload_part (t, i, number)
    (mk_upload_part_row (CompletedPart_ETag part) (Checksum_Algorithm (CompletedPart_Checksum part))
       (Checksum_Value (CompletedPart_Checksum part)) (CompletedPart_Size part) (pg_time now)).

Definition BeginComplete (identity : Identity) (id digest : string) (parts : list CompletedPart)
    (now : Time) : GoM Pg UploadSession :=
  with_tx "could not begin upload completion" (
    session ← must CodeInternal "could not read upload" (tx_query (select_upload identity id));
    let status := UploadSession_Status session in
    if (UploadSession_CompletionDigest session != "") && (UploadSession_CompletionDigest session != digest) then
      throw (E CodeIdempotencyConflict "completion payload differs from the first request") else
    if (status == UploadCommitted) || (status == UploadObjectCompleted) || (status == UploadCompleting) then
      _ ← commit; ret session else
    if (status != UploadCreated) && (status != UploadUploading) then
      throw (E CodeInvalidState "upload session cannot be completed") else
    if negb (Before now (UploadSession_ExpiresAt session)) then
      throw (E CodeInvalidState "upload session has expired") else
    _ ← for_range parts (λ part,
          must CodeIdempotencyConflict "upload part differs from the first request"
            (tx_query (insert_part identity id now part)));
    session ← must CodeInternal "could not begin upload completion" (tx_query (
      rows ← update_session identity id (λ _, true)
        (λ u, u <| us_status := "completing" |> <| us_completion_digest := digest |>) now;
      first_row rows));
    _ ← commit;
    ret session).

Definition FailUploadCompletion (identity : Identity) (id digest failureCode : string) (now : Time)
    : GoM Pg UploadSession :=
  if failureCode == "" then throw (E CodeInvalidRequest "upload failure code is required") else
  with_tx "could not fail upload completion" (
    session ← must CodeInternal "could not read upload" (tx_query (select_upload identity id));
    if UploadSession_CompletionDigest session != digest then
      throw (E CodeIdempotencyConflict "completion payload differs from the first request") else
    if UploadSession_Status session == UploadFailed then _ ← commit; ret session else
    if UploadSession_Status session != UploadCompleting then
      throw (E CodeInvalidState "upload completion cannot transition to failed") else
    session ← must CodeInternal "could not fail upload completion" (tx_query (
      rows ← update_session identity id (λ u, us_completion_digest u == digest) (λ u,
        u <| us_status := "failed" |> <| us_failure_code := failureCode |>
          <| us_cleanup_status := "pending" |>) now;
      first_row rows));
    _ ← commit;
    ret session).

Definition MarkObjectCompleted (identity : Identity) (id : string) (_ : ObjectInfo) (now : Time)
    : GoM Pg UploadSession :=
  with_tx "could not mark upload object complete" (
    session ← must CodeInternal "could not read upload" (tx_query (select_upload identity id));
    let status := UploadSession_Status session in
    if (status == UploadObjectCompleted) || (status == UploadCommitted) then _ ← commit; ret session else
    if status != UploadCompleting then
      throw (E CodeInvalidState "upload object cannot be marked complete") else
    session ← must CodeInternal "could not mark upload object complete" (tx_query (
      rows ← update_session identity id (λ _, true) (λ u, u <| us_status := "object_completed" |>) now;
      first_row rows));
    _ ← commit;
    ret session).

(** ** Committing *)

Definition rejectUploadCommit (session : UploadSession) (failureCode : string) (now : Time)
    (resultErr : GoError) : GoM Pg (CompleteResult * bool) :=
  _ ← must CodeInternal "could not reject upload commit" (tx_query (
    update_session (mkIdentity (UploadSession_TenantID session) "") (UploadSession_ID session)
      (λ u, (us_completion_digest u == UploadSession_CompletionDigest session) &&
            (us_status u == "object_completed"))
      (λ u, u <| us_status := "failed" |> <| us_failure_code := failureCode |>
              <| us_cleanup_status := "pending" |>) now));
  _ ← commit;
  throw resultErr.

Definition loadCompleteResult (session : UploadSession) : GoM Pg CompleteResult :=
  let tenantID := UploadSession_TenantID session in
  node ← must CodeInternal "could not read committed file" (tx_query (
    t ← uuid tenantID;
    i ← uuid (UploadSession_CommittedNodeID session);
    db ← table_of;
    row ← first_row (rows_where (db_file_node db) (λ k n, (fn_tenant_id n == t) && (k == i)));
    mret (scanNode row)));
  version ← must CodeInternal "could not read committed version" (tx_query (
    t ← uuid tenantID;
    i ← uuid (Node_CurrentVersionID node);
    db ← table_of;
    row ← first_row (rows_where (db_file_version db) (λ k v, (fv_tenant_id v == t) && (k == i)));
    mret (scanVersion row)));
  blob ← must CodeInternal "could not read committed blob" (tx_query (
    t ← uuid tenantID;
    i ← uuid (FileVersion_BlobID version);
    db ← table_of;
    row ← first_row (rows_where (db_blob db) (λ k b, (blob_tenant_id b == t) && (k == i)));
    mret (scanBlob row)));
  ret (mkCompleteResult session node blob version).

Definition insert_commit_blob (b : Blob) : Stmt DB unit :=
  id ← uuid (Blob_ID b);
  t ← uuid (Blob_TenantID b);
  insert_blob id (mk_blob_row t (Blob_Bucket b) (Blob_ObjectKey b) (Blob_Size b) (Blob_MimeType b)
    (Checksum_Algorithm (Blob_Checksum b)) (Checksum_Value (Blob_Checksum b)) (Blob_ChecksumStatus b)
    (Blob_Status b) (Blob_ReferenceCount b) (pg_time (Blob_CreatedAt b)) None).
Definition insert_commit_version (v : FileVersion) : Stmt DB unit :=
  id ← uuid (FileVersion_ID v);
  t ← uuid (FileVersion_TenantID v);
  node ← uuid (FileVersion_NodeID v);
  blob ← uuid (FileVersion_BlobID v);
  by_ ← uuid (FileVersion_CreatedBy v);
  insert_file_version id (mk_file_version_row t node blob (FileVersion_Size v) (FileVersion_MimeType v)
    (Checksum_Algorithm (FileVersion_Checksum v)) (Checksum_Value (FileVersion_Checksum v)) by_
    (pg_time (FileVersion_CreatedAt v))).
Definition insert_commit_node (n : Node) : Stmt DB unit :=
  id ← uuid (Node_ID n);
  t ← uuid (Node_TenantID n);
  parent ← uuid (Node_ParentID n);
  version ← uuid (Node_CurrentVersionID n);
  insert_file_node id (mk_file_node_row t (Some parent) "file" (Node_DisplayName n)
    (Node_NormalizedName n) (Some version) (Node_Size n) (Node_MimeType n) "active" None None 1
    (pg_time (Node_CreatedAt n)) (pg_time (Node_CreatedAt n)) None None None None 0 "").

Definition CommitUpload (ctx : Context) (rnd : RandRead) (command : CommitUploadCommand)
    : GoM Pg (CompleteResult * bool) :=
  let identity := CommitUploadCommand_Identity command in
  let tenantID := Identity_TenantID identity in
  let now := CommitUploadCommand_Now command in
  let node := CommitUploadCommand_Node command in
  with_tx "could not commit upload" (
    _ ← lockNamespace tenantID;
    session ← must CodeInternal "could not read upload"
      (tx_query (select_upload identity (CommitUploadCommand_SessionID command)));
    if UploadSession_CompletionDigest session != CommitUploadCommand_Digest command then
      throw (E CodeIdempotencyConflict "completion payload differs from the first request") else
    if UploadSession_Status session == UploadCommitted then
      result ← loadCompleteResult session; _ ← commit; ret (result, false) else
    if UploadSession_Status session != UploadObjectCompleted then
      throw (E CodeInvalidState "upload object is not completed") else
    parent ← may_find CodeInternal "could not lock upload parent"
      (tx_query (lockActiveDirectory tenantID (UploadSession_ParentID session)));
    match parent with
    | None => rejectUploadCommit session UploadFailureParentUnavailable now
                (E CodeNotFound "parent directory was not found")
    | Some _ =>
      nameExists ← must CodeInternal "could not validate upload name" (tx_query (
        t ← uuid tenantID;
        parent ← uuid (UploadSession_ParentID session);
        db ← table_of;
        mret (exists_row (db_file_node db) (λ _ n,
          (fn_tenant_id n == t) && (fn_parent_id n == Some parent) &&
          (fn_normalized_name n == UploadSession_NormalizedName session) && node_visible n))));
      if nameExists : bool then
        rejectUploadCommit session UploadFailureNameConflict now
          (E CodeNameConflict "an active item with this name already exists") else
      _ ← must CodeInternal "could not create blob"
            (tx_query (insert_commit_blob (CommitUploadCommand_Blob command)));
      _ ← must CodeInternal "could not create file version"
            (tx_query (insert_commit_version (CommitUploadCommand_Version command)));
      _ ← must CodeInternal "could not create file node" (tx_query (insert_commit_node node));
      session ← must CodeInternal "could not commit upload session" (tx_query (
        committed ← uuid (Node_ID node);
        rows ← update_session identity (CommitUploadCommand_SessionID command) (λ _, true)
          (λ u, u <| us_status := "committed" |> <| us_committed_node_id := Some committed |>) now;
        first_row rows));
      _ ← appendAuditTx ctx rnd tenantID (Identity_PrincipalID identity) "upload.committed" "node"
            (Node_ID node) now [("upload_id", UploadSession_ID session); ("kind", Node_Kind node)];
      _ ← commit;
      ret (mkCompleteResult session node (CommitUploadCommand_Blob command)
             (CommitUploadCommand_Version command), true)
    end).

Definition AbortUpload (identity : Identity) (id : string) (target : UploadStatus) (now : Time)
    : GoM Pg UploadSession :=
  if (target != UploadAborted) && (target != UploadExpired) && (target != UploadFailed) then
    throw (E CodeInvalidState "invalid upload terminal state") else
  with_tx "could not abort upload" (
    session ← must CodeInternal "could not read upload" (tx_query (select_upload identity id));
    let status := UploadSession_Status session in
    if status == UploadCommitted then
      throw (E CodeInvalidState "committed upload cannot be aborted") else
    if (status == UploadAborted) || (status == UploadExpired) || (status == UploadFailed) then
      _ ← commit; ret session else
    if (status != UploadCreated) && (status != UploadUploading) then
      throw (E CodeInvalidState "upload session cannot be aborted while completing") else
    session ← must CodeInternal "could not abort upload" (tx_query (
      rows ← update_session identity id (λ _, true)
        (λ u, u <| us_status := target |> <| us_cleanup_status := "pending" |>) now;
      first_row rows));
    _ ← commit;
    ret session).

(** ** Parts and signatures *)

Definition UploadParts (identity : Identity) (id : string) : GoM Pg (list CompletedPart) :=
  _ ← must CodeInternal "could not read upload" (pool_query (select_upload identity id));
  must CodeInternal "could not list upload parts" (pool_query (
    t ← uuid (Identity_TenantID identity);
    i ← uuid id;
    db ← table_of;
    mret ((λ '((_, _, number), row), mkCompletedPart number (up_etag row)
             (mkChecksum (up_checksum_algorithm row) (up_checksum_value row)) (up_size_bytes row)) <$>
      sort_slice (λ x y : (string * string * Z) * upload_part_row, x.1.2 <? y.1.2)
        (rows_where (db_upload_part db) (λ '(t', i', _) _, (t' == t) && (i' == i)))))).

Definition RecordPartSignature (identity : Identity) (id : string) (part : PartSignature) (now : Time)
    : GoM Pg unit :=
  if (PartSignature_PartNumber part <? 1) || (MaxUploadParts <? PartSignature_PartNumber part) ||
     (PartSignature_Size part <=? 0) ||
     negb (ValidChecksum (mkChecksum "sha256" (PartSignature_SHA256 part))) then
    throw (E CodeInvalidRequest "part signature is invalid") else
  must CodeInternal "could not record part signature" (pool_query (
    t ← uuid (Identity_TenantID identity);
    i ← uuid id;
    number ← integer (PartSignature_PartNumber part);
    upsert_part_signature (t, i, number)
      (mk_upload_part_signature_row (PartSignature_Size part) (PartSignature_SHA256 part) (pg_time now)))).

Definition PartSignatures (identity : Identity) (id : string) : GoM Pg (list PartSignature) :=
  must CodeInternal "could not list part signatures" (pool_query (
    t ← uuid (Identity_TenantID identity);
    i ← uuid id;
    db ← table_of;
    mret ((λ '((_, _, number), row), mkPartSignature number (ups_size_bytes row) (ups_content_sha256 row)) <$>
      sort_slice (λ x y : (string * string * Z) * upload_part_signature_row, x.1.2 <? y.1.2)
        (rows_where (db_upload_part_signature db) (λ '(t', i', _) _, (t' == t) && (i' == i)))))).

Definition MarkUploadCleanupComplete (identity : Identity) (id : string) (now : Time) : GoM Pg unit :=
  affected ← must CodeInternal "could not complete upload cleanup" (pool_query (
    t ← uuid (Identity_TenantID identity);
    i ← uuid id;
    rows ← update_uploads (λ k u, upload_at t i k u && one_of (us_status u) ["aborted"; "expired"; "failed"])
      (λ _ u, u <| us_cleanup_status := "complete" |> <| us_maintenance_not_before := None |>
                <| us_maintenance_error_code := "" |> <| us_updated_at := pg_time now |>);
    mret (zlen rows)));
  if negb (affected =? 1) then throw (E CodeInvalidState "upload cleanup cannot be completed") else ret tt.

Definition expiry_lt (x y : string * upload_session_row) : bool :=
  lex Z.ltb str_ltb (us_expires_at x.2, x.1) (us_expires_at y.2, y.1).
Definition ExpiredUploads (now : Time) (limit : Z) : GoM Pg (list UploadSession) :=
  must CodeInternal "could not list expired uploads" (pool_query (
    db ← table_of;
    rows ← limit_rows limit (sort_slice expiry_lt (rows_where (db_upload_session db) (λ _ u,
      (us_expires_at u <=? pg_time now) &&
      one_of (us_status u) ["created"; "uploading"; "completing"; "object_completed"])));
    mret (scanUpload <$> rows))).
End with_engine.
