(* ===== verification/PgMaintenance.v ===== *)
(** * Maintenance claims of the PostgreSQL repository
    (src/internal/postgres/maintenance.go)

    The times of a claim are compared and stored as [timestamptz]. *)
From S2P Require Import Prelude Errors GoLib Types Validation PgCore PgSchema PgRepository.

Section with_engine.
Context `{!PgEngine, !PgEnv}.

(** [maintenance_lease_until IS NULL OR maintenance_lease_until <= now]. *)
Definition null_or_passed (t : option Time) (now : Time) : bool :=
  match t with Some t => t <=? now | None => true end.
Definition null_or_stamp (t : option Stamp) (now : Time) : bool :=
  match t with Some t => stamp_leb t now | None => true end.

(** ** Uploads *)

Definition upload_due (now staleBefore : Time) (u : upload_session_row) : bool :=
  null_or_passed (us_maintenance_lease_until u) now && null_or_passed (us_maintenance_not_before u) now &&
  ((one_of (us_status u) ["created"; "uploading"] && (us_expires_at u <=? now)) ||
   (one_of (us_status u) ["completing"; "object_completed"] && (us_updated_at u <=? staleBefore)) ||
   (us_cleanup_status u == "pending") || (us_maintenance_error_code u != "")).
(** [ORDER BY maintenance_not_before NULLS FIRST, expires_at, id]. *)
Definition upload_claim_lt (x y : string * upload_session_row) : bool :=
  lex (null_first Z.ltb) (lex Z.ltb str_ltb)
    (us_maintenance_not_before x.2, (us_expires_at x.2, x.1))
    (us_maintenance_not_before y.2, (us_expires_at y.2, y.1)).

Definition maintenance_claim (owner : string) (kv : string * upload_session_row) : UploadMaintenanceClaim :=
  mkUploadMaintenanceClaim (scanUpload kv) owner (us_cleanup_status kv.2 == "pending")
    (us_maintenance_attempts kv.2).

Definition claim_uploads_statement (owner : string) (now staleBefore leaseUntil : Time) (limit : Z)
    : Stmt DB (list UploadMaintenanceClaim) :=
  by_ ← uuid owner;
  n ← statement_number;
  db ← table_of;
  candidates ← limit_rows limit (sort_slice upload_claim_lt
    (rows_where (db_upload_session db) (λ k u,
       upload_due (pg_time now) (pg_time staleBefore) u && negb (env_locked n k))));
  rows ← update_uploads (λ k _, bool_decide (k ∈ candidates.*1)) (λ _ u,
    u <| us_maintenance_owner := Some by_ |>
      <| us_maintenance_lease_until := Some (pg_time leaseUntil) |>);
  mret (maintenance_claim owner <$> heap_order n rows).

Definition ClaimUploadsForMaintenance (owner : string) (now staleBefore leaseUntil : Time) (limit : Z)
    : GoM Pg (list UploadMaintenanceClaim) :=
  rows ← pool_query (claim_uploads_statement owner now staleBefore leaseUntil limit);
  _ ← make_slice limit;
  must CodeInternal "could not claim upload maintenance" (ret rows).

(** The statement of [FinishUploadMaintenance] is given eight arguments and has no
    place for the third. *)
Definition finish_upload_statement (owner uploadID : string) (status : UploadStatus) (cleanupStatus : string)
    (notBefore : option Time) (errorCode : string) (now : Time) : Stmt DB Z :=
  _ ← placeholders [1; 2; 4; 5; 6; 7; 8]%nat;
  id ← uuid uploadID;
  by_ ← uuid owner;
  db ← table_of;
  let p := λ k u, (k == id) && (us_maintenance_owner u == Some by_) in
  _ ← successor_fits 64 ((us_revision ∘ snd) <$> rows_where (db_upload_session db) p);
  _ ← (if errorCode == "" then mret tt
       else successor_fits 32 ((us_maintenance_attempts ∘ snd) <$> rows_where (db_upload_session db) p));
  rows ← update_uploads p (λ _ u,
    u <| us_status := status |> <| us_cleanup_status := cleanupStatus |>
      <| us_maintenance_owner := None |> <| us_maintenance_lease_until := None |>
      <| us_maintenance_not_before := pg_time <$> notBefore |>
      <| us_maintenance_attempts := if errorCode == "" then us_maintenance_attempts u
                                    else us_maintenance_attempts u + 1 |>
      <| us_maintenance_error_code := errorCode |> <| us_revision := us_revision u + 1 |>
      <| us_updated_at := pg_time now |>);
  mret (zlen rows).

Definition FinishUploadMaintenance (owner uploadID : string) (status : UploadStatus) (cleanupComplete : bool)
    (retryAt : Time) (errorCode : string) (now : Time) : GoM Pg unit :=
  let cleanupStatus := if cleanupComplete then "complete" else "pending" in
  let notBefore := if IsZero retryAt then None else Some retryAt in
  affected ← must CodeInternal "could not finish upload maintenance" (pool_query
    (finish_upload_statement owner uploadID status cleanupStatus notBefore errorCode now));
  if negb (affected =? 1) then
    throw (E CodeInvalidState "upload maintenance claim is no longer owned")
  else ret tt.

(** ** The recycle bin *)

Definition recycle_due (cutoff now : Time) (k : string) (n : file_node_row) : bool :=
  one_of (fn_status n) ["trashed"; "purging"] && (fn_trashed_root_id n == Some k) &&
  match fn_deleted_at n with Some t => t <=? cutoff | None => false end &&
  null_or_passed (fn_maintenance_lease_until n) now && null_or_stamp (fn_maintenance_not_before n) now.
(** [ORDER BY maintenance_not_before NULLS FIRST, deleted_at, id]. *)
Definition recycle_claim_lt (x y : string * file_node_row) : bool :=
  lex (null_first stamp_lt) (lex Z.ltb str_ltb)
    (fn_maintenance_not_before x.2, (default 0 (fn_deleted_at x.2), x.1))
    (fn_maintenance_not_before y.2, (default 0 (fn_deleted_at y.2), y.1)).

Definition claim_recycle_statement (owner : string) (cutoff now leaseUntil : Time) (limit : Z)
    : Stmt DB (list RecycleMaintenanceClaim) :=
  by_ ← uuid owner;
  n ← statement_number;
  db ← table_of;
  candidates ← limit_rows limit (sort_slice recycle_claim_lt
    (rows_where (db_file_node db) (λ k m,
       recycle_due (pg_time cutoff) (pg_time now) k m && negb (env_locked n k))));
  rows ← update_file_nodes (λ k _, bool_decide (k ∈ candidates.*1)) (λ _ m,
    m <| fn_status := "purging" |> <| fn_maintenance_owner := Some by_ |>
      <| fn_maintenance_lease_until := Some (pg_time leaseUntil) |>);
  mret ((λ '(k, m), mkRecycleMaintenanceClaim (mkIdentity (fn_tenant_id m) "") k (fn_revision m) owner) <$>
          heap_order n rows).

Definition ClaimRecycleForMaintenance (owner : string) (cutoff now leaseUntil : Time) (limit : Z)
    : GoM Pg (list RecycleMaintenanceClaim) :=
  rows ← pool_query (claim_recycle_statement owner cutoff now leaseUntil limit);
  _ ← make_slice limit;
  must CodeInternal "could not claim recycle maintenance" (ret rows).

Definition release_recycle_statement (owner rootID : string) (retryAt : Time) (errorCode : string)
    (now : Time) : Stmt DB Z :=
  id ← uuid rootID;
  by_ ← uuid owner;
  db ← table_of;
  let p := λ k n, (k == id) && (fn_maintenance_owner n == Some by_) in
  _ ← successor_fits 32 ((fn_maintenance_attempts ∘ snd) <$> rows_where (db_file_node db) p);
  rows ← update_file_nodes p (λ _ n,
    n <| fn_maintenance_owner := None |> <| fn_maintenance_lease_until := None |>
      <| fn_maintenance_not_before := Some (Finite (pg_time retryAt)) |>
      <| fn_maintenance_attempts := fn_maintenance_attempts n + 1 |>
      <| fn_maintenance_error_code := errorCode |> <| fn_updated_at := pg_time now |>);
  mret (zlen rows).

Definition ReleaseRecycleMaintenance (owner rootID : string) (retryAt : Time) (errorCode : string)
    (now : Time) : GoM Pg unit :=
  affected ← must CodeInternal "could not release recycle maintenance"
    (pool_query (release_recycle_statement owner rootID retryAt errorCode now));
  if negb (affected =? 1) then
    throw (E CodeInvalidState "recycle maintenance claim is no longer owned")
  else ret tt.
End with_engine.
