(* ===== verification/PgGovernance.v ===== *)
(** * Invitations, groups, access control lists and the audit trail of the
    PostgreSQL repository (src/internal/postgres/governance.go) *)
From S2P Require Import Prelude Errors GoLib Types Validation PgCore PgSchema PgRepository.

(** ** Principals and members of the PostgreSQL repository
    (src/internal/postgres/identity.go) *)

Section with_engine.
Context `{!Platform, !MapRange, !PgEngine, !PgEnv}.

(** [SELECT ... FROM tenant_member tm JOIN principal p ... JOIN tenant t ...]: the
    record of the member [(tenant, principal)]. *)
Definition member_record (db : DB) (k : string * string) (m : tenant_member_row) : list PrincipalRecord :=
  match db_principal db !! k.2, db_tenant db !! k.1 with
  | Some p, Some t =>
    [mkPrincipalRecord (mkIdentity k.1 k.2) (pr_issuer p) (pr_subject p) (pr_display_name p)
       (tenant_display_name t) (tm_role m) (tm_status m)]
  | _, _ => []
  end.
(** The records of the methods name the tenant as the caller does. *)
Definition of_tenant (tenantID : string) (record : PrincipalRecord) : PrincipalRecord :=
  record <| PrincipalRecord_Identity :=
    mkIdentity tenantID (Identity_PrincipalID (PrincipalRecord_Identity record)) |>.

Definition lock_tenant_name (tenantID : string) : Stmt DB string :=
  t ← uuid tenantID;
  db ← table_of;
  row ← first_row (rows_where (db_tenant db) (λ k _, k == t));
  mret (tenant_display_name row.2).
Definition principal_by_identity (issuer subject : string) : Stmt DB string :=
  db ← table_of;
  row ← first_row (rows_where (db_principal db) (λ _ p,
    (pr_issuer p == issuer) && (pr_subject p == subject)));
  mret row.1.
Definition select_member_row (tenantID principalID : string) : Stmt DB tenant_member_row :=
  t ← uuid tenantID;
  p ← uuid principalID;
  db ← table_of;
  row ← first_row (rows_where (db_tenant_member db) (λ k _, k == (t, p)));
  mret row.2.

Definition EnsureOIDCMember (seed : OIDCMemberSeed) : GoM Pg PrincipalRecord :=
  let tenantID := OIDCMemberSeed_TenantID seed in
  let principalID := OIDCMemberSeed_PrincipalID seed in
  let issuer := OIDCMemberSeed_Issuer seed in
  let subject := OIDCMemberSeed_Subject seed in
  let now := pg_time (OIDCMemberSeed_Now seed) in
  if (tenantID == "") || (principalID == "") || (issuer == "") || (subject == "") ||
     negb (ValidAccessRole (OIDCMemberSeed_Role seed)) then
    throw (E CodeInvalidRequest "OIDC member seed is invalid") else
  with_tx "could not bootstrap OIDC member" (
    tenantName ← must_find (E CodeNotFound "tenant was not found") CodeInternal
      "could not read tenant for OIDC member" (tx_query (lock_tenant_name tenantID));
    existing ← may_find CodeInternal "could not read OIDC principal"
      (tx_query (principal_by_identity issuer subject));
    if match existing with Some id => id != principalID | None => false end then
      throw (E CodeNameConflict "OIDC identity is mapped to another principal") else
    mapped ← may_find CodeInternal "could not read principal mapping" (tx_query (
      p ← uuid principalID;
      db ← table_of;
      first_row (rows_where (db_principal db) (λ k _, k == p))));
    if match mapped with
       | Some (_, p) => (pr_issuer p != issuer) || (pr_subject p != subject)
       | None => false
       end then
      throw (E CodeNameConflict "principal id is mapped to another OIDC identity") else
    _ ← match mapped, existing with
      | None, None =>
        must CodeNameConflict "could not create OIDC principal" (tx_query (
          p ← uuid principalID;
          insert_principal p (mk_principal_row issuer subject (OIDCMemberSeed_DisplayName seed) now now)))
      | _, _ => ret tt
      end;
    _ ← must CodeInternal "could not bootstrap tenant member" (tx_query (
      t ← uuid tenantID;
      p ← uuid principalID;
      insert_member_if_new (t, p) (mk_tenant_member_row (OIDCMemberSeed_Role seed) "active" now now)));
    row ← must CodeInternal "could not read bootstrapped tenant member"
      (tx_query (select_member_row tenantID principalID));
    _ ← commit;
    ret (mkPrincipalRecord (mkIdentity tenantID principalID) issuer subject
           (OIDCMemberSeed_DisplayName seed) tenantName (tm_role row) (tm_status row))).

Definition ResolveOIDCPrincipal (issuer subject tenantID : string) : GoM Pg PrincipalRecord :=
  let denied := E CodeForbidden "identity is not a member of this tenant" in
  record ← must_find denied CodeInternal "could not resolve OIDC principal" (pool_query (
    t ← uuid tenantID;
    db ← table_of;
    first_row (rows_where (db_principal db) (λ _ p, (pr_issuer p == issuer) && (pr_subject p == subject))
      ≫= λ '(id, _), match db_tenant_member db !! (t, id) with
         | Some m => if tm_status m == "active" then member_record db (t, id) m else []
         | None => []
         end)));
  let record := of_tenant tenantID record in
  if PrincipalRecord_Status record != MemberStatusActive then throw denied else ret record.

Definition SetOIDCMemberStatus (tenantID principalID : string) (status : MemberStatus) : GoM Pg unit :=
  if (tenantID == "") || (principalID == "") || negb (ValidMemberStatus status) then
    throw (E CodeInvalidRequest "OIDC member status is invalid") else
  affected ← must CodeInternal "could not update OIDC member status" (pool_query (
    t ← uuid tenantID;
    p ← uuid principalID;
    n ← statement_number;
    update_member (t, p) (λ m, m <| tm_status := status |> <| tm_updated_at := pg_time (env_now n) |>)));
  if affected =? 0 then throw (E CodeNotFound "tenant member was not found") else ret tt.

Definition ListMembers (tenantID : string) (after : CursorPosition) (limit : Z)
    : GoM Pg (list PrincipalRecord * bool) :=
  if (tenantID == "") || (limit <? 1) then
    throw (E CodeInvalidRequest "member list parameters are invalid") else
  found ← must CodeInternal "could not check tenant" (pool_query (
    t ← uuid tenantID; db ← table_of; mret (has_key (db_tenant db) t)));
  if negb found then throw (E CodeNotFound "tenant was not found") else
  items ← must CodeInternal "could not list tenant members" (pool_query (
    t ← uuid tenantID;
    db ← table_of;
    limit_rows (wrap64 (limit + 1)) (sort_slice
      (λ x y, text_lt (Identity_PrincipalID (PrincipalRecord_Identity x))
                      (Identity_PrincipalID (PrincipalRecord_Identity y)))
      (rows_where (db_tenant_member db) (λ k _, (k.1 == t) &&
         ((CursorPosition_Name after == "") || text_lt (CursorPosition_Name after) k.2))
       ≫= λ '(k, m), member_record db k m))));
  cut_page limit (of_tenant tenantID <$> items).

(** [SELECT COUNT(...)]: the other active owners of the tenant. *)
Definition other_owners (tenantID principalID : string) : Stmt DB Z :=
  t ← uuid tenantID;
  p ← uuid principalID;
  db ← table_of;
  mret (zlen (rows_where (db_tenant_member db) (λ k m,
    (k.1 == t) && (tm_role m == "owner") && (tm_status m == "active") && (k.2 != p)))).

Definition managing_role (role : AccessRole) : bool := (role == RoleOwner) || (role == RoleAdmin).

Definition UpdateMember (ctx : Context) (rnd : RandRead) (c : UpdateMemberCommand)
    : GoM Pg PrincipalRecord :=
  let tenantID := UpdateMemberCommand_TenantID c in
  let principalID := UpdateMemberCommand_PrincipalID c in
  let actor := UpdateMemberCommand_ActorPrincipalID c in
  let actorRole := UpdateMemberCommand_ActorRole c in
  let role := UpdateMemberCommand_Role c in
  let status := UpdateMemberCommand_Status c in
  let forbidden := E CodeForbidden "only active owners and admins may manage members" in
  if (tenantID == "") || (principalID == "") || (actor == "") || negb (ValidAccessRole actorRole) ||
     ((role == None) && (status == None)) ||
     match role with Some r => negb (ValidAccessRole r) | None => false end ||
     match status with Some s => negb (ValidMemberStatus s) | None => false end then
    throw (E CodeInvalidRequest "member update is invalid") else
  with_tx "could not update tenant member" (
    _ ← must_find (E CodeNotFound "tenant was not found") CodeInternal "could not lock tenant"
          (tx_query (lock_tenant_name tenantID));
    acting ← must_find forbidden CodeInternal "could not lock actor membership"
      (tx_query (select_member_row tenantID actor));
    if (tm_role acting != actorRole) || (tm_status acting != MemberStatusActive) ||
       negb (managing_role actorRole) then throw forbidden else
    current ← must_find (E CodeNotFound "tenant member was not found") CodeInternal
      "could not lock target membership" (tx_query (select_member_row tenantID principalID));
    if (actorRole == RoleAdmin) && ((tm_role current == RoleOwner) || (role == Some RoleOwner)) then
      throw (E CodeForbidden "admins cannot modify owners or grant the owner role") else
    let newRole := default (tm_role current) role in
    let newStatus := default (tm_status current) status in
    _ ← (if (newRole != RoleOwner) || (newStatus != MemberStatusActive) then
           activeOwners ← must CodeInternal "could not count active owners"
             (tx_query (other_owners tenantID principalID));
           if (tm_role current == RoleOwner) && (tm_status current == MemberStatusActive) &&
              (activeOwners =? 0) then
             throw (E CodeInvalidState "the last active owner cannot be removed")
           else ret tt
         else ret tt);
    s ← getS;
    let now := if IsZero (UpdateMemberCommand_Now c) then env_now (pg_statements s)
               else UpdateMemberCommand_Now c in
    _ ← must CodeInternal "could not update tenant member" (tx_query (
      t ← uuid tenantID;
      p ← uuid principalID;
      update_member (t, p) (λ m,
        m <| tm_role := newRole |> <| tm_status := newStatus |> <| tm_updated_at := pg_time now |>)));
    record ← must CodeInternal "could not read updated tenant member" (tx_query (
      t ← uuid tenantID;
      p ← uuid principalID;
      db ← table_of;
      first_row (rows_where (db_tenant_member db) (λ k _, k == (t, p)) ≫= λ '(k, m), member_record db k m)));
    _ ← appendAuditTx ctx rnd tenantID actor "tenant.member.updated" "principal" principalID now
          [("role", newRole); ("status", newStatus)];
    _ ← commit;
    ret (of_tenant tenantID record)).
End with_engine.

(** What [AcceptInvitation] returns: an invitation and a member next to the error. *)
Abbreviation AcceptResult := (TenantInvitation * PrincipalRecord * option GoError)%type (only parsing).

Section with_engine.
Context `{!Platform, !MapRange, !PgEngine, !PgEnv}.

(** ** Authorization of a transaction *)

Definition lockTenant (tenantID : string) : GoM Pg unit :=
  must CodeNotFound "tenant was not found" (tx_query (
    t ← uuid tenantID;
    db ← table_of;
    _ ← first_row (rows_where (db_tenant db) (λ k _, k == t));
    mret tt)).

Definition authorizeTenantManager (tenantID principalID : string) (declared : AccessRole) : GoM Pg unit :=
  let forbidden := E CodeForbidden "only active owners and admins may manage tenant governance" in
  m ← must_find forbidden CodeInternal "could not authorize tenant manager"
    (tx_query (select_member_row tenantID principalID));
  if (tm_role m != declared) || (tm_status m != MemberStatusActive) || negb (managing_role declared) then
    throw forbidden
  else ret tt.

Definition capabilityLevel (capability : NodeCapability) : Z :=
  if capability == NodeCapabilityRead then 1
  else if capability == NodeCapabilityWrite then 2
  else if (capability == NodeCapabilityDelete) || (capability == NodeCapabilityManageACL) then 3
  else 0.
(** The map [implicit] of [authorizeNodeQuery]. *)
Definition implicit_level (role : AccessRole) : Z :=
  if (role == RoleOwner) || (role == RoleAdmin) then 3
  else if role == RoleEditor then 2
  else if role == RoleViewer then 1
  else 0.
(** [CASE acl.role WHEN ...]. *)
Definition acl_role_level (role : string) : Z :=
  if role == "reader" then 1 else if role == "contributor" then 2 else if role == "manager" then 3 else 0.

(** The recursive query of [authorizeNodeQuery]: [ancestors], by [UNION ALL]. *)
Definition path_rows (db : DB) (tenant : string) (p : string → bool) : list (string * option string) :=
  (λ '(k, n), (k, fn_parent_id n)) <$>
    rows_where (db_file_node db) (λ k n, (fn_tenant_id n == tenant) && p k).
Definition path_step (db : DB) (tenant : string) (working : list (string * option string))
    : list (string * option string) :=
  working ≫= λ '(_, parent), path_rows db tenant (λ k, Some k == parent).
Definition path_fuel (db : DB) : nat := S (S (size (db_file_node db))).
(** Whether an entry is for the member itself or for one of its groups. *)
Definition acl_applies (db : DB) (tenant principal : string) (a : node_acl_row) : bool :=
  ((na_subject_type a == "principal") && (na_principal_id a == Some principal)) ||
  ((na_subject_type a == "group") &&
   match na_group_id a with
   | Some g => has_key (db_tenant_group_member db) (tenant, g, principal)
   | None => false
   end).
(** [COALESCE(MAX(...), 0)] over the join of the ancestors with the entries. *)
Definition granted_levels (db : DB) (tenant principal : string) (ancestors : list (string * option string))
    : list Z :=
  ancestors ≫= λ '(id, _), (λ '(_, a), acl_role_level (na_role a)) <$>
    rows_where (db_node_acl db) (λ _ a, (na_tenant_id a == tenant) && (na_node_id a == id) &&
      acl_applies db tenant principal a).
Definition granted_level (tenantID nodeID principalID : string) : Stmt DB Z :=
  t ← uuid tenantID;
  i ← uuid nodeID;
  p ← uuid principalID;
  db ← table_of;
  let start := path_rows db t (λ k, k == i) in
  ancestors ← ends (recursive_union_all (path_fuel db) (path_step db t) start start);
  mret (foldr Z.max 0 (granted_levels db t p ancestors)).

(** The queries go to the transaction or to the pool: [q] runs them. *)
Definition authorizeNodeQuery (q : ∀ A, Stmt DB A → GoM Pg (PgErr + A)) (tenantID principalID : string)
    (declared : AccessRole) (nodeID : string) (capability : NodeCapability) : GoM Pg unit :=
  let denied := E CodeForbidden "node access denied" in
  if negb (ValidNodeCapability capability) then
    throw (E CodeInvalidRequest "node capability is invalid") else
  m ← must_find denied CodeInternal "could not authorize node" (q _ (select_member_row tenantID principalID));
  if ((declared != "") && (tm_role m != declared)) || (tm_status m != MemberStatusActive) then
    throw denied else
  nodeExists ← must CodeInternal "could not authorize node" (q _ (
    t ← uuid tenantID;
    i ← uuid nodeID;
    db ← table_of;
    mret (node_ref db t i)));
  if negb nodeExists then throw (E CodeNotFound "node was not found") else
  let required := capabilityLevel capability in
  if required <=? implicit_level (tm_role m) then ret tt else
  granted ← must CodeInternal "could not evaluate node ACL"
    (q _ (granted_level tenantID nodeID principalID));
  if granted <? required then throw denied else ret tt.

Definition AuthorizeNode (identity : Identity) (nodeID : string) (capability : NodeCapability) : GoM Pg unit :=
  authorizeNodeQuery (@pool_query _) (Identity_TenantID identity) (Identity_PrincipalID identity) ""
    nodeID capability.
Definition authorizeNodeTx (tenantID principalID : string) (declared : AccessRole) (nodeID : string)
    (capability : NodeCapability) : GoM Pg unit :=
  authorizeNodeQuery (@tx_query _) tenantID principalID declared nodeID capability.

(** ** Members *)

Definition DeleteMember (ctx : Context) (rnd : RandRead) (c : DeleteMemberCommand) : GoM Pg unit :=
  let tenantID := DeleteMemberCommand_TenantID c in
  let principalID := DeleteMemberCommand_PrincipalID c in
  let actor := DeleteMemberCommand_ActorPrincipalID c in
  with_tx "could not delete member" (
    _ ← lockTenant tenantID;
    _ ← authorizeTenantManager tenantID actor (DeleteMemberCommand_ActorRole c);
    target ← must_find (E CodeNotFound "tenant member was not found") CodeInternal "could not lock member"
      (tx_query (select_member_row tenantID principalID));
    if (DeleteMemberCommand_ActorRole c == RoleAdmin) && (tm_role target == RoleOwner) then
      throw (E CodeForbidden "admins cannot delete owners") else
    _ ← (if (tm_role target == RoleOwner) && (tm_status target == MemberStatusActive) then
           remaining ← must CodeInternal "could not count owners"
             (tx_query (other_owners tenantID principalID));
           if remaining =? 0 then
             throw (E CodeInvalidState "the last active owner cannot be removed")
           else ret tt
         else ret tt);
    _ ← must CodeInternal "could not delete member" (tx_query (
      t ← uuid tenantID;
      p ← uuid principalID;
      delete_member (t, p)));
    _ ← appendAuditTx ctx rnd tenantID actor "tenant.member.deleted" "principal" principalID
          (DeleteMemberCommand_Now c) [("role", tm_role target)];
    commit).

(** ** Invitations *)

Definition validInvitationIdentity (issuer subject : string) : bool :=
  (issuer != "") && (subject != "") && (TrimSpace issuer != "") && (TrimSpace subject != "") &&
  (zstrlen issuer <=? 512) && (zstrlen subject <=? 512).

Definition CreateInvitation (ctx : Context) (rnd : RandRead) (c : CreateInvitationCommand)
    : GoM Pg TenantInvitation :=
  let id := CreateInvitationCommand_ID c in
  let tenantID := CreateInvitationCommand_TenantID c in
  let actor := CreateInvitationCommand_ActorPrincipalID c in
  let actorRole := CreateInvitationCommand_ActorRole c in
  let now := CreateInvitationCommand_Now c in
  let expires := CreateInvitationCommand_ExpiresAt c in
  if negb (ValidID id) || negb (ValidID tenantID) || negb (ValidID actor) ||
     negb (ValidAccessRole actorRole) ||
     negb (validInvitationIdentity (CreateInvitationCommand_Issuer c) (CreateInvitationCommand_Subject c)) ||
     (256 <? zstrlen (CreateInvitationCommand_DisplayName c)) ||
     negb (zstrlen (CreateInvitationCommand_TokenHash c) =? 64) || negb (After expires now) ||
     negb (ValidAccessRole (CreateInvitationCommand_Role c)) then
    throw (E CodeInvalidRequest "invitation is invalid") else
  with_tx "could not create invitation" (
    _ ← lockTenant tenantID;
    _ ← authorizeTenantManager tenantID actor actorRole;
    if (actorRole == RoleAdmin) && (CreateInvitationCommand_Role c == RoleOwner) then
      throw (E CodeForbidden "admins cannot invite owners") else
    _ ← must CodeNameConflict "could not create invitation" (tx_query (
      i ← uuid id;
      t ← uuid tenantID;
      by_ ← uuid actor;
      insert_invitation i (mk_tenant_invitation_row t (CreateInvitationCommand_Issuer c)
        (CreateInvitationCommand_Subject c) (CreateInvitationCommand_DisplayName c)
        (CreateInvitationCommand_Role c) (CreateInvitationCommand_TokenHash c) "pending" None by_
        (pg_time expires) None None (pg_time now) (pg_time now))));
    _ ← appendAuditTx ctx rnd tenantID actor "tenant.invitation.created" "invitation" id now
          [("role", CreateInvitationCommand_Role c)];
    _ ← commit;
    ret (mkTenantInvitation id tenantID (CreateInvitationCommand_Issuer c)
           (CreateInvitationCommand_Subject c) (CreateInvitationCommand_DisplayName c)
           (CreateInvitationCommand_Role c) InvitationPending "" actor expires None None now now)).

Definition scanInvitation (id : string) (i : tenant_invitation_row) (status : InvitationStatus)
    : TenantInvitation :=
  mkTenantInvitation id (ti_tenant_id i) (ti_issuer i) (ti_subject i) (ti_display_name i) (ti_role i) status
    (text_or_empty (ti_accepted_principal_id i)) (ti_created_by i) (ti_expires_at i) (ti_accepted_at i)
    (ti_revoked_at i) (ti_created_at i) (ti_updated_at i).
(** [CASE WHEN status='pending' AND expires_at<=now() THEN 'expired' ELSE status END]. *)
Definition current_status (now : Time) (i : tenant_invitation_row) : string :=
  if (ti_status i == "pending") && (ti_expires_at i <=? now) then "expired" else ti_status i.
(** [ORDER BY created_at DESC, id DESC]. *)
Definition newest_first (x y : string * tenant_invitation_row) : bool :=
  lex Z.ltb str_ltb (ti_created_at y.2, y.1) (ti_created_at x.2, x.1).

Definition ListInvitations (tenantID : string) (status : InvitationStatus) (limit : Z)
    : GoM Pg (list TenantInvitation) :=
  let limit := if (limit <=? 0) || (200 <? limit) then 100 else limit in
  must CodeInternal "could not list invitations" (pool_query (
    t ← uuid tenantID;
    n ← statement_number;
    db ← table_of;
    let now := pg_time (env_now n) in
    rows ← limit_rows limit (sort_slice newest_first (rows_where (db_tenant_invitation db) (λ _ i,
      (ti_tenant_id i == t) && ((status == "") || (current_status now i == status)))));
    mret ((λ '(id, i), (scanInvitation id i (current_status now i))
             <| TenantInvitation_TenantID := tenantID |>) <$> rows))).

Definition selectInvitationForUpdate (tokenHash : string) : GoM Pg TenantInvitation :=
  must_find (E CodeNotFound "invitation was not found") CodeInternal "could not read invitation" (tx_query (
    db ← table_of;
    row ← first_row (rows_where (db_tenant_invitation db) (λ _ i, ti_token_hash i == tokenHash));
    mret (scanInvitation row.1 row.2 (ti_status row.2)))).

Definition selectMember (tenantID principalID : string) : GoM Pg PrincipalRecord :=
  record ← must CodeInternal "could not read tenant member" (tx_query (
    t ← uuid tenantID;
    p ← uuid principalID;
    db ← table_of;
    first_row (rows_where (db_tenant_member db) (λ k _, k == (t, p)) ≫= λ '(k, m), member_record db k m)));
  ret (of_tenant tenantID record).

(** The value returned next to an error. *)
Definition returning {A} (v : TenantInvitation) (m : GoM Pg A) (k : A → GoM Pg AcceptResult)
    : GoM Pg AcceptResult :=
  r ← try_ m;
  match r with
  | inl err => ret (v, go_zero, Some err)
  | inr a => k a
  end.

Definition set_invitation (id : string) (f : tenant_invitation_row → tenant_invitation_row) : Stmt DB unit :=
  i ← uuid id; update_invitation i f.

(** The part of [AcceptInvitation] that makes the identity a member. *)
Definition accept_pending (ctx : Context) (rnd : RandRead) (c : AcceptInvitationCommand)
    (v : TenantInvitation) : GoM Pg AcceptResult :=
  let now := AcceptInvitationCommand_Now c in
  let tenantID := TenantInvitation_TenantID v in
  returning v (lockTenant tenantID) (λ _,
  returning v (
    found ← may_find CodeInternal "could not resolve invitation principal"
      (tx_query (principal_by_identity (AcceptInvitationCommand_Issuer c) (AcceptInvitationCommand_Subject c)));
    match found with
    | Some id => ret id
    | None =>
      let id := AcceptInvitationCommand_CandidatePrincipalID c in
      _ ← must CodeNameConflict "could not create invitation principal" (tx_query (
        p ← uuid id;
        insert_principal p (mk_principal_row (AcceptInvitationCommand_Issuer c)
          (AcceptInvitationCommand_Subject c) (TenantInvitation_DisplayName v) (pg_time now) (pg_time now))));
      ret id
    end) (λ principalID,
  returning v (must CodeInternal "could not check invitation membership" (tx_query (
    t ← uuid tenantID;
    p ← uuid principalID;
    db ← table_of;
    mret (has_key (db_tenant_member db) (t, p))))) (λ exists_,
  if exists_ : bool then
    ret (v, go_zero, Some (E CodeInvalidState "the authenticated identity is already a tenant member")) else
  returning v (must CodeInternal "could not create invitation membership" (tx_query (
    t ← uuid tenantID;
    p ← uuid principalID;
    insert_member (t, p)
      (mk_tenant_member_row (TenantInvitation_Role v) "active" (pg_time now) (pg_time now))))) (λ _,
  returning v (must CodeInternal "could not accept invitation" (tx_query (
    p ← uuid principalID;
    set_invitation (TenantInvitation_ID v) (λ i,
      i <| ti_status := "accepted" |> <| ti_accepted_principal_id := Some p |>
        <| ti_accepted_at := Some (pg_time now) |> <| ti_updated_at := pg_time now |>)))) (λ _,
  returning v (appendAuditTx ctx rnd tenantID principalID "tenant.invitation.accepted" "invitation"
    (TenantInvitation_ID v) now [("principal_id", principalID)]) (λ _,
  returning v (selectMember tenantID principalID) (λ member,
  returning v commit (λ _,
  ret (v <| TenantInvitation_Status := InvitationAccepted |>
         <| TenantInvitation_AcceptedPrincipalID := principalID |>
         <| TenantInvitation_AcceptedAt := Some now |> <| TenantInvitation_UpdatedAt := now |>,
       member, None))))))))).

Definition AcceptInvitation (ctx : Context) (rnd : RandRead) (c : AcceptInvitationCommand)
    : GoM Pg AcceptResult :=
  let now := AcceptInvitationCommand_Now c in
  let fail (v : TenantInvitation) (code : ErrorCode) (message : string) : GoM Pg AcceptResult :=
    ret (v, go_zero, Some (E code message)) in
  if negb (zstrlen (AcceptInvitationCommand_TokenHash c) =? 64) ||
     negb (ValidID (AcceptInvitationCommand_CandidatePrincipalID c)) ||
     negb (validInvitationIdentity (AcceptInvitationCommand_Issuer c) (AcceptInvitationCommand_Subject c)) then
    fail go_zero CodeInvalidRequest "invitation acceptance is invalid" else
  returning go_zero (begin_tx "could not accept invitation") (λ _, then_rollback (
  returning go_zero (selectInvitationForUpdate (AcceptInvitationCommand_TokenHash c)) (λ v,
  if (TenantInvitation_Issuer v != AcceptInvitationCommand_Issuer c) ||
     (TenantInvitation_Subject v != AcceptInvitationCommand_Subject c) then
    fail go_zero CodeForbidden "invitation identity does not match the authenticated identity" else
  if TenantInvitation_Status v == InvitationAccepted then
    returning v (selectMember (TenantInvitation_TenantID v) (TenantInvitation_AcceptedPrincipalID v)) (λ member,
    if (PrincipalRecord_Issuer member != AcceptInvitationCommand_Issuer c) ||
       (PrincipalRecord_Subject member != AcceptInvitationCommand_Subject c) then
      fail go_zero CodeForbidden "invitation identity does not match the accepted member" else
    committed ← try_ commit;
    ret (v, member, match committed with inl err => Some err | inr _ => None end))
  else if TenantInvitation_Status v != InvitationPending then
    fail v CodeInvalidState "invitation is not pending"
  else if negb (After (TenantInvitation_ExpiresAt v) now) then
    returning v (must CodeInternal "could not expire invitation" (tx_query
      (set_invitation (TenantInvitation_ID v) (λ i,
         i <| ti_status := "expired" |> <| ti_updated_at := pg_time now |>)))) (λ _,
    let v := v <| TenantInvitation_Status := InvitationExpired |> <| TenantInvitation_UpdatedAt := now |> in
    returning v commit (λ _, fail v CodeInvalidState "invitation has expired"))
  else accept_pending ctx rnd c v))).

Definition RevokeInvitation (ctx : Context) (rnd : RandRead) (c : RevokeInvitationCommand)
    : GoM Pg TenantInvitation :=
  let tenantID := RevokeInvitationCommand_TenantID c in
  let actor := RevokeInvitationCommand_ActorPrincipalID c in
  let now := RevokeInvitationCommand_Now c in
  if negb (ValidID tenantID) || negb (ValidID (RevokeInvitationCommand_InvitationID c)) ||
     negb (ValidID actor) || negb (ValidAccessRole (RevokeInvitationCommand_ActorRole c)) then
    throw (E CodeInvalidRequest "invitation revocation is invalid") else
  with_tx "could not revoke invitation" (
    _ ← lockTenant tenantID;
    _ ← authorizeTenantManager tenantID actor (RevokeInvitationCommand_ActorRole c);
    tokenHash ← must_find (E CodeNotFound "invitation was not found") CodeInternal
      "could not lock invitation" (tx_query (
        t ← uuid tenantID;
        i ← uuid (RevokeInvitationCommand_InvitationID c);
        db ← table_of;
        row ← first_row (rows_where (db_tenant_invitation db) (λ k v, (ti_tenant_id v == t) && (k == i)));
        mret (ti_token_hash row.2)));
    invitation ← selectInvitationForUpdate tokenHash;
    if (TenantInvitation_Status invitation != InvitationPending) ||
       negb (After (TenantInvitation_ExpiresAt invitation) now) then
      throw (E CodeInvalidState "invitation is not pending") else
    _ ← must CodeInternal "could not revoke invitation" (tx_query
      (set_invitation (TenantInvitation_ID invitation) (λ i,
         i <| ti_status := "revoked" |> <| ti_revoked_at := Some (pg_time now) |>
           <| ti_updated_at := pg_time now |>)));
    _ ← appendAuditTx ctx rnd tenantID actor "tenant.invitation.revoked" "invitation"
          (TenantInvitation_ID invitation) now [];
    _ ← commit;
    ret (invitation <| TenantInvitation_Status := InvitationRevoked |>
                    <| TenantInvitation_RevokedAt := Some now |>
                    <| TenantInvitation_UpdatedAt := now |>)).
End with_engine.
