(* ===== verification/PgGroups.v ===== *)
(** * Groups, access control lists and audit events of the PostgreSQL repository
    (src/internal/postgres/governance.go) *)
From S2P Require Import Prelude Errors GoLib Types Validation PgCore PgSchema PgRepository PgGovernance.

(** [json.Unmarshal] of the metadata column into a [map[string]string]. *)
Class MetadataJSON := { Unmarshal_metadata : string → option (gmap string string) }.

Section with_engine.
Context `{!Platform, !MapRange, !PgEngine, !PgEnv, !MetadataJSON}.

(** ** Groups *)

Definition scanGroup (id : string) (g : tenant_group_row) : TenantGroup :=
  mkTenantGroup id (tg_tenant_id g) (tg_display_name g) (tg_normalized_name g) (tg_created_by g)
    (tg_created_at g) (tg_updated_at g).

Definition CreateGroup (ctx : Context) (rnd : RandRead) (c : CreateGroupCommand) : GoM Pg TenantGroup :=
  let tenantID := CreateGroupCommand_TenantID c in
  let actor := CreateGroupCommand_ActorPrincipalID c in
  let now := CreateGroupCommand_Now c in
  with_tx "could not create group" (
    _ ← lockTenant tenantID;
    _ ← authorizeTenantManager tenantID actor (CreateGroupCommand_ActorRole c);
    let group := mkTenantGroup (CreateGroupCommand_ID c) tenantID (CreateGroupCommand_DisplayName c)
      (CreateGroupCommand_NormalizedName c) actor now now in
    _ ← must CodeNameConflict "group name already exists" (tx_query (
      i ← uuid (TenantGroup_ID group);
      t ← uuid tenantID;
      by_ ← uuid actor;
      insert_group i (mk_tenant_group_row t (TenantGroup_DisplayName group)
        (TenantGroup_NormalizedName group) by_ (pg_time now) (pg_time now))));
    _ ← appendAuditTx ctx rnd tenantID actor "tenant.group.created" "group" (TenantGroup_ID group) now
          [("name", TenantGroup_DisplayName group)];
    _ ← commit;
    ret group).

Definition ListGroups (tenantID : string) : GoM Pg (list TenantGroup) :=
  must CodeInternal "could not list groups" (pool_query (
    t ← uuid tenantID;
    db ← table_of;
    mret ((λ '(id, g), scanGroup id g) <$>
      sort_slice (λ x y, text_uuid_lt (tg_normalized_name x.2, x.1) (tg_normalized_name y.2, y.1))
        (rows_where (db_tenant_group db) (λ _ g, tg_tenant_id g == t))))).

Definition UpdateGroup (ctx : Context) (rnd : RandRead) (c : UpdateGroupCommand) : GoM Pg TenantGroup :=
  let tenantID := UpdateGroupCommand_TenantID c in
  let actor := UpdateGroupCommand_ActorPrincipalID c in
  let now := UpdateGroupCommand_Now c in
  with_tx "could not update group" (
    _ ← lockTenant tenantID;
    _ ← authorizeTenantManager tenantID actor (UpdateGroupCommand_ActorRole c);
    group ← must CodeNameConflict "could not update group" (tx_query (
      t ← uuid tenantID;
      i ← uuid (UpdateGroupCommand_GroupID c);
      rows ← update_group t i (λ g,
        g <| tg_display_name := UpdateGroupCommand_DisplayName c |>
          <| tg_normalized_name := UpdateGroupCommand_NormalizedName c |>
          <| tg_updated_at := pg_time now |>);
      row ← first_row rows;
      mret (scanGroup row.1 row.2)));
    _ ← appendAuditTx ctx rnd (TenantGroup_TenantID group) actor "tenant.group.updated" "group"
          (TenantGroup_ID group) now [("name", TenantGroup_DisplayName group)];
    _ ← commit;
    ret group).

Definition DeleteGroup (ctx : Context) (rnd : RandRead) (c : DeleteGroupCommand) : GoM Pg unit :=
  let tenantID := DeleteGroupCommand_TenantID c in
  let actor := DeleteGroupCommand_ActorPrincipalID c in
  with_tx "could not delete group" (
    _ ← lockTenant tenantID;
    _ ← authorizeTenantManager tenantID actor (DeleteGroupCommand_ActorRole c);
    affected ← must CodeInternal "could not delete group" (tx_query (
      t ← uuid tenantID;
      i ← uuid (DeleteGroupCommand_GroupID c);
      delete_group t i));
    if affected =? 0 then throw (E CodeNotFound "group was not found") else
    _ ← appendAuditTx ctx rnd tenantID actor "tenant.group.deleted" "group" (DeleteGroupCommand_GroupID c)
          (DeleteGroupCommand_Now c) [];
    commit).

Definition changeGroupMember (ctx : Context) (rnd : RandRead) (c : GroupMemberCommand) (add : bool)
    : GoM Pg unit :=
  let tenantID := GroupMemberCommand_TenantID c in
  let groupID := GroupMemberCommand_GroupID c in
  let principalID := GroupMemberCommand_PrincipalID c in
  let actor := GroupMemberCommand_ActorPrincipalID c in
  let now := GroupMemberCommand_Now c in
  with_tx "could not change group member" (
    _ ← lockTenant tenantID;
    _ ← authorizeTenantManager tenantID actor (GroupMemberCommand_ActorRole c);
    groupExists ← must CodeInternal "could not check group" (tx_query (
      t ← uuid tenantID; i ← uuid groupID; db ← table_of; mret (group_ref db t i)));
    if negb groupExists then throw (E CodeNotFound "group was not found") else
    memberExists ← must CodeInternal "could not check group member" (tx_query (
      t ← uuid tenantID; p ← uuid principalID; db ← table_of;
      mret (has_key (db_tenant_member db) (t, p))));
    if negb memberExists then throw (E CodeNotFound "tenant member was not found") else
    changed ← must CodeInternal "could not change group member" (tx_query (
      t ← uuid tenantID;
      g ← uuid groupID;
      p ← uuid principalID;
      if add then
        by_ ← uuid actor;
        insert_group_member_if_new (t, g, p) (mk_tenant_group_member_row by_ (pg_time now))
      else delete_group_member (t, g, p)));
    let action := if add then "tenant.group.member_added" else "tenant.group.member_removed" in
    _ ← (if 0 <? changed then
           appendAuditTx ctx rnd tenantID actor action "group" groupID now [("principal_id", principalID)]
         else ret tt);
    commit).
Definition AddGroupMember (ctx : Context) (rnd : RandRead) (c : GroupMemberCommand) : GoM Pg unit :=
  changeGroupMember ctx rnd c true.
Definition RemoveGroupMember (ctx : Context) (rnd : RandRead) (c : GroupMemberCommand) : GoM Pg unit :=
  changeGroupMember ctx rnd c false.

Definition ListGroupMembers (tenantID groupID : string) : GoM Pg (list PrincipalRecord) :=
  groupExists ← must CodeInternal "could not check group" (pool_query (
    t ← uuid tenantID; i ← uuid groupID; db ← table_of; mret (group_ref db t i)));
  if negb groupExists then throw (E CodeNotFound "group was not found") else
  items ← must CodeInternal "could not list group members" (pool_query (
    t ← uuid tenantID;
    i ← uuid groupID;
    db ← table_of;
    mret (sort_slice
      (λ x y, str_ltb (Identity_PrincipalID (PrincipalRecord_Identity x))
                      (Identity_PrincipalID (PrincipalRecord_Identity y)))
      (rows_where (db_tenant_group_member db) (λ '(t', g, _) _, (t' == t) && (g == i))
       ≫= λ '((t', _, p), _), match db_tenant_member db !! (t', p) with
          | Some m => member_record db (t', p) m
          | None => []
          end))));
  ret (of_tenant tenantID <$> items).

(** ** Access control lists *)

(** [COALESCE(principal_id, group_id)]. *)
Definition acl_subject (a : node_acl_row) : string :=
  text_or_empty (match na_principal_id a with Some p => Some p | None => na_group_id a end).
Definition scanACL (kv : string * node_acl_row) : NodeACLEntry :=
  let '(id, a) := kv in
  mkNodeACLEntry id (na_tenant_id a) (na_node_id a) (na_subject_type a) (acl_subject a) (na_role a)
    (na_created_by a) (na_created_at a) (na_updated_at a).
(** [ORDER BY subject_type, COALESCE(...), id]. *)
Definition acl_lt (x y : string * node_acl_row) : bool :=
  lex text_lt (lex str_ltb str_ltb) (na_subject_type x.2, (acl_subject x.2, x.1))
    (na_subject_type y.2, (acl_subject y.2, y.1)).

Definition ListNodeACL (tenantID nodeID : string) : GoM Pg (list NodeACLEntry) :=
  found ← must CodeInternal "could not check node" (pool_query (
    t ← uuid tenantID; i ← uuid nodeID; db ← table_of; mret (node_ref db t i)));
  if negb found then throw (E CodeNotFound "node was not found") else
  must CodeInternal "could not list node ACL" (pool_query (
    t ← uuid tenantID;
    i ← uuid nodeID;
    db ← table_of;
    mret (scanACL <$> sort_slice acl_lt
      (rows_where (db_node_acl db) (λ _ a, (na_tenant_id a == t) && (na_node_id a == i)))))).

Definition check_acl_subject (c : SetNodeACLCommand) : GoM Pg unit :=
  let tenantID := SetNodeACLCommand_TenantID c in
  let subject := SetNodeACLCommand_SubjectID c in
  if SetNodeACLCommand_SubjectType c == ACLSubjectPrincipal then
    found ← must CodeInternal "could not check ACL principal" (tx_query (
      t ← uuid tenantID; p ← uuid subject; db ← table_of; mret (has_key (db_tenant_member db) (t, p))));
    if negb found then throw (E CodeNotFound "ACL principal was not found") else ret tt
  else
    found ← must CodeInternal "could not check ACL group" (tx_query (
      t ← uuid tenantID; g ← uuid subject; db ← table_of; mret (group_ref db t g)));
    if negb found then throw (E CodeNotFound "ACL group was not found") else ret tt.

Definition set_acl_statement (c : SetNodeACLCommand) : Stmt DB NodeACLEntry :=
  i ← uuid (SetNodeACLCommand_ID c);
  t ← uuid (SetNodeACLCommand_TenantID c);
  node ← uuid (SetNodeACLCommand_NodeID c);
  subject ← uuid (SetNodeACLCommand_SubjectID c);
  by_ ← uuid (SetNodeACLCommand_ActorPrincipalID c);
  let now := pg_time (SetNodeACLCommand_Now c) in
  let principal := SetNodeACLCommand_SubjectType c == ACLSubjectPrincipal in
  row ← upsert_acl i (mk_node_acl_row t node (SetNodeACLCommand_SubjectType c)
    (if principal then Some subject else None) (if principal then None else Some subject)
    (SetNodeACLCommand_Role c) by_ now now);
  mret (scanACL row).

Definition SetNodeACL (ctx : Context) (rnd : RandRead) (c : SetNodeACLCommand) : GoM Pg NodeACLEntry :=
  let tenantID := SetNodeACLCommand_TenantID c in
  let actor := SetNodeACLCommand_ActorPrincipalID c in
  let nodeID := SetNodeACLCommand_NodeID c in
  if negb (ValidACLSubjectType (SetNodeACLCommand_SubjectType c)) ||
     negb (ValidACLRole (SetNodeACLCommand_Role c)) then
    throw (E CodeInvalidRequest "ACL is invalid") else
  with_tx "could not set node ACL" (
    _ ← lockTenant tenantID;
    _ ← authorizeNodeTx tenantID actor (SetNodeACLCommand_ActorRole c) nodeID NodeCapabilityManageACL;
    _ ← check_acl_subject c;
    item ← must CodeInternal "could not set node ACL" (tx_query (set_acl_statement c));
    _ ← appendAuditTx ctx rnd tenantID actor "node.acl.set" "node_acl" (NodeACLEntry_ID item)
          (SetNodeACLCommand_Now c)
          [("node_id", nodeID); ("role", SetNodeACLCommand_Role c);
           ("subject_type", SetNodeACLCommand_SubjectType c); ("subject_id", SetNodeACLCommand_SubjectID c)];
    _ ← commit;
    ret item).

Definition DeleteNodeACL (ctx : Context) (rnd : RandRead) (c : DeleteNodeACLCommand) : GoM Pg unit :=
  let tenantID := DeleteNodeACLCommand_TenantID c in
  let actor := DeleteNodeACLCommand_ActorPrincipalID c in
  let nodeID := DeleteNodeACLCommand_NodeID c in
  with_tx "could not delete node ACL" (
    _ ← lockTenant tenantID;
    _ ← authorizeNodeTx tenantID actor (DeleteNodeACLCommand_ActorRole c) nodeID NodeCapabilityManageACL;
    affected ← must CodeInternal "could not delete node ACL" (tx_query (
      t ← uuid tenantID;
      n ← uuid nodeID;
      i ← uuid (DeleteNodeACLCommand_EntryID c);
      delete_acl t n i));
    if affected =? 0 then throw (E CodeNotFound "ACL entry was not found") else
    _ ← appendAuditTx ctx rnd tenantID actor "node.acl.deleted" "node_acl" (DeleteNodeACLCommand_EntryID c)
          (DeleteNodeACLCommand_Now c) [("node_id", nodeID)];
    commit).

(** ** Audit events *)

Definition AppendAudit (ctx : Context) (event : AuditEvent) : GoM Pg unit :=
  encoded ← lift (encodeAuditMetadata (AuditEvent_Metadata event));
  let requestID := if AuditEvent_RequestID event == "" then RequestIDFromContext ctx
                   else AuditEvent_RequestID event in
  must CodeInternal "could not append audit event" (pool_query
    (audit_statement (AuditEvent_ID event) (AuditEvent_TenantID event) (AuditEvent_ActorPrincipalID event)
       (AuditEvent_Action event) (AuditEvent_TargetType event) (AuditEvent_TargetID event) requestID encoded
       (AuditEvent_OccurredAt event))).

Definition nullTime (value : Time) : option Time := if IsZero value then None else Some value.

Definition scanAudit (kv : Z * audit_event_row) (metadata : gmap string string) : AuditEvent :=
  let '(sequence, e) := kv in
  mkAuditEvent sequence (ae_id e) (ae_tenant_id e) (text_or_empty (ae_actor_principal_id e)) (ae_action e)
    (ae_target_type e) (text_or_empty (ae_target_id e)) (ae_request_id e) metadata (ae_occurred_at e).

(** The loop over the rows of [ListAudit]. *)
Fixpoint decode_events (rows : list (Z * audit_event_row)) : Outcome (list AuditEvent) :=
  match rows with
  | [] => Ok []
  | kv :: rows =>
    match Unmarshal_metadata (ae_metadata kv.2) with
    | None => Err (EC CodeInternal "stored audit metadata is invalid" (Some (PlainError "json")))
    | Some metadata => items ← decode_events rows; Ok (scanAudit kv metadata :: items)
    end
  end.

Definition ListAudit (f : AuditFilter) : GoM Pg (list AuditEvent) :=
  let limit := if (AuditFilter_Limit f <=? 0) || (1000 <? AuditFilter_Limit f) then 100
               else AuditFilter_Limit f in
  rows ← must CodeInternal "could not list audit events" (pool_query (
    t ← uuid (AuditFilter_TenantID f);
    db ← table_of;
    limit_rows limit (sort_slice (λ x y : Z * audit_event_row, x.1 <? y.1)
      (rows_where (db_audit_event db) (λ sequence e,
         (ae_tenant_id e == t) && (AuditFilter_AfterSequence f <? sequence) &&
         match nullTime (AuditFilter_From f) with Some u => pg_time u <=? ae_occurred_at e | None => true end &&
         match nullTime (AuditFilter_Until f) with Some u => ae_occurred_at e <? pg_time u | None => true end)))));
  lift (decode_events rows).
End with_engine.
