(* ===== verification/PgLogic.v ===== *)
(** * Reasoning about statements and transactions

    [swp q Q] says what holds of the result and of the next database when the
    statement [q] succeeds. For a method, [pkeeps I m] says that [m] keeps [I] of
    the committed database and of the view of its transaction; [okwp I m Q] says
    that whatever happens the committed database satisfies [I], and that when [m]
    returns a value, this value and the databases satisfy [Q]. The rules follow the
    structure of a body; [sql] and [okwp_go] apply them. *)
From S2P Require Import Prelude Errors Logic GoLib Types Validation PgCore PgSchema PgRepository.
From S2P Require Import PgIdempotency.

(** ** Statements *)

Definition swp {D A} (q : Stmt D A) (Q : A → D → Prop) (n : nat) (d : D) : Prop :=
  match q n d with Returns a d' => Q a d' | _ => True end.

Section statements.
Context {D : Type}.
Implicit Types (d : D).

Lemma swp_bind {A B} (m : Stmt D A) (f : A → Stmt D B) Q n d :
  swp m (λ a d', swp (f a) Q n d') n d → swp (m ≫= f) Q n d.
Proof. unfold swp, mbind, Stmt_bind. by destruct (m n d). Qed.
Lemma swp_ret {A} (a : A) (Q : A → D → Prop) n d : Q a d → swp (mret a) Q n d.
Proof. exact id. Qed.
Lemma swp_refuse {A} e (Q : A → D → Prop) n d : swp (refuse e) Q n d.
Proof. exact I. Qed.
Lemma swp_refuse_if b e (Q : unit → D → Prop) n d : (b = false → Q tt d) → swp (refuse_if b e) Q n d.
Proof. unfold swp, refuse_if. destruct b; auto. Qed.
Lemma swp_table (Q : D → D → Prop) n d : Q d d → swp table_of Q n d.
Proof. exact id. Qed.
Lemma swp_store d' (Q : unit → D → Prop) n d : Q tt d' → swp (store d') Q n d.
Proof. exact id. Qed.
Lemma swp_number (Q : nat → D → Prop) n d : Q n d → swp statement_number Q n d.
Proof. exact id. Qed.
Lemma swp_ends {A} (o : option A) (Q : A → D → Prop) n d : (∀ a, o = Some a → Q a d) → swp (ends o) Q n d.
Proof. unfold swp, ends. destruct o; auto. Qed.
Lemma swp_uuid `{!PgEngine} s (Q : string → D → Prop) n d :
  (∀ u, uuid_in s = Some u → Q u d) → swp (uuid s) Q n d.
Proof. unfold swp, uuid. destruct (uuid_in s); [|done]. intros HQ. by apply HQ. Qed.
Lemma swp_uuid_null `{!PgEngine} s (Q : option string → D → Prop) n d :
  (s = "" → Q None d) → (∀ u, s ≠ "" → uuid_in s = Some u → Q (Some u) d) → swp (uuid_null s) Q n d.
Proof.
  intros H1 H2. unfold uuid_null. case_bool_decide; [by apply swp_ret, H1|].
  apply swp_bind, swp_uuid. intros u Hu. by apply swp_ret, H2.
Qed.
Lemma swp_uuid_opt `{!PgEngine} o (Q : option string → D → Prop) n d :
  (∀ o', Q o' d) → swp (uuid_opt o) Q n d.
Proof. intros HQ. destruct o; simpl; [|by apply swp_ret]. apply swp_bind, swp_uuid. intros. by apply swp_ret. Qed.
Lemma swp_integer z (Q : Z → D → Prop) n d : Q z d → swp (integer z) Q n d.
Proof. unfold swp, integer. intros. by destruct (_ && _)%bool. Qed.
Lemma swp_first_row {A} (rows : list A) (Q : A → D → Prop) n d :
  (∀ x l, rows = x :: l → Q x d) → swp (first_row rows) Q n d.
Proof. unfold swp, first_row. destruct rows; [done|]. intros H. by eapply H. Qed.
Lemma swp_limit_rows {A} z (rows : list A) (Q : list A → D → Prop) n d :
  (0 ≤ z → Q (take (Z.to_nat z) rows) d) → swp (limit_rows z rows) Q n d.
Proof. unfold swp, limit_rows. intros HQ. destruct (z <? 0) eqn:E; [done|]. apply HQ. lia. Qed.
Lemma swp_successor_fits bits l (Q : unit → D → Prop) n d :
  ((∀ z, z ∈ l → z + 1 < 2 ^ (bits - 1)) → Q tt d) → swp (successor_fits bits l) Q n d.
Proof.
  intros HQ. apply swp_refuse_if. intros Hb. apply HQ. intros z Hz.
  apply not_true_iff_false in Hb. rewrite existsb_exists in Hb.
  apply Z.nle_gt. intros Hle. apply Hb. exists z. split; [by apply list_elem_of_In|by apply Z.leb_le].
Qed.
Lemma swp_mono {A} (q : Stmt D A) (Q Q' : A → D → Prop) n d :
  swp q Q n d → (∀ a d', Q a d' → Q' a d') → swp q Q' n d.
Proof. unfold swp. destruct (q n d); auto. Qed.
Lemma swp_returns {A} (q : Stmt D A) (Q : A → D → Prop) n d a d' :
  swp q Q n d → q n d = Returns a d' → Q a d'.
Proof. unfold swp. intros HQ Hq. by rewrite Hq in HQ. Qed.
Lemma swp_if {A} (b : bool) (q1 q2 : Stmt D A) Q n d :
  (b = true → swp q1 Q n d) → (b = false → swp q2 Q n d) → swp (if b then q1 else q2) Q n d.
Proof. destruct b; auto. Qed.
End statements.

Ltac sql_step :=
  lazymatch goal with
  | |- swp (mbind _ _) _ _ _ => apply swp_bind
  | |- swp (mret _) _ _ _ => apply swp_ret
  | |- swp (refuse _) _ _ _ => apply swp_refuse
  | |- swp (refuse_if _ _) _ _ _ => apply swp_refuse_if; intros ?
  | |- swp table_of _ _ _ => apply swp_table
  | |- swp (store _) _ _ _ => apply swp_store
  | |- swp statement_number _ _ _ => apply swp_number
  | |- swp (ends _) _ _ _ => apply swp_ends; intros ? ?
  | |- swp (uuid _) _ _ _ => apply swp_uuid; intros ? ?
  | |- swp (uuid_null _) _ _ _ => apply swp_uuid_null; [intros ?|intros ? ? ?]
  | |- swp (uuid_opt _) _ _ _ => apply swp_uuid_opt; intros ?
  | |- swp (integer _) _ _ _ => apply swp_integer
  | |- swp (first_row _) _ _ _ => apply swp_first_row; intros ? ? ?
  | |- swp (limit_rows _ _) _ _ _ => apply swp_limit_rows; intros ?
  | |- swp (successor_fits _ _) _ _ _ => apply swp_successor_fits; intros ?
  | |- swp (placeholders _) _ _ _ => apply swp_refuse_if; intros ?
  | |- swp (let x := ?a in @?b x) ?Q ?n ?d =>
      let y := fresh x in pose (y := a); change (swp (b y) Q n d)
  | |- swp (match ?x with _ => _ end) _ _ _ => destruct x eqn:?
  end.
Ltac sql := repeat (cbv beta iota; sql_step); cbv beta iota.

(** The row a query has found. *)
Ltac found_row := repeat match goal with
  | H : rows_where _ _ = ?kv :: _ |- _ =>
    first [is_var kv; destruct kv | idtac]; apply rows_where_first in H as [? ?]; simpl in *
  end; go_bool.
Ltac the_row := found_row; simplify_eq.

(** ** Methods: what is kept *)

(** A committed database also satisfies the constraints that are deferred. *)
Definition committed (I : DB → Prop) (d : DB) : Prop := I d ∧ deferred_violation d = None.
Definition pkeeps {A} (I : DB → Prop) (m : GoM Pg A) : Prop :=
  ∀ s, committed I (pg_store s) → I (pg_work s) →
    wp m (λ _ s', committed I (pg_store s') ∧ I (pg_work s')) s.
Definition skeeps {A} (I : DB → Prop) (q : Stmt DB A) : Prop :=
  ∀ n d, I d → swp q (λ _ d', I d') n d.
(** A statement that only reads. *)
Definition reads {A} (q : Stmt DB A) : Prop := ∀ n d, swp q (λ _ d', d' = d) n d.

Section keeps.
Context `{!PgEnv} {I : DB → Prop}.

Lemma reads_keeps {A} (q : Stmt DB A) : reads q → skeeps I q.
Proof. intros Hq n d Hd. eapply swp_mono; [apply Hq|]. by intros _ ? ->. Qed.

Lemma pkeeps_bind {A B} (m : GoM Pg A) (f : A → GoM Pg B) :
  pkeeps I m → (∀ a, pkeeps I (f a)) → pkeeps I (m ≫= f).
Proof.
  intros Hm Hf s H1 H2. apply wp_bind. eapply wp_mono; [by apply Hm|].
  intros [] s' [??]; simpl; [by apply Hf|done..].
Qed.
Lemma pkeeps_ret {A} (a : A) : pkeeps I (ret a).
Proof. by intros s ??. Qed.
Lemma pkeeps_throw {A} e : pkeeps I (throw e : GoM Pg A).
Proof. by intros s ??. Qed.
Lemma pkeeps_panic {A} p : pkeeps I (panic p : GoM Pg A).
Proof. by intros s ??. Qed.
Lemma pkeeps_get : pkeeps I getS.
Proof. by intros s ??. Qed.
Lemma pkeeps_lift {A} (o : Outcome A) : pkeeps I (lift o).
Proof. by intros s ??. Qed.
Lemma pkeeps_check_err err : pkeeps I (check_err err).
Proof. by destruct err; intros s ??. Qed.
Lemma pkeeps_make_slice z : pkeeps I (make_slice z).
Proof. unfold make_slice. intros s ??. by case_match. Qed.
Lemma pkeeps_cut_page {A} limit (l : list A) : pkeeps I (cut_page limit l).
Proof. intros s ??. unfold cut_page. wp_go; done. Qed.
Lemma pkeeps_try {A} (m : GoM Pg A) : pkeeps I m → pkeeps I (try_ m).
Proof. intros Hm s ??. apply wp_try. eapply wp_mono; [by apply Hm|]. by intros []. Qed.
Lemma pkeeps_for_range {A} (l : list A) body : (∀ x, pkeeps I (body x)) → pkeeps I (for_range l body).
Proof.
  intros Hb s ??. apply (wp_for_range l body (λ s, committed I (pg_store s) ∧ I (pg_work s))); [done|].
  intros x s' _ [??]. by apply Hb.
Qed.

Lemma pkeeps_tx_query {A} (q : Stmt DB A) : skeeps I q → pkeeps I (tx_query q).
Proof.
  intros Hq s Hst Hw. unfold wp, tx_query. case_match; [done|].
  pose proof (Hq (pg_statements s) (pg_work s) Hw) as Hs. unfold swp in Hs. simpl.
  by destruct (q _ _).
Qed.
Lemma pkeeps_pool_query {A} (q : Stmt DB A) : skeeps I q → pkeeps I (pool_query q).
Proof.
  intros Hq s Hst Hw. unfold wp, pool_query. simpl.
  pose proof (Hq (pg_statements s) (pg_store s) (proj1 Hst)) as Hs. unfold swp in Hs.
  destruct (env_fault (pg_statements s)), (env_applied (pg_statements s)), (q (pg_statements s) (pg_store s)); simpl; try done; by case_match.
Qed.
Lemma pkeeps_commit : pkeeps I commit.
Proof. intros s ??. unfold wp, commit. repeat case_match; done. Qed.
Lemma pkeeps_begin_tx message : pkeeps I (begin_tx message).
Proof. intros s [??] ?. unfold wp, begin_tx. by case_match. Qed.
Lemma pkeeps_then_rollback {A} (body : GoM Pg A) : pkeeps I body → pkeeps I (then_rollback body).
Proof.
  intros Hb s Hst Hw. specialize (Hb s Hst Hw). unfold wp, then_rollback in *.
  destruct (body s) as [o s']. simpl in *. by destruct Hb as [[??] _].
Qed.
Lemma pkeeps_with_tx {A} message (body : GoM Pg A) : pkeeps I body → pkeeps I (with_tx message body).
Proof. intros. apply pkeeps_bind; [apply pkeeps_begin_tx|intros _; by apply pkeeps_then_rollback]. Qed.
Lemma pkeeps_must {A} code message (q : GoM Pg (PgErr + A)) : pkeeps I q → pkeeps I (must code message q).
Proof. intros. apply pkeeps_bind; [done|]. intros []; [apply pkeeps_throw|apply pkeeps_ret]. Qed.
Lemma pkeeps_must_find {A} e code message (q : GoM Pg (PgErr + A)) :
  pkeeps I q → pkeeps I (must_find e code message q).
Proof. intros. apply pkeeps_bind; [done|]. intros [[]|]; (apply pkeeps_throw || apply pkeeps_ret). Qed.
Lemma pkeeps_may_find {A} code message (q : GoM Pg (PgErr + A)) :
  pkeeps I q → pkeeps I (may_find code message q).
Proof. intros. apply pkeeps_bind; [done|]. intros [[]|]; (apply pkeeps_throw || apply pkeeps_ret). Qed.
End keeps.

Ltac pkeeps_step :=
  lazymatch goal with
  | |- pkeeps _ (mbind _ _) => apply pkeeps_bind; [|intros ?]
  | |- pkeeps _ (ret _) => apply pkeeps_ret
  | |- pkeeps _ (throw _) => apply pkeeps_throw
  | |- pkeeps _ (panic _) => apply pkeeps_panic
  | |- pkeeps _ getS => apply pkeeps_get
  | |- pkeeps _ (lift _) => apply pkeeps_lift
  | |- pkeeps _ (check_err _) => apply pkeeps_check_err
  | |- pkeeps _ (make_slice _) => apply pkeeps_make_slice
  | |- pkeeps _ (cut_page _ _) => apply pkeeps_cut_page
  | |- pkeeps _ (try_ _) => apply pkeeps_try
  | |- pkeeps _ (for_range _ _) => apply pkeeps_for_range; intros ?
  | |- pkeeps _ (must _ _ _) => apply pkeeps_must
  | |- pkeeps _ (must_find _ _ _ _) => apply pkeeps_must_find
  | |- pkeeps _ (may_find _ _ _) => apply pkeeps_may_find
  | |- pkeeps _ (with_tx _ _) => apply pkeeps_with_tx
  | |- pkeeps _ (then_rollback _) => apply pkeeps_then_rollback
  | |- pkeeps _ (begin_tx _) => apply pkeeps_begin_tx
  | |- pkeeps _ commit => apply pkeeps_commit
  | |- pkeeps _ (tx_query _) => apply pkeeps_tx_query
  | |- pkeeps _ (pool_query _) => apply pkeeps_pool_query
  | |- pkeeps _ (let x := ?a in @?b x) =>
      let y := fresh x in pose (y := a); lazymatch goal with |- pkeeps ?I _ => change (pkeeps I (b y)) end
  | |- pkeeps _ (match ?x with _ => _ end) => destruct x eqn:?
  end.
Ltac pkeeps_go := repeat (cbv beta iota; pkeeps_step); cbv beta iota.

(** ** Methods: what holds of a returned value *)

Definition okwp {A} (I : DB → Prop) (m : GoM Pg A) (Q : A → DB → DB → Prop) (st w : DB) : Prop :=
  ∀ n, I (pg_store (m (mkPg st w n)).2) ∧
    match m (mkPg st w n) with (Ok a, s') => Q a (pg_store s') (pg_work s') | _ => True end.

Section okwp.
Context `{!PgEnv} {I : DB → Prop}.
Implicit Types (st w : DB).

Lemma okwp_bind {A B} (m : GoM Pg A) (f : A → GoM Pg B) Q st w :
  okwp I m (λ a st' w', I st' → okwp I (f a) Q st' w') st w → okwp I (m ≫= f) Q st w.
Proof.
  intros Hm n. destruct (Hm n) as [HI Hok]. unfold mbind, GoM_bind.
  destruct (m (mkPg st w n)) as [[a|e|p|] [st' w' n']]; simpl in *; try done. by apply Hok.
Qed.
Lemma okwp_ret {A} (a : A) (Q : A → DB → DB → Prop) st w : I st → Q a st w → okwp I (ret a) Q st w.
Proof. by intros ?? n. Qed.
Lemma okwp_throw {A} e (Q : A → DB → DB → Prop) st w : I st → okwp I (throw e) Q st w.
Proof. by intros ? n. Qed.
Lemma okwp_panic {A} p (Q : A → DB → DB → Prop) st w : I st → okwp I (panic p) Q st w.
Proof. by intros ? n. Qed.
Lemma okwp_lift {A} (o : Outcome A) (Q : A → DB → DB → Prop) st w :
  I st → (∀ a, o = Ok a → Q a st w) → okwp I (lift o) Q st w.
Proof. intros ? HQ n. split; [done|]. unfold lift. destruct o; auto. Qed.
Lemma okwp_check_err err (Q : unit → DB → DB → Prop) st w :
  I st → (err = None → Q tt st w) → okwp I (check_err err) Q st w.
Proof. intros ? HQ n. destruct err; split; simpl; auto. Qed.
Lemma okwp_getS (Q : Pg → DB → DB → Prop) st w : I st → (∀ n, Q (mkPg st w n) st w) → okwp I getS Q st w.
Proof. intros ? HQ n. by split; [|apply HQ]. Qed.
Lemma okwp_make_slice z (Q : unit → DB → DB → Prop) st w :
  I st → (0 ≤ z → Q tt st w) → okwp I (make_slice z) Q st w.
Proof. intros ? HQ n. unfold make_slice. case_match; split; try done. apply HQ. lia. Qed.

Lemma okwp_query {A} (q : Stmt DB A) (Q : PgErr + A → DB → DB → Prop) st w :
  I st → (∀ e, Q (inl e) st w) → (∀ n, swp q (λ a w', Q (inr a) st w') n w) →
  okwp I (tx_query q) Q st w.
Proof.
  intros ? He Hq n. unfold tx_query. simpl. specialize (Hq n). unfold swp in Hq.
  destruct (env_fault n); [by split|]. by destruct (q n w).
Qed.
Lemma okwp_must {A} code message (q : Stmt DB A) (Q : A → DB → DB → Prop) st w :
  I st → (∀ n, swp q (λ a w', Q a st w') n w) → okwp I (must code message (tx_query q)) Q st w.
Proof.
  intros ? Hq. apply okwp_bind, okwp_query; [done|intros ??; by apply okwp_throw|].
  intros n. eapply swp_mono; [apply Hq|]. intros. by apply okwp_ret.
Qed.
Lemma okwp_must_find {A} e code message (q : Stmt DB A) (Q : A → DB → DB → Prop) st w :
  I st → (∀ n, swp q (λ a w', Q a st w') n w) → okwp I (must_find e code message (tx_query q)) Q st w.
Proof.
  intros ? Hq. apply okwp_bind, okwp_query; [done|intros [] ?; by apply okwp_throw|].
  intros n. eapply swp_mono; [apply Hq|]. intros. by apply okwp_ret.
Qed.
Lemma okwp_may_find {A} code message (q : Stmt DB A) (Q : option A → DB → DB → Prop) st w :
  I st → Q None st w → (∀ n, swp q (λ a w', Q (Some a) st w') n w) →
  okwp I (may_find code message (tx_query q)) Q st w.
Proof.
  intros ? HN Hq. apply okwp_bind, okwp_query; [done|intros [] ?; (by apply okwp_ret) || (by apply okwp_throw)|].
  intros n. eapply swp_mono; [apply Hq|]. intros. by apply okwp_ret.
Qed.
Lemma okwp_pool {A} (q : Stmt DB A) (Q : PgErr + A → DB → DB → Prop) st w :
  I st → (∀ e st', I st' → Q (inl e) st' w) →
  (∀ n, swp q (λ a st', deferred_violation st' = None → I st' ∧ Q (inr a) st' w) n st) →
  okwp I (pool_query q) Q st w.
Proof.
  intros ? He Hq n. unfold pool_query. simpl. specialize (Hq n). unfold swp in Hq.
  destruct (q n st) as [a d'|e|]; [destruct (deferred_violation d') eqn:Hd; [|destruct (Hq eq_refl)]|..];
    destruct (env_fault n), (env_applied n); simpl; auto.
Qed.
Lemma okwp_must_pool {A} code message (q : Stmt DB A) (Q : A → DB → DB → Prop) st w :
  I st → (∀ n, swp q (λ a st', deferred_violation st' = None → I st' ∧ Q a st' w) n st) →
  okwp I (must code message (pool_query q)) Q st w.
Proof.
  intros ? Hq. apply okwp_bind, okwp_pool; [done|intros ????; by apply okwp_throw|].
  intros n. eapply swp_mono; [apply Hq|]. intros a d' HQ Hd. destruct (HQ Hd). split; [done|].
  intros. by apply okwp_ret.
Qed.
Lemma okwp_commit (Q : unit → DB → DB → Prop) st w :
  I st → (deferred_violation w = None → I w ∧ Q tt w w) → okwp I commit Q st w.
Proof.
  intros ? HQ n. unfold commit. simpl. destruct (deferred_violation w); [by split|].
  destruct (HQ eq_refl). destruct (env_fault n); [by destruct (env_applied n); split|by split].
Qed.
Lemma okwp_with_tx {A} message (body : GoM Pg A) (Q : A → DB → DB → Prop) st w :
  I st → okwp I body (λ a st' _, Q a st' st') st st → okwp I (with_tx message body) Q st w.
Proof.
  intros ? Hb n. unfold with_tx, begin_tx, then_rollback, mbind, GoM_bind. simpl.
  destruct (env_fault n); [by split|]. simpl. specialize (Hb (S n)).
  change (set_field pg_work (λ _, st) (mkPg st w (S n))) with (mkPg st st (S n)).
  destruct (body _) as [[] s']; simpl in *; by destruct Hb.
Qed.
Lemma okwp_for_range {A} (l : list A) body (J : DB → DB → Prop) st w : J st w →
  (∀ x st w, x ∈ l → J st w → okwp I (body x) (λ _ st' w', J st' w') st w) → I st →
  okwp I (for_range l body) (λ _ st' w', J st' w') st w.
Proof.
  revert st w. induction l as [|x l IH]; intros st w HJ Hb HI; simpl; [by apply okwp_ret|].
  apply okwp_bind. intros n. destruct (Hb x st w ltac:(by left) HJ n) as [? Hx]. split; [done|].
  destruct (body x _) as [[] s']; try done. intros HI'. apply IH; [done| |done].
  intros y ????. apply Hb; [by right|done].
Qed.
Lemma okwp_mono {A} (m : GoM Pg A) (Q Q' : A → DB → DB → Prop) st w :
  okwp I m Q st w → (∀ a st' w', Q a st' w' → Q' a st' w') → okwp I m Q' st w.
Proof.
  intros Hm HQ n. destruct (Hm n) as [? Hok]. split; [done|]. destruct (m _) as [[] s']; auto.
Qed.
(** A body that keeps a predicate of the view of its transaction. *)
Lemma okwp_keeps {A} (m : GoM Pg A) (J : DB → Prop) (Q : A → DB → DB → Prop) st w : pkeeps J m →
  committed J st → J w → (∀ d, committed J d → I d) → (∀ a st' w', committed J st' → J w' → Q a st' w') →
  okwp I m Q st w.
Proof.
  intros Hm Hst Hw HI HQ n. destruct (Hm (mkPg st w n) Hst Hw) as [??].
  split; [by apply HI|]. destruct (m _) as [[] s']; auto.
Qed.
End okwp.

Section helpers.
Context `{!MapRange, !PgEngine, !PgEnv} {I : DB → Prop}.

(** The helpers of the methods: what they leave alone. *)
Definition only_audit (d d' : DB) : Prop :=
  d' <| db_audit_event := ∅ |> <| db_audit_sequence := 0 |> =
  d <| db_audit_event := ∅ |> <| db_audit_sequence := 0 |>.
Definition only_claims (d d' : DB) : Prop :=
  d' <| db_idempotency_record := ∅ |> = d <| db_idempotency_record := ∅ |>.

Lemma okwp_appendAuditTx ctx b tenant actor action type target now metadata
    (Q : unit → DB → DB → Prop) st w : I st →
  (∀ w' id, only_audit w w' → NewID b = Ok id →
    (∃ encoded, encodeAuditMetadata (list_to_map metadata) = Ok encoded) → Q tt st w') →
  okwp I (appendAuditTx ctx b tenant actor action type target now metadata) Q st w.
Proof.
  intros ? HQ. unfold appendAuditTx. apply okwp_bind.
  destruct (NewID b) as [id|e|p|] eqn:Hid; [apply okwp_ret; [done|]|by apply okwp_throw|by apply okwp_panic|by apply okwp_lift].
  intros _. apply okwp_bind, okwp_lift; [done|]. intros encoded Henc _. apply okwp_must; [done|].
  intros n. unfold audit_statement, insert_audit. sql; (eapply HQ; [reflexivity|done|by eauto]).
Qed.
Lemma okwp_lockNamespace tenant (Q : string → DB → DB → Prop) st w : I st →
  (∀ t row, uuid_in tenant = Some t → db_tenant w !! t = Some row → is_Some (tenant_root_node_id row) →
    Q (text_or_empty (tenant_root_node_id row)) st w) → okwp I (lockNamespace tenant) Q st w.
Proof.
  intros ? HQ. apply okwp_must; [done|]. intros n. sql. destruct x as [k row]. simpl.
  the_row.
  go_bool. subst. eapply HQ; [done..|]. by destruct (tenant_root_node_id row).
Qed.
Lemma okwp_completeIdempotency `{!Platform} request resource now (Q : unit → DB → DB → Prop) st w : I st →
  (∀ w', only_claims w w' → Q tt st w') → okwp I (completeIdempotency request resource now) Q st w.
Proof.
  intros ? HQ. unfold completeIdempotency. destruct request as [request|]; [|by apply okwp_ret, HQ].
  apply okwp_bind, okwp_check_err; [done|]. intros _ _. destruct (negb _); [by apply okwp_throw|].
  apply okwp_bind, okwp_must; [done|]. intros n. unfold idempotency_key, update_idempotency. sql; intros _;
    destruct (negb _); (by apply okwp_throw) || (apply okwp_ret; [done|]; by apply HQ).
Qed.
End helpers.

Ltac okwp_step :=
  lazymatch goal with
  | |- okwp _ (mbind _ _) _ _ _ => apply okwp_bind
  | |- okwp _ (ret _) _ _ _ => apply okwp_ret; [try assumption|]
  | |- okwp _ (throw _) _ _ _ => apply okwp_throw; try assumption
  | |- okwp _ (panic _) _ _ _ => apply okwp_panic; try assumption
  | |- okwp _ (lift _) _ _ _ => apply okwp_lift; [try assumption|intros ? ?]
  | |- okwp _ (check_err _) _ _ _ => apply okwp_check_err; [try assumption|intros ?]
  | |- okwp _ getS _ _ _ => apply okwp_getS; [try assumption|intros ?]
  | |- okwp _ (make_slice _) _ _ _ => apply okwp_make_slice; [try assumption|intros ?]
  | |- okwp _ (must _ _ (tx_query _)) _ _ _ => apply okwp_must; [try assumption|intros ?]
  | |- okwp _ (must_find _ _ _ (tx_query _)) _ _ _ => apply okwp_must_find; [try assumption|intros ?]
  | |- okwp _ (may_find _ _ (tx_query _)) _ _ _ => apply okwp_may_find; [try assumption| |intros ?]
  | |- okwp _ (must _ _ (pool_query _)) _ _ _ => apply okwp_must_pool; [try assumption|intros ?]
  | |- okwp _ (with_tx _ _) _ _ _ => apply okwp_with_tx; [try assumption|]
  | |- okwp _ (lockNamespace _) _ _ _ => apply okwp_lockNamespace; [try assumption|intros ? ? ? ? ?]
  | |- okwp _ (appendAuditTx _ _ _ _ _ _ _ _ _) _ _ _ =>
      apply okwp_appendAuditTx; [try assumption|intros ? ? ? ? ?]
  | |- okwp _ (completeIdempotency _ _ _) _ _ _ => apply okwp_completeIdempotency; [try assumption|intros ? ?]
  | |- okwp _ (let x := ?a in @?b x) ?Q ?st ?w =>
      let y := fresh x in pose (y := a); lazymatch goal with |- okwp ?I _ _ _ _ => change (okwp I (b y) Q st w) end
  | |- okwp _ (match ?x with _ => _ end) _ _ _ => destruct x eqn:?
  | |- swp _ _ _ _ => sql_step
  end.
Ltac okwp_go := repeat (cbv beta iota; first [okwp_step | progress intros]); cbv beta iota.
