(* ===== verification/PgWrites.v ===== *)
(** * What the methods of the PostgreSQL repository write

    [db_write k] is one write to the database, with what the server has checked
    before it accepts it: one constructor for each kind [k] of write the statements
    make. [pg_method ks m] says that [m] is a method of the port, and that its
    statements make writes of the kinds [ks] only ([pg_method_writes]). *)
From S2P Require Import Prelude Errors Logic GoLib Types Validation PgCore PgSchema PgRepository.
From S2P Require Import PgIdempotency PgLogic.

Inductive Kind : Type :=
| TenantNew | TenantRoot | Nodes | BlobNew | Blobs | Versions | UploadNew | Uploads | Parts | Signatures
| PrincipalNew | MemberNew | MemberSet | MemberDelete | Claims | InvitationNew | InvitationSet
| GroupNew | GroupSet | GroupDelete | GroupMembers | ACLs | AuditEvents.
#[export] Instance Kind_eq_dec : EqDecision Kind.
Proof. solve_decision. Defined.

(** The rows [rows] of the table [t'] are those that differ from [t]; no row goes, and
    none moves to another tenant. *)
Record nodes_changed (t t' : gmap string file_node_row) (rows : list (string * file_node_row)) : Prop := {
  nc_row k n : t' !! k = Some n → t !! k = Some n ∨ (k, n) ∈ rows;
  nc_kept k n : t !! k = Some n → ∃ n', t' !! k = Some n' ∧ fn_tenant_id n' = fn_tenant_id n;
  nc_new k n : (k, n) ∈ rows → t' !! k = Some n
}.
(** What is checked of a row of the table [t] that replaces the one of [d]. *)
Definition accepted (d : DB) (t : gmap string file_node_row) (k : string) (n : file_node_row) : Prop :=
  file_node_check n = true ∧ second_root t k n = false ∧ name_taken t k n = false ∧
  file_node_ref (d <| db_file_node := t |>) n = true.
(** What the foreign keys and the unique indexes of other tables read of an upload. *)
Definition same_upload (u u' : upload_session_row) : Prop :=
  us_tenant_id u' = us_tenant_id u ∧ us_bucket u' = us_bucket u ∧ us_object_key u' = us_object_key u ∧
  us_parent_id u' = us_parent_id u.
Definition same_blob (b b' : blob_row) : Prop :=
  blob_tenant_id b' = blob_tenant_id b ∧ blob_bucket b' = blob_bucket b ∧
  blob_object_key b' = blob_object_key b.

Inductive db_write : Kind → DB → DB → Prop :=
| write_tenant_new d id row : db_tenant d !! id = None →
    db_write TenantNew d (d <| db_tenant := <[id := row]> (db_tenant d) |>)
| write_tenant_root d p f : (∀ k r, tenant_display_name (f k r) = tenant_display_name r) →
    db_write TenantRoot d (d <| db_tenant := update_where (db_tenant d) p f |>)
| write_nodes d t rows : nodes_changed (db_file_node d) t rows →
    (∀ k n, (k, n) ∈ rows → accepted d t k n) →
    db_write Nodes d (d <| db_file_node := t |>)
| write_blob_new d id b : blob_check b = true → db_blob d !! id = None →
    (∀ k c, db_blob d !! k = Some c → blob_bucket c = blob_bucket b → blob_object_key c ≠ blob_object_key b) →
    has_key (db_tenant d) (blob_tenant_id b) = true →
    db_write BlobNew d (d <| db_blob := <[id := b]> (db_blob d) |>)
| write_blobs d p f : (∀ k b, db_blob d !! k = Some b → p k b = true → blob_check (f k b) = true) →
    (∀ k b, same_blob b (f k b)) →
    db_write Blobs d (d <| db_blob := update_where (db_blob d) p f |>)
| write_version d id v : 0 ≤ fv_size_bytes v → db_file_version d !! id = None →
    has_key (db_tenant d) (fv_tenant_id v) = true → blob_ref d (fv_tenant_id v) (fv_blob_id v) = true →
    db_write Versions d (d <| db_file_version := <[id := v]> (db_file_version d) |>)
| write_upload_new d id u : upload_check u = true → db_upload_session d !! id = None →
    (∀ k v, db_upload_session d !! k = Some v → us_bucket v = us_bucket u → us_object_key v ≠ us_object_key u) →
    has_key (db_tenant d) (us_tenant_id u) = true → node_ref d (us_tenant_id u) (us_parent_id u) = true →
    db_write UploadNew d (d <| db_upload_session := <[id := u]> (db_upload_session d) |>)
| write_uploads d p f :
    (∀ k u, db_upload_session d !! k = Some u → p k u = true → upload_check (f k u) = true) →
    (∀ k u, same_upload u (f k u)) →
    db_write Uploads d (d <| db_upload_session := update_where (db_upload_session d) p f |>)
| write_part d k row : upload_part_check k.2 row = true →
    (is_Some (db_upload_part d !! k) ∨ upload_ref d k.1.1 k.1.2 = true) →
    db_write Parts d (d <| db_upload_part := <[k := row]> (db_upload_part d) |>)
| write_signature d k row : part_signature_check k.2 row = true →
    (is_Some (db_upload_part_signature d !! k) ∨ upload_ref d k.1.1 k.1.2 = true) →
    db_write Signatures d (d <| db_upload_part_signature := <[k := row]> (db_upload_part_signature d) |>)
| write_principal d id p : pr_issuer p ≠ "" → pr_subject p ≠ "" → db_principal d !! id = None →
    (∀ k q, db_principal d !! k = Some q → pr_issuer q = pr_issuer p → pr_subject q ≠ pr_subject p) →
    db_write PrincipalNew d (d <| db_principal := <[id := p]> (db_principal d) |>)
| write_member_new d k m : member_check m = true → db_tenant_member d !! k = None →
    has_key (db_tenant d) k.1 = true → has_key (db_principal d) k.2 = true →
    db_write MemberNew d (d <| db_tenant_member := <[k := m]> (db_tenant_member d) |>)
| write_member_set d k m m' : db_tenant_member d !! k = Some m → member_check m' = true →
    db_write MemberSet d (d <| db_tenant_member := <[k := m']> (db_tenant_member d) |>)
| write_member_delete d k :
    db_write MemberDelete d (d <| db_tenant_member := delete k (db_tenant_member d) |>
            <| db_tenant_group_member := delete_where (db_tenant_group_member d)
                 (λ '(t, _, p) _, (t == k.1) && (p == k.2)) |>
            <| db_node_acl := delete_where (db_node_acl d)
                 (λ _ a, (na_tenant_id a == k.1) && (na_principal_id a == Some k.2)) |>)
| write_claim d k r : idempotency_check k r = true →
    (is_Some (db_idempotency_record d !! k) ∨ has_key (db_tenant d) k.1.1.1 = true) →
    db_write Claims d (d <| db_idempotency_record := <[k := r]> (db_idempotency_record d) |>)
| write_claims_delete d p :
    db_write Claims d (d <| db_idempotency_record := delete_where (db_idempotency_record d) p |>)
| write_invitation_new d id i : invitation_check i = true → db_tenant_invitation d !! id = None →
    (∀ k j, db_tenant_invitation d !! k = Some j → ti_token_hash j ≠ ti_token_hash i) →
    (ti_status i = "pending" → ∀ k j, db_tenant_invitation d !! k = Some j → ti_status j = "pending" →
      ti_tenant_id j = ti_tenant_id i → ti_issuer j = ti_issuer i → ti_subject j ≠ ti_subject i) →
    has_key (db_tenant d) (ti_tenant_id i) = true →
    db_write InvitationNew d (d <| db_tenant_invitation := <[id := i]> (db_tenant_invitation d) |>)
| write_invitation_set d id i i' : db_tenant_invitation d !! id = Some i → invitation_check i' = true →
    ti_tenant_id i' = ti_tenant_id i → ti_token_hash i' = ti_token_hash i → ti_status i' ≠ "pending" →
    db_write InvitationSet d (d <| db_tenant_invitation := <[id := i']> (db_tenant_invitation d) |>)
| write_group_new d id g : db_tenant_group d !! id = None →
    group_name_taken d id (tg_tenant_id g) (tg_normalized_name g) = false →
    has_key (db_tenant d) (tg_tenant_id g) = true →
    db_write GroupNew d (d <| db_tenant_group := <[id := g]> (db_tenant_group d) |>)
| write_group_set d id g g' : db_tenant_group d !! id = Some g → tg_tenant_id g' = tg_tenant_id g →
    group_name_taken d id (tg_tenant_id g') (tg_normalized_name g') = false →
    db_write GroupSet d (d <| db_tenant_group := <[id := g']> (db_tenant_group d) |>)
| write_group_delete d t id : group_ref d t id = true →
    db_write GroupDelete d (d <| db_tenant_group := delete id (db_tenant_group d) |>
                <| db_tenant_group_member := delete_where (db_tenant_group_member d)
                     (λ '(t', g, _) _, (t' == t) && (g == id)) |>
                <| db_node_acl := delete_where (db_node_acl d)
                     (λ _ a, (na_tenant_id a == t) && (na_group_id a == Some id)) |>)
| write_group_member d k row : group_ref d k.1.1 k.1.2 = true →
    has_key (db_tenant_member d) (k.1.1, k.2) = true →
    db_write GroupMembers d (d <| db_tenant_group_member := <[k := row]> (db_tenant_group_member d) |>)
| write_group_member_delete d k :
    db_write GroupMembers d (d <| db_tenant_group_member := delete k (db_tenant_group_member d) |>)
| write_acl_new d id a : acl_check a = true → db_node_acl d !! id = None → acl_refs d a = true →
    (∀ k b, db_node_acl d !! k = Some b → same_acl a b = false) →
    db_write ACLs d (d <| db_node_acl := <[id := a]> (db_node_acl d) |>)
| write_acl_set d id a b b' : acl_check a = true → db_node_acl d !! id = Some b → same_acl a b = true →
    b' = b <| na_role := na_role a |> <| na_updated_at := na_updated_at a |> →
    db_write ACLs d (d <| db_node_acl := <[id := b']> (db_node_acl d) |>)
| write_acl_delete d id :
    db_write ACLs d (d <| db_node_acl := delete id (db_node_acl d) |>)
| write_audit d sequence e : db_audit_sequence d < sequence < 2 ^ 63 → audit_check e = true →
    (∀ k f, db_audit_event d !! k = Some f → ae_id f ≠ ae_id e) →
    has_key (db_tenant d) (ae_tenant_id e) = true →
    db_write AuditEvents d (d <| db_audit_event := <[sequence := e]> (db_audit_event d) |>
                              <| db_audit_sequence := sequence |>).

Definition writes_of (ks : list Kind) (d d' : DB) : Prop := ∃ k, k ∈ ks ∧ db_write k d d'.
Notation written ks := (rtc (writes_of ks)).

Lemma written_more ks ks' d d' : ks ⊆ ks' → written ks d d' → written ks' d d'.
Proof. intros Hks. apply rtc_subrel. intros ?? (k & ? & ?). exists k. auto. Qed.
Lemma written_one ks k d0 d d' : written ks d0 d → k ∈ ks → db_write k d d' → written ks d0 d'.
Proof. intros. eapply rtc_r; [done|]. by exists k. Qed.

(** ** The rule of each write *)

Lemma has_key_false {K V} `{Countable K} (t : gmap K V) k : has_key t k = false ↔ t !! k = None.
Proof. unfold has_key. by destruct (t !! k). Qed.
Lemma has_key_true {K V} `{Countable K} (t : gmap K V) k : has_key t k = true ↔ is_Some (t !! k).
Proof. unfold has_key. destruct (t !! k); naive_solver. Qed.

Lemma existsb_false {A} (f : A → bool) l : existsb f l = false ↔ ∀ x, x ∈ l → f x = false.
Proof.
  rewrite <- not_true_iff_false, existsb_exists. setoid_rewrite <- not_true_iff_false.
  setoid_rewrite list_elem_of_In. naive_solver.
Qed.

(** The conditions of a write, as the server reports them, in logical form. *)
Ltac refused :=
  repeat (progress go_bool || match goal with
  | H : has_key _ _ = false |- _ => apply has_key_false in H
  | H : existsb _ _ = false |- _ => rewrite existsb_false in H
  | H : exists_row _ _ = false |- _ => rewrite exists_row_false in H
  end).

Section rules.
Context (n : nat) (d : DB).

Lemma swp_insert_tenant_if_new id row (Q : unit → DB → Prop) : (is_Some (db_tenant d !! id) → Q tt d) →
  (let d' := d <| db_tenant := <[id := row]> (db_tenant d) |> in db_write TenantNew d d' → Q tt d') →
  swp (insert_tenant_if_new id row) Q n d.
Proof.
  intros H1 H2. unfold insert_tenant_if_new. sql.
  - by apply H1, has_key_true.
  - refused. by apply H2, write_tenant_new.
Qed.

Lemma swp_write_file_nodes t rows (Q : unit → DB → Prop) : nodes_changed (db_file_node d) t rows →
  (let d' := d <| db_file_node := t |> in db_write Nodes d d' →
    (∀ k m, (k, m) ∈ rows → accepted d t k m) → Q tt d') →
  swp (write_file_nodes t rows) Q n d.
Proof.
  intros Ht HQ. unfold write_file_nodes. sql.
  assert (∀ k m, (k, m) ∈ rows → accepted d t k m) as Hacc.
  { intros k m Hm. refused. repeat match goal with H : ∀ x, x ∈ rows → _ |- _ => specialize (H _ Hm) end.
    cbv beta iota in *. by refused. }
  by apply HQ; [apply write_nodes with rows|].
Qed.
Lemma swp_insert_file_node id row (Q : unit → DB → Prop) :
  (db_file_node d !! id = None → let t := <[id := row]> (db_file_node d) in
    let d' := d <| db_file_node := t |> in db_write Nodes d d' → accepted d t id row → Q tt d') →
  swp (insert_file_node id row) Q n d.
Proof.
  intros HQ. unfold insert_file_node. sql.
  destruct (has_key (db_file_node d) id) eqn:Hk.
  - simpl in *. unfold write_file_nodes. sql. simpl in *. by destruct (file_node_check row).
  - apply has_key_false in Hk. apply swp_write_file_nodes.
    + split.
      * intros k m [[<- <-]|[_ ?]]%lookup_insert_Some; [right; by left|by left].
      * intros k m Hm. exists m. split; [|done]. rewrite lookup_insert_ne; [done|]. intros ->. by rewrite Hm in Hk.
      * intros k m [= -> ->]%list_elem_of_singleton. apply lookup_insert_eq.
    + intros d' Hw Hacc. apply HQ; [done..|]. apply Hacc. by left.
Qed.
Lemma swp_update_file_nodes p f (Q : list (string * file_node_row) → DB → Prop) :
  (∀ k m, fn_tenant_id (f k m) = fn_tenant_id m) →
  (let t := update_where (db_file_node d) p f in let d' := d <| db_file_node := t |> in
    db_write Nodes d d' →
    (∀ k m, db_file_node d !! k = Some m → p k m = true → accepted d t k (f k m)) →
    Q ((λ '(k, m), (k, f k m)) <$> rows_where (db_file_node d) p) d') →
  swp (update_file_nodes p f) Q n d.
Proof.
  intros Hf HQ. unfold update_file_nodes. sql. apply swp_write_file_nodes; [split|].
  - intros k m. rewrite lookup_update_where. destruct (db_file_node d !! k) as [m'|] eqn:Hk; [|done].
    intros [= <-]. destruct (p k m') eqn:Hp; [right|by left]. apply list_elem_of_fmap. exists (k, m').
    split; [done|]. by apply elem_of_rows_where.
  - intros k m Hm. rewrite lookup_update_where, Hm. simpl. eexists. split; [done|]. by destruct (p k m).
  - intros k m ([k' m'] & [= -> ->] & [Hk Hp]%elem_of_rows_where)%list_elem_of_fmap.
    rewrite lookup_update_where, Hk. simpl. by rewrite Hp.
  - intros d' Hw Hacc. sql. apply HQ; [done|]. intros k m Hk Hp. apply Hacc, list_elem_of_fmap.
    exists (k, m). split; [done|]. by apply elem_of_rows_where.
Qed.

(** The condition of an index: no row of the table agrees on its columns. *)
Ltac no_row :=
  repeat intro; repeat match goal with
  | H : ∀ k v, ?t !! k = Some v → _, H' : ?t !! _ = Some _ |- _ => specialize (H _ _ H')
  end; cbv beta in *;
  repeat match goal with H : context [bool_decide ?P] |- _ =>
    first [ rewrite (bool_decide_eq_true_2 P) in H by congruence ] end; done.

Lemma swp_insert_blob id b (Q : unit → DB → Prop) :
  (let d' := d <| db_blob := <[id := b]> (db_blob d) |> in db_write BlobNew d d' → Q tt d') →
  swp (insert_blob id b) Q n d.
Proof.
  intros HQ. unfold insert_blob. sql. refused. apply HQ, write_blob_new; try done. no_row.
Qed.
Lemma swp_update_blobs p f (Q : unit → DB → Prop) : (∀ k b, same_blob b (f k b)) →
  (let d' := d <| db_blob := update_where (db_blob d) p f |> in db_write Blobs d d' → Q tt d') →
  swp (update_blobs p f) Q n d.
Proof.
  intros Hf HQ. unfold update_blobs. sql. refused. apply HQ, write_blobs; [|done].
  intros k b Hb Hp. match goal with H : ∀ x, _ ∈ _ → _ |- _ => specialize (H (k, b)) end.
  apply negb_false_iff. apply H. by apply elem_of_rows_where.
Qed.
Lemma swp_insert_file_version id v (Q : unit → DB → Prop) :
  (let d' := d <| db_file_version := <[id := v]> (db_file_version d) |> in db_write Versions d d' → Q tt d') →
  swp (insert_file_version id v) Q n d.
Proof.
  intros HQ. unfold insert_file_version. sql. refused. apply HQ, write_version; try done. lia.
Qed.
Lemma swp_insert_upload id u (Q : unit → DB → Prop) :
  (db_upload_session d !! id = None →
   let d' := d <| db_upload_session := <[id := u]> (db_upload_session d) |> in
    db_write UploadNew d d' → Q tt d') →
  swp (insert_upload id u) Q n d.
Proof.
  intros HQ. unfold insert_upload. sql. refused. apply HQ, write_upload_new; try done. no_row.
Qed.
Lemma swp_update_uploads p f (Q : list (string * upload_session_row) → DB → Prop) :
  (∀ k u, same_upload u (f k u)) →
  (let d' := d <| db_upload_session := update_where (db_upload_session d) p f |> in
    db_write Uploads d d' →
    Q ((λ '(k, u), (k, f k u)) <$> rows_where (db_upload_session d) p) d') →
  swp (update_uploads p f) Q n d.
Proof.
  intros Hf HQ. unfold update_uploads. sql. refused. apply HQ, write_uploads; [|done].
  intros k u Hu Hp. match goal with H : ∀ x, _ ∈ _ → _ |- _ => specialize (H (k, f k u)) end.
  apply negb_false_iff, H, list_elem_of_fmap. exists (k, u). split; [done|]. by apply elem_of_rows_where.
Qed.
Lemma swp_upsert_upload_part k row (Q : unit → DB → Prop) :
  (∀ d', d' = d ∨ db_write Parts d d' → Q tt d') → swp (upsert_upload_part k row) Q n d.
Proof.
  intros HQ. unfold upsert_upload_part. sql; refused; apply HQ; [right|by left|right];
    (apply write_part; [done|]); eauto.
Qed.
Lemma swp_upsert_part_signature k row (Q : unit → DB → Prop) :
  (∀ d', db_write Signatures d d' → Q tt d') → swp (upsert_part_signature k row) Q n d.
Proof.
  intros HQ. unfold upsert_part_signature. sql. refused. apply HQ, write_signature; [done|].
  go_bool_cases; [left; by apply has_key_true|by right].
Qed.

Lemma swp_insert_principal id p (Q : unit → DB → Prop) :
  (∀ d', db_write PrincipalNew d d' → Q tt d') → swp (insert_principal id p) Q n d.
Proof.
  intros HQ. unfold insert_principal. sql. refused. apply HQ, write_principal; try done. no_row.
Qed.
Lemma swp_insert_member k m (Q : unit → DB → Prop) :
  (let d' := d <| db_tenant_member := <[k := m]> (db_tenant_member d) |> in
    db_write MemberNew d d' → Q tt d') → swp (insert_member k m) Q n d.
Proof. intros HQ. unfold insert_member. sql. refused. by apply HQ, write_member_new. Qed.
Lemma swp_insert_member_if_new k m (Q : unit → DB → Prop) : (is_Some (db_tenant_member d !! k) → Q tt d) →
  (let d' := d <| db_tenant_member := <[k := m]> (db_tenant_member d) |> in
    db_write MemberNew d d' → Q tt d') → swp (insert_member_if_new k m) Q n d.
Proof.
  intros H1 H2. unfold insert_member_if_new. sql; [by apply H1, has_key_true|]. by apply swp_insert_member.
Qed.
Lemma swp_update_member k f (Q : Z → DB → Prop) : (db_tenant_member d !! k = None → Q 0 d) →
  (∀ m, db_tenant_member d !! k = Some m →
    let d' := d <| db_tenant_member := <[k := f m]> (db_tenant_member d) |> in
    db_write MemberSet d d' → Q 1 d') → swp (update_member k f) Q n d.
Proof.
  intros H1 H2. unfold update_member. sql; [|by apply H1]. refused. eapply H2, write_member_set; eauto.
Qed.
Lemma swp_delete_member k (Q : unit → DB → Prop) :
  (∀ d', db_write MemberDelete d d' → db_tenant_member d' = delete k (db_tenant_member d) → Q tt d') →
  swp (delete_member k) Q n d.
Proof. intros HQ. unfold delete_member. sql. apply HQ; [apply write_member_delete|done]. Qed.

Lemma swp_insert_idempotency_if_new k r (Q : unit → DB → Prop) :
  (is_Some (db_idempotency_record d !! k) → Q tt d) →
  (db_idempotency_record d !! k = None →
   let d' := d <| db_idempotency_record := <[k := r]> (db_idempotency_record d) |> in
    db_write Claims d d' → Q tt d') → swp (insert_idempotency_if_new k r) Q n d.
Proof.
  intros H1 H2. unfold insert_idempotency_if_new. sql; [by apply H1, has_key_true|].
  refused. subst. apply H2; [done|]. apply write_claim; [done|]. by right.
Qed.
Lemma swp_update_idempotency k p f (Q : list idempotency_row → DB → Prop) :
  ((∀ r, db_idempotency_record d !! k = Some r → p r = false) → Q [] d) →
  (∀ r, db_idempotency_record d !! k = Some r → p r = true →
   let d' := d <| db_idempotency_record := <[k := f r]> (db_idempotency_record d) |> in
    db_write Claims d d' → Q [f r] d') → swp (update_idempotency k p f) Q n d.
Proof.
  intros H1 H2. unfold update_idempotency. sql.
  - apply H1. intros r Hr. simplify_eq. by go_bool.
  - refused. apply H2; [done..|]. apply write_claim; [done|]. eauto.
  - by apply H1.
Qed.

Lemma swp_insert_invitation id i (Q : unit → DB → Prop) :
  (∀ d', db_write InvitationNew d d' → Q tt d') → swp (insert_invitation id i) Q n d.
Proof.
  intros HQ. unfold insert_invitation. sql. refused. apply HQ, write_invitation_new; try done; [no_row|].
  intros Hp. match goal with H : _ && exists_row _ _ = false |- _ => rewrite Hp in H; simpl in H end.
  refused. no_row.
Qed.
Lemma swp_update_invitation id f (Q : unit → DB → Prop) :
  (∀ i, ti_tenant_id (f i) = ti_tenant_id i ∧ ti_token_hash (f i) = ti_token_hash i ∧ ti_status (f i) ≠ "pending") →
  (∀ d', d' = d ∨ db_write InvitationSet d d' → Q tt d') → swp (update_invitation id f) Q n d.
Proof.
  intros Hf HQ. unfold update_invitation. sql; [|apply HQ; by left]. refused.
  destruct (Hf t) as (?&?&?). apply HQ. right. by eapply write_invitation_set.
Qed.

Lemma swp_insert_group id g (Q : unit → DB → Prop) :
  (∀ d', db_write GroupNew d d' → Q tt d') → swp (insert_group id g) Q n d.
Proof. intros HQ. unfold insert_group. sql. refused. by apply HQ, write_group_new. Qed.
Lemma swp_update_group tenant id f (Q : list (string * tenant_group_row) → DB → Prop) :
  (∀ g, tg_tenant_id (f g) = tg_tenant_id g) → Q [] d →
  (∀ g d', db_tenant_group d !! id = Some g → tg_tenant_id g = tenant → db_write GroupSet d d' → Q [(id, f g)] d') →
  swp (update_group tenant id f) Q n d.
Proof.
  intros Hf H1 H2. unfold update_group. sql; [done| |done]. refused. subst. apply H2; [done..|].
  eapply write_group_set; [done|done|]. by rewrite Hf.
Qed.
Lemma swp_delete_group tenant id (Q : Z → DB → Prop) : (group_ref d tenant id = false → Q 0 d) →
  (∀ d', db_write GroupDelete d d' → Q 1 d') → swp (delete_group tenant id) Q n d.
Proof.
  intros H1 H2. unfold delete_group. sql; refused; [by apply H1|]. by apply H2, write_group_delete.
Qed.
Lemma swp_insert_group_member_if_new k row (Q : Z → DB → Prop) : Q 0 d →
  (∀ d', db_write GroupMembers d d' → Q 1 d') → swp (insert_group_member_if_new k row) Q n d.
Proof.
  intros H1 H2. unfold insert_group_member_if_new. sql; [done|]. refused. subst. by apply H2, write_group_member.
Qed.
Lemma swp_delete_group_member k (Q : Z → DB → Prop) : Q 0 d →
  (∀ d', db_write GroupMembers d d' → Q 1 d') → swp (delete_group_member k) Q n d.
Proof. intros H1 H2. unfold delete_group_member. sql; [done|]. apply H2, write_group_member_delete. Qed.

Lemma swp_upsert_acl id a (Q : string * node_acl_row → DB → Prop) :
  (∀ k b, let d' := d <| db_node_acl := <[k := b]> (db_node_acl d) |> in db_write ACLs d d' →
    na_tenant_id b = na_tenant_id a → na_node_id b = na_node_id a → na_role b = na_role a → Q (k, b) d') →
  swp (upsert_acl id a) Q n d.
Proof.
  intros HQ. unfold upsert_acl. apply swp_bind, swp_table, swp_bind, swp_refuse_if. intros Hc. refused.
  destruct (rows_where _ _) as [|[k b] l] eqn:Hrows; sql; refused.
  - apply HQ; [|done..]. apply write_acl_new; [done..|]. intros k b Hk. apply not_true_iff_false. intros Hs.
    assert ((k, b) ∈ rows_where (db_node_acl d) (λ _ b, same_acl a b)) as Hin by (by apply elem_of_rows_where).
    rewrite Hrows in Hin. by apply elem_of_nil in Hin.
  - assert (db_node_acl d !! k = Some b ∧ same_acl a b = true) as [Hk Hs].
    { apply (elem_of_rows_where _ (λ _ b, same_acl a b)). rewrite Hrows. by left. }
    assert (Hs' := Hs). unfold same_acl in Hs'. go_bool.
    apply HQ; [by eapply write_acl_set|done..].
Qed.
Lemma swp_delete_acl tenant node id (Q : Z → DB → Prop) : Q 0 d →
  (∀ d', db_write ACLs d d' → Q 1 d') → swp (delete_acl tenant node id) Q n d.
Proof. intros H1 H2. unfold delete_acl. sql; [|done|done]. apply H2, write_acl_delete. Qed.

Lemma swp_insert_audit `{!PgEnv} e (Q : unit → DB → Prop) :
  (∀ z, let d' := d <| db_audit_event := <[z := e]> (db_audit_event d) |> <| db_audit_sequence := z |> in
    db_write AuditEvents d d' → Q tt d') → swp (insert_audit e) Q n d.
Proof.
  intros HQ. unfold insert_audit. sql. refused. apply HQ, write_audit; [split; lia|done| |done]. no_row.
Qed.
End rules.

Ltac sql_write :=
  lazymatch goal with
  | |- swp (insert_tenant_if_new _ _) _ _ _ => apply swp_insert_tenant_if_new
  | |- swp (insert_file_node _ _) _ _ _ => apply swp_insert_file_node
  | |- swp (update_file_nodes _ _) _ _ _ => apply swp_update_file_nodes; [try done|]
  | |- swp (insert_blob _ _) _ _ _ => apply swp_insert_blob
  | |- swp (update_blobs _ _) _ _ _ => apply swp_update_blobs; [try done|]
  | |- swp (insert_file_version _ _) _ _ _ => apply swp_insert_file_version
  | |- swp (insert_upload _ _) _ _ _ => apply swp_insert_upload
  | |- swp (update_uploads _ _) _ _ _ => apply swp_update_uploads; [try done|]
  | |- swp (upsert_upload_part _ _) _ _ _ => apply swp_upsert_upload_part
  | |- swp (upsert_part_signature _ _) _ _ _ => apply swp_upsert_part_signature
  | |- swp (insert_principal _ _) _ _ _ => apply swp_insert_principal
  | |- swp (insert_member _ _) _ _ _ => apply swp_insert_member
  | |- swp (insert_member_if_new _ _) _ _ _ => apply swp_insert_member_if_new
  | |- swp (update_member _ _) _ _ _ => apply swp_update_member
  | |- swp (delete_member _) _ _ _ => apply swp_delete_member
  | |- swp (insert_idempotency_if_new _ _) _ _ _ => apply swp_insert_idempotency_if_new
  | |- swp (update_idempotency _ _ _) _ _ _ => apply swp_update_idempotency
  | |- swp (insert_invitation _ _) _ _ _ => apply swp_insert_invitation
  | |- swp (update_invitation _ _) _ _ _ => apply swp_update_invitation; [try done|]
  | |- swp (insert_group _ _) _ _ _ => apply swp_insert_group
  | |- swp (update_group _ _ _) _ _ _ => apply swp_update_group; [try done| |]
  | |- swp (delete_group _ _) _ _ _ => apply swp_delete_group
  | |- swp (insert_group_member_if_new _ _) _ _ _ => apply swp_insert_group_member_if_new
  | |- swp (delete_group_member _) _ _ _ => apply swp_delete_group_member
  | |- swp (upsert_acl _ _) _ _ _ => apply swp_upsert_acl
  | |- swp (delete_acl _ _ _) _ _ _ => apply swp_delete_acl
  | |- swp (insert_audit _) _ _ _ => apply swp_insert_audit
  | |- _ => sql_step
  end.
Ltac sql_writes := repeat (cbv beta iota zeta; intros; sql_write); cbv beta iota zeta; intros.
