(* ===== verification/PgMethods.v ===== *)
(** * The methods of the PostgreSQL repository and the writes each of them makes *)
From S2P Require Import Prelude Errors Logic GoLib Types Validation Ports PgCore PgSchema PgRepository PgIdempotency.
From S2P Require Import PgNamespace PgUploads PgMaintenance PgGovernance PgGroups PgLogic PgWrites.

(** ** The PostgreSQL repository as an instance of the port
    (src/internal/drive/ports.go, src/internal/postgres/repository.go) *)

#[export] Instance postgres_repository
    `{!Platform, !MapRange, !PgEngine, !PgEnv, !PgGroups.MetadataJSON} : RepositoryPort Pg := {|
  R_Ready := PgRepository.Ready;
  R_EnsureTenant := PgNamespace.EnsureTenant;
  R_GetTenant := PgNamespace.GetTenant;
  R_EnsureOIDCMember := PgGovernance.EnsureOIDCMember;
  R_ResolveOIDCPrincipal := PgGovernance.ResolveOIDCPrincipal;
  R_SetOIDCMemberStatus := PgGovernance.SetOIDCMemberStatus;
  R_ListMembers := PgGovernance.ListMembers;
  R_UpdateMember := PgGovernance.UpdateMember;
  R_DeleteMember := PgGovernance.DeleteMember;
  R_CreateInvitation := PgGovernance.CreateInvitation;
  R_ListInvitations _ := PgGovernance.ListInvitations;
  R_AcceptInvitation := PgGovernance.AcceptInvitation;
  R_RevokeInvitation := PgGovernance.RevokeInvitation;
  R_CreateGroup := PgGroups.CreateGroup;
  R_ListGroups := PgGroups.ListGroups;
  R_UpdateGroup := PgGroups.UpdateGroup;
  R_DeleteGroup := PgGroups.DeleteGroup;
  R_AddGroupMember := PgGroups.AddGroupMember;
  R_RemoveGroupMember := PgGroups.RemoveGroupMember;
  R_ListGroupMembers := PgGroups.ListGroupMembers;
  R_ListNodeACL := PgGroups.ListNodeACL;
  R_SetNodeACL := PgGroups.SetNodeACL;
  R_DeleteNodeACL := PgGroups.DeleteNodeACL;
  R_AuthorizeNode := PgGovernance.AuthorizeNode;
  R_AppendAudit ctx _ := PgGroups.AppendAudit ctx;
  R_ListAudit := PgGroups.ListAudit;
  R_ClaimIdempotency := PgIdempotency.ClaimIdempotency;
  R_ReleaseIdempotency := PgIdempotency.ReleaseIdempotency;
  R_CreateDirectory := PgNamespace.CreateDirectory;
  R_GetNode := PgNamespace.GetNode;
  R_ListChildren := PgNamespace.ListChildren;
  R_UpdateNode := PgNamespace.UpdateNode;
  R_CreateUpload := PgUploads.CreateUpload;
  R_Upload := PgUploads.Upload;
  R_MarkUploading := PgUploads.MarkUploading;
  R_BeginComplete := PgUploads.BeginComplete;
  R_FailUploadCompletion := PgUploads.FailUploadCompletion;
  R_MarkObjectCompleted := PgUploads.MarkObjectCompleted;
  R_CommitUpload := PgUploads.CommitUpload;
  R_AbortUpload := PgUploads.AbortUpload;
  R_UploadParts := PgUploads.UploadParts;
  R_RecordPartSignature := PgUploads.RecordPartSignature;
  R_PartSignatures := PgUploads.PartSignatures;
  R_MarkUploadCleanupComplete := PgUploads.MarkUploadCleanupComplete;
  R_ExpiredUploads := PgUploads.ExpiredUploads;
  R_ClaimUploadsForMaintenance := PgMaintenance.ClaimUploadsForMaintenance;
  R_FinishUploadMaintenance := PgMaintenance.FinishUploadMaintenance;
  R_ClaimRecycleForMaintenance := PgMaintenance.ClaimRecycleForMaintenance;
  R_ReleaseRecycleMaintenance := PgMaintenance.ReleaseRecycleMaintenance;
  R_DeleteExpiredIdempotency := PgIdempotency.DeleteExpiredIdempotency;
  R_DownloadBlob := PgNamespace.DownloadBlob;
  R_Recycle := PgNamespace.Recycle;
  R_ListRecycle := PgNamespace.ListRecycle;
  R_Restore := PgNamespace.Restore;
  R_PreparePurge := PgNamespace.PreparePurge;
  R_FinishPurge := PgNamespace.FinishPurge
|}.

(** The bodies of the methods and of their helpers. *)
Ltac pg_unfold :=
  unfold AddGroupMember, RemoveGroupMember, changeGroupMember, EnsureTenant, CreateDirectory, UpdateNode,
    Recycle, Restore, PreparePurge, FinishPurge, CreateUpload, MarkUploading, BeginComplete,
    FailUploadCompletion, MarkObjectCompleted, CommitUpload, AbortUpload, RecordPartSignature,
    MarkUploadCleanupComplete, ClaimUploadsForMaintenance, FinishUploadMaintenance,
    ClaimRecycleForMaintenance, ReleaseRecycleMaintenance, ClaimIdempotency, ReleaseIdempotency,
    DeleteExpiredIdempotency, EnsureOIDCMember, SetOIDCMemberStatus, UpdateMember, DeleteMember,
    CreateInvitation, AcceptInvitation, accept_pending, RevokeInvitation, CreateGroup, UpdateGroup, DeleteGroup,
    SetNodeACL, DeleteNodeACL, AppendAudit;
  unfold lockNamespace, lockTenant, authorizeTenantManager, authorizeNodeTx, authorizeNodeQuery,
    check_target, check_move, new_names, rejectUploadCommit, loadCompleteResult, selectInvitationForUpdate, selectMember,
    returning, check_acl_subject, completeIdempotency, appendAuditTx.

Section with_engine.
Context `{!Platform, !MapRange, !PgEngine, !PgEnv, !MetadataJSON}.

(** [pg_method ks m]: [m] is a call of a method that changes the database. *)
Inductive pg_method : ∀ {A : Type}, list Kind → GoM Pg A → Prop :=
| call_EnsureTenant seed : pg_method [TenantNew; TenantRoot; Nodes] (EnsureTenant seed)
| call_CreateDirectory ctx b c : pg_method [Nodes; Claims; AuditEvents] (CreateDirectory ctx b c)
| call_UpdateNode ctx b c : pg_method [Nodes; AuditEvents] (UpdateNode ctx b c)
| call_Recycle ctx b i id rev now : pg_method [Nodes; AuditEvents] (Recycle ctx b i id rev now)
| call_Restore ctx b i id rev now : pg_method [Nodes; AuditEvents] (Restore ctx b i id rev now)
| call_PreparePurge i id rev now : pg_method [Nodes; Blobs] (PreparePurge i id rev now)
| call_FinishPurge ctx b i plan now : pg_method [Nodes; Blobs; AuditEvents] (FinishPurge ctx b i plan now)
| call_CreateUpload c : pg_method [UploadNew; Claims] (CreateUpload c)
| call_MarkUploading i id now : pg_method [Uploads] (MarkUploading i id now)
| call_BeginComplete i id d parts now : pg_method [Uploads; Parts] (BeginComplete i id d parts now)
| call_FailUploadCompletion i id d c now : pg_method [Uploads] (FailUploadCompletion i id d c now)
| call_MarkObjectCompleted i id o now : pg_method [Uploads] (MarkObjectCompleted i id o now)
| call_CommitUpload ctx b c :
    pg_method [BlobNew; Versions; Nodes; Uploads; AuditEvents] (CommitUpload ctx b c)
| call_AbortUpload i id target now : pg_method [Uploads] (AbortUpload i id target now)
| call_RecordPartSignature i id p now : pg_method [Signatures] (RecordPartSignature i id p now)
| call_MarkUploadCleanupComplete i id now : pg_method [Uploads] (MarkUploadCleanupComplete i id now)
| call_ClaimUploads o now stale until limit :
    pg_method [Uploads] (ClaimUploadsForMaintenance o now stale until limit)
| call_FinishUploadMaintenance o u s c t e now :
    pg_method [Uploads] (FinishUploadMaintenance o u s c t e now)
| call_ClaimRecycle o cutoff now until limit :
    pg_method [Nodes] (ClaimRecycleForMaintenance o cutoff now until limit)
| call_ReleaseRecycle o id t e now : pg_method [Nodes] (ReleaseRecycleMaintenance o id t e now)
| call_ClaimIdempotency r : pg_method [Claims] (ClaimIdempotency r)
| call_ReleaseIdempotency r : pg_method [Claims] (ReleaseIdempotency r)
| call_DeleteExpiredIdempotency now limit : pg_method [Claims] (DeleteExpiredIdempotency now limit)
| call_EnsureOIDCMember seed : pg_method [PrincipalNew; MemberNew] (EnsureOIDCMember seed)
| call_SetOIDCMemberStatus t p st : pg_method [MemberSet] (SetOIDCMemberStatus t p st)
| call_UpdateMember ctx b c : pg_method [MemberSet; AuditEvents] (UpdateMember ctx b c)
| call_DeleteMember ctx b c : pg_method [MemberDelete; AuditEvents] (DeleteMember ctx b c)
| call_CreateInvitation ctx b c : pg_method [InvitationNew; AuditEvents] (CreateInvitation ctx b c)
| call_AcceptInvitation ctx b c :
    pg_method [PrincipalNew; MemberNew; InvitationSet; AuditEvents] (AcceptInvitation ctx b c)
| call_RevokeInvitation ctx b c : pg_method [InvitationSet; AuditEvents] (RevokeInvitation ctx b c)
| call_CreateGroup ctx b c : pg_method [GroupNew; AuditEvents] (CreateGroup ctx b c)
| call_UpdateGroup ctx b c : pg_method [GroupSet; AuditEvents] (UpdateGroup ctx b c)
| call_DeleteGroup ctx b c : pg_method [GroupDelete; AuditEvents] (DeleteGroup ctx b c)
| call_AddGroupMember ctx b c : pg_method [GroupMembers; AuditEvents] (AddGroupMember ctx b c)
| call_RemoveGroupMember ctx b c : pg_method [GroupMembers; AuditEvents] (RemoveGroupMember ctx b c)
| call_SetNodeACL ctx b c : pg_method [ACLs; AuditEvents] (SetNodeACL ctx b c)
| call_DeleteNodeACL ctx b c : pg_method [ACLs; AuditEvents] (DeleteNodeACL ctx b c)
| call_AppendAudit ctx e : pg_method [AuditEvents] (AppendAudit ctx e).

(** [pg_read m]: [m] is a call of a method that only reads. *)
Inductive pg_read : ∀ {A : Type}, GoM Pg A → Prop :=
| call_Ready : pg_read PgRepository.Ready
| call_GetTenant t : pg_read (GetTenant t)
| call_GetNode i id b : pg_read (GetNode i id b)
| call_ListChildren i p after limit : pg_read (ListChildren i p after limit)
| call_ListRecycle i after limit : pg_read (ListRecycle i after limit)
| call_DownloadBlob i id : pg_read (DownloadBlob i id)
| call_Upload i id : pg_read (Upload i id)
| call_UploadParts i id : pg_read (UploadParts i id)
| call_PartSignatures i id : pg_read (PartSignatures i id)
| call_ExpiredUploads now limit : pg_read (ExpiredUploads now limit)
| call_ResolveOIDCPrincipal issuer subject t : pg_read (ResolveOIDCPrincipal issuer subject t)
| call_ListMembers t after limit : pg_read (ListMembers t after limit)
| call_ListInvitations t st limit : pg_read (ListInvitations t st limit)
| call_ListGroups t : pg_read (ListGroups t)
| call_ListGroupMembers t g : pg_read (ListGroupMembers t g)
| call_ListNodeACL t id : pg_read (ListNodeACL t id)
| call_AuthorizeNode i id cap : pg_read (AuthorizeNode i id cap)
| call_ListAudit f : pg_read (ListAudit f).

Ltac sql_unfold :=
  unfold lockActiveDirectory, audit_statement, insert_claim, select_claim, replace_claim,
    take_over_claim, insert_directory, creates_cycle, update_node_statement, recycle_statement,
    restore_statement, mark_purging, purge_blobs_query, mark_blob, delete_blob, check_upload_place,
    insert_upload_statement, select_upload, update_session, insert_part, insert_commit_blob,
    insert_commit_version, insert_commit_node, claim_uploads_statement, finish_upload_statement,
    claim_recycle_statement, release_recycle_statement, lock_tenant_name, principal_by_identity,
    select_member_row, other_owners, granted_level, set_invitation, set_acl_statement,
    idempotency_key.

Lemma recycled_row_tenant id now k n : fn_tenant_id (recycled_row id now k n) = fn_tenant_id n.
Proof. unfold recycled_row. by case_bool_decide. Qed.
Lemma restored_row_tenant id now k n : fn_tenant_id (restored_row id now k n) = fn_tenant_id n.
Proof. unfold restored_row. by case_bool_decide. Qed.
Hint Resolve recycled_row_tenant restored_row_tenant : core.

Ltac done_writing :=
  repeat match goal with
  | H : _ = _ ∨ _ |- _ => destruct H as [->|H]
  end;
  first [ done
        | eapply written_one; [eassumption| |eassumption]; set_solver ].
Ltac writes_leaf := let n := fresh "n" in let d := fresh "db" in let Hd := fresh "Hdb" in
  intros n d Hd; sql_unfold; sql_writes.

Lemma pg_method_writes {A} ks (m : GoM Pg A) d0 : pg_method ks m → pkeeps (written ks d0) m.
Proof.
  destruct 1; pg_unfold; pkeeps_go.
  all: lazymatch goal with |- skeeps _ _ => writes_leaf; try done_writing | |- _ => idtac end.
  - eapply written_one; [done| |by apply write_tenant_root]. set_solver.
  - eapply written_one; [done| |apply write_claims_delete]. set_solver.
  - eapply written_one; [done| |apply write_claims_delete]. set_solver.
Qed.

Lemma pg_read_writes {A} (m : GoM Pg A) d0 : pg_read m → pkeeps (λ d, d = d0) m.
Proof.
  destruct 1; unfold GetTenant, GetNode, ListChildren, ListRecycle, DownloadBlob, Upload, UploadParts,
    PartSignatures, ExpiredUploads, ResolveOIDCPrincipal, ListMembers, ListInvitations, ListGroups,
    ListGroupMembers, ListNodeACL, AuthorizeNode, ListAudit, page_of; pg_unfold; pkeeps_go.
  all: lazymatch goal with |- skeeps _ _ => writes_leaf; try done | |- _ => idtac end.
  intros s ??. unfold wp, PgRepository.Ready. by case_match.
Qed.
End with_engine.
