(* ===== verification/PgConstraints.v ===== *)
(** * The constraints of the schema hold in every committed database

    [constraints] lists the [CHECK]s, the unique indexes and the foreign keys of
    migrations/*.sql, row by row; every write keeps them. The deferred foreign keys
    are [deferred_violation], which every commit tests. *)
From S2P Require Import Prelude Errors Logic GoLib Types Validation PgCore PgSchema PgRepository PgIdempotency.
From S2P Require Import PgNamespace PgUploads PgMaintenance PgGovernance PgGroups PgLogic PgWrites PgMethods.

(** Two rows of a table that agree on the columns of a unique index are one row. *)
Definition unique_on {K V B} `{Countable K} (t : gmap K V) (f : K → V → option B) : Prop :=
  ∀ k1 k2 v1 v2 b, t !! k1 = Some v1 → t !! k2 = Some v2 → f k1 v1 = Some b → f k2 v2 = Some b → k1 = k2.
Definition all_rows {K V} `{Countable K} (t : gmap K V) (P : K → V → Prop) : Prop :=
  ∀ k v, t !! k = Some v → P k v.

(** The columns of the unique indexes; [None] for a row a partial index leaves out. *)
Definition root_index (_ : string) (n : file_node_row) : option string :=
  if fn_parent_id n == None then Some (fn_tenant_id n) else None.
Definition name_index (_ : string) (n : file_node_row) : option (string * string * string) :=
  match fn_parent_id n with
  | Some parent => if node_visible n then Some (fn_tenant_id n, parent, fn_normalized_name n) else None
  | None => None
  end.
Definition blob_index (_ : string) (b : blob_row) : option (string * string) :=
  Some (blob_bucket b, blob_object_key b).
Definition upload_index (_ : string) (u : upload_session_row) : option (string * string) :=
  Some (us_bucket u, us_object_key u).
Definition principal_index (_ : string) (p : principal_row) : option (string * string) :=
  Some (pr_issuer p, pr_subject p).
Definition token_index (_ : string) (i : tenant_invitation_row) : option string := Some (ti_token_hash i).
Definition pending_index (_ : string) (i : tenant_invitation_row) : option (string * string * string) :=
  if ti_status i == "pending" then Some (ti_tenant_id i, ti_issuer i, ti_subject i) else None.
Definition group_index (_ : string) (g : tenant_group_row) : option (string * string) :=
  Some (tg_tenant_id g, tg_normalized_name g).
Definition acl_index (_ : string) (a : node_acl_row) :
    option (string * string * string * option string * option string) :=
  Some (na_subject_type a, na_tenant_id a, na_node_id a, na_principal_id a, na_group_id a).
Definition audit_index (_ : Z) (e : audit_event_row) : option string := Some (ae_id e).

Record constraints (d : DB) : Prop := {
  c_node : all_rows (db_file_node d) (λ _ n, file_node_check n = true ∧ file_node_ref d n = true);
  c_root : unique_on (db_file_node d) root_index;
  c_name : unique_on (db_file_node d) name_index;
  c_blob : all_rows (db_blob d) (λ _ b, blob_check b = true ∧ has_key (db_tenant d) (blob_tenant_id b) = true);
  c_blob_key : unique_on (db_blob d) blob_index;
  c_version : all_rows (db_file_version d) (λ _ v, 0 ≤ fv_size_bytes v ∧
    has_key (db_tenant d) (fv_tenant_id v) = true ∧ blob_ref d (fv_tenant_id v) (fv_blob_id v) = true);
  c_upload : all_rows (db_upload_session d) (λ _ u, upload_check u = true ∧
    has_key (db_tenant d) (us_tenant_id u) = true ∧ node_ref d (us_tenant_id u) (us_parent_id u) = true);
  c_upload_key : unique_on (db_upload_session d) upload_index;
  c_part : all_rows (db_upload_part d) (λ k row, upload_part_check k.2 row = true ∧
    upload_ref d k.1.1 k.1.2 = true);
  c_signature : all_rows (db_upload_part_signature d) (λ k row, part_signature_check k.2 row = true ∧
    upload_ref d k.1.1 k.1.2 = true);
  c_principal : all_rows (db_principal d) (λ _ p, pr_issuer p ≠ "" ∧ pr_subject p ≠ "");
  c_principal_key : unique_on (db_principal d) principal_index;
  c_member : all_rows (db_tenant_member d) (λ k m, member_check m = true ∧
    has_key (db_tenant d) k.1 = true ∧ has_key (db_principal d) k.2 = true);
  c_claim : all_rows (db_idempotency_record d) (λ k r, idempotency_check k r = true ∧
    has_key (db_tenant d) k.1.1.1 = true);
  c_invitation : all_rows (db_tenant_invitation d) (λ _ i, invitation_check i = true ∧
    has_key (db_tenant d) (ti_tenant_id i) = true);
  c_token : unique_on (db_tenant_invitation d) token_index;
  c_pending : unique_on (db_tenant_invitation d) pending_index;
  c_group : all_rows (db_tenant_group d) (λ _ g, has_key (db_tenant d) (tg_tenant_id g) = true);
  c_group_name : unique_on (db_tenant_group d) group_index;
  c_group_member : all_rows (db_tenant_group_member d) (λ k _, group_ref d k.1.1 k.1.2 = true ∧
    has_key (db_tenant_member d) (k.1.1, k.2) = true);
  c_acl : all_rows (db_node_acl d) (λ _ a, acl_check a = true ∧ acl_refs d a = true);
  c_acl_subject : unique_on (db_node_acl d) acl_index;
  c_audit : all_rows (db_audit_event d) (λ z e, audit_check e = true ∧ z ≤ db_audit_sequence d ∧
    has_key (db_tenant d) (ae_tenant_id e) = true);
  c_audit_id : unique_on (db_audit_event d) audit_index
}.

(** ** Unique indexes and writes *)

Section unique.
Context {K V B : Type} `{Countable K}.
Implicit Types (t : gmap K V) (f : K → V → option B).

Lemma unique_insert t f k v : unique_on t f →
  (∀ k' v' b, k' ≠ k → t !! k' = Some v' → f k' v' = Some b → f k v ≠ Some b) →
  unique_on (<[k := v]> t) f.
Proof.
  intros Ht Hk k1 k2 v1 v2 b [[<- <-]|[? ?]]%lookup_insert_Some [[<- <-]|[? ?]]%lookup_insert_Some ??;
    [done|by destruct (Hk k2 v2 b)|by destruct (Hk k1 v1 b)|by eapply Ht].
Qed.
Lemma unique_sub t t' f : (∀ k v b, t' !! k = Some v → f k v = Some b →
  ∃ v0, t !! k = Some v0 ∧ f k v0 = Some b) → unique_on t f → unique_on t' f.
Proof.
  intros Hs Ht k1 k2 v1 v2 b Hk1 Hk2 Hb1 Hb2.
  destruct (Hs _ _ _ Hk1 Hb1) as (?&?&?), (Hs _ _ _ Hk2 Hb2) as (?&?&?). by eapply Ht.
Qed.
Lemma unique_delete t f k : unique_on t f → unique_on (delete k t) f.
Proof. apply unique_sub. intros k' v b [_ ?]%lookup_delete_Some ?. eauto. Qed.
Lemma unique_delete_where t f p : unique_on t f → unique_on (delete_where t p) f.
Proof.
  apply unique_sub. intros k v b. rewrite lookup_delete_where. destruct (t !! k); [|done]. simpl.
  destruct (p k v0); [done|]. intros [= ->] ?. eauto.
Qed.
Lemma unique_update_where t f p g : (∀ k v b, f k (g k v) = Some b → f k v = Some b) →
  unique_on t f → unique_on (update_where t p g) f.
Proof.
  intros Hg. apply unique_sub. intros k v b. rewrite lookup_update_where. destruct (t !! k) as [v0|]; [|done].
  simpl. intros [= <-] Hb. exists v0. split; [done|]. destruct (p k v0); auto.
Qed.

Lemma all_insert t (P : K → V → Prop) k v : all_rows t P → P k v → all_rows (<[k := v]> t) P.
Proof. intros Ht Hv k' v' [[<- <-]|[_ ?]]%lookup_insert_Some; auto. Qed.
Lemma all_sub t t' (P : K → V → Prop) : t' ⊆ t → all_rows t P → all_rows t' P.
Proof. intros Hs Ht k v Hk. apply Ht. by eapply lookup_weaken. Qed.
Lemma all_mono t (P Q : K → V → Prop) : (∀ k v, t !! k = Some v → P k v → Q k v) → all_rows t P → all_rows t Q.
Proof. intros Hpq Ht k v Hk. auto. Qed.
Lemma all_update_where t (P : K → V → Prop) p g : all_rows t P →
  (∀ k v, t !! k = Some v → p k v = true → P k v → P k (g k v)) → all_rows (update_where t p g) P.
Proof.
  intros Ht Hg k v. rewrite lookup_update_where. destruct (t !! k) as [v0|] eqn:Hk; [|done]. simpl.
  intros [= <-]. specialize (Ht _ _ Hk). destruct (p k v0) eqn:Hp; auto.
Qed.
Lemma delete_where_sub t p : delete_where t p ⊆ t.
Proof. apply map_filter_subseteq. Qed.

Lemma has_key_mono t t' k : dom t ⊆ dom t' → has_key t k = true → has_key t' k = true.
Proof. rewrite !has_key_true, <- !elem_of_dom. set_solver. Qed.
Lemma dom_update_where t p g : dom (update_where t p g) = dom t.
Proof. apply set_eq. intros k. rewrite !elem_of_dom, lookup_update_where. by destruct (t !! k). Qed.
End unique.

(** ** What a foreign key refers to stays *)

Record refs_le (d d' : DB) : Prop := {
  rl_tenant k : has_key (db_tenant d) k = true → has_key (db_tenant d') k = true;
  rl_node t k : node_ref d t k = true → node_ref d' t k = true;
  rl_blob t k : blob_ref d t k = true → blob_ref d' t k = true;
  rl_version t k : version_ref d t k = true → version_ref d' t k = true;
  rl_upload t k : upload_ref d t k = true → upload_ref d' t k = true;
  rl_principal k : has_key (db_principal d) k = true → has_key (db_principal d') k = true
}.

Lemma has_key_insert {K V} `{Countable K} (t : gmap K V) k v x :
  has_key t x = true → has_key (<[k := v]> t) x = true.
Proof. apply has_key_mono. rewrite dom_insert. set_solver. Qed.
Lemma has_key_update {K V} `{Countable K} (t : gmap K V) p g x :
  has_key t x = true → has_key (update_where t p g) x = true.
Proof. apply has_key_mono. by rewrite dom_update_where. Qed.

(** The reference [ref] reads one row of one table. *)
Ltac ref_insert := match goal with
  | H : match ?t !! ?k with _ => _ end = true |- match <[?i := ?v]> ?t !! ?k with _ => _ end = true =>
    destruct (decide (k = i)) as [->|]; [rewrite lookup_insert_eq|by rewrite lookup_insert_ne]
  end.
Ltac ref_update := match goal with
  | H : match ?t !! ?k with _ => _ end = true |- match update_where ?t _ _ !! ?k with _ => _ end = true =>
    rewrite lookup_update_where; destruct (t !! k) eqn:?; [simpl|done]
  end.
Lemma write_refs k d d' : db_write k d d' → refs_le d d'.
Proof.
  destruct 1; split; try (intros; assumption); unfold node_ref, blob_ref, version_ref, upload_ref in *;
    cbn; intros; try (by apply has_key_insert); try (by apply has_key_update).
  all: try (ref_insert; by simplify_option_eq).
  - destruct (db_file_node d !! k) as [m|] eqn:Hm; [|done].
    destruct (nc_kept _ _ _ H _ _ Hm) as (m' & -> & ->). done.
  - ref_update. destruct (p k b); [|done]. by destruct (H0 k b) as (-> & _).
  - ref_update. destruct (p k u); [|done]. by destruct (H0 k u) as (-> & _).
Qed.

Lemma null_or_mono (f g : string → bool) o : (∀ x, f x = true → g x = true) →
  null_or f o = true → null_or g o = true.
Proof. intros Hfg. destruct o; simpl; auto. Qed.
Lemma file_node_ref_mono d d' n : refs_le d d' → file_node_ref d n = true → file_node_ref d' n = true.
Proof.
  intros Hr. unfold file_node_ref. rewrite !andb_true_iff. intros [? ?]. split; [by apply Hr|].
  eapply null_or_mono; [|done]. intros x. apply Hr.
Qed.
Lemma acl_refs_mono d d' a : (∀ t k, node_ref d t k = true → node_ref d' t k = true) →
  (∀ p, na_principal_id a = Some p → has_key (db_tenant_member d) (na_tenant_id a, p) = true →
    has_key (db_tenant_member d') (na_tenant_id a, p) = true) →
  (∀ g, na_group_id a = Some g → group_ref d (na_tenant_id a) g = true → group_ref d' (na_tenant_id a) g = true) →
  acl_refs d a = true → acl_refs d' a = true.
Proof.
  intros Hn Hm Hg. unfold acl_refs. rewrite !andb_true_iff. intros [[? ?] ?].
  split_and!; [auto|destruct (na_principal_id a); simpl in *; auto|destruct (na_group_id a); simpl in *; auto].
Qed.

(** Members and groups stay too, but for the two writes that delete them. *)
Record subjects_le (d d' : DB) : Prop := {
  sl_member k : has_key (db_tenant_member d) k = true → has_key (db_tenant_member d') k = true;
  sl_group t k : group_ref d t k = true → group_ref d' t k = true
}.
Lemma write_subjects k d d' : db_write k d d' → k ≠ MemberDelete → k ≠ GroupDelete → subjects_le d d'.
Proof.
  destruct 1; intros; try done; split; try (intros; assumption); unfold group_ref in *;
    cbn; intros; try (by apply has_key_insert); ref_insert; by simplify_option_eq.
Qed.
Lemma acl_refs_le d d' a : refs_le d d' → subjects_le d d' → acl_refs d a = true → acl_refs d' a = true.
Proof. intros Hr Hs. apply acl_refs_mono; [apply Hr|intros; by apply Hs..]. Qed.

Create HintDb refs.
Hint Resolve rl_tenant rl_node rl_blob rl_version rl_upload rl_principal file_node_ref_mono
  sl_member sl_group acl_refs_le : refs.

Lemma unique_set {K V B} `{Countable K} (t : gmap K V) (f : K → V → option B) k v v' : unique_on t f →
  t !! k = Some v → (∀ b, f k v' = Some b → f k v = Some b) → unique_on (<[k := v']> t) f.
Proof.
  intros Ht Hk Hf. apply unique_insert; [done|]. intros k' w b Hne Hw Hb Hv. destruct Hne. by eapply Ht; eauto.
Qed.

(** Rows and index entries of a table the write changes. *)
Ltac old_rows := eapply all_mono; [|eassumption]; cbv beta; intros; destruct_and?; split_and?; eauto with refs.
Ltac rows :=
  first
  [ assumption
  | old_rows; fail
  | apply all_insert; [old_rows; fail|split_and?; eauto with refs; fail]
  | eapply all_sub; [apply delete_where_sub|old_rows; fail]
  | eapply all_sub; [apply delete_subseteq|old_rows; fail]
  | apply all_update_where; [old_rows; fail|intros; destruct_and?; split_and?; eauto with refs; fail]
  | apply unique_delete_where; assumption
  | apply unique_delete; assumption
  | apply unique_insert; [assumption|]; intros ???? ? [= ?] [= ?]; simplify_eq;
    match goal with H : ∀ k v, ?t !! k = Some v → _, H' : ?t !! _ = Some _ |- _ => by eapply (H _ _ H') end ].

(** *** The namespace *)

Lemma nodes_unique {B} d t rows (f : string → file_node_row → option B) : nodes_changed (db_file_node d) t rows →
  unique_on (db_file_node d) f →
  (∀ k n k' n', (k, n) ∈ rows → t !! k' = Some n' → k' ≠ k → ∀ b, f k n = Some b → f k' n' ≠ Some b) →
  unique_on t f.
Proof.
  intros Ht Hf Hfn k1 k2 n1 n2 b Hk1 Hk2 Hb1 Hb2. destruct (decide (k1 = k2)) as [|Hne]; [done|].
  destruct (nc_row _ _ _ Ht _ _ Hk1) as [?|Hin1]; [|exfalso; by eapply (Hfn k1 n1 k2 n2)].
  destruct (nc_row _ _ _ Ht _ _ Hk2) as [?|Hin2]; [by eapply Hf|]. exfalso. by eapply (Hfn k2 n2 k1 n1).
Qed.
Lemma write_file_node_rows d t rows : nodes_changed (db_file_node d) t rows →
  (∀ k n, (k, n) ∈ rows → accepted d t k n) → refs_le d (d <| db_file_node := t |>) → constraints d →
  all_rows t (λ _ n, file_node_check n = true ∧ file_node_ref (d <| db_file_node := t |>) n = true) ∧
  unique_on t root_index ∧ unique_on t name_index.
Proof.
  intros Ht Hacc Hr Hc.
  assert (∀ k n k' n', (k, n) ∈ rows → t !! k' = Some n' → k' ≠ k →
    (∀ b, root_index k n = Some b → root_index k' n' ≠ Some b) ∧
    (∀ b, name_index k n = Some b → name_index k' n' ≠ Some b)) as Hnew.
  { intros k n k' n' Hin Hk' Hne. destruct (Hacc _ _ Hin) as (_ & Hroot & Hname & _).
    unfold second_root, name_taken, root_index, name_index in *. split; intros b Hb Hb'.
    - repeat case_bool_decide; simplify_eq/=. refused. specialize (Hroot _ _ Hk').
      rewrite (bool_decide_eq_false_2 (k' = k)), !bool_decide_eq_true_2 in Hroot by done. done.
    - destruct (fn_parent_id n) as [p|] eqn:Hp, (fn_parent_id n') as [p'|] eqn:Hp'; try done.
      destruct (node_visible n), (node_visible n') eqn:Hv'; simplify_eq. simpl in Hname. refused.
      specialize (Hname _ _ Hk'). rewrite Hp', Hv' in Hname. simpl in Hname.
      rewrite (bool_decide_eq_false_2 (k' = k)), !bool_decide_eq_true_2 in Hname by congruence. done. }
  split; [|split].
  - intros k n Hk. destruct (nc_row _ _ _ Ht _ _ Hk) as [Hold|Hin].
    + destruct (c_node _ Hc _ _ Hold). eauto with refs.
    + by destruct (Hacc _ _ Hin) as (? & _ & _ & ?).
  - eapply nodes_unique; [done|apply Hc|]. intros k n k' n' ???. by eapply Hnew.
  - eapply nodes_unique; [done|apply Hc|]. intros k n k' n' ???. by eapply Hnew.
Qed.

(** *** Deletions that cascade *)

Lemma delete_member_rows d k : let d' := d <| db_tenant_member := delete k (db_tenant_member d) |>
    <| db_tenant_group_member := delete_where (db_tenant_group_member d)
         (λ '(t, _, p) _, (t == k.1) && (p == k.2)) |>
    <| db_node_acl := delete_where (db_node_acl d)
         (λ _ a, (na_tenant_id a == k.1) && (na_principal_id a == Some k.2)) |> in
  constraints d →
  all_rows (db_tenant_group_member d') (λ k _, group_ref d' k.1.1 k.1.2 = true ∧
    has_key (db_tenant_member d') (k.1.1, k.2) = true) ∧
  all_rows (db_node_acl d') (λ _ a, acl_check a = true ∧ acl_refs d' a = true).
Proof.
  intros d' Hc. split.
  - intros [[t g] p] row Hrow. cbn in Hrow. rewrite lookup_delete_where in Hrow.
    destruct (db_tenant_group_member d !! (t, g, p)) eqn:Hold; [simpl in Hrow|done].
    destruct (_ && _) eqn:Hdel; [done|]. destruct (c_group_member _ Hc _ _ Hold) as [? Hm]. split; [done|].
    cbn in *. apply has_key_true. apply has_key_true in Hm. rewrite lookup_delete_ne; [done|].
    intros ->. by rewrite !bool_decide_eq_true_2 in Hdel.
  - intros id a Ha. cbn in Ha. rewrite lookup_delete_where in Ha.
    destruct (db_node_acl d !! id) as [a'|] eqn:Hold; [simpl in Ha|done].
    destruct (_ && _) eqn:Hdel; simplify_eq. destruct (c_acl _ Hc _ _ Hold) as [? Hrefs]. split; [done|].
    revert Hrefs. apply acl_refs_mono; [done| |done]. intros p Hp Hm. cbn.
    apply has_key_true. apply has_key_true in Hm. rewrite lookup_delete_ne; [done|].
    intros ->. by rewrite Hp, !bool_decide_eq_true_2 in Hdel.
Qed.

Lemma group_ref_delete d t id t' g : group_ref d t id = true → group_ref d t' g = true →
  (t' = t → g ≠ id) →
  match delete id (db_tenant_group d) !! g with Some r => tg_tenant_id r == t' | None => false end = true.
Proof.
  unfold group_ref. intros Hid Hg Hne. rewrite lookup_delete_ne; [done|]. intros <-.
  destruct (db_tenant_group d !! id); [|done]. go_bool. naive_solver.
Qed.
Lemma delete_group_rows d t id : let d' := d <| db_tenant_group := delete id (db_tenant_group d) |>
    <| db_tenant_group_member := delete_where (db_tenant_group_member d)
         (λ '(t', g, _) _, (t' == t) && (g == id)) |>
    <| db_node_acl := delete_where (db_node_acl d)
         (λ _ a, (na_tenant_id a == t) && (na_group_id a == Some id)) |> in
  group_ref d t id = true → constraints d →
  all_rows (db_tenant_group_member d') (λ k _, group_ref d' k.1.1 k.1.2 = true ∧
    has_key (db_tenant_member d') (k.1.1, k.2) = true) ∧
  all_rows (db_node_acl d') (λ _ a, acl_check a = true ∧ acl_refs d' a = true).
Proof.
  intros d' Hid Hc. split.
  - intros [[t' g] p] row Hrow. cbn in Hrow. rewrite lookup_delete_where in Hrow.
    destruct (db_tenant_group_member d !! (t', g, p)) eqn:Hold; [simpl in Hrow|done].
    destruct (_ && _) eqn:Hdel; [done|]. destruct (c_group_member _ Hc _ _ Hold) as [Hg ?]. split; [|done].
    apply (group_ref_delete d t); [done..|]. simpl. intros -> ->. by rewrite !bool_decide_eq_true_2 in Hdel.
  - intros k a Ha. cbn in Ha. rewrite lookup_delete_where in Ha.
    destruct (db_node_acl d !! k) as [a'|] eqn:Hold; [simpl in Ha|done].
    destruct (_ && _) eqn:Hdel; simplify_eq. destruct (c_acl _ Hc _ _ Hold) as [? Hrefs]. split; [done|].
    revert Hrefs. apply acl_refs_mono; [done|done|]. intros g Hg Hr.
    apply (group_ref_delete d t); [done..|]. intros Ht ->. by rewrite Hg, Ht, !bool_decide_eq_true_2 in Hdel.
Qed.

Lemma acl_check_same a b : same_acl a b = true →
  acl_check (b <| na_role := na_role a |> <| na_updated_at := na_updated_at a |>) = acl_check a.
Proof.
  unfold same_acl. intros Hs. go_bool. unfold acl_check. cbn.
  by repeat match goal with E : _ b = _ a |- _ => rewrite E; clear E end.
Qed.

#[local] Opaque insert delete delete_where update_where has_key group_ref node_ref acl_refs file_node_ref.
Lemma write_constraints k d d' : db_write k d d' → constraints d → constraints d'.
Proof.
  intros Hw Hc. pose proof (write_refs _ _ _ Hw) as Hr.
  assert (k ≠ MemberDelete → k ≠ GroupDelete → subjects_le d d') as Hs by eauto using write_subjects.
  assert (constraints d) as [] by done.
  destruct Hw as [ | |d t rows Ht Hacc| |d p f Hf Hsame| | |d p f Hf Hsame|d k row ? Hor|d k row ? Hor
      | | |d k m m' Hm|d k|d k r ? Hor| |d id i ? ? ? Hp|d id i i' Hi ? Ht Htok|d id g ? Hname|d id g g' Hg Ht Hname
      |d t id Hg| | |d id a ? ? ? Hsame|d id a b b' ? Hb Hsame ->| |d z e Hz ? ? ?];
    first [specialize (Hs ltac:(done) ltac:(done))|clear Hs].
  3: destruct (write_file_node_rows _ _ _ Ht Hacc Hr Hc) as (? & ? & ?).
  14: destruct (delete_member_rows _ k Hc).
  21: destruct (delete_group_rows _ _ _ Hg Hc).
  all: split; try assumption; try (rows; fail).
  - apply all_update_where; [old_rows|]. intros k b Hb Hp [_ ?]. destruct (Hsame k b) as (-> & _).
    split; eauto with refs.
  - apply unique_update_where; [|done]. intros k b ix. destruct (Hsame k b) as (_ & ? & ?).
    unfold blob_index. congruence.
  - apply all_update_where; [old_rows|]. intros k u Hu Hp [_ [? ?]].
    destruct (Hsame k u) as (-> & _ & _ & ->). split; eauto with refs.
  - apply unique_update_where; [|done]. intros k u ix. destruct (Hsame k u) as (_ & ? & ? & _).
    unfold upload_index. congruence.
  - apply all_insert; [old_rows|]. split; [done|]. destruct Hor as [[old Hold]|]; [|done].
    by destruct (c_part _ Hc _ _ Hold).
  - apply all_insert; [old_rows|]. split; [done|]. destruct Hor as [[old Hold]|]; [|done].
    by destruct (c_signature _ Hc _ _ Hold).
  - apply all_insert; [old_rows|]. by destruct (c_member _ Hc _ _ Hm).
  - apply all_insert; [old_rows|]. split; [done|]. destruct Hor as [[old Hold]|]; [|done].
    by destruct (c_claim _ Hc _ _ Hold).
  - apply unique_insert; [done|]. intros k j b _ Hj Hb Hb'. unfold pending_index in *.
    repeat case_bool_decide; simplify_eq. by eapply (Hp ltac:(done) k j).
  - apply all_insert; [old_rows|]. split; [done|]. cbn. rewrite Ht. by destruct (c_invitation _ Hc _ _ Hi).
  - eapply unique_set; [done..|]. intros b. unfold token_index. congruence.
  - eapply unique_set; [done..|]. intros b. unfold pending_index. by rewrite bool_decide_eq_false_2.
  - apply unique_insert; [done|]. intros k h b Hne Hh [= <-] [= ? ?]. unfold group_name_taken in Hname. refused.
    specialize (Hname _ _ Hh). by rewrite (bool_decide_eq_false_2 (k = id)), !bool_decide_eq_true_2 in Hname.
  - apply all_insert; [old_rows|]. cbn. rewrite Ht. by apply (c_group _ Hc _ _ Hg).
  - apply unique_insert; [done|]. intros k h b Hne Hh [= <-] [= ? ?]. unfold group_name_taken in Hname. refused.
    specialize (Hname _ _ Hh). by rewrite (bool_decide_eq_false_2 (k = id)), !bool_decide_eq_true_2 in Hname.
  - apply unique_insert; [done|]. intros k h b Hne Hh [= <-] [= ? ? ? ? ?].
    specialize (Hsame _ _ Hh). unfold same_acl in Hsame. by rewrite !bool_decide_eq_true_2 in Hsame.
  - apply all_insert; [old_rows|]. destruct (c_acl _ Hc _ _ Hb) as [_ Hrefs]. split; [|by eapply acl_refs_le].
    by rewrite (acl_check_same a b Hsame).
  - eapply unique_set; [done..|]. by intros.
  - apply all_insert; [|cbn; split_and!; [done|lia|eauto with refs]].
    eapply all_mono; [|apply (c_audit _ Hc)]. cbn. intros k v _ (? & ? & ?). split_and!; [done|lia|eauto with refs].

Qed.

Lemma written_constraints ks d d' : written ks d d' → constraints d → constraints d'.
Proof. induction 1 as [|d1 d2 d3 (k & _ & Hw) _ IH]; [done|]. intros Hc. by eapply IH, write_constraints. Qed.

Lemma empty_constraints : constraints empty_db.
Proof. split; by intros ?. Qed.

(** ** The transition relation of the PostgreSQL repository

    A step is a call of a method, whatever it returns: faults of the server, an
    unclear [COMMIT] and a lost connection included. A transaction is one step. *)

Section with_engine.
Context `{!Platform, !MapRange, !PgEngine, !PgEnv, !MetadataJSON}.

(** Between two calls no transaction is open. *)
Definition idle (s : Pg) : Prop := pg_work s = pg_store s.
Definition pg_after {A} (m : GoM Pg A) (s : Pg) : Pg := rolled_back (m s).2.

Inductive pg_step : Pg → Pg → Prop :=
| step_method {A} ks (m : GoM Pg A) s : pg_method ks m → pg_step s (pg_after m s)
| step_read {A} (m : GoM Pg A) s : pg_read m → pg_step s (pg_after m s).

(** A server after the migrations: no rows, any number of statements run. *)
Definition pg_start (n : nat) : Pg := mkPg empty_db empty_db n.
Definition pg_reachable (s : Pg) : Prop := ∃ n, rtc pg_step (pg_start n) s.

Lemma empty_committed : deferred_violation empty_db = None.
Proof. reflexivity. Qed.

(** What a call leaves of the committed database. *)
Lemma method_written {A} ks (m : GoM Pg A) s : pg_method ks m → idle s →
  deferred_violation (pg_store s) = None →
  written ks (pg_store s) (pg_store (m s).2) ∧ deferred_violation (pg_store (m s).2) = None.
Proof.
  intros Hm Hidle Hd. unfold idle in Hidle.
  destruct (pg_method_writes ks m (pg_store s) Hm s) as [[? ?] _]; [done|by rewrite Hidle|done].
Qed.
Lemma read_store {A} (m : GoM Pg A) s : pg_read m → idle s → deferred_violation (pg_store s) = None →
  pg_store (m s).2 = pg_store s.
Proof.
  intros Hm Hidle Hd. unfold idle in Hidle.
  by destruct (pg_read_writes m (pg_store s) Hm s) as [[? ?] _].
Qed.

(** One step, as writes to the committed database. *)
Lemma step_written s s' : pg_step s s' → idle s → deferred_violation (pg_store s) = None →
  (∃ ks, written ks (pg_store s) (pg_store s')) ∧ deferred_violation (pg_store s') = None ∧ idle s'.
Proof.
  destruct 1 as [A ks m s Hm|A m s Hm]; intros Hi Hd.
  - destruct (method_written ks m s Hm Hi Hd). split_and!; [by exists ks|done|done].
  - unfold pg_after, idle, rolled_back; simpl. rewrite (read_store m s Hm Hi Hd).
    split_and!; [by exists []|done|done].
Qed.

Lemma written_keeps (I : DB → Prop) ks d d' : (∀ k d d', db_write k d d' → constraints d → I d → I d') →
  written ks d d' → constraints d → I d → constraints d' ∧ I d'.
Proof.
  intros HI. induction 1 as [|d1 d2 d3 (k & _ & Hk) _ IH]; [done|]. intros Hc Hd.
  apply IH; [by eapply write_constraints|by eapply HI].
Qed.

(** What every write keeps holds in every reachable state. *)
Definition sound (I : DB → Prop) (s : Pg) : Prop :=
  constraints (pg_store s) ∧ deferred_violation (pg_store s) = None ∧ idle s ∧ I (pg_store s).
Lemma step_sound (I : DB → Prop) s s' : (∀ k d d', db_write k d d' → constraints d → I d → I d') →
  pg_step s s' → sound I s → sound I s'.
Proof.
  intros HI Hstep (Hc & Hd & Hi & Hinv). destruct (step_written _ _ Hstep Hi Hd) as ([ks Hw] & ? & ?).
  by destruct (written_keeps I _ _ _ HI Hw Hc Hinv).
Qed.
Lemma reachable_sound (I : DB → Prop) s : pg_reachable s → I empty_db →
  (∀ k d d', db_write k d d' → constraints d → I d → I d') → sound I s.
Proof.
  intros [n Hs] Hempty HI. assert (sound I (pg_start n)) as Hstart by (split; [apply empty_constraints|done]).
  revert Hstart. induction Hs as [|s1 s2 s3 Hstep _ IH]; [done|]. eauto using step_sound.
Qed.
Lemma steps_sound s s' : rtc pg_step s s' → sound (λ _, True) s → sound (λ _, True) s'.
Proof. induction 1 as [|s1 s2 s3 Hstep _ IH]; [done|]. intros. apply IH. by eapply step_sound. Qed.

(** What every write but those of one kind keeps, and the methods of that kind keep,
    holds in every reachable state. *)
Section one_kind.
Context (I : DB → Prop) (kind : Kind) (Hempty : I empty_db).
Context (Hwrite : ∀ k d d', db_write k d d' → k ≠ kind → I d → I d').
Context (Hmethod : ∀ A ks (m : GoM Pg A), pg_method ks m → kind ∈ ks → pkeeps I m).

Lemma written_but ks d d' : rtc (writes_of ks) d d' → kind ∉ ks → I d → I d'.
Proof using Hwrite.
  intros Hw Hks. induction Hw as [|d1 d2 d3 (k & Hk & Hd) _ IH]; [done|]. intros Hs1. apply IH.
  eapply Hwrite; [done| |done]. by intros ->.
Qed.
Lemma method_kept {A} ks (m : GoM Pg A) s : pg_method ks m → sound I s → I (pg_store (m s).2).
Proof using Hwrite Hmethod.
  intros Hm (_ & Hd & Hi & HI). destruct (decide (kind ∈ ks)) as [Hin|Hout].
  - unfold idle in Hi. destruct (Hmethod A ks m Hm Hin s) as [[? _] _]; [by split|by rewrite Hi|done].
  - destruct (method_written ks m s Hm Hi Hd) as [Hw _]. by eapply written_but.
Qed.
Lemma reachable_kept s : pg_reachable s → I (pg_store s).
Proof using Hempty Hwrite Hmethod.
  intros [n Hs]. enough (sound I s) as (_ & _ & _ & ?) by done.
  assert (sound I (pg_start n)) as Hstart by (split_and!; [apply empty_constraints|done..]).
  revert Hstart. induction Hs as [|s1 s2 s3 Hstep _ IH]; [done|]. intros Hs1. apply IH.
  assert (sound (λ _, True) s2) as (? & ? & ? & _).
  { eapply step_sound; [|done|]; [done|]. destruct Hs1 as (? & ? & ? & _). by split_and!. }
  split_and!; [done..|]. destruct Hstep as [A ks m s1 Hm|A m s1 Hm]; cbn; [by eapply method_kept|].
  destruct Hs1 as (_ & Hd & Hi & HI). by rewrite (read_store m s1 Hm Hi Hd).
Qed.
End one_kind.
End with_engine.
