(* ===== verification/PgTree.v ===== *)
(** * The namespace in the PostgreSQL database

    [abs_nodes d] and [abs_tenants d] are the nodes and the tenants of the tables, as
    the in-memory repository keeps them; [pg_tree d] says that they are a well-formed
    namespace (TreeInvariant.v) and that the identifiers of the rows are [uuid]s in
    their text form. The lemmas relate the conditions of the SQL statements, and the
    two recursive queries, to the functions of the in-memory repository. *)
From S2P Require Import Prelude Errors Logic GoLib Types Validation MemoryState.
From S2P Require Import MemoryNamespace Tree TreeInvariant TreeOperations TreeRecycle.
From S2P Require Import PgCore PgSchema PgRepository PgNamespace PgLogic.

Definition abs_nodes (d : DB) : gmap string Node :=
  map_imap (λ id n, Some (scanNode (id, n))) (db_file_node d).
Definition abs_tenant (id : string) (t : tenant_row) : option Tenant :=
  root ← tenant_root_node_id t; Some (mkTenant id (tenant_display_name t) root (tenant_created_at t)).
Definition abs_tenants (d : DB) : gmap string Tenant := map_imap abs_tenant (db_tenant d).

Lemma abs_nodes_lookup d k : abs_nodes d !! k = (λ n, scanNode (k, n)) <$> db_file_node d !! k.
Proof. unfold abs_nodes. rewrite map_lookup_imap. by destruct (db_file_node d !! k). Qed.
Lemma abs_tenants_lookup d k : abs_tenants d !! k = db_tenant d !! k ≫= abs_tenant k.
Proof. unfold abs_tenants. by rewrite map_lookup_imap. Qed.
Lemma abs_nodes_insert d k n :
  abs_nodes (d <| db_file_node := <[k := n]> (db_file_node d) |>) = <[k := scanNode (k, n)]> (abs_nodes d).
Proof.
  apply map_eq. intros k'. rewrite abs_nodes_lookup. simpl. destruct (decide (k' = k)) as [->|Hne].
  - by rewrite !lookup_insert_eq.
  - by rewrite !lookup_insert_ne, abs_nodes_lookup by done.
Qed.

(** A repository of the in-memory adapter with the same tenants and nodes. *)
Definition same_namespace (d : DB) (r : Repository) : Prop :=
  repo_nodes r = abs_nodes d ∧ repo_tenants r = abs_tenants d.

Section with_engine.
Context `{!PgEngine, !PgEngineLaws _}.

Definition canonical (s : string) : Prop := uuid_in s = Some s.
Lemma canonical_in s u : uuid_in s = Some u → canonical u.
Proof. apply uuid_in_canonical. Qed.
Lemma canonical_nonempty u : canonical u → u ≠ "".
Proof. intros Hu. by eapply uuid_in_nonempty. Qed.
Definition canonical_ref (o : option string) : Prop := ∀ u, o = Some u → canonical u.

Record row_ok (k : string) (n : file_node_row) : Prop := {
  ro_id : canonical k;
  ro_tenant : canonical (fn_tenant_id n);
  ro_parent : canonical_ref (fn_parent_id n);
  ro_root : canonical_ref (fn_trashed_root_id n);
  ro_original : canonical_ref (fn_original_parent_id n);
  ro_revision : 0 < fn_revision n
}.
Record pg_tree (d : DB) : Prop := {
  pt_row k n : db_file_node d !! k = Some n → row_ok k n;
  pt_tenant t row root : db_tenant d !! t = Some row → tenant_root_node_id row = Some root → canonical root;
  pt_wf : wf_maps (abs_nodes d) (abs_tenants d)
}.

(** ** Columns and fields *)

Lemma text_none o : canonical_ref o → text_or_empty o = "" ↔ o = None.
Proof.
  intros Ho. destruct o as [u|]; simpl; [|done]. split; [|done]. intros ->.
  by destruct (canonical_nonempty "" (Ho _ eq_refl)).
Qed.
Lemma text_some o u : canonical_ref o → u ≠ "" → text_or_empty o = u ↔ o = Some u.
Proof. intros Ho Hu. destruct o as [v|]; simpl; split; intros; simplify_eq; done. Qed.

Lemma scan_visible k n : row_ok k n → visible (scanNode (k, n)) = node_visible n.
Proof.
  intros Hrow. unfold visible, node_visible. simpl. f_equal. apply bool_decide_ext.
  apply text_none, Hrow.
Qed.

Section tree.
Context (d : DB) (r : Repository) (HT : pg_tree d) (HR : same_namespace d r).

Lemma node_of_row k n : db_file_node d !! k = Some n → repo_nodes r !! k = Some (scanNode (k, n)).
Proof. intros Hk. by rewrite (proj1 HR), abs_nodes_lookup, Hk. Qed.
Lemma row_of_node k m : repo_nodes r !! k = Some m →
  ∃ n, db_file_node d !! k = Some n ∧ m = scanNode (k, n).
Proof. rewrite (proj1 HR), abs_nodes_lookup. destruct (db_file_node d !! k); naive_solver. Qed.
Lemma same_wf : wf_tree r.
Proof. unfold wf_tree. destruct HR as [-> ->]. apply HT. Qed.

Lemma tenant_of_row t row root : db_tenant d !! t = Some row → tenant_root_node_id row = Some root →
  Tenant_RootNodeID (map_get (repo_tenants r) t) = root.
Proof.
  intros Ht Hroot. unfold map_get. rewrite (proj2 HR), abs_tenants_lookup, Ht. simpl.
  unfold abs_tenant. by rewrite Hroot.
Qed.

Lemma active_directory_row t i k n : db_file_node d !! k = Some n → active_directory t i k n = true →
  k = i ∧ activeDirectory r t i = Some (scanNode (k, n)).
Proof.
  intros Hk Ha. unfold active_directory in Ha. go_bool. subst. split; [done|].
  apply activeDirectory_Some. split_and!; [by apply node_of_row|done| |done].
  rewrite scan_visible; [done|by apply HT].
Qed.

(** The names taken in a directory. *)
Lemma name_exists_row `{!MapRange} t p name except : canonical p →
  nameExists r t p name except = exists_row (db_file_node d) (λ k n,
    (k != except) && (fn_tenant_id n == t) && (fn_parent_id n == Some p) &&
    (fn_normalized_name n == name) && node_visible n).
Proof.
  intros Hp. apply eq_bool_prop_intro. rewrite !Is_true_true, nameExists_true, exists_row_true. split.
  - intros (k & m & Hm & Hid & Ht & Hpar & Hname & Hv).
    apply row_of_node in Hm as (n & Hn & ->). pose proof (pt_row _ HT _ _ Hn) as Hrow.
    exists k, n. split; [done|]. rewrite scan_visible in Hv by done. simpl in *.
    apply text_some in Hpar; [|apply Hrow|by apply canonical_nonempty].
    by rewrite Hv, bool_decide_eq_false_2, !bool_decide_eq_true_2.
  - intros (k & n & Hn & Hp'). go_bool. pose proof (pt_row _ HT _ _ Hn) as Hrow.
    exists k, (scanNode (k, n)). rewrite scan_visible by done. simpl.
    split; [by apply node_of_row|]. split_and!; try done.
    match goal with H : fn_parent_id n = _ |- _ => by rewrite H end.
Qed.
End tree.

(** ** Recursive queries *)

Section closure.
Context {A : Type} `{EqDecision A} (g : A → list A).
Notation step := (λ working : list A, working ≫= g).

(** What [WITH RECURSIVE ... UNION] has found: everything reachable. *)
Lemma recursive_union_spec fuel start result :
  recursive_union fuel step start start = Some result →
  ∀ x, x ∈ result ↔ ∃ y, y ∈ start ∧ rtc (λ a b, b ∈ g a) y x.
Proof.
  set (reach := λ x, ∃ y, y ∈ start ∧ rtc (λ a b, b ∈ g a) y x).
  assert (∀ fuel working known, recursive_union fuel step working known = Some result →
    start ⊆ known → working ⊆ known → (∀ x, x ∈ known → reach x) →
    (∀ x y, x ∈ known → x ∉ working → y ∈ g x → y ∈ known) →
    ∀ x, x ∈ result ↔ reach x) as Hloop.
  { clear fuel. induction fuel as [|fuel IH]; intros working known Hrun Hstart Hw Hreach Hclosed; simpl in Hrun.
    all: destruct working as [|w working]; [injection Hrun as <-|try done].
    1-2: intros x; split; [by apply Hreach|]; intros (y & Hy & Hx); apply Hstart in Hy;
      induction Hx as [|a b c Hab _ IHx]; [done|]; apply IHx; eapply Hclosed; [done| |done]; apply not_elem_of_nil.
    set (new := filter _ _) in Hrun.
    assert (∀ y, y ∈ new ↔ y ∉ known ∧ ∃ x, x ∈ w :: working ∧ y ∈ g x) as Hnew.
    { intros y. unfold new. rewrite list_elem_of_filter, elem_of_remove_dups, list_elem_of_bind. naive_solver. }
    apply (IH new (known ++ new)); [done| | | |].
    - intros x Hx. apply elem_of_app. left. auto.
    - intros x Hx. apply elem_of_app. by right.
    - intros x [Hx|Hx]%elem_of_app; [auto|]. apply Hnew in Hx as (_ & y & Hy & Hxy).
      destruct (Hreach y) as (z & Hz & Hzy); [auto|]. exists z. split; [done|]. by eapply rtc_r.
    - intros x y [Hx|Hx]%elem_of_app Hnot Hy; [|done]. destruct (decide (y ∈ known)) as [Hk|Hk];
        [apply elem_of_app; by left|]. apply elem_of_app.
      destruct (decide (x ∈ w :: working)) as [Hxw|Hxw]; [|left; by eapply Hclosed].
      right. apply Hnew. split; [done|]. by exists x. }
  intros Hrun. eapply Hloop; [exact Hrun|done|done| |].
  - intros x Hx. by exists x.
  - done.
Qed.

(** The rounds end: each but the last finds a row not yet known. *)
Lemma recursive_union_ends universe fuel working known : NoDup known → known ⊆ universe →
  (∀ x y, y ∈ g x → y ∈ universe) → (length universe < fuel + length known)%nat →
  is_Some (recursive_union fuel step working known).
Proof.
  intros Hnd Hsub Hg. revert working known Hnd Hsub.
  induction fuel as [|fuel IH]; intros working known Hnd Hsub Hlen; (destruct working as [|w working]; [by eexists|]).
  - pose proof (submseteq_length _ _ (NoDup_submseteq _ _ Hnd Hsub)). simpl in Hlen. lia.
  - cbn [recursive_union]. set (new := filter _ _).
    assert (∀ y, y ∈ new → y ∉ known ∧ y ∈ universe) as Hnew.
    { intros y. unfold new. rewrite list_elem_of_filter, elem_of_remove_dups.
      intros [? (x & Hy & _)%list_elem_of_bind]. split; [done|]. by eapply Hg. }
    destruct new as [|y new'] eqn:E; [by destruct fuel; eexists|]. rewrite <- E in *. apply IH.
    + apply NoDup_app. split; [done|]. split; [intros x ? ?; by destruct (Hnew x)|].
      apply NoDup_filter, NoDup_remove_dups.
    + intros x [?|?]%elem_of_app; [auto|]. by apply Hnew.
    + rewrite length_app, E. simpl. lia.
Qed.
End closure.

Section queries.
Context (d : DB) (HT : pg_tree d).
Notation N := (abs_nodes d).

Lemma abs_parents k n : db_file_node d !! k = Some n → parents N !! k = Some (text_or_empty (fn_parent_id n)).
Proof. intros Hk. unfold parents. by rewrite lookup_fmap, abs_nodes_lookup, Hk. Qed.
Lemma parent_row k n p : db_file_node d !! k = Some n → fn_parent_id n = Some p →
  ∃ q, db_file_node d !! p = Some q ∧ fn_tenant_id q = fn_tenant_id n.
Proof.
  intros Hk Hp. assert (N !! k = Some (scanNode (k, n))) as Hn by (by rewrite abs_nodes_lookup, Hk).
  destruct (wn_parent _ _ _ _ (wt_node _ _ (pt_wf _ HT) _ _ Hn)) as (m & Hm & Ht & _).
  - simpl. rewrite Hp. simpl. apply canonical_nonempty. by apply (ro_parent _ _ (pt_row _ HT _ _ Hk)).
  - simpl in Hm. rewrite Hp in Hm. simpl in Hm. rewrite abs_nodes_lookup in Hm.
    destruct (db_file_node d !! p) as [q|]; [|done]. simplify_eq/=. by exists q.
Qed.

(** *** The ancestors of a directory *)

Lemma elem_of_ancestor_rows t p k parent : (k, parent) ∈ ancestor_rows d t p ↔
  ∃ n, db_file_node d !! k = Some n ∧ fn_tenant_id n = t ∧ p k = true ∧ parent = fn_parent_id n.
Proof.
  unfold ancestor_rows. rewrite list_elem_of_fmap. split.
  - intros ([k' n] & [= -> ->] & [Hk Hp]%elem_of_rows_where). go_bool. eauto.
  - intros (n & Hk & Ht & Hp & ->). exists (k, n). split; [done|]. apply elem_of_rows_where.
    by rewrite Hp, bool_decide_eq_true_2.
Qed.
Definition next_ancestor (t : string) : string * option string → list (string * option string) :=
  λ '(_, parent), match parent with Some parent => ancestor_rows d t (λ k, k == parent) | None => [] end.
Lemma elem_of_next_ancestor t k parent x : x ∈ next_ancestor t (k, parent) ↔
  ∃ q n, parent = Some q ∧ db_file_node d !! q = Some n ∧ fn_tenant_id n = t ∧ x = (q, fn_parent_id n).
Proof.
  unfold next_ancestor. simpl. destruct parent as [q|].
  - destruct x as [k' q']. rewrite elem_of_ancestor_rows. setoid_rewrite bool_decide_eq_true. naive_solver.
  - split; [by intros ?%elem_of_nil|naive_solver].
Qed.
Lemma ancestors_end t p : is_Some (let start := ancestor_rows d t p in
  recursive_union (recursion_fuel d) (ancestors_step d t) start start).
Proof.
  apply (recursive_union_ends _ ((λ '(k, n), (k, fn_parent_id n)) <$> map_to_list (db_file_node d))).
  - unfold ancestor_rows. apply NoDup_fmap_1 with fst. rewrite <- list_fmap_compose.
    erewrite list_fmap_ext; [apply (NoDup_rows_where (db_file_node d))|]. by intros ? [] ?.
  - intros [k q] (n & Hk & _ & _ & ->)%elem_of_ancestor_rows. apply list_elem_of_fmap.
    exists (k, n). split; [done|]. by apply elem_of_map_to_list.
  - intros [x [q|]] [k q'] Hin; [|by apply elem_of_nil in Hin].
    apply elem_of_ancestor_rows in Hin as (n & Hk & _ & _ & ->). apply list_elem_of_fmap.
    exists (k, n). split; [done|]. by apply elem_of_map_to_list.
  - rewrite length_fmap. unfold recursion_fuel. rewrite length_map_to_list. lia.
Qed.
(** Walking up from a row of the tenant stays in its tenant. *)
Lemma ancestors_above t k n x : db_file_node d !! k = Some n → fn_tenant_id n = t →
  rtc (λ a b, b ∈ next_ancestor t a) (k, fn_parent_id n) x → above (parents N) k x.1.
Proof.
  intros Hk Ht Hpath. remember (k, fn_parent_id n) as y eqn:Hy. revert k n Hk Ht Hy.
  induction Hpath as [y|y z x Hz _ IH]; intros k n Hk Ht ->; [constructor|].
  apply elem_of_next_ancestor in Hz as (q & m & Hq & Hm & Hmt & ->).
  eapply above_step; [by apply abs_parents| |]; rewrite Hq; simpl; [|by eapply IH].
  apply canonical_nonempty. by apply (ro_parent _ _ (pt_row _ HT _ _ Hk)).
Qed.
Lemma above_ancestors t k n a : db_file_node d !! k = Some n → fn_tenant_id n = t → above (parents N) k a →
  ∃ q, rtc (λ a b, b ∈ next_ancestor t a) (k, fn_parent_id n) (a, q).
Proof.
  intros Hk Ht Habove. revert n Hk Ht. induction Habove as [k|k p a Hp Hne _ IH]; intros n Hk Ht; [by eexists|].
  rewrite (abs_parents _ _ Hk) in Hp. simplify_eq. destruct (fn_parent_id n) as [p|] eqn:Hpar; [|done].
  destruct (parent_row _ _ _ Hk Hpar) as (m & Hm & Hmt). destruct (IH m Hm) as [q Hq]; [congruence|].
  exists q. eapply rtc_l; [|exact Hq]. apply elem_of_next_ancestor. by exists p, m.
Qed.

Lemma creates_cycle_spec t p i ancestors n : db_file_node d !! p = Some n → fn_tenant_id n = t →
  (let start := ancestor_rows d t (λ k, k == p) in
   recursive_union (recursion_fuel d) (ancestors_step d t) start start) = Some ancestors →
  existsb (λ '(k, _), k == i) ancestors = true ↔ above (parents N) p i.
Proof.
  intros Hp Ht Hrun. pose proof (recursive_union_spec (next_ancestor t) _ _ _ Hrun) as Hspec. clear Hrun.
  assert (∀ y, y ∈ ancestor_rows d t (λ k, k == p) ↔ y = (p, fn_parent_id n)) as Hstart.
  { intros [k q]. rewrite elem_of_ancestor_rows. setoid_rewrite bool_decide_eq_true. naive_solver. }
  rewrite existsb_exists. setoid_rewrite <- list_elem_of_In. setoid_rewrite Hspec. setoid_rewrite Hstart. split.
  - intros ([k q] & (y & -> & Hpath) & Hk). go_bool. subst k. by apply (ancestors_above _ _ _ _ Hp Ht) in Hpath.
  - intros Ha. destruct (above_ancestors _ _ _ _ Hp Ht Ha) as [q Hq]. exists (i, q).
    rewrite bool_decide_eq_true_2 by done. eauto.
Qed.

(** *** The visible subtree of a node *)

Lemma elem_of_visible_rows t p k : k ∈ visible_rows d t p ↔
  ∃ n, db_file_node d !! k = Some n ∧ fn_tenant_id n = t ∧ p k n = true ∧ node_visible n = true.
Proof.
  unfold visible_rows. rewrite list_elem_of_fmap. split.
  - intros ([k' n] & -> & [Hk Hp]%elem_of_rows_where). go_bool. eauto 6.
  - intros (n & Hk & Ht & Hp & Hv). exists (k, n). split; [done|]. apply elem_of_rows_where.
    by rewrite Hp, Hv, bool_decide_eq_true_2.
Qed.
Lemma subtree_ends t i : is_Some (subtree d t i).
Proof.
  apply (recursive_union_ends _ (map_to_list (db_file_node d)).*1).
  - apply NoDup_rows_where.
  - intros k (n & Hk & _)%elem_of_visible_rows. apply list_elem_of_fmap. exists (k, n).
    split; [done|]. by apply elem_of_map_to_list.
  - intros x k (n & Hk & _)%elem_of_visible_rows. apply list_elem_of_fmap. exists (k, n).
    split; [done|]. by apply elem_of_map_to_list.
  - rewrite length_fmap. unfold recursion_fuel. rewrite length_map_to_list. lia.
Qed.
Lemma subtree_spec t i ids n : db_file_node d !! i = Some n → fn_tenant_id n = t → node_visible n = true →
  subtree d t i = Some ids → ∀ x, x ∈ ids ↔ active_below N t i x.
Proof.
  intros Hi Ht Hv Hrun. pose proof (recursive_union_spec
    (λ id, visible_rows d t (λ _ n, fn_parent_id n == Some id)) _ _ _ Hrun) as Hspec. clear Hrun.
  assert (∀ y, y ∈ visible_rows d t (λ k _, k == i) ↔ y = i) as Hstart.
  { intros k. rewrite elem_of_visible_rows. setoid_rewrite bool_decide_eq_true. naive_solver. }
  assert (∀ x k, k ∈ visible_rows d t (λ _ n, fn_parent_id n == Some x) ↔
    ∃ m, db_file_node d !! k = Some m ∧ fn_tenant_id m = t ∧ fn_parent_id m = Some x ∧ node_visible m = true)
    as Hnext by (intros x k; rewrite elem_of_visible_rows; by setoid_rewrite bool_decide_eq_true).
  intros x. rewrite Hspec. setoid_rewrite Hstart. split.
  - intros (y & -> & Hpath). revert x Hpath. apply (rtc_ind_r (active_below N t i)); [constructor|].
    intros a b _ (m & Hm & Hmt & Hpar & Hmv)%Hnext Ha. eapply below_child.
    + by rewrite abs_nodes_lookup, Hm.
    + done.
    + by rewrite scan_visible by (by apply HT).
    + simpl. by rewrite Hpar.
  - intros Hx. exists i. split; [done|]. induction Hx as [|k m Hm Hmt Hmv Hb IH]; [done|].
    rewrite abs_nodes_lookup in Hm. destruct (db_file_node d !! k) as [row|] eqn:Hk; [|done].
    apply (inj Some) in Hm as <-. rewrite scan_visible in Hmv by (by apply HT). simpl in *.
    eapply rtc_r; [exact IH|]. apply Hnext. exists row. split_and!; try done.
    destruct (fn_parent_id row) as [p|]; [done|]. exfalso. simpl in Hb.
    inversion Hb as [Hi'|? ? Hempty]; subst.
    + by apply (canonical_nonempty "" (ro_id _ _ (pt_row _ HT _ _ Hi))).
    + by destruct (wf_ids (pt_wf _ HT) _ _ Hempty).
Qed.
End queries.
End with_engine.
