(* ===== verification/PgRefinement.v ===== *)
(** * The namespace of PostgreSQL refines the namespace in memory

    When a namespace method of the PostgreSQL repository returns a value, the method
    of the in-memory repository returns the same value from the same namespace and
    leaves the same namespace: identifiers in the text form of [uuid], times with the
    precision of [timestamptz]. From this the tree stays well formed. *)
From S2P Require Import Prelude Errors Logic GoLib Types Validation MemoryState.
From S2P Require Import MemoryIdempotency MemoryNamespace MemoryUploads MemoryFrame.
From S2P Require Import Tree TreeInvariant TreeOperations TreeRecycle NamespaceProperties.
From S2P Require Import PgCore PgSchema PgRepository PgIdempotency PgUploads PgMaintenance PgNamespace.
From S2P Require Import PgLogic PgWrites PgMethods PgTree.

(** ** The tables of the namespace *)

Definition same_rows (d d' : DB) : Prop := db_file_node d' = db_file_node d ∧ db_tenant d' = db_tenant d.
Lemma only_audit_rows d d' : only_audit d d' → same_rows d d'.
Proof. intros E. split; [apply (f_equal db_file_node) in E|apply (f_equal db_tenant) in E]; exact E. Qed.
Lemma only_claims_rows d d' : only_claims d d' → same_rows d d'.
Proof. intros E. split; [apply (f_equal db_file_node) in E|apply (f_equal db_tenant) in E]; exact E. Qed.
Lemma same_rows_trans d1 d2 d3 : same_rows d1 d2 → same_rows d2 d3 → same_rows d1 d3.
Proof. intros [??] [??]. split; congruence. Qed.
Lemma same_rows_namespace d d' r : same_rows d d' → same_namespace d r → same_namespace d' r.
Proof. unfold same_namespace, abs_nodes, abs_tenants. by intros [-> ->]. Qed.

Section with_engine.
Context `{!Platform, !MapRange, !PgEngine, !PgEngineLaws _, !PgEnv}.

Lemma same_rows_tree d d' : same_rows d d' → pg_tree d → pg_tree d'.
Proof. intros [E1 E2] []. split; unfold abs_nodes, abs_tenants in *; by rewrite ?E1, ?E2. Qed.

(** The audit trail in memory accepts what the one of PostgreSQL accepts. *)
Lemma memory_audit ctx b id tenant actor action type target now metadata encoded r : NewID b = Ok id →
  encodeAuditMetadata (list_to_map metadata) = Ok encoded →
  ∃ r', appendAuditLocked ctx b (newAuditEvent tenant actor action type target now metadata) r = (Ok tt, r') ∧
    same_tree r r'.
Proof.
  intros Hid Henc. unfold appendAuditLocked, newAuditEvent, boundedAuditMetadata. cbn [AuditEvent_Metadata].
  unfold encodeAuditMetadata in Henc. destruct (existsb _ _); [done|]. destruct (4096 <? _); [done|].
  rewrite bind_lift_ok. cbn [AuditEvent_ID]. rewrite (bool_decide_eq_true_2 ("" = "")), Hid by done.
  rewrite bind_ret. destruct (_ == _); by eexists.
Qed.

(** A tree after a call of a method that keeps it well formed. *)
Definition repo_of (d : DB) : Repository :=
  NewRepository <| repo_nodes := abs_nodes d |> <| repo_tenants := abs_tenants d |>.
Lemma repo_of_namespace d : same_namespace d (repo_of d).
Proof. done. Qed.
Lemma repo_of_wf d : pg_tree d → wf_tree (repo_of d).
Proof. intros HT. apply HT. Qed.

Definition simulates {A} (m : GoM Repository A) (a : A) (d d' : DB) : Prop :=
  ∀ r, same_namespace d r → ∃ r', m r = (Ok a, r') ∧ same_namespace d' r'.
Lemma simulates_tree {A} (m : GoM Repository A) a d d' : pg_tree d → simulates m a d d' →
  wp m (λ _ r', wf_tree r') (repo_of d) → (∀ k n, db_file_node d' !! k = Some n → row_ok k n) →
  (∀ t row root, db_tenant d' !! t = Some row → tenant_root_node_id row = Some root → canonical root) →
  pg_tree d'.
Proof.
  intros HT Hsim Hwp Hrows Htenants. destruct (Hsim _ (repo_of_namespace d)) as (r' & Hrun & Hn & Ht).
  eapply wp_run in Hwp; [|exact Hrun]. unfold wf_tree in Hwp. rewrite Hn, Ht in Hwp. by split.
Qed.

(** The commit of a simulated call: [d] is the view of the transaction before the
    audit trail, in which the tenants are those of [st]. *)
Lemma commit_simulated {A} (m : GoM Repository A) a st d w (Q : unit → DB → DB → Prop) :
  pg_tree st → same_rows d w → db_tenant d = db_tenant st → simulates m a st w →
  wp m (λ _ r', wf_tree r') (repo_of st) → (∀ k n, db_file_node d !! k = Some n → row_ok k n) →
  (simulates m a st w → Q tt w w) → okwp pg_tree commit Q st w.
Proof.
  intros HT [Hn Ht] Hten Hsim Hwp Hrows HQ. apply okwp_commit; [done|]. intros _.
  split; [|by apply HQ]. eapply simulates_tree; [done..|by rewrite Hn|]. rewrite Ht, Hten. apply HT.
Qed.

(** A name the unique index accepts is free in memory. *)
Lemma name_free d r T k n p except : pg_tree d → same_namespace d r →
  (∀ k', k' ≠ k → T !! k' = db_file_node d !! k') → except = k ∨ db_file_node d !! k = None →
  node_visible n = true → fn_parent_id n = Some p → canonical p → name_taken T k n = false →
  nameExists r (fn_tenant_id n) p (fn_normalized_name n) except = false.
Proof.
  intros HT HR HTk Hex Hv Hpar Hp Htaken. rewrite (name_exists_row d r HT HR) by done.
  apply exists_row_false. intros k' n' Hk'. apply not_true_iff_false. intros Hcond. go_bool.
  unfold name_taken in Htaken. rewrite Hv, Hpar in Htaken. simpl in Htaken. refused.
  assert (k' ≠ k) as Hne by (intros ->; destruct Hex; congruence).
  specialize (Htaken k' n'). rewrite HTk in Htaken by done. specialize (Htaken Hk').
  match goal with H : node_visible n' = true |- _ => rewrite H in Htaken end.
  by rewrite (bool_decide_eq_false_2 (k' = k)), !bool_decide_eq_true_2 in Htaken.
Qed.

Lemma insert_rows d k n : pg_tree d → row_ok k n →
  ∀ k' n', <[k := n]> (db_file_node d) !! k' = Some n' → row_ok k' n'.
Proof. intros HT Hn k' n' [[<- <-]|[_ ?]]%lookup_insert_Some; [done|by apply HT]. Qed.
Lemma update_rows d p f : pg_tree d → (∀ k n, row_ok k n → p k n = true → row_ok k (f k n)) →
  ∀ k' n', update_where (db_file_node d) p f !! k' = Some n' → row_ok k' n'.
Proof.
  intros HT Hf k' n'. rewrite lookup_update_where. destruct (db_file_node d !! k') as [n|] eqn:Hk; [|done].
  simpl. intros [= <-]. apply HT in Hk. destruct (p k' n) eqn:?; auto.
Qed.

(** ** [CreateDirectory] *)

Definition canon (s : string) : string := default "" (uuid_in s).
Lemma canon_in s u : uuid_in s = Some u → canon s = u.
Proof. unfold canon. by intros ->. Qed.

Lemma canon_canonical u : canonical u → canon u = u.
Proof. apply canon_in. Qed.
End with_engine.

(** Writes each identifier of a row as the text form of the argument it comes from. *)
Ltac canonicalize := repeat match goal with
  | H : uuid_in ?s = Some ?u |- _ => is_var u; pose proof (canonical_in _ _ H); apply canon_in in H; subst u
  end.

Section with_engine.
Context `{!Platform, !MapRange, !PgEngine, !PgEngineLaws _, !PgEnv}.
Definition canonical_identity (i : Identity) : Identity :=
  mkIdentity (canon (Identity_TenantID i)) (Identity_PrincipalID i).
Definition canonical_create (c : CreateDirectoryCommand) : CreateDirectoryCommand :=
  mkCreateDirectoryCommand (canonical_identity (CreateDirectoryCommand_Identity c))
    (canon (CreateDirectoryCommand_ID c)) (canon (CreateDirectoryCommand_ParentID c))
    (CreateDirectoryCommand_DisplayName c) (CreateDirectoryCommand_NormalizedName c)
    (pg_time (CreateDirectoryCommand_Now c)) None.

(** The method in memory, once its checks have passed. *)
Lemma memory_creates ctx b c d d' r parent encoded audit_id : let c' := canonical_create c in
  let t := canon (Identity_TenantID (CreateDirectoryCommand_Identity c)) in
  let p := canon (CreateDirectoryCommand_ParentID c) in let id := canon (CreateDirectoryCommand_ID c) in
  let n := new_directory t (Some p) (CreateDirectoryCommand_DisplayName c)
    (CreateDirectoryCommand_NormalizedName c) (CreateDirectoryCommand_Now c) in
  pg_tree d → same_namespace d r → canonical p → activeDirectory r t p = Some parent →
  db_file_node d !! id = None → name_taken (<[id := n]> (db_file_node d)) id n = false →
  NewID b = Ok audit_id →
  encodeAuditMetadata (list_to_map [("kind", "directory"); ("parent_id", p)]) = Ok encoded →
  same_rows (d <| db_file_node := <[id := n]> (db_file_node d) |>) d' →
  ∃ r', MemoryNamespace.CreateDirectory ctx b c' r = (Ok (scanNode (id, n)), r') ∧ same_namespace d' r'.
Proof.
  intros c' t p id n HT HR Hp Hparent Hfresh Hname Hid Henc Hrows.
  assert (nameExists r t p (CreateDirectoryCommand_NormalizedName c) "" = false) as Hfree.
  { change (nameExists r (fn_tenant_id n) p (fn_normalized_name n) "" = false).
    eapply (name_free d r _ id); [done..| |by right|done|done|done|done]. intros k' ?. by rewrite lookup_insert_ne. }
  unfold MemoryNamespace.CreateDirectory. rewrite bind_get. subst c'.
  cbn [canonical_create CreateDirectoryCommand_Identity canonical_identity Identity_TenantID
    CreateDirectoryCommand_ParentID CreateDirectoryCommand_ID CreateDirectoryCommand_NormalizedName
    CreateDirectoryCommand_DisplayName CreateDirectoryCommand_Now CreateDirectoryCommand_Idempotency].
  fold t p id. rewrite Hparent, Hfree. cbn [MemoryIdempotency.completeIdempotency]. rewrite bind_ret.
  unfold putNode. rewrite bind_mod.
  match goal with |- ∃ r', (try_ (appendAuditLocked _ _ (newAuditEvent ?t ?a ?x ?y ?z ?now ?md)) ≫= _) ?r1 = _ ∧ _ =>
    destruct (memory_audit ctx b audit_id t a x y z now md encoded r1 Hid Henc) as (r' & Hrun & Hsame) end.
  exists r'. unfold mbind at 1, GoM_bind at 1, try_. rewrite Hrun. split; [reflexivity|].
  destruct Hsame as [Hn Ht]. eapply same_rows_namespace; [exact Hrows|].
  split; [rewrite Hn, abs_nodes_insert|rewrite Ht; apply HR]. simpl. by rewrite (proj1 HR).
Qed.

Lemma CreateDirectory_simulates ctx b c st w : pg_tree st →
  okwp pg_tree (PgNamespace.CreateDirectory ctx b c)
    (λ node st' _, simulates (MemoryNamespace.CreateDirectory ctx b (canonical_create c)) node st st') st w.
Proof.
  intros HT. unfold PgNamespace.CreateDirectory, lockActiveDirectory, insert_directory. okwp_go.
  the_row. apply swp_insert_file_node. intros Hfresh N' d' Hw (_ & _ & Hname & _). okwp_go.
  match goal with H1 : only_claims _ ?d1, H2 : only_audit ?d1 ?d2 |- _ =>
    assert (same_rows d' d2) as Hrows by
      (by eapply same_rows_trans; [apply only_claims_rows|apply only_audit_rows]) end.
  destruct H17 as [encoded Henc]. canonicalize.
  eapply (commit_simulated (MemoryNamespace.CreateDirectory ctx b (canonical_create c))); try done.
  - intros r HR. destruct (active_directory_row st r HT HR _ _ _ _ H9 H14) as [_ Hpar].
    by eapply memory_creates.
  - apply CreateDirectory_keeps; [by apply repo_of_wf|].
    split; [by apply canonical_nonempty|]. simpl. by rewrite abs_nodes_lookup, Hfresh.
  - apply insert_rows; [done|]. split; try done; by intros ? [= <-].
  - intros Hsim ?. by apply okwp_ret.
Qed.

(** ** Updates of many rows *)

Lemma fmap_Some_eq {A B} (f : A → B) x : f <$> Some x = Some (f x).
Proof. done. Qed.
Lemma abs_update d p f ids g : (∀ k n, db_file_node d !! k = Some n → p k n = true ↔ k ∈ ids) →
  (∀ k n, db_file_node d !! k = Some n → p k n = true → scanNode (k, f k n) = g k (scanNode (k, n))) →
  updated (abs_nodes d) (abs_nodes (d <| db_file_node := update_where (db_file_node d) p f |>)) ids g.
Proof.
  intros Hp Hf k. rewrite !abs_nodes_lookup. cbn [db_file_node set_field eta_expand eta_DB].
  rewrite lookup_update_where. destruct (db_file_node d !! k) as [n|] eqn:Hk; [|by case_decide].
  rewrite !fmap_Some_eq. destruct (p k n) eqn:Hpk; case_decide as Hin; rewrite ?fmap_Some_eq.
  - by rewrite Hf.
  - by destruct Hin; eapply Hp.
  - by apply (Hp _ _ Hk) in Hin; congruence.
  - done.
Qed.
Lemma updated_unique N N1 N2 ids1 ids2 f : (∀ x, x ∈ ids1 ↔ x ∈ ids2) → updated N N1 ids1 f →
  updated N N2 ids2 f → N1 = N2.
Proof.
  intros Hids HU1 HU2. apply map_eq. intros k. rewrite (HU1 k), (HU2 k).
  do 2 case_decide; naive_solver.
Qed.

(** The root of the tenant, as [lockNamespace] returns it. *)
Definition tenant_root (d : DB) (t root : string) : Prop :=
  ∃ row, db_tenant d !! t = Some row ∧ tenant_root_node_id row = Some root.
Lemma tenant_root_of d t row : db_tenant d !! t = Some row → is_Some (tenant_root_node_id row) →
  tenant_root d t (text_or_empty (tenant_root_node_id row)).
Proof. intros Ht [root Hroot]. exists row. by rewrite Hroot. Qed.
Lemma root_of_tenant d r t root : same_namespace d r → tenant_root d t root →
  Tenant_RootNodeID (map_get (repo_tenants r) t) = root.
Proof. intros HR (row & Ht & Hroot). by eapply tenant_of_row. Qed.

End with_engine.

(** The names [okwp_go] has given to what a call has read. *)
Ltac the_root Hroot := match goal with
  | H1 : db_tenant ?d !! _ = Some ?row, H2 : is_Some (tenant_root_node_id ?row) |- _ =>
    pose proof (tenant_root_of d _ row H1 H2) as Hroot
  end.

Section with_engine.
Context `{!Platform, !MapRange, !PgEngine, !PgEngineLaws _, !PgEnv}.

(** ** [Recycle] *)

Lemma fits_successor z : 0 < z → z + 1 < 2 ^ (64 - 1) → wrap64 (z + 1) = z + 1.
Proof. intros. apply wrap64_id. unfold in_int64. lia. Qed.

Lemma scan_recycled id now k n root : Node_ID root = id → (k = id → 0 < fn_revision n) →
  (k = id → fn_revision n + 1 < 2 ^ (64 - 1)) →
  scanNode (k, recycled_row id now k n) = recycled root (pg_time now) k (scanNode (k, n)).
Proof.
  intros Hid Hpos Hfits. unfold recycled_row, recycled. rewrite Hid. case_bool_decide; [|done].
  simpl. by rewrite fits_successor by auto.
Qed.

Lemma memory_recycles ctx b i id now d d' n ids root audit_id : let t := canon (Identity_TenantID i) in
  pg_tree d → db_file_node d !! id = Some n → fn_tenant_id n = t → node_visible n = true →
  tenant_root d t root → root ≠ id →
  subtree d t id = Some ids → fn_revision n + 1 < 2 ^ (64 - 1) → NewID b = Ok audit_id →
  same_rows (d <| db_file_node := update_where (db_file_node d)
    (λ k n, (fn_tenant_id n == t) && bool_decide (k ∈ ids) && node_visible n) (recycled_row id now) |>) d' →
  simulates (MemoryNamespace.Recycle ctx b (canonical_identity i) id (fn_revision n) (pg_time now)) tt d d'.
Proof.
  intros t HT Hn Ht Hv Hroot Hne Hids Hfits Hb Hrows r HR.
  destruct b as [b|]; [|done]. pose proof (same_wf _ _ HT HR) as HW.
  pose proof (node_of_row d r HR _ _ Hn) as Hnode.
  destruct (Recycle_run ctx b (canonical_identity i) id (fn_revision n) (pg_time now) r (scanNode (id, n)) HW)
    as (r' & ids' & Hrun & Htenants & Hids' & HU).
  { split_and!; [done|done|rewrite scan_visible; [done|by apply HT]| |done].
    simpl. fold t. by rewrite (root_of_tenant d r _ root HR Hroot). }
  exists r'. split; [done|]. eapply same_rows_namespace; [exact Hrows|]. split.
  - rewrite (proj1 HR) in HU, Hids'. pose proof (subtree_spec d HT t id ids n Hn Ht Hv Hids) as Hsub.
    refine (updated_unique _ _ _ ids' ids _ _ HU _).
    { intros x. rewrite Hids', Hsub. simpl. by rewrite Ht. }
    apply abs_update.
    + intros k m Hk. split; [intros ?; by go_bool|]. intros Hin. pose proof (proj1 (Hsub k) Hin) as Hb'.
      destruct (wf_active_below (pt_wf _ HT) t id k (scanNode (id, n))) as (m' & Hm' & Hmt & Hmr); try done.
      * by rewrite abs_nodes_lookup, Hn.
      * apply text_none; [by apply (pt_row _ HT _ _ Hn)|]. unfold node_visible in Hv. by go_bool.
      * rewrite abs_nodes_lookup, Hk in Hm'. apply (inj Some) in Hm' as <-.
        assert (visible (scanNode (k, m)) = true) as Hvm.
        { eapply (wf_visible (pt_wf _ HT) k); [by rewrite abs_nodes_lookup, Hk|done]. }
        rewrite scan_visible in Hvm by (by apply HT). simpl in Hmt.
        by rewrite Hvm, !bool_decide_eq_true_2.
    + intros k m Hk Hp. apply scan_recycled; [done|intros _; by apply (pt_row _ HT _ _ Hk)|intros ->; by simplify_eq].
  - rewrite Htenants. apply HR.
Qed.

Lemma memory_recycled_before ctx b i id rev now d n root : let t := canon (Identity_TenantID i) in
  db_file_node d !! id = Some n → fn_tenant_id n = t → tenant_root d t root → root ≠ id →
  fn_status n = NodeTrashed → text_or_empty (fn_trashed_root_id n) = id →
  simulates (MemoryNamespace.Recycle ctx b (canonical_identity i) id rev now) tt d d.
Proof.
  intros t Hn Ht Hroot Hne Hst Htr r HR. exists r. split; [|done].
  unfold MemoryNamespace.Recycle. rewrite bind_get, (node_of_row d r HR _ _ Hn).
  cbn [canonical_identity Identity_TenantID scanNode Node_TenantID Node_Status Node_TrashedRootID Node_ID].
  fold t. rewrite (root_of_tenant d r _ root HR Hroot), Ht, Hst, Htr. by repeat go_decide.
Qed.

Lemma canonical_ref_some u : canonical u → canonical_ref (Some u).
Proof. by intros ? ? [= <-]. Qed.
Lemma canonical_ref_none : canonical_ref None.
Proof. by intros ?. Qed.
Hint Resolve canonical_ref_some canonical_ref_none : core.
Lemma recycled_row_ok id now k n : canonical id → row_ok k n → row_ok k (recycled_row id now k n).
Proof. intros Hid []. unfold recycled_row. destruct (k == id); split; simpl; auto; lia. Qed.

Lemma row_visible k n : row_ok k n → fn_status n = NodeActive → text_or_empty (fn_trashed_root_id n) = "" →
  node_visible n = true.
Proof.
  intros Hrow Hst Htr. rewrite <- (scan_visible k) by done. by apply visible_true.
Qed.

Lemma Recycle_simulates ctx b i id rev now st w : pg_tree st →
  okwp pg_tree (PgNamespace.Recycle ctx b i id rev now)
    (λ u st' _, simulates (MemoryNamespace.Recycle ctx b (canonical_identity i) (canon id) rev (pg_time now)) u st st')
    st w.
Proof.
  intros HT. unfold PgNamespace.Recycle, recycle_statement. okwp_go.
  all: found_row; canonicalize; subst; the_root Hroot.
  - apply okwp_commit; [done|]. intros _. split; [done|]. by eapply memory_recycled_before.
  - apply swp_update_file_nodes; [apply recycled_row_tenant|]. intros N' d' Hw Hacc. okwp_go.
    match goal with H : only_audit _ _ |- _ => apply only_audit_rows in H as Hrows end.
    assert (node_visible f = true) as Hv by (eapply row_visible; [by apply (pt_row _ HT)|done..]).
    assert (fn_revision f + 1 < 2 ^ (64 - 1)) as Hfits.
    { match goal with H : ∀ z, z ∈ _ → z + 1 < _ |- _ => apply H end.
      apply list_elem_of_fmap. exists (canon id, f). split; [done|]. apply elem_of_rows_where. split; [done|].
      rewrite Hv, !bool_decide_eq_true_2; [done|done| |done]. eapply subtree_spec; [done..|]. constructor. }
    eapply (commit_simulated (MemoryNamespace.Recycle ctx b (canonical_identity i) (canon id) (fn_revision f) (pg_time now)));
      [done..| | | |done].
    + eapply memory_recycles; try done.
    + apply Recycle_keeps. by apply repo_of_wf.
    + apply update_rows; [done|]. intros k m ? _. by apply recycled_row_ok.
Qed.

(** ** [Restore] *)

Lemma exists_row_ext {K V} `{Countable K} (t : gmap K V) p q : (∀ k v, p k v = q k v) →
  exists_row t p = exists_row t q.
Proof. intros Hpq. unfold exists_row. induction (map_to_list t) as [|[k v] l IH]; simpl; [done|]. by rewrite Hpq, IH. Qed.

Lemma scan_restored id now k n root : Node_ID root = id → (k = id → 0 < fn_revision n) →
  (k = id → fn_revision n + 1 < 2 ^ (64 - 1)) →
  scanNode (k, restored_row id now k n) = restored_child root (pg_time now) k (scanNode (k, n)).
Proof.
  intros Hid Hpos Hfits. unfold restored_row, restored_child. rewrite Hid. case_bool_decide; [|done].
  simpl. by rewrite fits_successor by auto.
Qed.
Lemma restored_row_ok id now k n : row_ok k n → row_ok k (restored_row id now k n).
Proof. intros []. unfold restored_row. destruct (k == id); split; simpl; auto; lia. Qed.

Lemma memory_restores ctx b i id now d d' n p audit_id q : let t := canon (Identity_TenantID i) in
  pg_tree d → db_file_node d !! id = Some n → fn_tenant_id n = t → fn_status n = NodeTrashed →
  fn_trashed_root_id n = Some id → fn_original_parent_id n = Some p →
  db_file_node d !! p = Some q → active_directory t p p q = true →
  exists_row (db_file_node d) (λ k m, (fn_tenant_id m == t) && (fn_parent_id m == Some p) &&
    (fn_normalized_name m == fn_normalized_name n) && (k != id) && node_visible m) = false →
  fn_revision n + 1 < 2 ^ (64 - 1) → NewID b = Ok audit_id →
  same_rows (d <| db_file_node := update_where (db_file_node d)
    (λ _ m, (fn_tenant_id m == t) && (fn_trashed_root_id m == Some id)) (restored_row id now) |>) d' →
  simulates (MemoryNamespace.Restore ctx b (canonical_identity i) id (fn_revision n) (pg_time now))
    (scanNode (id, restored_row id now id n)) d d'.
Proof.
  intros t HT Hn Ht Hst Htr Hor Hq Hpar Hname Hfits Hb Hrows r HR.
  destruct b as [b|]; [|done]. pose proof (same_wf _ _ HT HR) as HW.
  pose proof (node_of_row d r HR _ _ Hn) as Hnode. pose proof (pt_row _ HT _ _ Hn) as Hrow.
  destruct (Restore_run ctx b (canonical_identity i) (pg_time now) r (scanNode (id, n)) HW)
    as (r' & n' & Hrun & Hn' & Htenants & HU); [done|done|done|simpl; by rewrite Htr| | |].
  { simpl. rewrite Hor. destruct (active_directory_row d r HT HR _ _ _ _ Hq Hpar) as [_ Ha]. fold t. eauto. }
  { simpl. fold t. rewrite Hor, <- Hname. simpl.
    rewrite (name_exists_row d r HT HR) by (by apply (ro_original _ _ Hrow)).
    apply exists_row_ext. intros k m. by repeat destruct (_ == _); destruct (node_visible m). }
  simpl in Hrun, Hn', HU. fold t in HU.
  assert (repo_nodes r' = abs_nodes (d <| db_file_node := update_where (db_file_node d)
    (λ _ m, (fn_tenant_id m == t) && (fn_trashed_root_id m == Some id)) (restored_row id now) |>)) as Hnodes.
  { rewrite (proj1 HR) in HU. refine (updated_unique _ _ _ _ _ _ (λ x, iff_refl _) HU _). apply abs_update.
    - intros k m Hk. destruct (trashedSubtree_spec r t id) as [_ Hids]; [by eapply wf_ids|].
      rewrite Hids, (node_of_row d r HR _ _ Hk). split; [intros ?; go_bool|intros (m' & Hm' & ? & ?)].
      + eexists. split; [done|]. simpl. split; [done|].
        match goal with H : fn_trashed_root_id m = _ |- _ => by rewrite H end.
      + apply (inj Some) in Hm' as <-. simpl in *. rewrite !bool_decide_eq_true_2; [done| |done].
        apply text_some; [by apply (pt_row _ HT _ _ Hk)|by apply canonical_nonempty, (ro_id _ _ Hrow)|done].
    - intros k m Hk Hp. apply scan_restored; [done|intros _; by apply (pt_row _ HT _ _ Hk)|intros ->; by simplify_eq]. }
  exists r'. split.
  - rewrite Hrun. do 2 f_equal. apply (inj Some). rewrite <- Hn', Hnodes, abs_nodes_lookup.
    cbn [db_file_node set_field eta_expand eta_DB]. rewrite lookup_update_where, Hn. cbn [fmap option_fmap option_map].
    by rewrite Ht, Htr, !bool_decide_eq_true_2.
  - eapply same_rows_namespace; [exact Hrows|]. split; [done|]. rewrite Htenants. apply HR.
Qed.

Lemma Restore_simulates ctx b i id rev now st w : pg_tree st →
  okwp pg_tree (PgNamespace.Restore ctx b i id rev now)
    (λ node st' _, simulates (MemoryNamespace.Restore ctx b (canonical_identity i) (canon id) rev (pg_time now))
      node st st') st w.
Proof.
  intros HT. unfold PgNamespace.Restore, restore_statement, lockActiveDirectory. okwp_go.
  apply swp_update_file_nodes; [apply restored_row_tenant|]. intros N' d' Hw Hacc. okwp_go.
  found_row; canonicalize; subst.
  match goal with H : only_audit _ _ |- _ => apply only_audit_rows in H as Hrows end.
  match goal with H : db_file_node st !! canon id = Some ?x |- _ => rename H into Hn, x into n' end.
  assert (Hrow := pt_row _ HT _ _ Hn).
  match goal with H : text_or_empty _ ≠ "" |- _ => rename H into Hne end.
  destruct (fn_original_parent_id n') as [p|] eqn:Hor; [|done]. change (text_or_empty (Some p)) with p in *.
  rewrite ?(canon_canonical p), ?(canon_canonical (canon id)) in * by (done || by apply (ro_original _ _ Hrow)).
  match goal with H : active_directory _ _ _ _ = true |- _ => assert (Hd := H); unfold active_directory in H; go_bool; subst end.
  match goal with H : N' !! canon id = Some ?x |- _ => rename H into Hf, x into f' end.
  assert (f' = restored_row (canon id) now (canon id) n') as ->.
  { subst N'. rewrite lookup_update_where, Hn in Hf. apply (inj Some) in Hf as <-. rewrite !bool_decide_eq_true_2; done. }
  assert (fn_revision n' + 1 < 2 ^ (64 - 1)) as Hfits.
  { match goal with H : ∀ z, z ∈ _ → z + 1 < _ |- _ => apply H end.
    apply list_elem_of_fmap. exists (canon id, n'). split; [done|]. apply elem_of_rows_where. split; [done|].
    by rewrite !bool_decide_eq_true_2. }
  eapply (commit_simulated (MemoryNamespace.Restore ctx b (canonical_identity i) (canon id) (fn_revision n') (pg_time now)));
    [done..| | | |intros ? ?; by apply okwp_ret].
  - eapply memory_restores; done.
  - apply Restore_keeps. by apply repo_of_wf.
  - apply update_rows; [done|]. intros k m ? _. by apply restored_row_ok.
Qed.

(** ** [UpdateNode] *)

Definition canonical_update (c : UpdateNodeCommand) : UpdateNodeCommand :=
  mkUpdateNodeCommand (canonical_identity (UpdateNodeCommand_Identity c)) (canon (UpdateNodeCommand_NodeID c))
    (UpdateNodeCommand_DisplayName c)
    (if UpdateNodeCommand_DisplayName c is Some _ then UpdateNodeCommand_NormalizedName c else None)
    (canon <$> UpdateNodeCommand_ParentID c) (UpdateNodeCommand_ExpectedRevision c)
    (pg_time (UpdateNodeCommand_Now c)).

Notation updated_row parent names now := (λ n,
  n <| fn_parent_id := Some parent |> <| fn_display_name := names.1 |> <| fn_normalized_name := names.2 |>
    <| fn_revision := fn_revision n + 1 |> <| fn_updated_at := pg_time now |>).

#[local] Arguments recursive_union : simpl never.
Lemma okwp_check_target c k n p (Q : unit → DB → DB → Prop) st w :
  let t := canon (Identity_TenantID (UpdateNodeCommand_Identity c)) in
  pg_tree st → pg_tree w → db_file_node w !! k = Some n →
  ((is_Some (UpdateNodeCommand_ParentID c) → ∀ r, same_namespace w r →
      MemoryNamespace.check_move r t (scanNode (k, n)) (canon p) = Ok tt) → Q tt st w) →
  okwp pg_tree (check_target c (scanNode (k, n)) p) Q st w.
Proof.
  intros t Hst HT Hn HQ.
  assert (∀ q row, canonical q → db_file_node w !! q = Some row → active_directory t (canon p) q row = true →
    (fn_kind n = NodeDirectory → ¬ above (parents (abs_nodes w)) q k) →
    ∀ r, same_namespace w r → MemoryNamespace.check_move r t (scanNode (k, n)) (canon p) = Ok tt) as Hcheck.
  { intros q row Hq Hrow Ha Hnot r HR. pose proof (same_wf _ _ HT HR) as HW.
    destruct (active_directory_row w r HT HR _ _ _ _ Hrow Ha) as [-> Hact]. unfold MemoryNamespace.check_move.
    rewrite Hact. cbn [scanNode Node_Kind Node_ID]. case_bool_decide as Hk; [|done].
    apply activeDirectory_Some in Hact as (Hq' & Ht & _).
    destruct (isDescendant_spec r (canon p) k t (scanNode (canon p, row))) as (below & -> & Hiff);
      [by eapply wf_ids|by eapply wf_tenant_closed|apply HW|by eapply canonical_nonempty, (pt_row _ HT _ _ Hn)|done..|].
    destruct below; [|done]. exfalso. apply Hnot; [done|]. rewrite <- (proj1 HR). by apply Hiff. }
  unfold check_target, PgNamespace.check_move, lockActiveDirectory, creates_cycle. okwp_go.
  all: found_row; canonicalize; subst; apply HQ; intros Hp; try (by destruct Hp as [? [=]]).
  all: match goal with H : active_directory _ _ _ _ = true |- _ =>
    assert (Ha := H); unfold active_directory in Ha; rename H into Hact end.
  all: go_bool. 
  all: intros r HR; subst; eapply (Hcheck (canon p)); [done|done|exact Hact| |exact HR].
  - intros _ Habove. apply not_true_iff_false in Heqb0. apply Heqb0.
    rewrite (canon_canonical k) by (by apply (pt_row _ HT _ _ Hn)).
    eapply (creates_cycle_spec w HT t (canon p)); [done|done| |done]. eassumption.
  - done.
Qed.

Lemma okwp_new_names c node (Q : string * string → DB → DB → Prop) st w : pg_tree st →
  ((is_Some (UpdateNodeCommand_DisplayName c) → is_Some (UpdateNodeCommand_NormalizedName c)) →
    Q (default (Node_DisplayName node) (UpdateNodeCommand_DisplayName c),
      default (Node_NormalizedName node) (UpdateNodeCommand_NormalizedName (canonical_update c))) st w) →
  okwp pg_tree (new_names c node) Q st w.
Proof.
  intros Hst HQ. unfold new_names. unfold canonical_update in HQ.
  destruct c as [? ? [display|] [normalized|]]; simpl in *; okwp_go; apply HQ; intros []; done || by eexists.
Qed.

Lemma update_where_one {K V} `{Countable K} (t : gmap K V) p f k v : t !! k = Some v → p k v = true →
  (∀ k' v', p k' v' = true → k' = k) → update_where t p f = <[k := f k v]> t.
Proof.
  intros Hk Hp Hone. apply map_eq. intros k'. rewrite lookup_update_where, lookup_insert. case_decide.
  - subst k'. rewrite Hk. simpl. by rewrite Hp.
  - destruct (t !! k') as [v'|] eqn:Hk'; [|done]. simpl. destruct (p k' v') eqn:Hp'; [|done].
    apply Hone in Hp'. by subst k'.
Qed.

Lemma memory_updates ctx b c d d' n names p root audit_id encoded : let c' := canonical_update c in
  let t := canon (Identity_TenantID (UpdateNodeCommand_Identity c)) in
  let id := canon (UpdateNodeCommand_NodeID c) in
  let n' := updated_row p names (UpdateNodeCommand_Now c) n in
  pg_tree d → db_file_node d !! id = Some n → fn_tenant_id n = t → node_visible n = true →
  tenant_root d t root → id ≠ root → fn_revision n = UpdateNodeCommand_ExpectedRevision c →
  (is_Some (UpdateNodeCommand_DisplayName c) → is_Some (UpdateNodeCommand_NormalizedName c)) →
  names = (default (fn_display_name n) (UpdateNodeCommand_DisplayName c),
    default (fn_normalized_name n) (UpdateNodeCommand_NormalizedName c')) →
  p = default (text_or_empty (fn_parent_id n)) (UpdateNodeCommand_ParentID c') → canonical p →
  (is_Some (UpdateNodeCommand_ParentID c) → ∀ r, same_namespace d r →
    MemoryNamespace.check_move r t (scanNode (id, n)) p = Ok tt) →
  fn_revision n + 1 < 2 ^ (64 - 1) → name_taken (<[id := n']> (db_file_node d)) id n' = false →
  NewID b = Ok audit_id → encodeAuditMetadata (list_to_map [("parent_id", p)]) = Ok encoded →
  same_rows (d <| db_file_node := <[id := n']> (db_file_node d) |>) d' →
  simulates (MemoryNamespace.UpdateNode ctx b c') (scanNode (id, n')) d d'.
Proof.
  intros c' t id n' HT Hn Ht Hv Hroot Hne Hrev Hnames Hnames' Hp Hcanon Hmove Hfits Hfree Hid Henc Hrows r HR.
  assert (nameExists r t p (names.2) id = false) as Hname.
  { rewrite <- Ht. change (nameExists r (fn_tenant_id n') p (fn_normalized_name n') id = false).
    eapply (name_free d r _ id); [done..| |by left|done|done|done|done]. intros k' ?. by rewrite lookup_insert_ne. }
  assert (Hrow := pt_row _ HT _ _ Hn).
  unfold MemoryNamespace.UpdateNode. rewrite bind_get. subst c'.
  cbn [canonical_update UpdateNodeCommand_Identity canonical_identity Identity_TenantID UpdateNodeCommand_NodeID
    UpdateNodeCommand_ExpectedRevision UpdateNodeCommand_ParentID UpdateNodeCommand_NormalizedName
    UpdateNodeCommand_DisplayName UpdateNodeCommand_Now] in *.
  fold t id. rewrite (proj2 (activeNode_Some r t id (scanNode (id, n)))) by
    (split_and!; [by apply (node_of_row d r HR)|done|by rewrite scan_visible]).
  rewrite (root_of_tenant d r _ root HR Hroot). cbn [scanNode Node_ID Node_Revision Node_ParentID Node_NormalizedName].
  fold (scanNode (id, n)). rewrite <- Hp, <- Hrev, (bool_decide_eq_false_2 (root = id)) by done.
  rewrite (bool_decide_eq_true_2 (fn_revision n = _)) by done. cbn [negb].
  replace (lift _) with (ret () : GoM Repository unit); [rewrite bind_ret|].
  2: { destruct (UpdateNodeCommand_ParentID c); [|done]. cbn [fmap option_fmap option_map]. by rewrite (Hmove ltac:(by eexists) r HR). }
  match goal with |- context [nameExists _ _ _ ?x _] => replace x with names.2 by (by rewrite Hnames') end.
  rewrite Hname.
  destruct (UpdateNodeCommand_DisplayName c) as [display|] in *, (UpdateNodeCommand_NormalizedName c) as [normalized|] in *,
    (UpdateNodeCommand_ParentID c) as [parent|] in *; try (by destruct (Hnames ltac:(by eexists)) as [? [=]]);
    cbn [fmap option_fmap option_map default from_option] in *; rewrite bind_ret; cbv zeta.
  all: match goal with |- context [putNode (Node_ID ?m) ?m] => replace m with (scanNode (id, n')) by
    (unfold n'; rewrite Hnames', Hp; cbn; by rewrite fits_successor by (done || by apply Hrow)) end.
  all: cbn [scanNode Node_ID Node_ParentID]; fold (scanNode (id, n')); unfold putNode; rewrite bind_mod.
  all: match goal with |- ∃ r', (appendAuditLocked _ _ (newAuditEvent ?t ?a ?x ?y ?z ?now ?md) ≫= _) ?r1 = _ ∧ _ =>
    destruct (memory_audit ctx b audit_id t a x y z now md encoded r1 Hid Henc) as (r' & Hrun & Hsame) end.
  all: exists r'; split; [unfold mbind at 1, GoM_bind at 1; rewrite Hrun; simpl; by destruct p, names|].
  all: destruct Hsame as [Hn1 Ht1]; eapply same_rows_namespace; [exact Hrows|]; 
    split; [rewrite Hn1, abs_nodes_insert|rewrite Ht1; apply HR]; simpl; by rewrite (proj1 HR).
Qed.

Lemma swp_update_node k tenant node parent names now n (Q : Node → DB → Prop) num d : canon node = k →
  let n' := updated_row (canon parent) names now n in
  let t := <[k := n']> (db_file_node d) in
  db_file_node d !! k = Some n → fn_tenant_id n = canon tenant →
  (canonical (canon parent) → fn_revision n + 1 < 2 ^ (64 - 1) → name_taken t k n' = false →
    Q (scanNode (k, n')) (d <| db_file_node := t |>)) →
  swp (update_node_statement tenant node parent names.1 names.2 now (fn_revision n)) Q num d.
Proof.
  intros Hk n' t Hn Ht HQ. unfold update_node_statement. sql. canonicalize. rewrite Hk in *.
  set (p := λ k' m, (fn_tenant_id m == canon tenant) && (k' == k) && (fn_revision m =? fn_revision n)) in *.
  set (f := λ (_ : string) (m : file_node_row), _).
  assert (update_where (db_file_node d) p f = t) as Hupd.
  { refine (update_where_one (db_file_node d) p f k n Hn _ _).
    - unfold p. by rewrite Z.eqb_refl, !bool_decide_eq_true_2.
    - intros k' m Hp. unfold p in Hp. by go_bool. }
  assert (p k n = true) as Hp by (unfold p; by rewrite Z.eqb_refl, !bool_decide_eq_true_2).
  apply swp_update_file_nodes; [done|]. intros N' d' _ Hacc. unfold d', N' in *. rewrite Hupd in *. sql.
  destruct (Hacc k n Hn Hp) as (_ & _ & Hname & _).
  assert (In x (x :: l)) as Hx by (by left). 
  match goal with H : _ = x :: l |- _ => rewrite <- H in Hx end.
  apply list_elem_of_In, list_elem_of_fmap in Hx as ([k' m] & -> & [Hk' Hp']%elem_of_rows_where).
  assert (k' = k) as -> by (unfold p in Hp'; by go_bool). simplify_eq. 
  apply HQ; [done| |done].
  match goal with H : ∀ z, z ∈ _ → z + 1 < _ |- _ => apply H end.
  apply list_elem_of_fmap. exists (canon node, n). split; [done|]. by apply elem_of_rows_where.
Qed.

(** A node that is not the root has a parent. *)
Lemma parent_canonical d k n root : pg_tree d → db_file_node d !! k = Some n →
  tenant_root d (fn_tenant_id n) root → k ≠ root →
  canon (text_or_empty (fn_parent_id n)) = text_or_empty (fn_parent_id n).
Proof.
  intros HT Hn Hroot Hne. pose proof (not_root_parent (repo_of d) k (scanNode (k, n)) (repo_of_wf d HT)) as Hpar.
  destruct (fn_parent_id n) as [p|] eqn:Hp.
  - apply canon_canonical. by apply (ro_parent _ _ (pt_row _ HT _ _ Hn)).
  - exfalso. apply Hpar.
    + by apply (node_of_row d _ (repo_of_namespace d)).
    + cbn [scanNode Node_TenantID]. rewrite (root_of_tenant d _ _ root (repo_of_namespace d) Hroot). done.
    + simpl. by rewrite Hp.
Qed.

Lemma UpdateNode_simulates ctx b c st w : pg_tree st →
  okwp pg_tree (PgNamespace.UpdateNode ctx b c)
    (λ node st' _, simulates (MemoryNamespace.UpdateNode ctx b (canonical_update c)) node st st') st w.
Proof.
  intros HT. unfold PgNamespace.UpdateNode. okwp_go.
  found_row; canonicalize; subst; the_root Hroot.
  match goal with H : db_file_node st !! canon _ = Some ?x |- _ => rename H into Hn, x into n' end.
  eapply okwp_check_target; [done..|]. intros Hmove _. apply okwp_bind, okwp_new_names; [done|].
  intros Hnames _. okwp_go. 
  match goal with H : fn_revision n' = _ |- _ => rewrite <- H end.
  assert (canon (canon (UpdateNodeCommand_NodeID c)) = canon (UpdateNodeCommand_NodeID c)) as Hid
    by (by apply canon_canonical).
  apply (swp_update_node (canon (UpdateNodeCommand_NodeID c))); [exact Hid|done|done|].
  intros Hcanon Hfits Hfree. set (n1 := set_field _ _ _) in *. okwp_go.
  match goal with H : only_audit _ _ |- _ => apply only_audit_rows in H as Hrows end.
  match goal with H : ∃ _, encodeAuditMetadata _ = _ |- _ => destruct H as [encoded Henc] end.
  assert (Hrow := pt_row _ HT _ _ Hn).
  eapply (commit_simulated (MemoryNamespace.UpdateNode ctx b (canonical_update c))); [done..| | | |intros ? ?; by apply okwp_ret].
  - eapply memory_updates; try done. unfold canonical_update. simpl.
    destruct (UpdateNodeCommand_ParentID c); [done|]. simpl. match goal with H : fn_tenant_id _ = _ |- _ => rewrite <- H in Hroot end. by eapply parent_canonical.
  - apply UpdateNode_keeps; [by apply repo_of_wf|]. simpl. by intros ->.
  - apply insert_rows; [done|]. destruct Hrow. split; simpl; try done; [by intros ? [= <-]|lia].
Qed.
End with_engine.
