(* ===== verification/PgInvariant.v ===== *)
(** * The namespace stays well formed in PostgreSQL

    Every call of a method of the repository leaves a well-formed namespace
    ([pg_tree], PgTree.v) in the committed database, whatever the call returns.
    [PgRefinement.v] shows it of the methods that move nodes; here the others: the
    root of a new tenant, a committed upload, and the updates that keep the place of
    each node. *)
From S2P Require Import Prelude Errors Logic GoLib Types Validation MemoryState MemoryIdempotency MemoryNamespace.
From S2P Require Import MemoryUploads MemoryFrame Tree TreeInvariant TreeOperations TreeRecycle NamespaceProperties.
From S2P Require Import PgCore PgSchema PgRepository PgIdempotency PgNamespace PgUploads PgMaintenance PgGovernance.
From S2P Require Import PgGroups PgLogic PgWrites PgMethods PgConstraints PgTree PgRefinement.

#[local] Opaque insert delete delete_where update_where.

(** Writes to other tables. *)
Lemma write_same_rows k d d' : db_write k d d' → k ∉ [TenantNew; TenantRoot; Nodes] → same_rows d d'.
Proof. destruct 1; intros Hk; try done; destruct Hk; set_solver. Qed.
Lemma written_same_rows ks d d' : rtc (writes_of ks) d d' → Forall (.∉ [TenantNew; TenantRoot; Nodes]) ks →
  same_rows d d'.
Proof.
  intros Hw Hks. rewrite Forall_forall in Hks. induction Hw as [d|d1 d2 d3 (k & Hk & Hd) _ IH]; [done|].
  eapply same_rows_trans; [|exact IH]. eapply write_same_rows; eauto.
Qed.

Section with_engine.
Context `{!Platform, !MapRange, !PgEngine, !PgEngineLaws _, !PgEnv, !MetadataJSON}.

(** ** Updates that keep the place of a node *)

Definition remarks (d : DB) (p : string → file_node_row → bool) (f : string → file_node_row → file_node_row)
    (k : string) (n : file_node_row) : Prop :=
  row_ok k (f k n) ∧ same_shape (scanNode (k, n)) (scanNode (k, f k n)) ∧
  fn_trashed_root_id (f k n) = fn_trashed_root_id n ∧ fn_original_parent_id (f k n) = fn_original_parent_id n ∧
  (fn_status (f k n) = fn_status n ∨
   fn_status (f k n) = "purging" ∧ ∃ t, fn_trashed_root_id n = Some t ∧
     ∀ e, db_file_node d !! t = Some e → fn_tenant_id e = fn_tenant_id n → fn_trashed_root_id e = Some t →
       p t e = true ∧ fn_status (f t e) = "purging").
Lemma remark_tree d p f : pg_tree d →
  (∀ k n, db_file_node d !! k = Some n → row_ok k n → p k n = true → remarks d p f k n) →
  pg_tree (d <| db_file_node := update_where (db_file_node d) p f |>).
Proof.
  intros HT Hf. pose proof (pt_wf _ HT) as HW. split; [|apply (pt_tenant _ HT)|].
  - cbn. intros k n'. rewrite lookup_update_where. destruct (db_file_node d !! k) as [n|] eqn:Hk; [|done].
    simpl. intros [= <-]. pose proof (pt_row _ HT _ _ Hk). destruct (p k n) eqn:Hp; [|done]. by apply Hf.
  - change (abs_tenants (d <| db_file_node := _ |>)) with (abs_tenants d).
    set (ids := (rows_where (db_file_node d) p).*1).
    assert (∀ k n, db_file_node d !! k = Some n → p k n = true ↔ k ∈ ids) as Hids.
    { intros k n Hk. unfold ids. rewrite list_elem_of_fmap. split.
      - intros Hp. exists (k, n). split; [done|]. by apply elem_of_rows_where.
      - intros ([k' n'] & -> & [Hk' Hp]%elem_of_rows_where). simpl in *. by simplify_eq. }
    apply (wf_remark (abs_nodes d) _ _ ids
      (λ k m, if db_file_node d !! k is Some n then scanNode (k, f k n) else m)); [done| |].
    + apply abs_update; [done|]. intros k n Hk _. by rewrite Hk.
    + intros k m Hk Hm. rewrite abs_nodes_lookup in Hm. destruct (db_file_node d !! k) as [n|] eqn:Hn; [|done].
      apply (inj Some) in Hm as <-. pose proof (pt_row _ HT _ _ Hn) as Hrow.
      apply (Hids k n Hn) in Hk. destruct (Hf k n Hn Hrow Hk) as (_ & Hshape & Htr & Hor & Hst). split_and!; [done| | |].
      * simpl. by rewrite Htr.
      * simpl. by rewrite Hor.
      * destruct Hst as [Hst|(Hst & t & Ht & He)]; [left; simpl; by rewrite Hst|right].
        simpl. rewrite Ht. simpl. assert (t ≠ "") as Hne by (by apply canonical_nonempty, (ro_root _ _ Hrow)).
        destruct (wf_group_entry HW k (scanNode (k, n))) as (e & Hle & Hte & Hten);
          [by rewrite abs_nodes_lookup, Hn|simpl; by rewrite Ht|].
        simpl in Hle, Hte. rewrite Ht in Hle, Hte. simpl in Hle, Hte. rewrite abs_nodes_lookup in Hle.
        destruct (db_file_node d !! t) as [e'|] eqn:Hdt; [|done]. apply (inj Some) in Hle as <-.
        simpl in Hte, Hten. apply text_some in Hte; [|apply (pt_row _ HT _ _ Hdt)|done].
        destruct (He e' eq_refl Hten Hte) as [Hp Hpurge].
        split_and!; [done|done|by apply (Hids t e' Hdt)|by intros ? _].
Qed.

(** ** The statements that keep a well-formed namespace by themselves *)

Lemma skeeps_rows {A} (q : Stmt DB A) : (∀ n d, swp q (λ _ d', same_rows d d') n d) → skeeps pg_tree q.
Proof. intros Hq n d HT. eapply swp_mono; [apply Hq|]. simpl. intros _ d' Hd. by eapply same_rows_tree. Qed.

Lemma mark_purging_tree tenant id now : skeeps pg_tree (mark_purging tenant id now).
Proof.
  intros num d HT. unfold mark_purging. sql. apply swp_update_file_nodes; [done|]. intros t d' _ _. sql.
  apply remark_tree; [done|]. intros k n Hk Hrow Hp. go_bool. split_and!; try done.
  - destruct Hrow. by split.
  - right. split; [done|]. eexists. split; [done|]. intros e He Hten Htr. rewrite Hten, Htr.
    by rewrite !bool_decide_eq_true_2.
Qed.
Lemma claim_recycle_tree owner cutoff now until limit :
  skeeps pg_tree (claim_recycle_statement owner cutoff now until limit).
Proof.
  intros num d HT. unfold claim_recycle_statement. sql. apply swp_update_file_nodes; [done|]. intros t d' _ _. sql.
  apply remark_tree; [done|]. intros k n Hk Hrow Hp. go_bool.
  match goal with H : k ∈ _ |- _ => pose proof H as Hk'; apply list_elem_of_fmap in Hk'; destruct Hk' as ([k' n'] & -> & Hin) end.
  apply elem_of_take in Hin as (i & Hi%list_elem_of_lookup_2 & _).
  apply elem_of_sort_slice, elem_of_rows_where in Hi as [Hk' Hdue]. unfold recycle_due in Hdue.
  simpl in Hk. simplify_eq. go_bool. 
  split_and!; try done.
  - destruct Hrow. by split.
  - right. split; [done|]. eexists. split; [done|]. intros e He _ _. by rewrite bool_decide_eq_true_2.
Qed.
Lemma release_recycle_tree owner id retry e now : skeeps pg_tree (release_recycle_statement owner id retry e now).
Proof.
  intros num d HT. unfold release_recycle_statement. sql. apply swp_update_file_nodes; [done|]. intros t d' _ _. sql.
  apply remark_tree; [done|]. intros k n Hk Hrow _. split_and!; try done; [|by left]. destruct Hrow. by split.
Qed.
Lemma finish_purge_tree tenant root : skeeps pg_tree (
  t ← uuid tenant; root ← uuid root;
  _ ← update_file_nodes (λ k n, (fn_tenant_id n == t) && (k == root)) (λ _ n,
    n <| fn_maintenance_owner := None |> <| fn_maintenance_lease_until := None |>
      <| fn_maintenance_not_before := Some Infinity |> <| fn_maintenance_error_code := "" |>);
  mret tt).
Proof.
  intros num d HT. sql. apply swp_update_file_nodes; [done|]. intros t d' _ _. sql.
  apply remark_tree; [done|]. intros k n Hk Hrow _. split_and!; try done; [|by left]. destruct Hrow. by split.
Qed.
Lemma reads_tree {A} (q : Stmt DB A) : reads q → skeeps pg_tree q.
Proof. apply reads_keeps. Qed.

(** Methods whose statements all keep it. *)
Ltac rows_leaf := apply skeeps_rows; intros ? ?; sql_writes; done.
Lemma PreparePurge_tree i id rev now : pkeeps pg_tree (PreparePurge i id rev now).
Proof.
  unfold PreparePurge, lockNamespace, purge_blobs_query, mark_blob. pkeeps_go; first [apply mark_purging_tree | rows_leaf].
Qed.
Lemma FinishPurge_tree ctx b i plan now : pkeeps pg_tree (FinishPurge ctx b i plan now).
Proof.
  unfold FinishPurge, delete_blob, appendAuditTx, audit_statement. pkeeps_go; first [apply finish_purge_tree | rows_leaf].
Qed.
Lemma ClaimRecycle_tree o cutoff now until limit : pkeeps pg_tree (ClaimRecycleForMaintenance o cutoff now until limit).
Proof. unfold ClaimRecycleForMaintenance. pkeeps_go. apply claim_recycle_tree. Qed.
Lemma ReleaseRecycle_tree o id t e now : pkeeps pg_tree (ReleaseRecycleMaintenance o id t e now).
Proof. unfold ReleaseRecycleMaintenance. pkeeps_go. apply release_recycle_tree. Qed.

(** ** The root of a tenant *)

Lemma rootless_tree d t row : pg_tree d → tenant_root_node_id row = None → db_tenant d !! t = None →
  pg_tree (d <| db_tenant := <[t := row]> (db_tenant d) |>).
Proof.
  intros HT Hroot Ht. split; [apply (pt_row _ HT)| |].
  - cbn. intros t' row' root [[<- <-]|[_ Hrow]]%lookup_insert_Some Hr; [by rewrite Hroot in Hr|].
    by eapply (pt_tenant _ HT).
  - replace (abs_tenants _) with (abs_tenants d); [apply HT|]. apply map_eq. intros t'.
    rewrite !abs_tenants_lookup. cbn. rewrite lookup_insert. case_decide as E; [|done]. subst t'. rewrite Ht. simpl.
    unfold abs_tenant. by rewrite Hroot.
Qed.
Lemma root_tree d t root row now : pg_tree d → canonical t → canonical root → db_tenant d !! t = Some row →
  tenant_root_node_id row = None → db_file_node d !! root = None →
  pg_tree (d <| db_file_node := <[root := new_directory t None "" "" now]> (db_file_node d) |>
             <| db_tenant := update_where (db_tenant d) (λ k _, k == t)
                  (λ _ row, row <| tenant_root_node_id := Some root |>) |>).
Proof.
  intros HT Hct Hcr Ht Hnone Hfresh. set (d' := set_field _ _ _). set (n := new_directory _ _ _ _ _) in *.
  assert (∀ t', abs_tenants d' !! t' = if decide (t' = t) then Some (mkTenant t (tenant_display_name row) root
    (tenant_created_at row)) else abs_tenants d !! t') as Hten.
  { intros t'. rewrite !abs_tenants_lookup. cbn. rewrite lookup_update_where. case_decide as E.
    - subst t'. rewrite Ht. cbn. by rewrite bool_decide_eq_true_2.
    - destruct (db_tenant d !! t') as [row'|]; [|done]. cbn. by rewrite bool_decide_eq_false_2. }
  assert (abs_tenants d !! t = None) as HtN.
  { rewrite abs_tenants_lookup, Ht. simpl. unfold abs_tenant. by rewrite Hnone. }
  split.
  - apply insert_rows; [done|]. by split.
  - cbn. intros t' row' root' Hrow' Hr. rewrite lookup_update_where in Hrow'.
    destruct (db_tenant d !! t') as [row1|] eqn:Hrow1; [|done]. cbn in Hrow'. simplify_eq.
    destruct (t' == t); cbn in Hr; [by simplify_eq|]. by eapply (pt_tenant _ HT).
  - replace (abs_nodes d') with (<[root := scanNode (root, n)]> (abs_nodes d)) by (by rewrite <- abs_nodes_insert).
    eapply (wf_add_node _ (abs_tenants d)); [apply HT| |by rewrite abs_nodes_lookup, Hfresh|by apply canonical_nonempty|
      done|done| | | |].
    + apply map_subseteq_spec. intros t' x Hx. rewrite Hten. case_decide; [by simplify_eq|done].
    + intros _. split; [done|]. rewrite Hten, decide_True by done. done.
    + done.
    + intros k' n' Hn' (Hn1 & Hn2 & _). simpl in Hn1, Hn2.
      destruct (wn_root _ _ _ _ (wt_node _ _ (pt_wf _ HT) _ _ Hn') Hn2) as (_ & _ & Hr).
      by rewrite Hn1, HtN in Hr.
    + intros t' x. rewrite Hten. case_decide as E; [|by left]. intros [= <-]. right. by subst t'.
Qed.

Lemma insert_tenant_tree id row : tenant_root_node_id row = None → skeeps pg_tree (insert_tenant_if_new id row).
Proof.
  intros Hroot num d HT. unfold insert_tenant_if_new. sql; [done|].
  apply rootless_tree; [done..|]. by apply has_key_false.
Qed.

Lemma EnsureTenant_tree seed st w : pg_tree st → okwp pg_tree (EnsureTenant seed) (λ _ _ _, True) st w.
Proof.
  intros HT. unfold EnsureTenant. okwp_go.
  eapply swp_mono; [by apply insert_tenant_tree|]. intros [] w1 HT1. okwp_go.
  - the_row. apply okwp_commit; [done|]. intros _. split; [done|]. intros ?. by apply okwp_ret.
  - the_row. apply swp_insert_file_node. intros Hfresh N' d' _ _. okwp_go. canonicalize.
    apply okwp_commit; [done|]. intros _. split; [|intros ?; by apply okwp_ret].
    subst d' N'. by apply (root_tree w1 _ _ t).
Qed.

(** ** A committed upload *)

(** What the service and the maintenance loop put in a commit: the node goes where
    the session says. *)
Definition commits_session (d : DB) (c : CommitUploadCommand) : Prop :=
  let n := CommitUploadCommand_Node c in
  canon (Node_TenantID n) = canon (Identity_TenantID (CommitUploadCommand_Identity c)) ∧
  ∀ u, db_upload_session d !! canon (CommitUploadCommand_SessionID c) = Some u →
    canon (Node_ParentID n) = canon (us_parent_id u).

(** A visible node in a visible directory, under a name the unique index accepts. *)
Lemma child_tree d k n p q : pg_tree d → row_ok k n → db_file_node d !! k = None → node_visible n = true →
  fn_parent_id n = Some p → db_file_node d !! p = Some q → active_directory (fn_tenant_id n) p p q = true →
  name_taken (<[k := n]> (db_file_node d)) k n = false →
  pg_tree (d <| db_file_node := <[k := n]> (db_file_node d) |>).
Proof.
  intros HT Hrow Hk Hv Hp Hq Ha Hname. split; [by apply insert_rows|apply (pt_tenant _ HT)|].
  rewrite abs_nodes_insert. change (abs_tenants _) with (abs_tenants d).
  assert (canonical p) as Hcp by (by apply (ro_parent _ _ Hrow)).
  destruct (active_directory_row d (repo_of d) HT (repo_of_namespace d) _ _ _ _ Hq Ha) as [_ Hact].
  eapply (wf_add_child (repo_of d) (fn_tenant_id n) k); [by apply repo_of_wf| |done|done|by rewrite scan_visible| |].
  - split; [by apply canonical_nonempty, Hrow|]. simpl. by rewrite abs_nodes_lookup, Hk.
  - simpl. by rewrite Hp.
  - cbn [scanNode Node_ParentID Node_NormalizedName]. rewrite Hp. cbn [text_or_empty].
    eapply (name_free d _ _ k); [done|apply repo_of_namespace| |by right|done..]. intros k' ?. by rewrite lookup_insert_ne.
Qed.

Lemma load_result_tree session : pkeeps pg_tree (loadCompleteResult session).
Proof. unfold loadCompleteResult. pkeeps_go; rows_leaf. Qed.
Lemma reject_commit_tree session code now e : pkeeps pg_tree (rejectUploadCommit session code now e).
Proof. unfold rejectUploadCommit, update_session. pkeeps_go; rows_leaf. Qed.
Lemma okwp_tree {A} (m : GoM Pg A) st : pkeeps pg_tree m → committed pg_tree st →
  okwp (committed pg_tree) m (λ _ st' w', committed pg_tree st' ∧ pg_tree w') st st.
Proof. intros Hm HT. apply (okwp_keeps m pg_tree); [done|done|by destruct HT|done|auto]. Qed.

Lemma insert_blob_rows blob n d : swp (insert_commit_blob blob) (λ _ d', same_rows d d') n d.
Proof. unfold insert_commit_blob. sql_writes. done. Qed.
Lemma insert_version_rows v n d : swp (insert_commit_version v) (λ _ d', same_rows d d') n d.
Proof. unfold insert_commit_version. sql_writes. done. Qed.
Lemma insert_commit_node_tree n d num q k : pg_tree d →
  db_file_node d !! canon (Node_ParentID n) = Some q →
  active_directory (canon (Node_TenantID n)) (canon (Node_ParentID n)) k q = true →
  swp (insert_commit_node n) (λ _ d', pg_tree d') num d.
Proof.
  intros HT Hq Ha. unfold insert_commit_node. sql. canonicalize.
  apply swp_insert_file_node. intros Hfresh N' d' _ (_ & _ & Hname & _). 
  eapply child_tree; [done| |done|done|done|done| |done].
  - split; try done. by intros ? [= <-].
  - simpl. assert (Ha1 := Ha). unfold active_directory in Ha1. go_bool. by subst k.
Qed.

Lemma CommitUpload_tree ctx b c st w : committed pg_tree st → commits_session st c →
  okwp (committed pg_tree) (CommitUpload ctx b c) (λ _ _ _, True) st w.
Proof.
  intros HT [Hten Hplace]. unfold CommitUpload, lockActiveDirectory, select_upload. okwp_go.
  - eapply okwp_mono; [apply okwp_tree; [apply load_result_tree|done]|]. intros a st' w' [? ?] ?. 
    apply okwp_bind, okwp_commit; [done|]. intros ?. split; [by split|]. intros ?. by apply okwp_ret.
  - eapply okwp_mono; [apply okwp_tree; [apply reject_commit_tree|done]|done].
  - eapply okwp_mono; [apply okwp_tree; [apply reject_commit_tree|done]|done].
  - the_row. canonicalize. 
    eapply swp_mono; [apply insert_blob_rows|]. intros [] w1 Hw1. okwp_go.
    eapply swp_mono; [apply insert_version_rows|]. intros [] w2 Hw2. okwp_go.
    assert (same_rows st w2) as Hrows by (by eapply same_rows_trans).
    match goal with H : upload_at _ _ _ _ = true |- _ => unfold upload_at in H; go_bool; subst end.
    match goal with H : db_upload_session st !! _ = Some _ |- _ => pose proof (Hplace _ H) as Hpar end.
    match goal with H : active_directory _ _ _ ?f = true, H' : db_file_node st !! _ = Some ?f |- _ =>
      assert (Ha := H); unfold active_directory in H; go_bool; subst; rename H' into Hf end.
    eapply swp_mono; [eapply insert_commit_node_tree|].
    + eapply same_rows_tree; [done|apply HT].
    + rewrite Hpar, (proj1 Hrows). exact Hf.
    + rewrite Hpar, Hten. exact Ha.
    + intros [] w3 HT3 _. simpl in HT3. apply (okwp_keeps _ pg_tree); [|done|done|done|done].
      unfold update_session, appendAuditTx, audit_statement. pkeeps_go; rows_leaf.
Qed.

(** ** Every step *)

Lemma okwp_store {A} (I : DB → Prop) (m : GoM Pg A) Q s : okwp I m Q (pg_store s) (pg_work s) →
  I (pg_store (m s).2).
Proof. intros Hm. destruct s as [st w n]. apply (Hm n). Qed.
Lemma pkeeps_store {A} (I : DB → Prop) (m : GoM Pg A) s : pkeeps I m → idle s →
  committed I (pg_store s) → I (pg_store (m s).2).
Proof.
  intros Hm Hi Hc. unfold idle in Hi. destruct (Hm s Hc) as [[? _] _]; [rewrite Hi; apply Hc|done].
Qed.

Lemma method_tree {A} ks (m : GoM Pg A) s : pg_method ks m → BlobNew ∉ ks → idle s →
  committed pg_tree (pg_store s) → pg_tree (pg_store (m s).2).
Proof.
  intros Hm Hks Hi Hc. destruct (Hc) as [HT Hd].
  destruct (method_written ks m s Hm Hi Hd) as [Hw _].
  destruct Hm;
    try (eapply same_rows_tree; [eapply written_same_rows; [exact Hw|]|exact HT]; by apply (bool_decide_unpack _)).
  - eapply okwp_store, EnsureTenant_tree, HT.
  - eapply okwp_store, CreateDirectory_simulates, HT.
  - eapply okwp_store, UpdateNode_simulates, HT.
  - eapply okwp_store, Recycle_simulates, HT.
  - eapply okwp_store, Restore_simulates, HT.
  - by apply (pkeeps_store _ _ _ (PreparePurge_tree _ _ _ _)).
  - by apply (pkeeps_store _ _ _ (FinishPurge_tree _ _ _ _ _)).
  - destruct Hks. by left.
  - by apply (pkeeps_store _ _ _ (ClaimRecycle_tree _ _ _ _ _)).
  - by apply (pkeeps_store _ _ _ (ReleaseRecycle_tree _ _ _ _ _)).
Qed.

(** The steps of a server whose commits are built as the service builds them. *)
Inductive service_step : Pg → Pg → Prop :=
| service_commit ctx b c s : commits_session (pg_store s) c → service_step s (pg_after (CommitUpload ctx b c) s)
| service_method {A} ks (m : GoM Pg A) s : pg_method ks m → BlobNew ∉ ks → service_step s (pg_after m s)
| service_read {A} (m : GoM Pg A) s : pg_read m → service_step s (pg_after m s).

Lemma service_pg_step s s' : service_step s s' → pg_step s s'.
Proof. destruct 1; econstructor; done || constructor. Qed.
Lemma service_step_tree s s' : service_step s s' → sound pg_tree s → sound pg_tree s'.
Proof.
  intros Hstep (Hc & Hd & Hi & HT).
  destruct (step_sound (λ _, True) s s') as (? & ? & ? & _); [done|by apply service_pg_step|done|].
  split_and!; [done..|]. destruct Hstep as [ctx b c s Hs|A ks m s Hm Hks|A m s Hm]; cbn.
  - refine (proj1 (okwp_store (committed pg_tree) _ _ s (CommitUpload_tree ctx b c _ _ _ Hs))). by split.
  - by apply (method_tree ks m s).
  - by rewrite (read_store m s Hm Hi Hd).
Qed.
Lemma empty_tree : pg_tree empty_db.
Proof.
  split; [intros k n Hk; cbn in Hk; by rewrite lookup_empty in Hk|intros t row root Ht; cbn in Ht; by rewrite lookup_empty in Ht|].
  assert (abs_nodes empty_db = ∅) as -> by reflexivity. assert (abs_tenants empty_db = ∅) as -> by reflexivity.
  apply NewRepository_wf.
Qed.

(** The states of a server that only runs the methods, as the service calls them. *)
Definition service_reachable (s : Pg) : Prop := ∃ n, rtc service_step (pg_start n) s.
Lemma service_tree s : service_reachable s → sound pg_tree s.
Proof.
  intros [n Hs]. assert (sound pg_tree (pg_start n)) as Hstart.
  { split; [apply empty_constraints|]. split_and!; [done|done|apply empty_tree]. }
  revert Hstart. induction Hs as [|s1 s2 s3 Hstep _ IH]; [done|]. intros. by apply IH, (service_step_tree s1).
Qed.
Lemma service_pg_reachable s : service_reachable s → pg_reachable s.
Proof. intros [n Hs]. exists n. eapply rtc_subrel; [|exact Hs]. apply service_pg_step. Qed.
Lemma service_start n : service_reachable (pg_start n).
Proof. by exists n. Qed.
Lemma service_after {A} ks (m : GoM Pg A) s : pg_method ks m → BlobNew ∉ ks → service_reachable s →
  service_reachable (pg_after m s).
Proof. intros Hm Hks [n Hs]. exists n. eapply rtc_r; [exact Hs|]. by eapply service_method. Qed.
End with_engine.
