(* ===== verification/PgAtomic.v ===== *)
(** * A call of the PostgreSQL repository that fails changes nothing

    [settles R m]: when [m] does not return a value, the committed database is the
    one before the call, or the answer of a [COMMIT] or of a statement outside a
    transaction was lost ([unclear]), or the databases are related by [R]. The
    transaction of each method ends with the commit, which no failure follows, but
    for two methods that commit and then refuse: [CommitUpload], which records in the
    session why, and [AcceptInvitation], which records that an invitation has ended. *)
From S2P Require Import Prelude Errors Logic GoLib Types Validation PgCore PgSchema PgRepository PgIdempotency.
From S2P Require Import PgNamespace PgUploads PgMaintenance PgGovernance PgGroups PgLogic PgWrites PgMethods.
From S2P Require Import PgConstraints PgTree.

Section with_env.
Context `{!PgEnv}.
Implicit Types (R : DB → DB → Prop) (s : Pg).

Definition unclear s s' : Prop := ∃ n, (pg_statements s ≤ n < pg_statements s')%nat ∧
  is_Some (env_fault n) ∧ env_applied n = true.
Definition never (d d' : DB) : Prop := False.

Definition settles_at {A} R (m : GoM Pg A) s : Prop :=
  (pg_statements s ≤ pg_statements (m s).2)%nat ∧
  match m s with
  | (Ok _, _) => True
  | (_, s') => pg_store s' = pg_store s ∨ unclear s s' ∨ R (pg_store s) (pg_store s')
  end.
Definition settles {A} R (m : GoM Pg A) : Prop := ∀ s, settles_at R m s.
(** The committed database stays. *)
Definition untouched {A} (m : GoM Pg A) : Prop := ∀ s,
  pg_store (m s).2 = pg_store s ∧ (pg_statements s ≤ pg_statements (m s).2)%nat.
(** No failure. *)
Definition sure {A} (m : GoM Pg A) : Prop := ∀ s, ∃ a, m s = (Ok a, s).

Lemma unclear_weaken s1 s2 s3 s4 : (pg_statements s1 ≤ pg_statements s2)%nat →
  (pg_statements s3 ≤ pg_statements s4)%nat → unclear s2 s3 → unclear s1 s4.
Proof. intros ?? (n & ? & ?). exists n. split; [lia|done]. Qed.

Lemma settles_at_mono {A} R R' (m : GoM Pg A) s :
  settles_at R m s → (∀ d d', R d d' → R' d d') → settles_at R' m s.
Proof. intros [? Hm] HR. split; [done|]. destruct (m s) as [[] s']; naive_solver. Qed.
Lemma untouched_settles {A} R (m : GoM Pg A) : untouched m → settles R m.
Proof. intros Hm s. destruct (Hm s). split; [done|]. destruct (m s) as [[] s']; auto. Qed.
Lemma untouched_bind {A B} (m : GoM Pg A) (f : A → GoM Pg B) :
  untouched m → (∀ a, untouched (f a)) → untouched (m ≫= f).
Proof.
  intros Hm Hf s. destruct (Hm s) as [E ?]. unfold mbind, GoM_bind.
  destruct (m s) as [[a|e|p|] s']; simpl in *; try done. destruct (Hf a s') as [-> ?]. split; [done|lia].
Qed.
Lemma untouched_ret {A} (a : A) : untouched (ret a).
Proof. by intros s. Qed.
Lemma untouched_throw {A} e : untouched (throw e : GoM Pg A).
Proof. by intros s. Qed.
Lemma untouched_panic {A} p : untouched (panic p : GoM Pg A).
Proof. by intros s. Qed.
Lemma untouched_lift {A} (o : Outcome A) : untouched (lift o).
Proof. by intros s. Qed.
Lemma untouched_check_err err : untouched (check_err err).
Proof. by destruct err; intros s. Qed.
Lemma untouched_make_slice z : untouched (make_slice z).
Proof. unfold make_slice. intros s. by case_match. Qed.
Lemma untouched_tx_query {A} (q : Stmt DB A) : untouched (tx_query q).
Proof. intros s. unfold tx_query. simpl. repeat case_match; simpl; split; (done || lia). Qed.
Lemma untouched_begin_tx message : untouched (begin_tx message).
Proof. intros s. unfold begin_tx. case_match; simpl; split; (done || lia). Qed.
Lemma untouched_must {A} code message (q : GoM Pg (PgErr + A)) : untouched q → untouched (must code message q).
Proof. intros. apply untouched_bind; [done|]. intros []; [apply untouched_throw|apply untouched_ret]. Qed.
Lemma untouched_must_find {A} e code message (q : GoM Pg (PgErr + A)) :
  untouched q → untouched (must_find e code message q).
Proof. intros. apply untouched_bind; [done|]. intros [[]|]; (apply untouched_throw || apply untouched_ret). Qed.
Lemma untouched_may_find {A} code message (q : GoM Pg (PgErr + A)) :
  untouched q → untouched (may_find code message q).
Proof. intros. apply untouched_bind; [done|]. intros [[]|]; (apply untouched_throw || apply untouched_ret). Qed.
Lemma untouched_for_range {A} (l : list A) body : (∀ x, untouched (body x)) → untouched (for_range l body).
Proof.
  intros Hb. induction l as [|x l IH]; simpl; [apply untouched_ret|]. apply untouched_bind; auto.
Qed.

Lemma settles_at_bind {A B} R (m : GoM Pg A) (f : A → GoM Pg B) s :
  pg_store (m s).2 = pg_store s ∧ (pg_statements s ≤ pg_statements (m s).2)%nat →
  (∀ a s1, m s = (Ok a, s1) → settles_at R (f a) s1) → settles_at R (m ≫= f) s.
Proof.
  intros [E ?] Hf. unfold settles_at, mbind, GoM_bind. destruct (m s) as [[a|e|p|] s1]; simpl in *; auto.
  specialize (Hf a s1 eq_refl) as [Hn Hs]. split; [lia|].
  rewrite <- E. destruct (f a s1) as [[] s2]; [done|..]; simpl in *;
    destruct Hs as [|[Hu|]]; auto; right; left; by apply (unclear_weaken s s1 _ _ ltac:(lia) (le_n _)).
Qed.
Lemma settles_bind {A B} R (m : GoM Pg A) (f : A → GoM Pg B) :
  untouched m → (∀ a, settles R (f a)) → settles R (m ≫= f).
Proof. intros Hm Hf s. apply settles_at_bind; [apply Hm|]. intros. apply Hf. Qed.
Lemma settles_sure {A B} R (m : GoM Pg A) (f : A → GoM Pg B) :
  settles R m → (∀ a, sure (f a)) → settles R (m ≫= f).
Proof.
  intros Hm Hf s. destruct (Hm s) as [? Hs]. unfold settles_at, mbind, GoM_bind.
  destruct (m s) as [[a|e|p|] s1]; simpl in *; auto. by destruct (Hf a s1) as [b ->].
Qed.
Lemma sure_ret {A} (a : A) : sure (ret a).
Proof. intros s. by exists a. Qed.
Lemma settles_commit R : settles R commit.
Proof.
  intros s. unfold settles_at, commit. simpl. destruct (deferred_violation _); [simpl; auto|].
  destruct (env_fault (pg_statements s)) as [f|] eqn:Hf; [|simpl; auto].
  destruct (env_applied (pg_statements s)) eqn:Ha; simpl; (split; [lia|]); [|auto].
  right. left. exists (pg_statements s). simpl. split_and!; [lia..|by eexists|done].
Qed.
Lemma settles_at_then_rollback {A} R (body : GoM Pg A) s : settles_at R body s → settles_at R (then_rollback body) s.
Proof. unfold settles_at, then_rollback. by destruct (body s) as [[] s']. Qed.
Lemma settles_then_rollback {A} R (body : GoM Pg A) : settles R body → settles R (then_rollback body).
Proof. intros Hb s. by apply settles_at_then_rollback. Qed.
Lemma settles_with_tx {A} R message (body : GoM Pg A) : settles R body → settles R (with_tx message body).
Proof. intros. apply settles_bind; [apply untouched_begin_tx|intros _; by apply settles_then_rollback]. Qed.
Lemma settles_pool {A} R (q : Stmt DB A) code message : settles R (must code message (pool_query q)).
Proof.
  intros s. unfold settles_at, must, mbind, GoM_bind, pool_query. simpl.
  set (ran := match q _ _ with Returns a db => _ | _ => _ end).
  assert (pg_statements ran.2 = S (pg_statements s) ∧ match ran.1 with Ok (inr _) => True | _ => pg_store ran.2 = pg_store s end)
    as [Hn Hran].
  { unfold ran. destruct (q _ _) as [a d| |]; [destruct (deferred_violation d)|..]; done. }
  destruct (env_fault (pg_statements s)) eqn:Hf.
  - destruct (env_applied (pg_statements s)) eqn:Ha; simpl; (split; [lia|]); [|auto].
    right. left. exists (pg_statements s). rewrite Hn. split_and!; [lia..|by eexists|done].
  - destruct ran as [[[e|a]|e|p|] s']; simpl in *; (split; [lia|auto]).
Qed.
(** A statement outside a transaction that tells how many rows it has changed. *)
Lemma settles_affected R (q : Stmt DB Z) code message (bad : Z → bool) e :
  (∀ n d, swp q (λ z d', bad z = false ∨ d' = d) n d) →
  settles R (affected ← must code message (pool_query q); if bad affected then throw e else ret tt).
Proof.
  intros Hq s. pose proof (settles_pool R q code message s) as [Hn Hs].
  assert (match must code message (pool_query q) s with (Ok z, s') => bad z = false ∨ pg_store s' = pg_store s | _ => True end)
    as Hok.
  { unfold must, mbind, GoM_bind, pool_query. simpl. specialize (Hq (pg_statements s) (pg_store s)). unfold swp in Hq.
    destruct (env_fault _); [done|]. destruct (q _ _); [|done..]. by destruct (deferred_violation d). }
  unfold settles_at, mbind, GoM_bind in *. destruct (must code message (pool_query q) s) as [[z|?|?|] s']; simpl in *; [|by auto..].
  destruct (bad z); simpl; [destruct Hok as [[=]|]|]; auto.
Qed.
End with_env.

Ltac untouched_step :=
  lazymatch goal with
  | |- untouched (mbind _ _) => apply untouched_bind; [|intros ?]
  | |- untouched (ret _) => apply untouched_ret
  | |- untouched (throw _) => apply untouched_throw
  | |- untouched (panic _) => apply untouched_panic
  | |- untouched (lift _) => apply untouched_lift
  | |- untouched (check_err _) => apply untouched_check_err
  | |- untouched (make_slice _) => apply untouched_make_slice
  | |- untouched (must _ _ _) => apply untouched_must
  | |- untouched (must_find _ _ _ _) => apply untouched_must_find
  | |- untouched (may_find _ _ _) => apply untouched_may_find
  | |- untouched (tx_query _) => apply untouched_tx_query
  | |- untouched (for_range _ _) => apply untouched_for_range; intros ?
  | |- untouched (let x := ?a in @?b x) =>
      let y := fresh x in pose (y := a); lazymatch goal with |- untouched _ => change (untouched (b y)) end
  | |- untouched (match ?x with _ => _ end) => destruct x eqn:?
  end.
Ltac settles_step :=
  lazymatch goal with
  | |- settles _ (mbind _ commit) => apply settles_sure; [apply settles_commit|intros ?; apply sure_ret]
  | |- settles _ (mbind _ _) => apply settles_bind; [repeat (cbv beta iota; untouched_step)|intros ?]
  | |- settles _ commit => apply settles_commit
  | |- settles _ (with_tx _ _) => apply settles_with_tx
  | |- settles _ (must _ _ (pool_query _)) => apply settles_pool
  | |- settles _ (let x := ?a in @?b x) =>
      let y := fresh x in pose (y := a); lazymatch goal with |- settles ?R _ => change (settles R (b y)) end
  | |- settles _ (match ?x with _ => _ end) => destruct x eqn:?
  | |- settles _ (ret _) => apply untouched_settles, untouched_ret
  | |- settles _ (throw _) => apply untouched_settles, untouched_throw
  | |- settles _ (panic _) => apply untouched_settles, untouched_panic
  end.
Ltac settles_go := repeat (cbv beta iota; settles_step); cbv beta iota.


Section with_engine.
Context `{!Platform, !MapRange, !PgEngine, !PgEnv, !MetadataJSON}.

(** Claims for maintenance: the length of the result is checked after the statement. *)
Lemma settles_claim {A} R (q : Stmt DB (list A)) code message limit :
  (∀ n d, swp q (λ _ _, 0 ≤ limit) n d) →
  settles R (rows ← pool_query q; _ ← make_slice limit; must code message (ret rows)).
Proof.
  intros Hq s. pose proof (settles_pool R q code message s) as Hpool.
  unfold settles_at, must, mbind, GoM_bind, pool_query, make_slice in *. simpl in *. specialize (Hq (pg_statements s) (pg_store s)).
  unfold swp in Hq. destruct (limit <? 0) eqn:Hl; simpl.
  - destruct (q _ _); [lia|..]; destruct (env_fault (pg_statements s)), (env_applied (pg_statements s)); simpl in *; auto.
  - destruct (env_fault (pg_statements s)); [exact Hpool|]. destruct (q _ _); simpl in *; [|exact Hpool..].
    by destruct (deferred_violation d).
Qed.

(** An update of at most one row that tells how many it has changed. *)
Lemma one_row {K V} `{Countable K} (t : gmap K V) (p : K → V → bool) (f : K → V → V) k0 :
  (∀ k v, p k v = true → k = k0) →
  (negb (zlen ((λ '(k, v), (k, f k v)) <$> rows_where t p) =? 1) = false) ∨ update_where t p f = t.
Proof.
  intros Hp. rewrite (rows_where_key t p k0 Hp). destruct (t !! k0) as [v|] eqn:Hv; [destruct (p k0 v) eqn:Hpv; [by left|]|].
  all: right; apply map_eq; intros k; rewrite lookup_update_where; destruct (t !! k) as [v'|] eqn:Hk; [|done];
    simpl; destruct (p k v') eqn:Hpk; [|done]; pose proof (Hp _ _ Hpk) as ->; congruence.
Qed.

Lemma one_upload d p f k0 : (∀ k v, p k v = true → k = k0) →
  (negb (zlen ((λ '(k, v), (k, f k v)) <$> rows_where (db_upload_session d) p) =? 1) = false) ∨
  d <| db_upload_session := update_where (db_upload_session d) p f |> = d.
Proof.
  intros Hp. destruct (one_row (db_upload_session d) p f k0 Hp) as [|E]; [by left|right]. rewrite E. by destruct d.
Qed.
Lemma one_node d p f k0 : (∀ k v, p k v = true → k = k0) →
  (negb (zlen ((λ '(k, v), (k, f k v)) <$> rows_where (db_file_node d) p) =? 1) = false) ∨
  d <| db_file_node := update_where (db_file_node d) p f |> = d.
Proof.
  intros Hp. destruct (one_row (db_file_node d) p f k0 Hp) as [|E]; [by left|right]. rewrite E. by destruct d.
Qed.

(** The statement without a place for its third argument. *)
Lemma finish_upload_refused owner id status cleanup not_before code now (Q : Z → DB → Prop) num d :
  swp (finish_upload_statement owner id status cleanup not_before code now) Q num d.
Proof. unfold finish_upload_statement. apply swp_bind, swp_refuse_if. intros Hb. by vm_compute in Hb. Qed.

Lemma method_settles {A} ks (m : GoM Pg A) : pg_method ks m → BlobNew ∉ ks →
  ¬ (MemberNew ∈ ks ∧ InvitationSet ∈ ks) → settles never m.
Proof.
  destruct 1; intros Hks Hks';
  lazymatch goal with
  | |- settles _ (CommitUpload _ _ _) => destruct Hks; by left
  | |- settles _ (AcceptInvitation _ _ _) => destruct Hks'; split; set_solver
  | _ => idtac
  end;
  pg_unfold;
    repeat (cbv beta iota; lazymatch goal with |- settles _ (mbind _ (must _ _ (pool_query _))) => fail | |- settles _ (mbind _ (pool_query _)) => fail | _ => settles_step end).
  - apply settles_affected. intros num d. sql. apply swp_update_uploads; [done|]. intros d' _. sql.
    eapply one_upload. intros ? ? Hp. unfold upload_at in Hp. by go_bool.
  - apply settles_claim. intros num d. unfold claim_uploads_statement. sql. apply swp_update_uploads; [done|]. intros ??. sql. lia.
  - apply settles_affected. intros num d. apply finish_upload_refused.
  - apply settles_claim. intros num d. unfold claim_recycle_statement. sql. apply swp_update_file_nodes; [done|]. intros ????. sql. lia.
  - apply settles_affected. intros num d. unfold release_recycle_statement. sql. apply swp_update_file_nodes; [done|]. intros t0 d' _ _. sql.
    eapply one_node. intros ? ? Hp. by go_bool.
  - apply settles_affected. intros num d. sql. apply swp_update_member; [by right|]. intros ????. by left.
  - intros s. by split.
Qed.

(** ** The commit of an upload *)

(** The same from the start of a transaction, where nothing is written yet. *)
Definition settles_start {A} (R : DB → DB → Prop) (m : GoM Pg A) : Prop := ∀ s,
  pg_work s = pg_store s → deferred_violation (pg_store s) = None → settles_at R m s.
Definition peeks {A} (m : GoM Pg A) : Prop := ∀ s, pg_work s = pg_store s →
  deferred_violation (pg_store s) = None →
  pg_store (m s).2 = pg_store s ∧ (pg_statements s ≤ pg_statements (m s).2)%nat ∧
  pg_work (m s).2 = pg_store (m s).2.
Lemma settles_start_bind {A B} R (m : GoM Pg A) (f : A → GoM Pg B) :
  peeks m → (∀ a, settles_start R (f a)) → settles_start R (m ≫= f).
Proof.
  intros Hm Hf s Hw Hd. destruct (Hm s Hw Hd) as (E & ? & Hw'). apply settles_at_bind; [done|].
  intros a s1 E1. rewrite E1 in *. apply Hf; [done|]. simpl in E. by rewrite E.
Qed.
Lemma peeks_reads {A} (m : GoM Pg A) : untouched m → (∀ d0, pkeeps (λ d, d = d0) m) → peeks m.
Proof.
  intros Hu Hk s Hw Hd. destruct (Hu s) as [E ?]. split_and!; [done|done|].
  destruct (Hk (pg_store s) s) as [_ ->]; done.
Qed.
Lemma settles_start_settles {A} R (m : GoM Pg A) : settles R m → settles_start R m.
Proof. intros Hm s _ _. apply Hm. Qed.
Definition counts {A} (m : GoM Pg A) : Prop := ∀ s, (pg_statements s ≤ pg_statements (m s).2)%nat.
Lemma counts_bind {A B} (m : GoM Pg A) (f : A → GoM Pg B) : counts m → (∀ a, counts (f a)) → counts (m ≫= f).
Proof.
  intros Hm Hf s. specialize (Hm s). unfold mbind, GoM_bind. destruct (m s) as [[a|e|p|] s1]; simpl in *; try done.
  specialize (Hf a s1). lia.
Qed.
Lemma settles_start_keeps {A} ks (m : GoM Pg A) : (∀ d0, pkeeps (rtc (writes_of ks) d0) m) →
  counts m → settles_start (rtc (writes_of ks)) m.
Proof.
  intros Hk Hn s Hw Hd. split; [done|]. destruct (Hk (pg_store s) s) as [[? _] _]; [done|by rewrite Hw|].
  destruct (m s) as [[] s']; auto.
Qed.
Lemma settles_start_tx {A} R message (body : GoM Pg A) s : settles_start R body →
  pg_work s = pg_store s → deferred_violation (pg_store s) = None → settles_at R (with_tx message body) s.
Proof.
  intros Hb Hw Hd. apply settles_at_bind; [apply (untouched_begin_tx _ s)|]. intros [] s1 Hbegin.
  apply settles_at_then_rollback. revert Hbegin. unfold begin_tx. destruct (env_fault _); [done|].
  intros [= <-]. by apply Hb.
Qed.

Ltac peek := apply settles_start_bind; [apply peeks_reads;
  [repeat (cbv beta iota; untouched_step)|intros ?; pkeeps_go; intros ? ? ->; sql; done]|intros ?].
Lemma reject_settles session code now e :
  settles_start (rtc (writes_of [Uploads])) (rejectUploadCommit session code now e).
Proof.
  apply settles_start_keeps.
  - intros d0. unfold rejectUploadCommit, update_session. pkeeps_go. intros num d Hd. sql_writes.
    eapply written_one; [done| |done]. by left.
  - unfold rejectUploadCommit. apply counts_bind; [|intros ?].
    { intros s. apply (untouched_must _ _ _ (untouched_tx_query _)). }
    apply counts_bind; [intros s; apply (settles_commit never s)|intros ?]. by intros s.
Qed.

Lemma CommitUpload_settles ctx b c s :
  pg_work s = pg_store s → deferred_violation (pg_store s) = None →
  settles_at (rtc (writes_of [Uploads])) (CommitUpload ctx b c) s.
Proof.
  apply settles_start_tx. unfold lockNamespace, lockActiveDirectory, select_upload.
  peek. peek. destruct (_ != _); [apply settles_start_settles; settles_go|].
  destruct (_ == _); [apply settles_start_settles; unfold loadCompleteResult; settles_go|].
  destruct (_ != _); [apply settles_start_settles; settles_go|].
  peek. destruct a1; [peek; destruct a1; [apply reject_settles|]|apply reject_settles].
  apply settles_start_settles. unfold appendAuditTx. settles_go.
Qed.
End with_engine.

(** ** The acceptance of an invitation *)

Section invitations.
Context `{!Platform, !MapRange, !PgEngine, !PgEngineLaws _, !PgEnv, !MetadataJSON}.

(** The identifiers of the invitations are in their standard form. *)
Definition invitation_ids (d : DB) : Prop := ∀ k i, db_tenant_invitation d !! k = Some i → canonical k.
Lemma write_invitation_ids k d d' : db_write k d d' → k ≠ InvitationNew → invitation_ids d → invitation_ids d'.
Proof.
  intros Hw Hk Hd. destruct Hw; try done. intros j i0. cbn. intros [[<- _]|[_ ?]]%lookup_insert_Some; by eapply Hd.
Qed.
Lemma insert_invitation_ids i row n d : canonical i → invitation_ids d →
  swp (insert_invitation i row) (λ _ d', invitation_ids d') n d.
Proof.
  intros Hi Hd. unfold insert_invitation. sql. intros k i0. cbn.
  intros [[<- _]|[_ ?]]%lookup_insert_Some; [done|by eapply Hd].
Qed.
Lemma CreateInvitation_ids ctx b c : pkeeps invitation_ids (CreateInvitation ctx b c).
Proof.
  pg_unfold. pkeeps_go. all: intros m db Hdb; unfold select_member_row, audit_statement; sql; try done.
  1: apply insert_invitation_ids; [by eapply canonical_in|done].
  all: unfold insert_audit; sql; exact Hdb.
Qed.
Lemma reachable_invitation_ids s : pg_reachable s → invitation_ids (pg_store s).
Proof.
  apply (reachable_kept invitation_ids InvitationNew); [done|by apply write_invitation_ids|]. intros A ks m Hm Hks.
  destruct Hm; try (exfalso; revert Hks; by apply (bool_decide_unpack _)). apply CreateInvitation_ids.
Qed.

(** A pending invitation past its end has become expired, and nothing else changed. *)
Definition invitation_expired (d d' : DB) : Prop := ∃ id i now,
  db_tenant_invitation d !! id = Some i ∧ ti_status i = "pending" ∧ ti_expires_at i ≤ now ∧
  d' = d <| db_tenant_invitation :=
    <[id := i <| ti_status := "expired" |> <| ti_updated_at := pg_time now |>]> (db_tenant_invitation d) |>.

(** The call as its caller sees it, who looks at the error first. *)
Definition raised (m : GoM Pg AcceptResult) : GoM Pg (TenantInvitation * PrincipalRecord) :=
  '(v, p, err) ← m; match err with Some e => throw e | None => ret (v, p) end.

(** [pg_call ks m]: [m] is a call of a method that changes the database, as its caller sees it. *)
Inductive pg_call : ∀ {A : Type}, list Kind → GoM Pg A → Prop :=
| call_method {A} ks (m : GoM Pg A) : pg_method ks m → pg_call ks m
| call_accept ctx b c :
    pg_call [PrincipalNew; MemberNew; InvitationSet; AuditEvents] (raised (AcceptInvitation ctx b c)).

Lemma raised_returning {A} v (m : GoM Pg A) k s :
  raised (returning v m k) s = (a ← m; raised (k a)) s.
Proof. unfold raised, returning, try_, mbind, GoM_bind. by destruct (m s) as [[] s']. Qed.
Lemma settles_at_ext {A} R (m m' : GoM Pg A) s : m s = m' s → settles_at R m' s → settles_at R m s.
Proof. unfold settles_at. by intros ->. Qed.
Lemma raised_failed R (m : GoM Pg AcceptResult) s : settles_at R (raised m) s → settles_at R m s.
Proof. unfold settles_at, raised, mbind, GoM_bind. destruct (m s) as [[[[v p] [e|]]|e|q|] s']; by intros []. Qed.
Lemma settles_returning {A} R v (m : GoM Pg A) k :
  settles R (a ← m; raised (k a)) → settles R (raised (returning v m k)).
Proof. intros Hm s. eapply settles_at_ext; [apply raised_returning|apply Hm]. Qed.
Lemma settles_raised_rollback R (m : GoM Pg AcceptResult) s :
  settles_at R (raised m) s → settles_at R (raised (then_rollback m)) s.
Proof.
  unfold settles_at, raised, then_rollback, mbind, GoM_bind. by destruct (m s) as [[[[v p] [e|]]|e|q|] s'].
Qed.
Lemma settles_refused R v p e : settles R (raised (ret (v, p, Some e))).
Proof. intros s. split; [done|]. by left. Qed.
Lemma settles_replayed R (v : TenantInvitation) (p : PrincipalRecord) : settles R (raised (
  committed ← try_ commit; ret (v, p, match committed with inl err => Some err | inr _ => None end))).
Proof.
  intros s. pose proof (settles_commit R s) as Hc. revert Hc.
  unfold settles_at, raised, try_, mbind, GoM_bind. by destruct (commit s) as [[] s'].
Qed.

Lemma accept_pending_settles R ctx b c v : settles R (raised (accept_pending ctx b c v)).
Proof.
  unfold accept_pending, lockTenant, appendAuditTx, selectMember. cbv zeta.
  repeat first
    [ apply settles_refused
    | lazymatch goal with |- settles _ (raised (match ?x with _ => _ end)) => destruct x end
    | apply settles_returning; cbv beta;
      first [apply settles_bind; [by repeat (cbv beta iota; untouched_step)|intros ?]
            |apply settles_sure; [apply settles_commit|intros ? s; by eexists]] ].
Qed.

Lemma selectInvitation_finds h s : pg_work s = pg_store s →
  let r := selectInvitationForUpdate h s in
  pg_store r.2 = pg_store s ∧ pg_work r.2 = pg_store s ∧ (pg_statements s ≤ pg_statements r.2)%nat ∧
  ∀ v, r.1 = Ok v → ∃ id i, db_tenant_invitation (pg_store s) !! id = Some i ∧ v = scanInvitation id i (ti_status i).
Proof.
  intros Hw. unfold selectInvitationForUpdate, must_find, tx_query, mbind, GoM_bind. simpl. rewrite Hw.
  destruct (env_fault _); [by destruct s; simpl in *; split_and!; auto|].
  unfold table_of, first_row, Stmt_bind, mbind. simpl.
  destruct (rows_where _ _) as [|[id i] rows] eqn:Hrows; [by destruct s; simpl in *; split_and!; auto|].
  destruct s; simpl in *. split_and!; auto. intros v [= <-]. apply rows_where_first in Hrows as [? _]. by exists id, i.
Qed.

Lemma settles_commit_refused R v p e s : R (pg_store s) (pg_work s) →
  settles_at R (raised (returning v commit (λ _, ret (v, p, Some e)))) s.
Proof.
  intros HR. eapply settles_at_ext; [apply raised_returning|]. unfold settles_at, mbind, GoM_bind, commit. simpl.
  destruct (deferred_violation _); simpl; [by split; [lia|left]|].
  destruct (env_fault _); [destruct (env_applied _)|]; simpl; (split; [lia|]); auto.
Qed.
(** The end of a pending invitation is recorded, and then the call is refused. *)
Lemma expire_settles id i now v v' e code message s : pg_work s = pg_store s → invitation_ids (pg_store s) →
  db_tenant_invitation (pg_store s) !! id = Some i → ti_status i = "pending" → ti_expires_at i ≤ now →
  settles_at invitation_expired (raised (
    returning v (must code message (tx_query (set_invitation id (λ i,
      i <| ti_status := "expired" |> <| ti_updated_at := pg_time now |>)))) (λ _,
    returning v' commit (λ _, ret (v', go_zero, Some e))))) s.
Proof.
  intros Hw Hids Hi Hst Hexp. pose proof (Hids _ _ Hi) as Hid. unfold canonical in Hid.
  eapply settles_at_ext; [apply raised_returning|]. apply settles_at_bind.
  { apply (untouched_must _ _ _ (untouched_tx_query _)). }
  intros [] s1. unfold must, tx_query, mbind, GoM_bind. simpl.
  destruct (env_fault _); [done|]. unfold set_invitation, uuid, mbind, Stmt_bind. rewrite Hid. simpl.
  unfold update_invitation, table_of, mbind, Stmt_bind. rewrite Hw, Hi. unfold refuse_if.
  destruct (negb _); [done|]. intros [= <-].
  apply settles_commit_refused. exists id, i, now. by split_and!.
Qed.

Lemma AcceptInvitation_settles ctx b c s : pg_work s = pg_store s → deferred_violation (pg_store s) = None →
  invitation_ids (pg_store s) → settles_at invitation_expired (raised (AcceptInvitation ctx b c)) s.
Proof.
  intros Hw _ Hids. unfold AcceptInvitation. cbv zeta. destruct (_ || _); [apply settles_refused|].
  eapply settles_at_ext; [apply raised_returning|]. apply settles_at_bind; [apply (untouched_begin_tx _ s)|].
  intros [] s1 Hbegin. assert (pg_store s1 = pg_store s ∧ pg_work s1 = pg_store s1) as [E1 Hw1].
  { revert Hbegin. unfold begin_tx. destruct (env_fault _); [done|]. by intros [= <-]. }
  apply settles_raised_rollback. eapply settles_at_ext; [apply raised_returning|].
  destruct (selectInvitation_finds (AcceptInvitationCommand_TokenHash c) s1 Hw1) as (E2 & Hw2 & Hn2 & Hv).
  apply settles_at_bind; [done|]. intros v s2 Hs2. rewrite Hs2 in *. simpl in *.
  destruct (Hv v eq_refl) as (id & i & Hi & ->). simpl.
  destruct (_ || _); [apply settles_refused|]. destruct (_ == InvitationAccepted).
  { refine (settles_returning _ _ _ _ _ s2). apply settles_bind; [unfold selectMember; by repeat (cbv beta iota; untouched_step)|].
    intros member. destruct (_ || _); [apply settles_refused|apply settles_replayed]. }
  destruct (_ != InvitationPending) eqn:Hst; [apply settles_refused|].
  destruct (negb (After _ _)) eqn:Hafter; [|refine (accept_pending_settles _ _ _ _ _ s2)].
  apply expire_settles with (i := i); [by rewrite Hw2, E2|by rewrite E2, E1|by rewrite E2| |].
  - by go_bool.
  - unfold After in Hafter. go_bool. lia.
Qed.

(** Any call: what each of the three kinds of methods may leave behind. *)
Lemma call_settles {A} ks (m : GoM Pg A) s : pg_call ks m → pg_work s = pg_store s →
  deferred_violation (pg_store s) = None → invitation_ids (pg_store s) →
  settles_at (λ d d', BlobNew ∈ ks ∧ rtc (writes_of [Uploads]) d d' ∨
    MemberNew ∈ ks ∧ InvitationSet ∈ ks ∧ invitation_expired d d') m s.
Proof.
  intros Hm Hw Hd Hids. 
  assert (∀ ctx b c, settles_at invitation_expired (raised (AcceptInvitation ctx b c)) s) as Haccept.
  { intros. by apply AcceptInvitation_settles. }
  destruct Hm as [A ks m Hm|ctx b c].
  - destruct (decide (BlobNew ∈ ks)) as [Hblob|Hblob]; [|destruct (decide (MemberNew ∈ ks ∧ InvitationSet ∈ ks)) as [[??]|Hinv]].
    + destruct Hm; try (exfalso; revert Hblob; by apply (bool_decide_unpack _)).
      eapply settles_at_mono; [by apply CommitUpload_settles|]. auto.
    + destruct Hm; try (exfalso; set_solver).
      eapply settles_at_mono; [by apply raised_failed, Haccept|]. auto.
    + eapply settles_at_mono; [by apply (method_settles ks m Hm)|]. by intros.
  - eapply settles_at_mono; [apply Haccept|]. intros. right. split_and!; [set_solver..|done].
Qed.
End invitations.
