(* ===== verification/PgOwners.v ===== *)
(** * Who may change the members of a tenant in PostgreSQL, and its last owner

    [UpdateMember] and [DeleteMember] check the actor, the target and the count of
    the other active owners in the transaction that changes the member. *)
From S2P Require Import Prelude Errors Logic GoLib Types Validation PgCore PgSchema PgRepository PgIdempotency.
From S2P Require Import PgNamespace PgUploads PgMaintenance PgGovernance PgGroups PgLogic PgWrites PgMethods.
From S2P Require Import PgConstraints PgTree PgRefinement.

#[local] Opaque insert delete delete_where update_where.

Notation members := db_tenant_member.
Definition active_owner (m : tenant_member_row) : Prop := tm_role m = RoleOwner ∧ tm_status m = MemberStatusActive.
Definition owner_in (d : DB) (t : string) : Prop := ∃ p m, members d !! (t, p) = Some m ∧ active_owner m.

(** The member [(t, p)] becomes [new], or is removed, by a member who may do this. *)
Record member_change (d d' : DB) (t actor p : string) (new : option tenant_member_row) : Prop := {
  mc_members : members d' = match new with Some m => <[(t, p) := m]> (members d) | None => delete (t, p) (members d) end;
  mc_actor : ∃ a, members d !! (t, actor) = Some a ∧ tm_status a = MemberStatusActive ∧
    (tm_role a = RoleOwner ∨ tm_role a = RoleAdmin ∧
      (∀ m, members d !! (t, p) = Some m → tm_role m ≠ RoleOwner) ∧ (∀ m, new = Some m → tm_role m ≠ RoleOwner));
  mc_target : is_Some (members d !! (t, p));
  mc_owner : (∃ m, members d !! (t, p) = Some m ∧ active_owner m) →
    (∃ m, new = Some m ∧ active_owner m) ∨ ∃ q m, q ≠ p ∧ members d !! (t, q) = Some m ∧ active_owner m
}.
Definition guarded (t actor p : string) (d d' : DB) : Prop :=
  members d' = members d ∨ ∃ new, member_change d d' t actor p new.

Lemma guarded_owner t actor p d d' t' : guarded t actor p d d' → owner_in d t' → owner_in d' t'.
Proof.
  unfold owner_in. intros [->|(new & [Hd' _ _ Hkeep])]; [done|]. rewrite Hd'. intros (q & m & Hm & Hown).
  destruct (decide ((t', q) = (t, p))) as [[= -> ->]|Hne].
  - destruct Hkeep as [(m' & -> & ?)|(q' & m' & Hne & Hm' & ?)]; [by eexists| |].
    + exists p, m'. by rewrite lookup_insert_eq.
    + exists q', m'. split; [|done]. destruct new; [rewrite lookup_insert_ne|rewrite lookup_delete_ne]; congruence.
  - exists q, m. split; [|done]. destruct new; [rewrite lookup_insert_ne|rewrite lookup_delete_ne]; congruence.
Qed.

Section with_engine.
Context `{!Platform, !MapRange, !PgEngine, !PgEngineLaws _, !PgEnv, !MetadataJSON}.

Lemma swp_select_member tenant principal (Q : tenant_member_row → DB → Prop) n d :
  (∀ m, uuid_in tenant = Some (canon tenant) → members d !! (canon tenant, canon principal) = Some m → Q m d) →
  swp (select_member_row tenant principal) Q n d.
Proof.
  intros HQ. unfold select_member_row. sql. destruct x as [k m]. the_row. simpl. apply HQ.
  - by rewrite (canon_in tenant u).
  - by rewrite (canon_in tenant u), (canon_in principal u0).
Qed.
Lemma swp_other_owners tenant principal (Q : Z → DB → Prop) n d :
  (∀ z, (z ≠ 0 → ∃ q m, q ≠ canon principal ∧ members d !! (canon tenant, q) = Some m ∧ active_owner m) → Q z d) →
  swp (other_owners tenant principal) Q n d.
Proof.
  intros HQ. unfold other_owners. sql. apply HQ. intros Hz. canonicalize.
  destruct (rows_where _ _) as [|[[t q] m] l] eqn:E; [done|]. apply rows_where_first in E as [Hm Hp]. simpl in Hp. go_bool.
  subst t. exists q, m. by split_and!.
Qed.

(** The check of the last owner, in front of a change to [role] and [status] or a removal. *)
Definition owner_kept (d : DB) (t p : string) (m : tenant_member_row) (still : Prop) : Prop :=
  active_owner m → still ∨ ∃ q m', q ≠ p ∧ members d !! (t, q) = Some m' ∧ active_owner m'.

Lemma manager_role role : managing_role role = true → role = RoleOwner ∨ role = RoleAdmin.
Proof. unfold managing_role. rewrite orb_true_iff, !bool_decide_eq_true. done. Qed.
Lemma only_audit_members d d' : only_audit d d' → members d' = members d.
Proof. intros E. by apply (f_equal members) in E. Qed.

Lemma UpdateMember_guarded ctx b c st w :
  okwp (guarded (canon (UpdateMemberCommand_TenantID c)) (canon (UpdateMemberCommand_ActorPrincipalID c))
          (canon (UpdateMemberCommand_PrincipalID c)) st)
    (UpdateMember ctx b c) (λ _ _ _, True) st w.
Proof.
  unfold UpdateMember, lock_tenant_name. set (t := canon (UpdateMemberCommand_TenantID c)).
  set (p := canon (UpdateMemberCommand_PrincipalID c)).
  set (I := guarded _ _ _ st). assert (I st) as Hst by (by left).
  okwp_go. apply swp_select_member. intros a Hten Ha. okwp_go.
  apply swp_select_member. intros m _ Hm. fold t in Ha, Hm. fold p in Hm.
  set (role := default (tm_role m) _). set (status := default (tm_status m) _). intros _.
  match goal with |- okwp _ (if ?x then _ else _) _ _ _ => destruct x eqn:Hadmin end; [by apply okwp_throw|]. apply okwp_bind.
  apply (okwp_mono _ (λ _ st' w', st' = st ∧ w' = st ∧ owner_kept st t p m (role = RoleOwner ∧ status = MemberStatusActive))).
  { match goal with |- okwp _ (if ?x then _ else _) _ _ _ => destruct x eqn:Hlast end.
    - okwp_go. apply swp_other_owners. intros z Hz. okwp_go. split_and!; [done..|]. intros [E1 E2]. right. apply Hz.
      intros ->. by rewrite E1, E2 in *.
    - okwp_go. split_and!; [done..|]. intros _. left. by go_bool. }
  intros _ st' w' (-> & -> & Hkeep) _. okwp_go.
  canonicalize. fold t p. apply swp_update_member; [by rewrite Hm|].
  intros m0 Hm0 d' _. rewrite Hm in Hm0. apply (inj Some) in Hm0 as <-. okwp_go.
  match goal with H : only_audit _ _ |- _ => apply only_audit_members in H as Hmem end.
  apply okwp_commit; [done|]. intros _. split; [|intros ?; by apply okwp_ret].
  right. eexists (Some _). go_bool. split.
  - by rewrite Hmem.
  - exists a. split; [done|]. split; [done|]. match goal with H : managing_role _ = true |- _ => destruct (manager_role _ H) as [E|E] end; [left; congruence|right].
    rewrite E in Hadmin. simpl in Hadmin. apply orb_false_iff in Hadmin as [Hm1 Hr]. go_bool. split; [congruence|]. split.
    + intros m' Hm'. congruence.
    + intros m' [= <-]. cbn. unfold role. clear Hkeep. revert Hr. destruct (UpdateMemberCommand_Role c); simpl; congruence.
  - by eexists.
  - intros (m' & Hm' & Hown). assert (m' = m) as -> by congruence. destruct (Hkeep Hown) as [[E1 E2]|]; [left|by right].
    eexists. split; [done|]. by split.
Qed.

Lemma DeleteMember_guarded ctx b c st w :
  okwp (guarded (canon (DeleteMemberCommand_TenantID c)) (canon (DeleteMemberCommand_ActorPrincipalID c))
          (canon (DeleteMemberCommand_PrincipalID c)) st)
    (DeleteMember ctx b c) (λ _ _ _, True) st w.
Proof.
  unfold DeleteMember, lockTenant, authorizeTenantManager. set (t := canon (DeleteMemberCommand_TenantID c)).
  set (p := canon (DeleteMemberCommand_PrincipalID c)).
  set (I := guarded _ _ _ st). assert (I st) as Hst by (by left).
  okwp_go. apply swp_select_member. intros a Hten Ha. okwp_go.
  apply swp_select_member. intros m _ Hm. fold t in Ha, Hm. fold p in Hm. intros _.
  match goal with |- okwp _ (if ?x then _ else _) _ _ _ => destruct x eqn:Hadmin end; [by apply okwp_throw|]. apply okwp_bind.
  apply (okwp_mono _ (λ _ st' w', st' = st ∧ w' = st ∧ owner_kept st t p m False)).
  { match goal with |- okwp _ (if ?x then _ else _) _ _ _ => destruct x eqn:Hlast end.
    - okwp_go. apply swp_other_owners. intros z Hz. okwp_go. split_and!; [done..|]. intros _. right. apply Hz. lia.
    - okwp_go. split_and!; [done..|]. intros [E1 E2]. by rewrite E1, E2 in *. }
  intros _ st' w' (-> & -> & Hkeep) _. okwp_go.
  canonicalize. fold t p. apply swp_delete_member. intros d' _ Hd'. okwp_go.
  match goal with H : only_audit _ _ |- _ => apply only_audit_members in H as Hmem end.
  apply okwp_commit; [done|]. intros _. split; [|done].
  right. exists None. go_bool. split.
  - by rewrite Hmem.
  - exists a. split; [done|]. split; [done|]. match goal with H : managing_role _ = true |- _ => destruct (manager_role _ H) as [E|E] end; [left; congruence|right].
    rewrite E in Hadmin. split; [congruence|]. split; [|done]. intros m' Hm'. simpl in Hadmin. go_bool. congruence.
  - by eexists.
  - intros (m' & Hm' & Hown). assert (m' = m) as -> by congruence. by destruct (Hkeep Hown); [|right].
Qed.
End with_engine.

(** ** Steps *)

Lemma write_members k d d' : db_write k d d' → k ∉ [MemberSet; MemberDelete] → members d ⊆ members d'.
Proof.
  destruct 1; intros Hk; try done; try (exfalso; apply Hk; set_solver).
  by apply insert_subseteq.
Qed.
Lemma written_members ks d d' : rtc (writes_of ks) d d' → MemberSet ∉ ks → MemberDelete ∉ ks → members d ⊆ members d'.
Proof.
  intros Hw H1 H2. induction Hw as [d|d1 d2 d3 (k & Hk & Hd) _ IH]; [done|].
  etrans; [|exact IH]. eapply write_members; [done|].
  intros [Hk'|Hk']%elem_of_cons; [|apply list_elem_of_singleton in Hk']; by subst k.
Qed.
Lemma owner_weaken d d' t : members d ⊆ members d' → owner_in d t → owner_in d' t.
Proof. intros Hsub (p & m & Hm & Hown). exists p, m. split; [by eapply lookup_weaken|done]. Qed.

Section steps.
Context `{!Platform, !MapRange, !PgEngine, !PgEngineLaws _, !PgEnv, !MetadataJSON}.

(** Every call but [SetOIDCMemberStatus], which the service never makes. *)
Inductive member_call : Pg → Pg → Prop :=
| call_update ctx b c s : member_call s (pg_after (UpdateMember ctx b c) s)
| call_delete ctx b c s : member_call s (pg_after (DeleteMember ctx b c) s)
| call_other {A} ks (m : GoM Pg A) s : pg_method ks m → MemberSet ∉ ks → MemberDelete ∉ ks →
    member_call s (pg_after m s)
| call_read {A} (m : GoM Pg A) s : pg_read m → member_call s (pg_after m s).

Lemma member_call_step s s' : member_call s s' → pg_step s s'.
Proof. destruct 1; econstructor; done || constructor. Qed.
Lemma member_call_owner t s s' : member_call s s' → idle s → deferred_violation (pg_store s) = None →
  owner_in (pg_store s) t → owner_in (pg_store s') t.
Proof.
  intros Hcall Hi Hd. destruct Hcall as [ctx b c s|ctx b c s|A ks m s Hm Hks1 Hks2|A m s Hm]; cbn.
  - destruct s as [st w n]. eapply guarded_owner. apply (UpdateMember_guarded ctx b c st w n).
  - destruct s as [st w n]. eapply guarded_owner. apply (DeleteMember_guarded ctx b c st w n).
  - destruct (method_written ks m s Hm Hi Hd) as [Hw _]. apply owner_weaken. by eapply written_members.
  - by rewrite (read_store m s Hm Hi Hd).
Qed.
End steps.
