(* ===== verification/PgSessions.v ===== *)
(** * The life of an upload session in PostgreSQL

    The rows of [upload_session] change along the edges of [session_step]
    (Sessions.v), the state machine of the in-memory repository; maintenance only
    touches the time of the last update of a session that is over. *)
From S2P Require Import Prelude Errors Logic GoLib Types Validation MemoryState MemoryUploads Sessions PgCore PgSchema.
From S2P Require Import PgRepository PgIdempotency PgNamespace PgUploads PgMaintenance PgGovernance PgGroups PgLogic.
From S2P Require Import PgWrites PgMethods PgConstraints PgTree PgRefinement PgInvariant PgAtomic.

#[local] Opaque insert delete delete_where update_where.

Notation uploads := db_upload_session.

Inductive row_edge (s : UploadSession) : UploadSession → Prop :=
| edge_step s' : session_step s s' → row_edge s s'
| edge_touch now : Terminal (UploadSession_Status s) = true → row_edge s (s <| UploadSession_UpdatedAt := now |>).
Definition follows_rows (d d' : DB) : Prop := ∀ k u, uploads d !! k = Some u →
  ∃ u', uploads d' !! k = Some u' ∧
    (scanUpload (k, u') = scanUpload (k, u) ∨ row_edge (scanUpload (k, u)) (scanUpload (k, u'))).

Lemma follows_same d d' : uploads d' = uploads d → follows_rows d d'.
Proof. intros E k u Hu. exists u. rewrite E. auto. Qed.
Lemma follows_insert d d' k u u' : uploads d !! k = Some u → uploads d' = <[k := u']> (uploads d) →
  session_step (scanUpload (k, u)) (scanUpload (k, u')) → follows_rows d d'.
Proof.
  intros Hu E Hstep k' v Hv. destruct (decide (k' = k)) as [->|Hne].
  - exists u'. rewrite E, lookup_insert_eq. simplify_eq. split; [done|]. right. by apply edge_step.
  - exists v. rewrite E, lookup_insert_ne by done. auto.
Qed.
Lemma write_uploads_same k d d' : db_write k d d' → k ∉ [UploadNew; Uploads] → uploads d' = uploads d.
Proof. destruct 1; intros Hk; try done; destruct Hk; set_solver. Qed.
Lemma write_new_follows d d' : db_write UploadNew d d' → follows_rows d d'.
Proof.
  inversion 1; subst. intros k u' Hu. exists u'. split; [|by left]. cbn.
  destruct (decide (k = id)) as [->|Hne]; [congruence|by rewrite lookup_insert_ne].
Qed.

Section with_engine.
Context `{!Platform, !MapRange, !PgEngine, !PgEngineLaws _, !PgEnv, !MetadataJSON}.

(** A session read in the transaction, and updated in it. *)
Lemma swp_select_upload i id (Q : UploadSession → DB → Prop) n d :
  (∀ u, uploads d !! canon id = Some u → us_tenant_id u = canon (Identity_TenantID i) →
    canon (canon id) = canon id ∧ canon (us_tenant_id u) = us_tenant_id u →
    Q (scanUpload (canon id, u)) d) → swp (select_upload i id) Q n d.
Proof.
  intros HQ. unfold select_upload. sql. destruct x as [k u']. the_row. unfold upload_at in *. go_bool. subst k.
  canonicalize. apply HQ; [done|done|]. match goal with H : us_tenant_id _ = _ |- _ => rewrite H end.
  by split; apply canon_canonical.
Qed.
Notation stamped f now := (λ u, f u <| us_revision := us_revision u + 1 |> <| us_updated_at := pg_time now |>).
Lemma swp_update_session i id p f now u (Q : list UploadSession → DB → Prop) n d : let k := canon id in
  (∀ u, same_upload u (f u)) → uploads d !! k = Some u → us_tenant_id u = canon (Identity_TenantID i) →
  (p u = true → us_revision u + 1 < 2 ^ (64 - 1) →
    Q [scanUpload (k, stamped f now u)] (d <| uploads := <[k := stamped f now u]> (uploads d) |>)) →
  (p u = false → Q [] d) →
  swp (update_session i id p f now) Q n d.
Proof.
  intros k Hf Hu Ht Hyes Hno. subst k. unfold update_session. sql. canonicalize. set (k := canon id) in *.
  set (q := λ k' u', upload_at _ k k' u' && p u') in *.
  assert (∀ k' u', q k' u' = true → k' = k) as Hq by (unfold q, upload_at; intros; by go_bool).
  assert (q k u = p u) as Hqu by (unfold q, upload_at; by rewrite Ht, !bool_decide_eq_true_2).
  apply swp_update_uploads; [intros ? u'; unfold same_upload; destruct (Hf (u' <| us_revision := us_revision u' + 1 |> <| us_updated_at := pg_time now |>)) as (-> & -> & -> & ->); done|]. intros d' _. sql. unfold d'.
  rewrite (rows_where_key _ _ k Hq), Hu, Hqu. destruct (p u) eqn:Hp.
  - rewrite (update_where_one _ _ _ k u Hu) by done. apply Hyes; [done|].
    match goal with H : ∀ z, z ∈ _ → z + 1 < _ |- _ => apply H end.
    rewrite (rows_where_key _ _ k Hq), Hu, Hqu. apply list_elem_of_fmap. exists (k, u). split; [done|by left].
  - assert (update_where (uploads d) q (λ _, stamped f now) = uploads d) as ->; [|by destruct d; apply Hno].
    apply map_eq. intros k'. rewrite lookup_update_where. destruct (uploads d !! k') as [u'|] eqn:Hu'; [|done]. simpl.
    destruct (q k' u') eqn:Hqk; [|done]. pose proof (Hq _ _ Hqk) as ->. rewrite Hu in Hu'. congruence.
Qed.
Lemma only_uploads_audit d d' : only_audit d d' → uploads d' = uploads d.
Proof. intros E. by apply (f_equal uploads) in E. Qed.

Lemma fits_revision d k u : constraints d → uploads d !! k = Some u → us_revision u + 1 < 2 ^ (64 - 1) →
  wrap64 (us_revision u + 1) = us_revision u + 1.
Proof.
  intros HC Hu Hfits. apply fits_successor; [|done]. destruct (c_upload _ HC _ _ Hu) as [Hc _].
  unfold upload_check in Hc. go_bool. lia.
Qed.
(** A commit after an update of the session. *)
Lemma okwp_session_commit {A} st d (a : A) k u u' : uploads st !! k = Some u → follows_rows st st →
  uploads d = <[k := u']> (uploads st) → session_step (scanUpload (k, u)) (scanUpload (k, u')) →
  okwp (follows_rows st) (_ ← commit; ret a) (λ _ _ _, True) st d.
Proof.
  intros Hu Hst Hd Hstep. apply okwp_bind, okwp_commit; [done|]. intros _. split; [by eapply follows_insert|].
  intros ?. by apply okwp_ret.
Qed.
Lemma okwp_same_commit {A} st d (a : A) : uploads d = uploads st →
  okwp (follows_rows st) (_ ← commit; ret a) (λ _ _ _, True) st d.
Proof.
  intros Hd. assert (follows_rows st st) by (by apply follows_same). apply okwp_bind, okwp_commit; [done|].
  intros _. split; [by apply follows_same|]. intros ?. by apply okwp_ret.
Qed.

(** The edge of an update, by a constructor of [session_step]. *)
Ltac edge c := match goal with HC : constraints _, Hu : uploads _ !! _ = Some ?u, Hf : us_revision ?u + 1 < _ |- _ =>
  refine (eq_rect _ (session_step _) c _ _); unfold set_status; cbn; by rewrite (fits_revision _ _ _ HC Hu Hf) end.
Ltac okwp_session := repeat (cbv beta iota; lazymatch goal with
  | |- okwp _ (mbind _ commit) _ _ _ => fail
  | _ => first [okwp_step | progress intros]
  end); cbv beta iota.
Ltac start_session st := set (I := follows_rows st); assert (I st) as Hst by (by apply follows_same);
  okwp_session; apply swp_select_upload; intros u Hu Ht [Hk Htc]; okwp_session.

Lemma MarkUploading_edges i id now st w : constraints st →
  okwp (follows_rows st) (PgUploads.MarkUploading i id now) (λ _ _ _, True) st w.
Proof.
  intros HC. unfold PgUploads.MarkUploading. start_session st; [by apply okwp_same_commit|].
  eapply swp_update_session; [done..| |done]. intros _ Hfits. okwp_session.
  eapply okwp_session_commit; [done|done|done|]. go_bool. edge (session_uploads _ (pg_time now) ltac:(eassumption)).
Qed.
Lemma FailUploadCompletion_edges i id d c now st w : constraints st →
  okwp (follows_rows st) (PgUploads.FailUploadCompletion i id d c now) (λ _ _ _, True) st w.
Proof.
  intros HC. unfold PgUploads.FailUploadCompletion. start_session st; [by apply okwp_same_commit|].
  eapply swp_update_session; [done..| |done]. intros _ Hfits. okwp_session.
  eapply okwp_session_commit; [done|done|done|]. go_bool.
  edge (session_fails _ c (pg_time now) ltac:(by left) ltac:(done)).
Qed.
Lemma MarkObjectCompleted_edges i id o now st w : constraints st →
  okwp (follows_rows st) (PgUploads.MarkObjectCompleted i id o now) (λ _ _ _, True) st w.
Proof.
  intros HC. unfold PgUploads.MarkObjectCompleted. start_session st; [by apply okwp_same_commit|].
  eapply swp_update_session; [done..| |done]. intros _ Hfits. okwp_session.
  eapply okwp_session_commit; [done|done|done|]. go_bool. edge (session_object_done _ (pg_time now) ltac:(eassumption)).
Qed.
Lemma AbortUpload_edges i id target now st w : constraints st →
  okwp (follows_rows st) (PgUploads.AbortUpload i id target now) (λ _ _ _, True) st w.
Proof.
  intros HC. unfold PgUploads.AbortUpload. start_session st; [by apply okwp_same_commit|].
  eapply swp_update_session; [done..| |done]. intros _ Hfits. okwp_session.
  eapply okwp_session_commit; [done|done|done|]. go_bool_cases;
    edge (session_aborts (scanUpload (canon id, u)) target (pg_time now) ltac:(auto) ltac:(auto)).
Qed.

Lemma insert_part_uploads i id now part n d : swp (insert_part i id now part) (λ _ d', uploads d' = uploads d) n d.
Proof.
  unfold insert_part. sql. apply swp_upsert_upload_part. intros d' [->|Hw]; [done|].
  eapply write_uploads_same; [done|]. by apply (bool_decide_unpack _).
Qed.
Lemma BeginComplete_edges i id digest parts now st w : constraints st →
  okwp (follows_rows st) (PgUploads.BeginComplete i id digest parts now) (λ _ _ _, True) st w.
Proof.
  intros HC. unfold PgUploads.BeginComplete. start_session st; [by apply okwp_same_commit|].
  eapply okwp_mono; [apply (okwp_for_range _ _ (λ st' w', st' = st ∧ uploads w' = uploads st)); [done| |done]|].
  { intros part st' w' _ [-> Hw]. okwp_session. eapply swp_mono; [apply insert_part_uploads|]. cbn. intros _ d' ->. done. }
  intros _ st' w' [-> Hw]. okwp_session.
  eapply swp_update_session; [done|by rewrite Hw|done| |done]. intros _ Hfits. okwp_session.
  eapply okwp_session_commit; [done|done|by rewrite <- Hw|].
  go_bool_cases;
    edge (session_completes (scanUpload (canon id, u)) digest (pg_time now) ltac:(auto) ltac:(auto)).
Qed.

Lemma loadCompleteResult_uploads session d0 : pkeeps (λ d, uploads d = d0) (loadCompleteResult session).
Proof. unfold loadCompleteResult. pkeeps_go; intros ???; sql; done. Qed.
Lemma reject_follows k u st w code now e : constraints st → uploads st !! k = Some u → uploads w = uploads st →
  canon k = k → canon (us_tenant_id u) = us_tenant_id u → us_status u = UploadObjectCompleted → code ≠ "" →
  okwp (follows_rows st) (rejectUploadCommit (scanUpload (k, u)) code now e) (λ _ _ _, True) st w.
Proof.
  intros HC Hu Hw Hk Ht Hs Hcode. unfold rejectUploadCommit. assert (follows_rows st st) as Hst by (by apply follows_same).
  okwp_session. eapply swp_update_session; [done| |cbn; by rewrite Ht| |].
  - cbn. by rewrite Hk, Hw.
  - intros _ Hfits. okwp_session. eapply okwp_bind, okwp_commit; [done|]. intros _. split; [|intros ?; by apply okwp_throw].
    eapply follows_insert; [done|cbn; by rewrite Hw, Hk|]. edge (session_fails (scanUpload (k, u)) code (pg_time now) (or_intror Hs) Hcode).
  - intros _ ?. apply okwp_bind, okwp_commit; [done|]. intros _. split; [|intros ?; by apply okwp_throw].
    by apply follows_same.
Qed.
Lemma insert_blob_uploads blob n d : swp (insert_commit_blob blob) (λ _ d', uploads d' = uploads d) n d.
Proof. unfold insert_commit_blob. sql_writes. done. Qed.
Lemma insert_version_uploads v n d : swp (insert_commit_version v) (λ _ d', uploads d' = uploads d) n d.
Proof. unfold insert_commit_version. sql_writes. done. Qed.
Lemma insert_node_uploads node n d : swp (insert_commit_node node) (λ _ d', uploads d' = uploads d) n d.
Proof. unfold insert_commit_node. sql_writes. done. Qed.
Lemma CommitUpload_edges ctx b c st w : constraints st → deferred_violation st = None →
  okwp (follows_rows st) (PgUploads.CommitUpload ctx b c) (λ _ _ _, True) st w.
Proof.
  intros HC Hd. unfold PgUploads.CommitUpload, lockActiveDirectory. start_session st.
  - eapply okwp_keeps; [apply (loadCompleteResult_uploads _ (uploads st))|by split|done|by intros d [? _]; apply follows_same|].
    cbn. intros result st' w' [Hst' _] Hw' _. apply okwp_bind, okwp_commit; [by apply follows_same|]. intros _.
    split; [by apply follows_same|]. intros ?. by apply okwp_ret.
  - go_bool. by apply reject_follows.
  - go_bool. by apply reject_follows.
  - eapply swp_mono; [apply insert_blob_uploads|]. cbn. intros _ d1 Hd1. okwp_session.
    eapply swp_mono; [apply insert_version_uploads|]. cbn. intros _ d2 Hd2. okwp_session.
    eapply swp_mono; [apply insert_node_uploads|]. cbn. intros _ d3 Hd3. okwp_session.
    eapply swp_update_session; [done|by rewrite Hd3, Hd2, Hd1|done| |done]. intros _ Hfits. okwp_session.
    match goal with H : only_audit _ _ |- _ => apply only_uploads_audit in H as Haudit end. canonicalize.
    eapply okwp_session_commit; [done|done|by rewrite Haudit, <- Hd1, <- Hd2, <- Hd3|]. go_bool.
    edge (session_commits (scanUpload (canon (CommitUploadCommand_SessionID c), u))
      (canon (Node_ID (CommitUploadCommand_Node c))) (pg_time (CommitUploadCommand_Now c))
      ltac:(eassumption)).
Qed.

(** ** Sessions that are over *)

Lemma follows_update d p f : (∀ k u, uploads d !! k = Some u → p k u = true →
    scanUpload (k, f k u) = scanUpload (k, u) ∨ row_edge (scanUpload (k, u)) (scanUpload (k, f k u))) →
  follows_rows d (d <| uploads := update_where (uploads d) p f |>).
Proof.
  intros Hf k u Hu. exists (if p k u then f k u else u). split; [cbn; by rewrite lookup_update_where, Hu|].
  destruct (p k u) eqn:Hp; auto.
Qed.
Lemma MarkUploadCleanupComplete_follows i id now st w : constraints st →
  okwp (follows_rows st) (PgUploads.MarkUploadCleanupComplete i id now) (λ _ _ _, True) st w.
Proof.
  intros HC. unfold PgUploads.MarkUploadCleanupComplete. assert (follows_rows st st) as Hst by (by apply follows_same).
  okwp_session. apply swp_update_uploads; [done|]. intros d' _. okwp_session.
  assert (follows_rows st d') as Hd'; [|split; [done|intros ?; by okwp_session]].
  apply follows_update. intros k v Hv Hp. right. go_bool.
  assert (Terminal (us_status v) = true) as Hterm.
  { match goal with H : one_of _ _ = true |- _ => revert H end. unfold one_of, Terminal. simpl.
    repeat case_bool_decide; done. }
  by apply (edge_touch (scanUpload (k, v)) (pg_time now)).
Qed.
Lemma ClaimUploads_follows o now stale until limit st w : constraints st →
  okwp (follows_rows st) (ClaimUploadsForMaintenance o now stale until limit) (λ _ _ _, True) st w.
Proof.
  intros HC. unfold ClaimUploadsForMaintenance, claim_uploads_statement.
  assert (follows_rows st st) as Hst by (by apply follows_same).
  apply okwp_bind, okwp_pool; [done|intros e st' Hst' _; by okwp_session|].
  intros n. okwp_session. apply swp_update_uploads; [done|]. intros d' _. okwp_session.
  assert (follows_rows st d') as Hd'; [|split; [done|intros ?; by okwp_session]].
  apply follows_update. intros k v Hv _. by left.
Qed.

(** ** Every call *)

Definition rows_stay (d d' : DB) : Prop := ∀ k u, uploads d !! k = Some u → uploads d' !! k = Some u.
Lemma write_rows_stay k d d' : db_write k d d' → k ≠ Uploads → rows_stay d d'.
Proof.
  intros Hw Hk. destruct (decide (k = UploadNew)) as [->|Hnew].
  - inversion Hw; subst. intros k u' Hu. cbn. destruct (decide (k = id)) as [->|Hne]; [congruence|by rewrite lookup_insert_ne].
  - intros k' u Hu. rewrite (write_uploads_same k d d'); [done|done|].
    intros [|Hk']%elem_of_cons; [done|]. by apply list_elem_of_singleton in Hk'.
Qed.
Lemma written_rows_stay ks d d' : rtc (writes_of ks) d d' → Uploads ∉ ks → rows_stay d d'.
Proof.
  intros Hw Hks. induction Hw as [d|d1 d2 d3 (k & Hk & Hd) _ IH]; [by intros k u|]. intros k' u Hu.
  apply IH, (write_rows_stay k d1); [done| |done]. by intros ->.
Qed.
Lemma rows_stay_follows d d' : rows_stay d d' → follows_rows d d'.
Proof. intros Hs k u Hu. exists u. auto. Qed.
Lemma FinishUpload_follows o id s c t e now st w : okwp (follows_rows st)
  (FinishUploadMaintenance o id s c t e now) (λ _ _ _, True) st w.
Proof.
  unfold FinishUploadMaintenance. assert (follows_rows st st) as Hst by (by apply follows_same).
  okwp_session. apply finish_upload_refused.
Qed.

Lemma method_follows {A} ks (m : GoM Pg A) s : pg_method ks m → sound (λ _, True) s →
  follows_rows (pg_store s) (pg_store (m s).2).
Proof.
  intros Hm (HC & Hd & Hi & _). destruct (method_written ks m s Hm Hi Hd) as [Hw _]. destruct s as [st w n].
  destruct Hm; try (eapply rows_stay_follows, written_rows_stay; [exact Hw|by apply (bool_decide_unpack _)]).
  - by apply (MarkUploading_edges i id now st w HC n).
  - by apply (BeginComplete_edges i id d parts now st w HC n).
  - by apply (FailUploadCompletion_edges i id d c now st w HC n).
  - by apply (MarkObjectCompleted_edges i id o now st w HC n).
  - by apply (CommitUpload_edges ctx b c st w HC Hd n).
  - by apply (AbortUpload_edges i id target now st w HC n).
  - by apply (MarkUploadCleanupComplete_follows i id now st w HC n).
  - by apply (ClaimUploads_follows o now stale until limit st w HC n).
  - by apply (FinishUpload_follows o u s c t e now st w n).
Qed.

(** What every edge keeps. *)
Record session_kept (s s' : UploadSession) : Prop := {
  sk_request : request_of s' = request_of s;
  sk_digest : UploadSession_CompletionDigest s ≠ "" →
    UploadSession_CompletionDigest s' = UploadSession_CompletionDigest s;
  sk_terminal : Terminal (UploadSession_Status s) = true → UploadSession_Status s' = UploadSession_Status s;
  sk_rank : (status_rank (UploadSession_Status s) ≤ status_rank (UploadSession_Status s'))%nat
}.
Lemma row_edge_kept s s' : row_edge s s' → session_kept s s'.
Proof.
  destruct 1 as [s' Hstep|now Hterm]; [|by split].
  split; [by apply session_step_request|by apply session_step_digest| |].
  - by rewrite (session_step_terminal _ _ Hstep).
  - apply session_step_rank in Hstep. lia.
Qed.
Lemma row_edges_kept s s' : rtc row_edge s s' → session_kept s s'.
Proof.
  induction 1 as [s|s1 s2 s3 H12 _ [J1 J2 J3 J4]]; [by split|]. destruct (row_edge_kept _ _ H12) as [K1 K2 K3 K4].
  split; [congruence| | |lia].
  - intros Hd. rewrite <- (K2 Hd). apply J2. by rewrite (K2 Hd).
  - intros Ht. rewrite <- (K3 Ht). apply J3. by rewrite (K3 Ht).
Qed.
Lemma steps_follow s s' k u : rtc pg_step s s' → sound (λ _, True) s → uploads (pg_store s) !! k = Some u →
  ∃ u', uploads (pg_store s') !! k = Some u' ∧ rtc row_edge (scanUpload (k, u)) (scanUpload (k, u')).
Proof.
  intros Hsteps. revert u. induction Hsteps as [s|s1 s2 s3 Hstep _ IH]; intros u Hs Hu; [by exists u|].
  assert (follows_rows (pg_store s1) (pg_store s2)) as Hf.
  { destruct Hstep as [A ks m s1 Hm|A m s1 Hm]; cbn; [by eapply method_follows|].
    destruct Hs as (_ & Hd & Hi & _). rewrite (read_store m s1 Hm Hi Hd). by apply follows_same. }
  destruct (Hf _ _ Hu) as (u2 & Hu2 & Hedge). destruct (IH u2) as (u3 & Hu3 & Hpath); [by eapply step_sound|done|].
  exists u3. split; [done|]. destruct Hedge as [<-|Hedge]; [done|by eapply rtc_l].
Qed.
End with_engine.

(** ** The leases of the maintenance of uploads in PostgreSQL

    A session that [ClaimUploadsForMaintenance] has given to an owner is not given
    to another before the lease ends: only a claim writes the lease of a session,
    and a claim passes over the sessions whose lease runs. *)

#[local] Opaque insert delete delete_where update_where.

Notation lease := us_maintenance_lease_until.

Definition leases_kept (d d' : DB) : Prop := ∀ k u, uploads d !! k = Some u →
  ∃ u', uploads d' !! k = Some u' ∧ lease u' = lease u.
(** The lease of [k] runs to [until] at least. *)
Definition held (k : string) (until : Time) (d : DB) : Prop :=
  ∃ u t, uploads d !! k = Some u ∧ lease u = Some t ∧ until ≤ t.

Lemma leases_same d d' : uploads d' = uploads d → leases_kept d d'.
Proof. intros E k u Hu. exists u. by rewrite E. Qed.
Lemma leases_stay d d' : rows_stay d d' → leases_kept d d'.
Proof. intros Hs k u Hu. exists u. by split; [apply Hs|]. Qed.
Lemma leases_update d0 d p f : (∀ k u, p k u = true → lease (f k u) = lease u) → leases_kept d0 d →
  leases_kept d0 (d <| uploads := update_where (uploads d) p f |>).
Proof.
  intros Hf Hd k u Hu. destruct (Hd k u Hu) as (u' & Hu' & E). exists (if p k u' then f k u' else u').
  split; [cbn; by rewrite lookup_update_where, Hu'|]. rewrite <- E. destruct (p k u') eqn:Hp; auto.
Qed.
Lemma leases_rows d0 d d' : uploads d' = uploads d → leases_kept d0 d → leases_kept d0 d'.
Proof. unfold leases_kept. by intros ->. Qed.
Lemma held_kept k until d d' : leases_kept d d' → held k until d → held k until d'.
Proof.
  intros Hd (u & t & Hu & Ht & ?). destruct (Hd k u Hu) as (u' & Hu' & E). exists u', t. by rewrite E.
Qed.

Section with_engine.
Context `{!Platform, !MapRange, !PgEngine, !PgEngineLaws _, !PgEnv, !MetadataJSON}.

(** ** Calls that write sessions and leave the leases *)

Inductive session_call : ∀ {A}, GoM Pg A → Prop :=
| sc_uploading i id now : session_call (MarkUploading i id now)
| sc_complete i id digest parts now : session_call (BeginComplete i id digest parts now)
| sc_fail i id digest c now : session_call (FailUploadCompletion i id digest c now)
| sc_object i id o now : session_call (MarkObjectCompleted i id o now)
| sc_commit ctx b c : session_call (CommitUpload ctx b c)
| sc_abort i id target now : session_call (AbortUpload i id target now)
| sc_cleaned i id now : session_call (MarkUploadCleanupComplete i id now)
| sc_finish o u s c t e now : session_call (FinishUploadMaintenance o u s c t e now).

Lemma update_session_leases d0 i id p f now : (∀ u, same_upload u (f u)) → (∀ u, lease (f u) = lease u) →
  skeeps (leases_kept d0) (update_session i id p f now).
Proof.
  intros Hs Hf n d Hd. unfold update_session. sql. apply swp_update_uploads.
  - intros ? u'. unfold same_upload. by destruct (Hs (u' <| us_revision := us_revision u' + 1 |>
      <| us_updated_at := pg_time now |>)) as (-> & -> & -> & ->).
  - intros d' _. sql. apply leases_update; [|done]. intros k u' _. by rewrite Hf.
Qed.
Ltac leases := first
  [ apply finish_upload_refused
  | sql; eapply swp_mono; [by apply update_session_leases|]; cbn; intros; sql; assumption
  | sql_writes; (assumption || (eapply leases_rows; [done|assumption])) ].

Lemma insert_part_leases d0 i id now part : skeeps (leases_kept d0) (insert_part i id now part).
Proof. intros n d Hd. eapply swp_mono; [apply insert_part_uploads|]. intros [] d' E. by apply (leases_rows _ d). Qed.
Lemma session_call_leases {A} (m : GoM Pg A) d0 : session_call m → pkeeps (leases_kept d0) m.
Proof.
  destruct 1;
    unfold MarkUploading, BeginComplete, FailUploadCompletion, MarkObjectCompleted, CommitUpload, AbortUpload,
      MarkUploadCleanupComplete, FinishUploadMaintenance, rejectUploadCommit, loadCompleteResult, lockNamespace,
      lockActiveDirectory, appendAuditTx, select_upload;
    pkeeps_go; try apply insert_part_leases; intros num db ?;
    unfold insert_commit_blob, insert_commit_version, insert_commit_node, audit_statement; try leases.
  sql. apply swp_update_uploads; [done|]. intros d' _. sql. by apply leases_update.
Qed.

(** ** Claims *)

Definition claimed (c : UploadMaintenanceClaim) : string := UploadSession_ID (UploadMaintenanceClaim_Upload c).

Lemma due_not_held d k u now stale until : uploads d !! k = Some u → upload_due now stale u = true →
  now < until → ¬ held k until d.
Proof.
  intros Hu Hdue Hlt (u' & t & Hu' & Ht & Hle). simplify_eq. unfold upload_due, null_or_passed in Hdue.
  rewrite Ht in Hdue. go_bool. lia.
Qed.
Lemma claim_uploads_rows o now stale until limit n d :
  swp (claim_uploads_statement o now stale until limit) (λ l d',
    (∀ c, c ∈ l → (∀ later, pg_time now < later → ¬ held (claimed c) later d) ∧ held (claimed c) (pg_time until) d') ∧
    (∀ k later, pg_time now < later → held k later d → held k later d')) n d.
Proof.
  unfold claim_uploads_statement. sql. apply swp_update_uploads; [done|]. intros d' _. sql.
  set (due := rows_where (uploads d) _) in *. set (taken := take _ _) in *.
  assert (∀ k, k ∈ taken.*1 → ∃ u, uploads d !! k = Some u ∧ upload_due (pg_time now) (pg_time stale) u = true) as Hdue.
  { intros k ([k' v] & -> & Hin)%list_elem_of_fmap. apply elem_of_take in Hin as (j & Hj & _).
    apply list_elem_of_lookup_2, elem_of_sort_slice, elem_of_rows_where in Hj as [? Hp]. go_bool. by exists v. }
  split.
  - intros c (row & -> & Hrow)%list_elem_of_fmap. rewrite heap_order_perm in Hrow.
    apply list_elem_of_fmap in Hrow as ([k v] & -> & [Hv Hk]%elem_of_rows_where). cbn.
    pose proof Hk as Hin. apply bool_decide_eq_true in Hin. destruct (Hdue k Hin) as (x & Hx & Hd).
    split; [intros later ?; by eapply due_not_held|].
    eexists _, (pg_time until). split; [cbn; by rewrite lookup_update_where, Hv; cbn; rewrite Hk|]. split; [done|lia].
  - intros k later Hlt Hheld. pose proof Hheld as (r & t & Hr & Ht & Hle). exists r, t. split; [|done].
    cbn. rewrite lookup_update_where, Hr. cbn. rewrite bool_decide_eq_false_2; [done|].
    intros Hin. destruct (Hdue k Hin) as (x & Hx & Hd). by eapply due_not_held.
Qed.
Lemma ClaimUploads_leases o now stale until limit st w :
  okwp (λ d, ∀ k later, pg_time now < later → held k later st → held k later d)
    (ClaimUploadsForMaintenance o now stale until limit) (λ l st' _, ∀ c, c ∈ l →
      (∀ later, pg_time now < later → ¬ held (claimed c) later st) ∧ held (claimed c) (pg_time until) st') st w.
Proof.
  unfold ClaimUploadsForMaintenance. apply okwp_bind, okwp_pool; [done|intros e st' Hst' _|intros n].
  - apply okwp_bind, okwp_make_slice; [done|]. intros _ _. apply okwp_bind, okwp_ret; [done|]. intros _. by apply okwp_throw.
  - eapply swp_mono; [apply claim_uploads_rows|]. intros l d' [Hl Hd'] _. split; [done|]. intros _.
    apply okwp_bind, okwp_make_slice; [done|]. intros _ _. apply okwp_bind, okwp_ret; [done|]. intros _. apply okwp_ret; [done|]. exact Hl.
Qed.

(** ** Sequences of calls *)

(** Any call, where a claim of uploads is made at a time before [until]. *)
Inductive early_call (until : Time) : Pg → Pg → Prop :=
| early_claim o now stale till limit s : pg_time now < until →
    early_call until s (pg_after (ClaimUploadsForMaintenance o now stale till limit) s)
| early_session {A} (m : GoM Pg A) s : session_call m → early_call until s (pg_after m s)
| early_method {A} ks (m : GoM Pg A) s : pg_method ks m → Uploads ∉ ks → early_call until s (pg_after m s)
| early_read {A} (m : GoM Pg A) s : pg_read m → early_call until s (pg_after m s).

Lemma early_step until s s' : early_call until s s' → pg_step s s'.
Proof.
  destruct 1 as [| A m s Hm| |]; [econstructor; constructor| |by econstructor|by econstructor].
  destruct Hm; econstructor; constructor.
Qed.
Lemma early_held until k s s' : early_call until s s' → sound (λ _, True) s →
  held k until (pg_store s) → held k until (pg_store s').
Proof.
  intros Hcall (_ & Hd & Hi & _) Hk. destruct Hcall as [o now stale till limit s Hlt|A m s Hm|A ks m s Hm Hks|A m s Hm]; cbn.
  - by apply (okwp_store _ _ _ s (ClaimUploads_leases o now stale till limit _ _)).
  - eapply held_kept; [|done]. apply (pkeeps_store _ m s (session_call_leases m _ Hm)); [done|].
    by split; [apply leases_same|].
  - eapply held_kept; [|done]. apply leases_stay. destruct (method_written ks m s Hm Hi Hd) as [Hw _].
    by eapply written_rows_stay.
  - by rewrite (read_store m s Hm Hi Hd).
Qed.
Lemma early_calls_held until k s s' : rtc (early_call until) s s' → sound (λ _, True) s →
  held k until (pg_store s) → held k until (pg_store s').
Proof.
  induction 1 as [|s1 s2 s3 Hcall _ IH]; [done|]. intros Hs Hk. apply IH; [|by eapply early_held].
  eapply step_sound; [|by eapply early_step|]; done.
Qed.
End with_engine.
