(* ===== verification/PgAccess.v ===== *)
(** * The access decision of the PostgreSQL repository

    [authorizeNodeQuery] walks the ancestors of a node by a recursive [UNION ALL],
    which ends because no chain of parents is a cycle, and compares the best entry
    on the way with the level the capability needs. *)
From S2P Require Import Prelude Errors Logic GoLib Types Validation MemoryState MemoryNamespace Tree TreeInvariant.
From S2P Require Import TreeOperations TreeRecycle PgCore PgSchema PgRepository PgIdempotency PgNamespace PgUploads.
From S2P Require Import PgMaintenance PgGovernance PgGroups PgLogic PgWrites PgMethods PgConstraints PgTree.
From S2P Require Import PgRefinement PgInvariant.

Section with_engine.
Context `{!Platform, !MapRange, !PgEngine, !PgEngineLaws _, !PgEnv}.

#[local] Arguments path_step : simpl never.
#[local] Arguments path_rows : simpl never.
Section walk.
Context (d : DB) (HT : pg_tree d).
Notation N := (abs_nodes d).

Lemma path_rows_key t k : path_rows d t (λ k', k' == k) =
  match db_file_node d !! k with
  | Some n => if fn_tenant_id n == t then [(k, fn_parent_id n)] else []
  | None => []
  end.
Proof.
  unfold path_rows. rewrite (rows_where_key _ _ k); [|intros k' n Hp; by go_bool].
  destruct (db_file_node d !! k) as [n|]; [|done]. rewrite (bool_decide_eq_true_2 (k = k)) by done.
  by destruct (fn_tenant_id n == t).
Qed.
Lemma path_step_key t k parent : path_step d t [(k, parent)] =
  match parent with Some p => path_rows d t (λ k', k' == p) | None => [] end.
Proof.
  unfold path_step. cbn. rewrite app_nil_r. unfold path_rows. destruct parent as [p|].
  - f_equal. apply list_filter_iff. intros [k' n]. simpl. rewrite !andb_true_iff, !bool_decide_eq_true. naive_solver.
  - rewrite (rows_where_key _ _ k); [|intros k' n Hp; by rewrite andb_false_r in Hp].
    destruct (db_file_node d !! k) as [n|]; [|done]. by rewrite andb_false_r.
Qed.

(** The walk from a node: the nodes above it. *)
Lemma path_walk t k n depth : anchored (parents N) k depth → db_file_node d !! k = Some n → fn_tenant_id n = t →
  ∀ fuel result, (depth + 2 ≤ fuel)%nat →
  ∃ l, recursive_union_all fuel (path_step d t) [(k, fn_parent_id n)] result = Some (result ++ l) ∧
    ∀ x, (∃ p, (x, p) ∈ (k, fn_parent_id n) :: l) ↔ above (parents N) k x.
Proof.
  intros Hd. revert n. induction Hd as [k Hk|k p depth Hk Hne _ IH]; intros n Hn Ht fuel result Hfuel.
  all: pose proof (abs_parents d k n Hn) as Hpar; rewrite Hk in Hpar; apply (inj Some) in Hpar.
  all: destruct fuel as [|fuel]; [lia|]; simpl; rewrite path_step_key.
  - assert (fn_parent_id n = None) as ->.
    { apply text_none; [apply (pt_row _ HT _ _ Hn)|by rewrite <- Hpar]. }
    exists []. destruct fuel; [lia|]. simpl. rewrite app_nil_r. split; [done|]. intros x. split.
    + intros [? [= -> _]%list_elem_of_singleton]. constructor.
    + intros Ha. inversion Ha as [|? ? ? Hp]; simplify_eq. by eexists; left.
  - destruct (fn_parent_id n) as [p'|] eqn:Hp'; [|done]. simpl in Hpar. subst p'.
    destruct (parent_row d HT k n p Hn Hp') as (q & Hq & Hqt). rewrite path_rows_key, Hq, Hqt, bool_decide_eq_true_2 by done.
    destruct (IH q Hq ltac:(congruence) fuel (result ++ [(p, fn_parent_id q)])) as (l & Hrun & Hspec); [lia|].
    exists ((p, fn_parent_id q) :: l). rewrite Hrun, <- app_assoc. split; [done|]. intros x. split.
    + intros [y Hy]. apply elem_of_cons in Hy as [[= -> ->]|Hy]; [constructor|].
      eapply above_step; [exact Hk|done|]. apply Hspec. by exists y.
    + intros Ha. inversion Ha as [|? p2 ? Hp2 ? Ha2]; simplify_eq; [by eexists; left|].
      apply Hspec in Ha2 as [y Hy]. exists y. by right.
Qed.
Lemma abs_size : (size (parents N) ≤ size (db_file_node d))%nat.
Proof.
  unfold parents. rewrite map_size_fmap, <- !size_dom. apply subseteq_size. intros k [n Hn]%elem_of_dom.
  rewrite abs_nodes_lookup in Hn. apply elem_of_dom. by destruct (db_file_node d !! k).
Qed.
End walk.
#[local] Arguments recursive_union_all : simpl never.

(** ** What the entries grant *)

Definition entry_for (d : DB) (t principal : string) (a : node_acl_row) : Prop :=
  na_subject_type a = "principal" ∧ na_principal_id a = Some principal ∨
  na_subject_type a = "group" ∧ ∃ g, na_group_id a = Some g ∧
    is_Some (db_tenant_group_member d !! (t, g, principal)).
(** An entry for the member, or for one of its groups, on the node or on one above it. *)
Definition pg_granted (d : DB) (t principal id : string) (level : Z) : Prop := ∃ k a,
  db_node_acl d !! k = Some a ∧ na_tenant_id a = t ∧ above (parents (abs_nodes d)) id (na_node_id a) ∧
  entry_for d t principal a ∧ level ≤ acl_role_level (na_role a).

Lemma acl_applies_true d t p a : acl_applies d t p a = true ↔ entry_for d t p a.
Proof.
  unfold acl_applies, entry_for. rewrite orb_true_iff, !andb_true_iff, !bool_decide_eq_true.
  destruct (na_group_id a) as [g|]; [setoid_rewrite has_key_true|]; naive_solver.
Qed.
Lemma foldr_max l z : 0 < z → z ≤ foldr Z.max 0 l ↔ ∃ x, x ∈ l ∧ z ≤ x.
Proof.
  intros Hz. induction l as [|y l IH]; simpl.
  - split; [lia|]. by intros (? & ?%elem_of_nil & _).
  - rewrite Z.max_le_iff, IH. setoid_rewrite elem_of_cons. naive_solver.
Qed.

(** The query of the entries, run on a node of the tenant. *)
Lemma granted_level_runs d tenant id principal n num : pg_tree d →
  uuid_in tenant = Some (fn_tenant_id n) → is_Some (uuid_in principal) → is_Some (uuid_in id) →
  db_file_node d !! canon id = Some n →
  ∃ z, granted_level tenant id principal num d = Returns z d ∧
    ∀ level, 0 < level → level ≤ z ↔ pg_granted d (fn_tenant_id n) (canon principal) (canon id) level.
Proof.
  intros HT Ht [p Hp] [k Hk] Hn. rewrite (canon_in _ _ Hp), (canon_in _ _ Hk) in *.
  destruct (wt_forest _ _ (pt_wf _ HT) k) as [depth Hd]; [by rewrite (abs_parents _ _ _ Hn)|].
  pose proof (anchored_bound _ _ Hd) as Hbound. pose proof (abs_size d) as Hsize.
  destruct (path_walk d HT (fn_tenant_id n) k n depth Hd Hn eq_refl (path_fuel d) [(k, fn_parent_id n)]) as (l & Hrun & Hl).
  { unfold path_fuel. lia. }
  unfold granted_level, uuid. rewrite Ht, Hp, Hk. unfold mbind, Stmt_bind. simpl. rewrite path_rows_key, Hn.
  rewrite bool_decide_eq_true_2 by done. unfold ends. rewrite Hrun.
  eexists. split; [reflexivity|]. intros level Hlevel. rewrite foldr_max by done.
  change ([_] ++ l) with ((k, fn_parent_id n) :: l). unfold granted_levels. split.
  - intros (z & Hz & Hle). apply list_elem_of_bind in Hz as ([x q] & Hz & Hx).
    apply list_elem_of_fmap in Hz as ([aid a] & -> & [Ha Hpa]%elem_of_rows_where). go_bool.
    exists aid, a. split_and!; [done|done| |by apply acl_applies_true|done]. subst x. apply Hl. by exists q.
  - intros (aid & a & Ha & Hat & Habove & Hfor & Hle). apply Hl in Habove as [q Hq].
    exists (acl_role_level (na_role a)). split; [|done]. apply list_elem_of_bind. eexists. split; [|exact Hq].
    apply list_elem_of_fmap. exists (aid, a). split; [done|]. apply elem_of_rows_where. split; [done|].
    apply acl_applies_true in Hfor. by rewrite Hat, Hfor, !bool_decide_eq_true_2.
Qed.

(** A statement outside a transaction that reads, with no fault. *)
Definition next (s : Pg) : Pg := s <| pg_statements := S (pg_statements s) |>.
Section reads.
Context {A B : Type} (q : Stmt DB A) (a : A) (s : Pg) (f : A → GoM Pg B).
Hypothesis Hq : q (pg_statements s) (pg_store s) = Returns a (pg_store s).
Hypothesis Hquiet : env_fault (pg_statements s) = None.
Hypothesis Hd : deferred_violation (pg_store s) = None.
Lemma pool_returns : pool_query q s = (Ok (inr a), next s).
Proof. unfold pool_query. cbn. rewrite Hquiet, Hq, Hd. by destruct s. Qed.
Lemma bind_must_pool code message : (must code message (pool_query q) ≫= f) s = f a (next s).
Proof. unfold must, mbind, GoM_bind. by rewrite pool_returns. Qed.
Lemma bind_must_find_pool e code message : (must_find e code message (pool_query q) ≫= f) s = f a (next s).
Proof. unfold must_find, mbind, GoM_bind. by rewrite pool_returns. Qed.
End reads.

Lemma select_member_row_runs num d tenant principal t m : uuid_in tenant = Some t → is_Some (uuid_in principal) →
  db_tenant_member d !! (t, canon principal) = Some m →
  select_member_row tenant principal num d = Returns m d.
Proof.
  intros Ht [p Hp] Hm. rewrite (canon_in _ _ Hp) in Hm.
  unfold select_member_row, uuid. rewrite Ht, Hp. unfold mbind, Stmt_bind. simpl.
  rewrite (rows_where_key _ _ (t, p)) by (intros; by go_bool). by rewrite Hm, bool_decide_eq_true_2.
Qed.

Lemma AuthorizeNode_runs s i id cap n m : pg_tree (pg_store s) → (∀ n, env_fault n = None) →
  deferred_violation (pg_store s) = None → ValidNodeCapability cap = true →
  uuid_in (Identity_TenantID i) = Some (fn_tenant_id n) → is_Some (uuid_in (Identity_PrincipalID i)) →
  is_Some (uuid_in id) → db_file_node (pg_store s) !! canon id = Some n →
  db_tenant_member (pg_store s) !! (fn_tenant_id n, canon (Identity_PrincipalID i)) = Some m →
  tm_status m = MemberStatusActive →
  (AuthorizeNode i id cap s).1 = Ok tt ↔
    capabilityLevel cap ≤ implicit_level (tm_role m) ∨
    pg_granted (pg_store s) (fn_tenant_id n) (canon (Identity_PrincipalID i)) (canon id) (capabilityLevel cap).
Proof.
  intros HT Hquiet Hd Hcap Ht Hp Hk Hn Hm Hact.
  assert (0 < capabilityLevel cap) as Hpos.
  { unfold ValidNodeCapability in Hcap. unfold capabilityLevel. repeat case_bool_decide; simpl in *; done. }
  unfold AuthorizeNode, authorizeNodeQuery. rewrite Hcap. cbn [negb].
  rewrite (bind_must_find_pool _ m) by (done || apply Hquiet || by eapply select_member_row_runs).
  rewrite Hact. match goal with |- context [if ?b then throw _ else _] => change b with false end. cbv iota.
  rewrite (bind_must_pool _ true); [|unfold uuid; destruct Hk as [k Hk]; rewrite (canon_in _ _ Hk) in Hn;
    rewrite Ht, Hk; change (pg_store (next s)) with (pg_store s);
    unfold mbind, Stmt_bind; cbn -[node_ref]; unfold node_ref;  by rewrite Hn, bool_decide_eq_true_2|apply Hquiet|done].
  cbn [negb]. destruct (capabilityLevel cap <=? implicit_level (tm_role m)) eqn:Hrole; [simpl; split; [left; lia|done]|].
  destruct (granted_level_runs (pg_store s) (Identity_TenantID i) id (Identity_PrincipalID i) n
    (pg_statements (next (next s))) HT Ht Hp Hk Hn) as (z & Hz & Hlevel).
  rewrite (bind_must_pool _ z) by (done || apply Hquiet). rewrite <- Hlevel by done.
  destruct (z <? capabilityLevel cap) eqn:E; simpl; split; try done; intros; (by left; lia) || (by right; lia) || (exfalso; lia).
Qed.
End with_engine.

(** ** The calls of the PostgreSQL repository end

    The recursive queries are the only loops a call can be caught in. [UNION] drops
    the rows it has seen, so it ends on any table; [UNION ALL] in the query of the
    access lists ends because the rows of [file_node] form a forest. *)

#[local] Opaque insert delete delete_where update_where.
#[local] Arguments recursive_union_all : simpl never.
#[local] Arguments recursive_union : simpl never.

(** ** Statements *)

Definition stops {A} (q : Stmt DB A) : Prop := ∀ n d, q n d ≠ Loops.

Lemma stops_bind {A B} (q : Stmt DB A) (f : A → Stmt DB B) : stops q → (∀ a, stops (f a)) → stops (q ≫= f).
Proof.
  intros Hq Hf n d. specialize (Hq n d). unfold mbind, Stmt_bind. destruct (q n d) as [a d'|e|]; [apply Hf|done..].
Qed.
Lemma stops_ret {A} (a : A) : stops (mret a).
Proof. by intros n d. Qed.
Lemma stops_refuse {A} e : stops (refuse e : Stmt DB A).
Proof. by intros n d. Qed.
Lemma stops_refuse_if b e : stops (refuse_if b e).
Proof. intros n d. unfold refuse_if. by destruct b. Qed.
Lemma stops_table : stops table_of.
Proof. by intros n d. Qed.
Lemma stops_store d : stops (store d).
Proof. by intros n ?. Qed.
Lemma stops_number : stops statement_number.
Proof. by intros n d. Qed.
Lemma stops_ends {A} (o : option A) : is_Some o → stops (ends o).
Proof. intros [a ->]. by intros n d. Qed.
Lemma stops_first_row {A} (rows : list A) : stops (first_row rows).
Proof. intros n d. unfold first_row. by destruct rows. Qed.
Lemma stops_limit_rows {A} z (rows : list A) : stops (limit_rows z rows).
Proof. intros n d. unfold limit_rows. by destruct (_ <? _). Qed.
Lemma stops_integer z : stops (integer z).
Proof. intros n d. unfold integer. by destruct (_ && _)%bool. Qed.
Lemma stops_uuid `{!PgEngine} s : stops (uuid s).
Proof. intros n d. unfold uuid. by destruct (uuid_in s). Qed.
#[local] Hint Resolve stops_ret stops_refuse stops_refuse_if stops_table stops_store stops_number stops_first_row
  stops_limit_rows stops_integer stops_uuid : stops.

Ltac stops_step :=
  lazymatch goal with
  | |- stops (mbind _ _) => apply stops_bind; [|intros ?]
  | |- stops (let x := ?a in @?b x) =>
      let y := fresh x in pose (y := a); lazymatch goal with |- stops _ => change (stops (b y)) end
  | |- stops (match ?x with _ => _ end) => destruct x eqn:?
  | |- stops (ends (subtree _ _ _)) => apply stops_ends, subtree_ends
  | |- stops (ends (recursive_union _ _ _ _)) => apply stops_ends, ancestors_end
  | |- stops ?q => first [solve [auto 2 with stops nocore] | let h := head_of q in unfold h]
  end
with head_of q := lazymatch q with ?f _ => head_of f | _ => q end.
Ltac stops_go := repeat (cbv beta iota; stops_step).

(** ** Methods *)

Definition returns {A} (m : GoM Pg A) : Prop := ∀ s, (m s).1 ≠ Diverged.

Section methods.
Context `{!Platform, !MapRange, !PgEngine, !PgEngineLaws _, !PgEnv, !MetadataJSON}.

Lemma returns_bind {A B} (m : GoM Pg A) (f : A → GoM Pg B) : returns m → (∀ a, returns (f a)) → returns (m ≫= f).
Proof.
  intros Hm Hf s. specialize (Hm s). unfold mbind, GoM_bind. destruct (m s) as [[a|e|p|] s']; [apply Hf|done..].
Qed.
Lemma returns_ret {A} (a : A) : returns (ret a).
Proof. by intros s. Qed.
Lemma returns_throw {A} e : returns (throw e : GoM Pg A).
Proof. by intros s. Qed.
Lemma returns_panic {A} p : returns (panic p : GoM Pg A).
Proof. by intros s. Qed.
Lemma returns_get : returns getS.
Proof. by intros s. Qed.
Lemma returns_lift {A} (o : Outcome A) : o ≠ Diverged → returns (lift o).
Proof. intros Ho s. exact Ho. Qed.
Lemma returns_check_err err : returns (check_err err).
Proof. by destruct err; intros s. Qed.
Lemma returns_make_slice z : returns (make_slice z).
Proof. unfold make_slice. intros s. by destruct (_ <? _). Qed.
Lemma returns_try {A} (m : GoM Pg A) : returns m → returns (try_ m).
Proof. intros Hm s. specialize (Hm s). unfold try_. by destruct (m s) as [[] s']. Qed.
Lemma returns_for_range {A} (l : list A) body : (∀ x, returns (body x)) → returns (for_range l body).
Proof. intros Hb. induction l; simpl; [apply returns_ret|]. apply returns_bind; auto. Qed.
Lemma returns_cut_page {A} limit (l : list A) : returns (cut_page limit l).
Proof. unfold cut_page. destruct (_ <? _); [|apply returns_ret]. apply returns_bind; [|intros; apply returns_ret]. intros s. unfold slice_to. repeat case_match; done. Qed.
Lemma returns_tx_query {A} (q : Stmt DB A) : stops q → returns (tx_query q).
Proof.
  intros Hq s. unfold tx_query. destruct (env_fault _); [done|]. cbn. specialize (Hq (pg_statements s) (pg_work s)).
  by destruct (q _ _).
Qed.
Lemma returns_pool_query {A} (q : Stmt DB A) : stops q → returns (pool_query q).
Proof.
  intros Hq s. unfold pool_query. cbn. specialize (Hq (pg_statements s) (pg_store s)).
  destruct (env_fault (pg_statements s)), (env_applied (pg_statements s)), (q (pg_statements s) (pg_store s)) as [a d| |];
    try done; by destruct (deferred_violation d).
Qed.
Lemma returns_commit : returns commit.
Proof. intros s. unfold commit. repeat case_match; done. Qed.
Lemma returns_begin_tx message : returns (begin_tx message).
Proof. intros s. unfold begin_tx. by case_match. Qed.
Lemma returns_then_rollback {A} (body : GoM Pg A) : returns body → returns (then_rollback body).
Proof. intros Hb s. specialize (Hb s). unfold then_rollback. by destruct (body s). Qed.
Lemma returns_with_tx {A} message (body : GoM Pg A) : returns body → returns (with_tx message body).
Proof. intros. apply returns_bind; [apply returns_begin_tx|intros _; by apply returns_then_rollback]. Qed.
Lemma returns_must {A} code message (q : GoM Pg (PgErr + A)) : returns q → returns (must code message q).
Proof. intros. apply returns_bind; [done|]. intros []; [apply returns_throw|apply returns_ret]. Qed.
Lemma returns_must_find {A} e code message (q : GoM Pg (PgErr + A)) : returns q → returns (must_find e code message q).
Proof. intros. apply returns_bind; [done|]. intros [[]|]; (apply returns_throw || apply returns_ret). Qed.
Lemma returns_may_find {A} code message (q : GoM Pg (PgErr + A)) : returns q → returns (may_find code message q).
Proof. intros. apply returns_bind; [done|]. intros [[]|]; (apply returns_throw || apply returns_ret). Qed.

Ltac returns_step :=
  lazymatch goal with
  | |- returns (mbind _ _) => apply returns_bind; [|intros ?]
  | |- returns (ret _) => apply returns_ret
  | |- returns (throw _) => apply returns_throw
  | |- returns (panic _) => apply returns_panic
  | |- returns getS => apply returns_get
  | |- returns (lift _) => apply returns_lift
  | |- returns (check_err _) => apply returns_check_err
  | |- returns (make_slice _) => apply returns_make_slice
  | |- returns (cut_page _ _) => apply returns_cut_page
  | |- returns (try_ _) => apply returns_try
  | |- returns (for_range _ _) => apply returns_for_range; intros ?
  | |- returns (must _ _ _) => apply returns_must
  | |- returns (must_find _ _ _ _) => apply returns_must_find
  | |- returns (may_find _ _ _) => apply returns_may_find
  | |- returns (with_tx _ _) => apply returns_with_tx
  | |- returns (then_rollback _) => apply returns_then_rollback
  | |- returns (begin_tx _) => apply returns_begin_tx
  | |- returns commit => apply returns_commit
  | |- returns (tx_query _) => apply returns_tx_query
  | |- returns (pool_query _) => apply returns_pool_query
  | |- returns (let x := ?a in @?b x) =>
      let y := fresh x in pose (y := a); lazymatch goal with |- returns _ => change (returns (b y)) end
  | |- returns (match ?x with _ => _ end) => destruct x eqn:?
  end.
Ltac returns_go := repeat (cbv beta iota; returns_step); cbv beta iota.

Lemma new_id_returns b : NewID b ≠ Diverged.
Proof. unfold NewID. repeat case_match; done. Qed.
Lemma metadata_returns m : encodeAuditMetadata m ≠ Diverged.
Proof. unfold encodeAuditMetadata. repeat case_match; done. Qed.
Ltac returns_all := returns_go; try solve
  [ stops_go | apply metadata_returns | exfalso; by eapply new_id_returns ].

Lemma append_audit_returns ctx b tenant actor action type target now metadata :
  returns (appendAuditTx ctx b tenant actor action type target now metadata).
Proof. unfold appendAuditTx. returns_all. Qed.
Lemma method_returns {A} ks (m : GoM Pg A) : pg_method ks m → ACLs ∉ ks → returns m.
Proof.
  destruct 1; intros Hks;
  lazymatch goal with
  | |- returns (SetNodeACL _ _ _) => destruct Hks; by left
  | |- returns (DeleteNodeACL _ _ _) => destruct Hks; by left
  | _ => pg_unfold
  end; returns_all.
Qed.

(** ** The access lists *)

Lemma granted_level_stops tenant id principal d num : pg_tree d → granted_level tenant id principal num d ≠ Loops.
Proof.
  intros HT. destruct (uuid_in tenant) as [t|] eqn:Ht, (uuid_in id) as [k|] eqn:Hk, (uuid_in principal) as [p|] eqn:Hp;
    try by (unfold granted_level, mbind, Stmt_bind, uuid; rewrite ?Ht, ?Hk, ?Hp).
  destruct (db_file_node d !! k) as [n|] eqn:Hn; [destruct (decide (fn_tenant_id n = t)) as [<-|Hne]|].
  - destruct (granted_level_runs d tenant id principal n num) as (z & -> & _); [done|done|by eexists..| |done].
    by rewrite (canon_in _ _ Hk).
  - unfold granted_level, mbind, Stmt_bind, uuid. rewrite Ht, Hk, Hp. cbn.
    by rewrite path_rows_key, Hn, bool_decide_eq_false_2.
  - unfold granted_level, mbind, Stmt_bind, uuid. rewrite Ht, Hk, Hp. cbn. by rewrite path_rows_key, Hn.
Qed.

(** From databases that are trees. *)
Definition returns_on_tree {A} (m : GoM Pg A) : Prop := ∀ s, committed pg_tree (pg_store s) → pg_tree (pg_work s) →
  (m s).1 ≠ Diverged.
Lemma returns_anywhere {A} (m : GoM Pg A) : returns m → returns_on_tree m.
Proof. intros Hm s _ _. apply Hm. Qed.
Lemma returns_tree_bind {A B} (m : GoM Pg A) (f : A → GoM Pg B) : returns_on_tree m → pkeeps pg_tree m →
  (∀ a, returns_on_tree (f a)) → returns_on_tree (m ≫= f).
Proof.
  intros Hm Hk Hf s Hst Hw. specialize (Hm s Hst Hw). pose proof (Hk s Hst Hw) as Hs. unfold wp in Hs.
  unfold mbind, GoM_bind. destruct (m s) as [[a|e|p|] s']; [|done..]. destruct Hs. by apply Hf.
Qed.
Lemma returns_tree_tx {A} message (body : GoM Pg A) : returns_on_tree body → returns_on_tree (with_tx message body).
Proof.
  intros Hb. apply returns_tree_bind; [apply returns_anywhere, returns_begin_tx|apply pkeeps_begin_tx|].
  intros _ s Hst Hw. specialize (Hb s Hst Hw). unfold then_rollback. by destruct (body s).
Qed.
Lemma member_row_reads tenant principal : reads (select_member_row tenant principal).
Proof. intros n d. unfold select_member_row. by sql. Qed.
Lemma granted_level_reads tenant id principal : reads (granted_level tenant id principal).
Proof. intros n d. unfold granted_level. by sql. Qed.

(** The runner of the queries: of the transaction or of the pool. *)
Definition runs_on_tree (q : ∀ A, Stmt DB A → GoM Pg (PgErr + A)) : Prop :=
  (∀ A (s : Stmt DB A), stops s → returns (q A s)) ∧ (∀ A (s : Stmt DB A), skeeps pg_tree s → pkeeps pg_tree (q A s)) ∧
  ∀ A (s : Stmt DB A), (∀ n d, pg_tree d → s n d ≠ Loops) → returns_on_tree (q A s).
Lemma tx_runs : runs_on_tree (@tx_query _).
Proof.
  split_and!; [intros; by apply returns_tx_query|intros; by apply pkeeps_tx_query|].
  intros A q Hq s _ Hw. unfold tx_query. destruct (env_fault _); [done|]. cbn.
  specialize (Hq (pg_statements s) (pg_work s) Hw). by destruct (q _ _).
Qed.
Lemma pool_runs : runs_on_tree (@pool_query _).
Proof.
  split_and!; [intros; by apply returns_pool_query|intros; by apply pkeeps_pool_query|].
  intros A q Hq s [Hst _] _. unfold pool_query. cbn. specialize (Hq (pg_statements s) (pg_store s) Hst).
  destruct (env_fault (pg_statements s)), (env_applied (pg_statements s)), (q (pg_statements s) (pg_store s)) as [a d| |];
    try done; by destruct (deferred_violation d).
Qed.
Lemma authorize_returns q tenant principal declared id cap : runs_on_tree q →
  returns_on_tree (authorizeNodeQuery q tenant principal declared id cap) ∧
  pkeeps pg_tree (authorizeNodeQuery q tenant principal declared id cap).
Proof.
  intros (Hstops & Hkeeps & Htree). unfold authorizeNodeQuery. split.
  - destruct (negb _); [apply returns_anywhere, returns_throw|].
    apply returns_tree_bind; [apply returns_anywhere, returns_must_find, Hstops; stops_go| |intros m].
    { apply pkeeps_must_find, Hkeeps, reads_keeps, member_row_reads. }
    destruct (_ || _); [apply returns_anywhere, returns_throw|].
    apply returns_tree_bind; [apply returns_anywhere, returns_must, Hstops; stops_go| |intros found].
    { apply pkeeps_must, Hkeeps, reads_keeps. intros n d. by sql. }
    destruct (negb _); [apply returns_anywhere, returns_throw|].
    destruct (_ <=? _); [apply returns_anywhere, returns_ret|].
    apply returns_tree_bind; [|apply pkeeps_must, Hkeeps, reads_keeps, granted_level_reads|].
    + apply returns_tree_bind; [apply Htree|apply Hkeeps, reads_keeps, granted_level_reads|].
      * intros n d. apply granted_level_stops.
      * intros []; apply returns_anywhere; [apply returns_throw|apply returns_ret].
    + intros z. destruct (_ <? _); apply returns_anywhere; [apply returns_throw|apply returns_ret].
  - pkeeps_go; apply Hkeeps, reads_keeps; [apply member_row_reads| |apply granted_level_reads]. intros n d. by sql.
Qed.

Lemma lock_tenant_keeps tenant : pkeeps pg_tree (lockTenant tenant).
Proof. unfold lockTenant. pkeeps_go. apply reads_keeps. intros n d. by sql. Qed.
Lemma acl_method_returns {A} ks (m : GoM Pg A) : pg_method ks m → ACLs ∈ ks → returns_on_tree m.
Proof.
  assert (∀ T tenant principal declared id cap (f : unit → GoM Pg T), (∀ a, returns (f a)) →
    returns_on_tree (_ ← lockTenant tenant; a ← authorizeNodeTx tenant principal declared id cap; f a)) as Hlocked.
  { intros T tenant principal declared id cap f Hf. apply returns_tree_bind; [|apply lock_tenant_keeps|intros _].
    - apply returns_anywhere. unfold lockTenant. returns_all.
    - destruct (authorize_returns _ tenant principal declared id cap tx_runs).
      apply returns_tree_bind; [done..|]. intros a. by apply returns_anywhere. }
  destruct 1; intros Hks; try (exfalso; refine ((_ : ACLs ∉ _) Hks); by apply (bool_decide_unpack _)).
  - unfold SetNodeACL. destruct (_ || _); [apply returns_anywhere, returns_throw|]. apply returns_tree_tx, Hlocked.
    intros _. unfold check_acl_subject. returns_all; try apply append_audit_returns.
  - unfold DeleteNodeACL. apply returns_tree_tx, Hlocked. intros _. returns_all; try apply append_audit_returns.
Qed.

Lemma decode_events_returns l : decode_events l ≠ Diverged.
Proof.
  induction l as [|kv l IH]; simpl; [done|]. destruct (Unmarshal_metadata _); [|done].
  unfold mbind, Outcome_bind. by destruct (decode_events l).
Qed.
Lemma read_returns {A} (m : GoM Pg A) : pg_read m → returns_on_tree m.
Proof.
  destruct 1; lazymatch goal with
  | |- returns_on_tree (AuthorizeNode _ _ _) => by apply authorize_returns, pool_runs
  | _ => apply returns_anywhere
  end.
  all: unfold PgRepository.Ready, GetTenant, GetNode, ListChildren, ListRecycle, DownloadBlob, Upload, UploadParts, PartSignatures,
    ExpiredUploads, ResolveOIDCPrincipal, ListMembers, ListInvitations, ListGroups, ListGroupMembers, ListNodeACL, ListAudit;
    returns_all.
  - intros s. by destruct (env_fault _).
  - apply decode_events_returns.
Qed.

(** ** Every call *)

Lemma call_returns {A} (m : GoM Pg A) s : ((∃ ks, pg_method ks m) ∨ pg_read m) → sound pg_tree s → (m s).1 ≠ Diverged.
Proof.
  intros Hm (_ & Hd & Hi & HT). assert (returns_on_tree m) as Hret.
  { destruct Hm as [[ks Hm]|Hm]; [|by apply read_returns]. destruct (decide (ACLs ∈ ks)).
    - by eapply acl_method_returns.
    - by eapply returns_anywhere, method_returns. }
  apply Hret; [by split|by rewrite Hi].
Qed.
End methods.
