(* ===== verification/PgProperties.v ===== *)
(** * Properties of the PostgreSQL repository *)
From S2P Require Import Prelude Errors Logic GoLib Types Validation MemoryState MemoryNamespace MemoryUploads Tree.
From S2P Require Import TreeInvariant Sessions Demo Codecs PgCore PgSchema PgRepository PgIdempotency PgNamespace.
From S2P Require Import PgUploads PgMaintenance PgGovernance PgGroups PgLogic PgWrites PgMethods PgConstraints PgTree.
From S2P Require Import PgRefinement PgInvariant PgAtomic PgOwners PgSessions PgAccess.

(** ** A concrete run of the PostgreSQL repository

    An engine and an environment on which the model evaluates, and the tenant of
    Demo.v built by the methods of the PostgreSQL repository. *)

Definition lower (s : string) : string :=
  of_bytes ((λ b, if in_range 65 90 b then b + 32 else b) <$> bytes s).
Lemma lower_idem s : lower (lower s) = lower s.
Proof.
  unfold lower. f_equal. rewrite bytes_of_bytes.
  - rewrite <- list_fmap_compose. apply list_fmap_ext. intros _ b _. simpl.
    destruct (in_range 65 90 b) eqn:E; [|by rewrite E]. unfold in_range in *. repeat case_match; lia.
  - apply Forall_fmap, Forall_forall. intros b Hb. apply list_elem_of_fmap in Hb as (c & -> & _).
    simpl. unfold in_range, is_byte, byte_val in *. pose proof (Ascii.N_ascii_bounded c). case_match; lia.
Qed.
(** [uuid]s in their standard form, the C collation, rows in any fixed order. *)
#[export] Instance example_engine : PgEngine := {|
  uuid_in s := let u := lower s in if ValidID u then Some u else None;
  text_lt := str_ltb;
  jsonb_in s := Some s;
  heap_order A n l := l
|}.
#[export] Instance example_laws : PgEngineLaws example_engine.
Proof.
  split; simpl.
  - intros s u. destruct (ValidID (lower s)) eqn:Hs; [|done]. intros [= <-]. by rewrite lower_idem, Hs.
  - intros s u. destruct (ValidID (lower s)) eqn:Hs; [|done]. intros [= <-] E. by rewrite E in Hs.
  - exact str_ltb_swo.
  - intros a b ??. by apply str_ltb_tricho.
  - done.
Qed.
#[export] Instance example_metadata : MetadataJSON := {| Unmarshal_metadata _ := Some ∅ |}.
#[export] Instance example_env : PgEnv := {|
  env_fault _ := None;
  env_applied _ := false;
  env_now _ := 0;
  env_locked _ _ := false;
  env_gap _ := 0%nat
|}.

Definition us (n : Z) : Time := n * 1000.
Definition pg_mkdir (id parent name : string) (t : Time) : CreateDirectoryCommand :=
  mkCreateDirectoryCommand alice id parent name name t None.
Definition rnd (n : Z) : RandRead := Some (replicate 16 n).

Definition pg_demo1 : Pg := pg_after (EnsureTenant (mkTenantSeed tenant1 "Acme" root1 (us 100))) (pg_start 0).
Definition pg_demo2 : Pg := pg_after (CreateDirectory no_context (rnd 1) (pg_mkdir docs1 root1 "docs" (us 101))) pg_demo1.
Definition pg_demo3 : Pg := pg_after (CreateDirectory no_context (rnd 2) (pg_mkdir old1 docs1 "old" (us 102))) pg_demo2.
Definition pg_seed (id : string) (role : AccessRole) : OIDCMemberSeed :=
  mkOIDCMemberSeed id tenant1 "issuer" id "name" role (us 103).
Definition pg_demo4 : Pg := pg_after (EnsureOIDCMember (pg_seed owner1 RoleOwner)) pg_demo3.
Definition pg_demo5 : Pg := pg_after (EnsureOIDCMember (pg_seed editor1 RoleEditor)) pg_demo4.
(** The editor may manage [docs] and what is below, although its role may not. *)
Definition pg_grant : SetNodeACLCommand :=
  mkSetNodeACLCommand "00000000-0000-4000-8000-000000000007" tenant1 docs1 ACLSubjectPrincipal editor1
    ACLManager owner1 RoleOwner (us 104).
Definition pg_demo6 : Pg := pg_after (SetNodeACL no_context (rnd 3) pg_grant) pg_demo5.

(** Two uploads into [docs], the second one over before the first. *)
Definition upload2 : string := "00000000-0000-4000-8000-000000000015".
Definition pg_session (id key name : string) (expires : Time) : UploadSession :=
  mkUploadSession id tenant1 owner1 docs1 name name 10 "text/plain" (mkChecksum "" "")
    "bucket" key "multipart1" UploadCreated "" "" "" 5 expires 1 (us 105) (us 105).
Definition pg_demo7 : Pg :=
  pg_after (CreateUpload (mkCreateUploadCommand (pg_session upload1 "blobs/1" "a.txt" (us 300)) None)) pg_demo6.
Definition pg_demo8 : Pg :=
  pg_after (CreateUpload (mkCreateUploadCommand (pg_session upload2 "blobs/2" "b.txt" (us 200)) None)) pg_demo7.

Ltac demo_step := eapply service_after; [constructor|by apply (bool_decide_unpack _)|].
Lemma pg_demo1_reachable : service_reachable pg_demo1.
Proof. demo_step. apply service_start. Qed.
Lemma pg_demo2_reachable : service_reachable pg_demo2.
Proof. demo_step. apply pg_demo1_reachable. Qed.
Lemma pg_demo6_reachable : service_reachable pg_demo6.
Proof. do 4 demo_step. apply pg_demo2_reachable. Qed.
Lemma pg_demo8_reachable : service_reachable pg_demo8.
Proof. do 2 demo_step. apply pg_demo6_reachable. Qed.

(** Every call has taken effect. *)
Example pg_demo_effects :
  size (db_file_node (pg_store pg_demo8)) = 3%nat ∧ size (db_tenant_member (pg_store pg_demo8)) = 2%nat ∧
  size (db_node_acl (pg_store pg_demo8)) = 1%nat ∧ size (db_upload_session (pg_store pg_demo8)) = 2%nat.
Proof. vm_compute. done. Qed.

(** ** Calls of the namespace, on either repository *)

Inductive NamespaceCall : Type :=
| CallCreate (c : CreateDirectoryCommand)
| CallUpdate (c : UpdateNodeCommand)
| CallRecycle (i : Identity) (id : string) (revision : Z) (now : Time)
| CallRestore (i : Identity) (id : string) (revision : Z) (now : Time).
(** With the context of the request and the random bytes it reads. *)
Abbreviation Request := (Context * RandRead * NamespaceCall)%type.

Fixpoint run_calls {S} (run : Request → GoM S (option Node)) (calls : list Request) : GoM S (list (option Node)) :=
  match calls with
  | [] => ret []
  | call :: calls => a ← run call; l ← run_calls run calls; ret (a :: l)
  end.

Section with_engine.
Context `{!Platform, !MapRange, !PgEngine, !PgEngineLaws _, !PgEnv, !MetadataJSON}.

Definition pg_run (request : Request) : GoM Pg (option Node) :=
  let '(ctx, b, call) := request in
  match call with
  | CallCreate c => n ← PgNamespace.CreateDirectory ctx b c; ret (Some n)
  | CallUpdate c => n ← PgNamespace.UpdateNode ctx b c; ret (Some n)
  | CallRecycle i id rev now => _ ← PgNamespace.Recycle ctx b i id rev now; ret None
  | CallRestore i id rev now => n ← PgNamespace.Restore ctx b i id rev now; ret (Some n)
  end.
Definition memory_run (request : Request) : GoM Repository (option Node) :=
  let '(ctx, b, call) := request in
  match call with
  | CallCreate c => n ← MemoryNamespace.CreateDirectory ctx b (canonical_create c); ret (Some n)
  | CallUpdate c => n ← MemoryNamespace.UpdateNode ctx b (canonical_update c); ret (Some n)
  | CallRecycle i id rev now => _ ← MemoryNamespace.Recycle ctx b (canonical_identity i) (canon id) rev (pg_time now); ret None
  | CallRestore i id rev now => n ← MemoryNamespace.Restore ctx b (canonical_identity i) (canon id) rev (pg_time now); ret (Some n)
  end.

Lemma request_simulates request st w : pg_tree st →
  okwp pg_tree (pg_run request) (λ a st' _, simulates (memory_run request) a st st') st w.
Proof.
  destruct request as [[ctx b] call]. intros HT. destruct call as [c|c|i id rev now|i id rev now]; cbn;
    apply okwp_bind; (eapply okwp_mono; [by (apply CreateDirectory_simulates || apply UpdateNode_simulates ||
      apply Recycle_simulates || apply Restore_simulates)|]); intros a st' w' Hsim ?; apply okwp_ret; try done;
    intros r Hr; destruct (Hsim r Hr) as (r' & E & ?); exists r'; (split; [|done]);
    unfold mbind, GoM_bind; by rewrite E.
Qed.
Lemma run_simulates calls s r l s' : pg_tree (pg_store s) → same_namespace (pg_store s) r →
  run_calls pg_run calls s = (Ok l, s') →
  ∃ r', run_calls memory_run calls r = (Ok l, r') ∧ same_namespace (pg_store s') r'.
Proof.
  revert s r l. induction calls as [|call calls IH]; intros s r l HT Hr.
  - intros [= <- <-]. by exists r.
  - destruct s as [st w n]. destruct (request_simulates call st w HT n) as [HT' Hsim].
    simpl. unfold mbind, GoM_bind. destruct (pg_run call _) as [[a|?|?|] s1]; try done. simpl in *.
    destruct (Hsim r Hr) as (r1 & -> & Hr1). specialize (IH s1 r1).
    destruct (run_calls pg_run calls s1) as [[l'|?|?|] s2]; try done. intros [= <- <-].
    destruct (IH l' HT' Hr1 eq_refl) as (r' & -> & ?). by exists r'.
Qed.

(** C6: Whenever a sequence of calls of [CreateDirectory], [UpdateNode], [Recycle]
    and [Restore] succeeds on PostgreSQL, the repository in memory, started from the
    same nodes and tenants, gives the same answers for the canonical forms of the
    arguments, and ends with the same nodes and tenants. *)
Theorem pg_refines_memory s r calls l s' : service_reachable s → same_namespace (pg_store s) r →
  run_calls pg_run calls s = (Ok l, s') →
  ∃ r', run_calls memory_run calls r = (Ok l, r') ∧ same_namespace (pg_store s') r'.
Proof. intros (_ & _ & _ & HT)%service_tree. by apply run_simulates. Qed.

(** C7: After any calls, failed ones included, the rows of [file_node] are a forest:
    the invariant of the tree that the repository in memory has. *)
Theorem pg_tree_invariant s : service_reachable s → pg_tree (pg_store s).
Proof. by intros (_ & _ & _ & HT)%service_tree. Qed.

(** C8: A call that answers with an error, or panics, leaves the committed database as
    it was, with three exceptions: the answer to its [COMMIT], or to a statement outside
    a transaction, was lost; it is a [CommitUpload], which may have recorded in the
    session why it refused; or it is an [AcceptInvitation], which may have recorded that
    a pending invitation has expired, and nothing else. *)
Theorem pg_failed_calls_change_nothing {A} ks (m : GoM Pg A) s : pg_reachable s → pg_call ks m →
  (∀ a s', m s ≠ (Ok a, s')) →
  pg_store (m s).2 = pg_store s ∨ unclear s (m s).2 ∨
  BlobNew ∈ ks ∧ rtc (writes_of [Uploads]) (pg_store s) (pg_store (m s).2) ∨
  MemberNew ∈ ks ∧ InvitationSet ∈ ks ∧ invitation_expired (pg_store s) (pg_store (m s).2).
Proof.
  intros Hs Hm Hfail. destruct (reachable_sound (λ _, True) s Hs) as (_ & Hd & Hi & _); [done|done|].
  pose proof (call_settles ks m s Hm Hi Hd (reachable_invitation_ids s Hs)) as [_ Hsettles].
  destruct (m s) as [[a|e|p|] s'] eqn:E; [by destruct (Hfail a s')|exact Hsettles..].
Qed.

(** C9: An active member may use a capability on a node exactly when its role reaches
    it, or an entry for the member or one of its groups does, on the node or above. *)
Theorem pg_access_decision s i id cap n m : service_reachable s → (∀ n, env_fault n = None) →
  ValidNodeCapability cap = true →
  uuid_in (Identity_TenantID i) = Some (fn_tenant_id n) → is_Some (uuid_in (Identity_PrincipalID i)) →
  is_Some (uuid_in id) → db_file_node (pg_store s) !! canon id = Some n →
  db_tenant_member (pg_store s) !! (fn_tenant_id n, canon (Identity_PrincipalID i)) = Some m →
  tm_status m = MemberStatusActive →
  (AuthorizeNode i id cap s).1 = Ok tt ↔
    capabilityLevel cap ≤ implicit_level (tm_role m) ∨
    pg_granted (pg_store s) (fn_tenant_id n) (canon (Identity_PrincipalID i)) (canon id) (capabilityLevel cap).
Proof. intros (_ & Hd & _ & HT)%service_tree Hquiet. intros. by apply AuthorizeNode_runs. Qed.

(** C10: A tenant with an active owner keeps one through every sequence of calls,
    whatever fails, as long as [SetOIDCMemberStatus] is not called. *)
Theorem pg_last_owner_kept s s' t : pg_reachable s → rtc member_call s s' →
  owner_in (pg_store s) t → owner_in (pg_store s') t.
Proof.
  intros Hs Hsteps. assert (sound (λ _, True) s) as Hsound by (by apply reachable_sound). clear Hs.
  induction Hsteps as [|s1 s2 s3 Hcall _ IH]; [done|]. intros Hown. apply IH.
  - eapply step_sound; [|by apply member_call_step|]; done.
  - destruct Hsound as (_ & Hd & Hi & _). by eapply member_call_owner.
Qed.

(** C11: Every call moves the rows of [upload_session] along the edges of the state
    machine of the sessions only: what was asked for and a digest once recorded stay,
    a terminal status stays, and no status goes back. *)
Theorem pg_session_lifecycle s s' k u : pg_reachable s → rtc pg_step s s' →
  db_upload_session (pg_store s) !! k = Some u →
  ∃ u', db_upload_session (pg_store s') !! k = Some u' ∧
    rtc row_edge (scanUpload (k, u)) (scanUpload (k, u')) ∧
    session_kept (scanUpload (k, u)) (scanUpload (k, u')).
Proof.
  intros Hs Hsteps Hu. destruct (steps_follow s s' k u Hsteps) as (u' & ? & ?); [by apply reachable_sound|done|].
  exists u'. split_and!; [done..|by apply row_edges_kept].
Qed.

(** The events of [d] are in [d'], and the other events of [d'] are later. *)
Definition audit_kept (d d' : DB) : Prop :=
  db_audit_event d ⊆ db_audit_event d' ∧ db_audit_sequence d ≤ db_audit_sequence d' ∧
  ∀ z, is_Some (db_audit_event d' !! z) → is_Some (db_audit_event d !! z) ∨ db_audit_sequence d < z.
Lemma write_audit_kept d0 k d d' : db_write k d d' → constraints d → audit_kept d0 d → audit_kept d0 d'.
Proof.
  intros Hw HC Hkept. destruct Hw; try done. destruct Hkept as (Hsub & Hseq & Hnew). split_and!.
  - etrans; [done|]. apply insert_subseteq. destruct (db_audit_event d !! sequence) as [f|] eqn:Hf; [|done].
    destruct (c_audit _ HC _ _ Hf) as (_ & ? & _). lia.
  - cbn. lia.
  - cbn. intros z Hz. destruct (decide (z = sequence)) as [->|Hne]; [right; lia|].
    rewrite lookup_insert_ne in Hz by done. auto.
Qed.
(** C16: Events of the audit trail are never changed or removed, and later ones come
    after them. *)
Theorem pg_audit_append_only s s' : pg_reachable s → rtc pg_step s s' → audit_kept (pg_store s) (pg_store s').
Proof.
  intros Hs Hsteps. assert (sound (audit_kept (pg_store s)) s) as Hsound.
  { destruct (reachable_sound (λ _, True) s Hs) as (? & ? & ? & _); [done|done|]. split_and!; [done..|].
    split_and!; [done|done|by left]. }
  assert (∀ d s1 s', rtc pg_step s1 s' → sound (audit_kept d) s1 → audit_kept d (pg_store s')) as Hgo.
  { clear. induction 1 as [s1|s1 s2 s3 Hstep _ IH]; [by intros (_ & _ & _ & ?)|]. intros. apply IH.
    eapply step_sound; [apply write_audit_kept|done|done]. }
  by apply (Hgo _ s).
Qed.

(** C14: A session that [ClaimUploadsForMaintenance] has given to an owner is given to
    no other by a claim made before the lease ends, whatever calls come between. *)
Theorem pg_leases_exclude s o now stale until limit l s1 s2 o2 now2 stale2 until2 limit2 l2 s3 c c2 :
  pg_reachable s → ClaimUploadsForMaintenance o now stale until limit s = (Ok l, s1) →
  rtc (early_call (pg_time until)) (rolled_back s1) s2 → pg_time now2 < pg_time until →
  ClaimUploadsForMaintenance o2 now2 stale2 until2 limit2 s2 = (Ok l2, s3) →
  c ∈ l → c2 ∈ l2 → claimed c ≠ claimed c2.
Proof.
  intros Hs Hclaim Hcalls Hlt Hclaim2 Hc Hc2 Heq.
  assert (sound (λ _, True) (rolled_back s1)) as Hsound.
  { eapply (step_sound _ s); [done| |by apply reachable_sound].
    replace s1 with (ClaimUploadsForMaintenance o now stale until limit s).2 by (by rewrite Hclaim).
    eapply (step_method _ _ s), call_ClaimUploads. }
  destruct s as [st w n]. pose proof (ClaimUploads_leases o now stale until limit st w n) as [_ Hl].
  rewrite Hclaim in Hl. destruct (Hl c Hc) as [_ Hheld].
  apply (early_calls_held _ _ _ _ Hcalls Hsound) in Hheld. destruct s2 as [st2 w2 n2].
  pose proof (ClaimUploads_leases o2 now2 stale2 until2 limit2 st2 w2 n2) as [_ Hl2].
  rewrite Hclaim2 in Hl2. destruct (Hl2 c2 Hc2) as [Hfree _]. rewrite Heq in Hheld. by eapply Hfree.
Qed.

(** C15: While a claim of a key lives, a request with another payload never gets the
    key, nor does another request before the lock of the claim ends; neither
    changes anything. *)
Theorem pg_claims_exclude r t p (k : string * string * string * string) row st w n :
  uuid_in (Identity_TenantID (IdempotencyRequest_Identity r)) = Some t →
  uuid_in (Identity_PrincipalID (IdempotencyRequest_Identity r)) = Some p →
  k = (t, p, IdempotencyRequest_Scope r, IdempotencyRequest_KeyHash r) →
  db_idempotency_record st !! k = Some row → IdempotencyRequest_Now r < ir_expires_at row →
  ir_request_digest row ≠ IdempotencyRequest_RequestDigest r ∨
    ir_state row = "pending" ∧ text_or_empty (ir_claim_token row) ≠ IdempotencyRequest_ClaimToken r ∧
    IdempotencyRequest_Now r < default 0 (ir_locked_until row) →
  (∀ record, (ClaimIdempotency r (mkPg st w n)).1 ≠ Ok record) ∧
  pg_store (ClaimIdempotency r (mkPg st w n)).2 = st.
Proof.
  intros Ht Hp -> Hrow Hexp Hheld.
  assert (okwp (λ d, d = st) (ClaimIdempotency r) (λ _ _ _, False) st w) as Hwp.
  { set (I := λ d, d = st). assert (I st) as HI by done. unfold ClaimIdempotency. do 2 okwp_step. intros _.
    unfold insert_claim, select_claim, idempotency_key. do 3 okwp_step. sql. simplify_eq.
    apply swp_insert_idempotency_if_new; [intros _ _|congruence]. do 2 okwp_step. sql; simplify_eq. intros _.
    unfold Before. cbn. rewrite (proj2 (Z.ltb_lt _ _) Hexp). cbn. okwp_step.
    destruct Hheld as [Hdigest|(Hpending & Htoken & Hlocked)].
    - rewrite bool_decide_eq_false_2 by done. by apply okwp_throw.
    - destruct (_ != _); [by apply okwp_throw|]. rewrite Hpending, (bool_decide_eq_false_2 _ Htoken).
      cbn. rewrite (proj2 (Z.ltb_lt _ _) Hlocked). by apply okwp_throw. }
  destruct (Hwp n) as [-> Hno]. split; [|done]. intros record Hok.
  destruct (ClaimIdempotency r _) as [o s'] eqn:E. simpl in Hok. by subst o.
Qed.

(** C13: Every call returns, a panic or an error at worst: no query of a call runs
    for ever. *)
Theorem pg_calls_end {A} (m : GoM Pg A) s : service_reachable s → (∃ ks, pg_method ks m) ∨ pg_read m →
  (m s).1 ≠ Diverged.
Proof. intros Hs%service_tree Hm. by apply call_returns. Qed.

(** [FinishUploadMaintenance] never succeeds, and changes nothing. *)
Theorem pg_finish_upload_maintenance_fails o id st cleanup retry code now s :
  (FinishUploadMaintenance o id st cleanup retry code now s).1 ≠ Ok tt ∧
  pg_store (FinishUploadMaintenance o id st cleanup retry code now s).2 = pg_store s.
Proof.
  destruct s as [db w n]. assert (okwp (λ d, d = db) (FinishUploadMaintenance o id st cleanup retry code now)
    (λ _ _ _, False) db w) as Hwp.
  { set (I := λ d, d = db). assert (I db) by done. unfold FinishUploadMaintenance. okwp_go. apply finish_upload_refused. }
  destruct (Hwp n) as [-> Hno]. split; [|done]. intros Hok.
  destruct (FinishUploadMaintenance _ _ _ _ _ _ _ _) as [r s'] eqn:E. simpl in Hok. by subst r.
Qed.
End with_engine.

(** ** Witnesses *)

(** Stored rows and results of the demo, computed. *)
Ltac computed := vm_compute; reflexivity.

Definition demo_calls : list Request :=
  [ (no_context, rnd 1, CallCreate (pg_mkdir docs1 root1 "docs" (us 101)));
    (no_context, rnd 2, CallCreate (pg_mkdir old1 docs1 "old" (us 102)));
    (no_context, rnd 3, CallUpdate (mkUpdateNodeCommand alice docs1 (Some "new") (Some "new") None 1 (us 103)));
    (no_context, rnd 4, CallRecycle alice docs1 2 (us 104));
    (no_context, rnd 5, CallRestore alice docs1 3 (us 105)) ].
Lemma pg_refines_memory_witness :
  ∃ l r', run_calls memory_run demo_calls (repo_of (pg_store pg_demo1)) = (Ok l, r') ∧ length l = 5%nat ∧
    same_namespace (pg_store (run_calls pg_run demo_calls pg_demo1).2) r'.
Proof.
  destruct (run_calls pg_run demo_calls pg_demo1) as [[l|e|p|] s'] eqn:E.
  - destruct (pg_refines_memory pg_demo1 (repo_of (pg_store pg_demo1)) demo_calls l s') as (r' & ? & ?);
      [apply pg_demo1_reachable|apply repo_of_namespace|exact E|].
    exists l, r'. split_and!; [done| |done]. apply (f_equal fst) in E. vm_compute in E. by injection E as <-.
  - apply (f_equal fst) in E. by vm_compute in E.
  - apply (f_equal fst) in E. by vm_compute in E.
  - apply (f_equal fst) in E. by vm_compute in E.
Defined.
Lemma pg_tree_invariant_witness : pg_tree (pg_store pg_demo8).
Proof. apply (pg_tree_invariant pg_demo8), pg_demo8_reachable. Defined.

(** An invitation that ends at 200 and is accepted at 300. *)
Definition invitation1 : string := "00000000-0000-4000-8000-000000000016".
Definition token1 : string := of_bytes (replicate 64 97).
Definition invited_demo : Pg := pg_after (CreateInvitation no_context (rnd 7) (mkCreateInvitationCommand
  invitation1 tenant1 owner1 RoleOwner "issuer" "guest" "Guest" RoleViewer token1 (us 200) (us 150))) pg_demo8.
Definition late_acceptance : AcceptInvitationCommand :=
  mkAcceptInvitationCommand token1 "00000000-0000-4000-8000-000000000017" "issuer" "guest" (us 300).
Lemma invited_demo_reachable : service_reachable invited_demo.
Proof. demo_step. apply pg_demo8_reachable. Qed.
(** A second directory of the same name is refused, and so is an acceptance past the
    end of the invitation, which becomes expired. *)
Lemma pg_failed_calls_witness :
  (let m := PgNamespace.CreateDirectory no_context (rnd 9) (pg_mkdir old1 root1 "docs" (us 110)) in
   pg_store (m pg_demo2).2 = pg_store pg_demo2 ∨ unclear pg_demo2 (m pg_demo2).2 ∨
   BlobNew ∈ [Nodes; Claims; AuditEvents] ∧ rtc (writes_of [Uploads]) (pg_store pg_demo2) (pg_store (m pg_demo2).2) ∨
   MemberNew ∈ [Nodes; Claims; AuditEvents] ∧ InvitationSet ∈ [Nodes; Claims; AuditEvents] ∧
     invitation_expired (pg_store pg_demo2) (pg_store (m pg_demo2).2)) ∧
  (let m := raised (AcceptInvitation no_context (rnd 9) late_acceptance) in
   (m invited_demo).1 = Err (E CodeInvalidState "invitation has expired") ∧
   invitation_expired (pg_store invited_demo) (pg_store (m invited_demo).2)).
Proof.
  split.
  - intros m. apply (pg_failed_calls_change_nothing _ m pg_demo2 (service_pg_reachable _ pg_demo2_reachable)
      (call_method _ _ (call_CreateDirectory _ _ _))).
    intros a s' E. apply (f_equal fst) in E. by vm_compute in E.
  - intros m. split; [by vm_compute|].
    destruct (pg_failed_calls_change_nothing _ m invited_demo (service_pg_reachable _ invited_demo_reachable)
      (call_accept _ _ _)) as [E|[(n & _ & [f Hf] & _)|[[Hin _]|(_ & _ & ?)]]]; [|exfalso..|done].
    + intros a s' E. apply (f_equal fst) in E. by vm_compute in E.
    + apply (f_equal (λ d, ti_status <$> db_tenant_invitation d !! invitation1)) in E. by vm_compute in E.
    + done.
    + revert Hin. by apply (bool_decide_unpack _).
Defined.

(** The editor manages what is below [docs]: an entry above the node grants it. *)
Lemma pg_access_decision_witness :
  pg_granted (pg_store pg_demo6) tenant1 editor1 old1 (capabilityLevel NodeCapabilityManageACL).
Proof.
  destruct (proj1 (pg_access_decision pg_demo6 (mkIdentity tenant1 editor1) old1 NodeCapabilityManageACL
    (new_directory tenant1 (Some docs1) "old" "old" (us 102)) (mk_tenant_member_row RoleEditor MemberStatusActive (us 103) (us 103))
    pg_demo6_reachable ltac:(done) ltac:(computed) ltac:(computed) ltac:(by eexists) ltac:(by eexists) ltac:(computed) ltac:(computed)
    ltac:(computed))) as [Hlevel|Hgranted].
  - computed.
  - by vm_compute in Hlevel.
  - exact Hgranted.
Defined.

(** The only owner is not demoted. *)
Definition demote_owner : UpdateMemberCommand :=
  mkUpdateMemberCommand tenant1 owner1 owner1 RoleOwner (Some RoleViewer) None (us 200).
Lemma pg_last_owner_kept_witness :
  owner_in (pg_store (pg_after (UpdateMember no_context (rnd 4) demote_owner) pg_demo6)) tenant1.
Proof.
  apply (pg_last_owner_kept pg_demo6); [apply service_pg_reachable, pg_demo6_reachable|apply rtc_once, call_update|].
  exists owner1, (mk_tenant_member_row RoleOwner MemberStatusActive (us 103) (us 103)). split; [computed|done].
Defined.

Lemma pg_session_lifecycle_witness : ∃ u u', db_upload_session (pg_store pg_demo8) !! upload1 = Some u ∧
  db_upload_session (pg_store (pg_after (MarkUploading alice upload1 (us 110)) pg_demo8)) !! upload1 = Some u' ∧
  session_kept (scanUpload (upload1, u)) (scanUpload (upload1, u')).
Proof.
  destruct (db_upload_session (pg_store pg_demo8) !! upload1) as [u|] eqn:Hu; [|by vm_compute in Hu].
  destruct (pg_session_lifecycle pg_demo8 (pg_after (MarkUploading alice upload1 (us 110)) pg_demo8) upload1 u)
    as (u' & Hu' & _ & Hkept);
    [apply service_pg_reachable, pg_demo8_reachable|eapply rtc_once, step_method, call_MarkUploading|done|].
  exists u, u'. exact (conj eq_refl (conj Hu' Hkept)).
Defined.
Lemma pg_audit_append_only_witness : audit_kept (pg_store pg_demo1) (pg_store pg_demo2).
Proof.
  apply (pg_audit_append_only pg_demo1); [apply service_pg_reachable, pg_demo1_reachable|].
  eapply rtc_once, step_method, call_CreateDirectory.
Defined.

(** The upload that ends first goes to one worker, the other to the next. *)
Definition worker1 : string := "00000000-0000-4000-8000-000000000021".
Definition worker2 : string := "00000000-0000-4000-8000-000000000022".
Definition claim1 : GoM Pg (list UploadMaintenanceClaim) :=
  ClaimUploadsForMaintenance worker1 (us 400) (us 0) (us 500) 1.
Definition claim2 : GoM Pg (list UploadMaintenanceClaim) :=
  ClaimUploadsForMaintenance worker2 (us 450) (us 0) (us 550) 10.
Lemma pg_leases_exclude_witness :
  ∃ c c2, (claim1 pg_demo8).1 = Ok [c] ∧ (claim2 (pg_after claim1 pg_demo8)).1 = Ok [c2] ∧ claimed c ≠ claimed c2.
Proof.
  destruct (claim1 pg_demo8) as [o s1] eqn:E1. destruct (claim2 (rolled_back s1)) as [o2 s3] eqn:E2.
  assert (∃ c, o = Ok [c]) as [c ->].
  { apply (f_equal fst) in E1. vm_compute in E1. rewrite <- E1. by eexists. }
  assert (∃ c2, o2 = Ok [c2]) as [c2 ->].
  { replace s1 with (claim1 pg_demo8).2 in E2 by (by rewrite E1). apply (f_equal fst) in E2. vm_compute in E2.
    rewrite <- E2. by eexists. }
  exists c, c2. unfold pg_after. rewrite E1. cbn. rewrite E2. split_and!; [done..|].
  eapply (pg_leases_exclude pg_demo8 worker1 (us 400) (us 0) (us 500) 1 [c] s1 (rolled_back s1) worker2 (us 450));
    [apply service_pg_reachable, pg_demo8_reachable|exact E1|done|done|exact E2|by left|by left].
Defined.

(** A claim of a key, and another request for it. *)
Definition hash64 : string := "0123456789abcdef0123456789abcdef0123456789abcdef0123456789abcdef".
Definition key_request (token : string) (now : Time) : IdempotencyRequest :=
  mkIdempotencyRequest alice IdempotencyCreateDirectory hash64 hash64 token (now + us 100) (now + us 1000) now.
Definition claimed_demo : Pg := pg_after (ClaimIdempotency (key_request file1 (us 200))) pg_demo8.
Lemma pg_claims_exclude_witness :
  pg_store (ClaimIdempotency (key_request blob1 (us 210)) claimed_demo).2 = pg_store claimed_demo.
Proof.
  destruct claimed_demo as [st w n] eqn:E. cbn [pg_store].
  apply (pg_claims_exclude (key_request blob1 (us 210)) tenant1 owner1 (tenant1, owner1, IdempotencyCreateDirectory, hash64)
    (mk_idempotency_row hash64 "pending" (Some file1) None (Some (us 300)) (us 1200) (us 200) (us 200)) st w n).
  - computed.
  - computed.
  - done.
  - replace st with (pg_store claimed_demo) by (by rewrite E). computed.
  - computed.
  - right. split_and!; [computed|by intros [=]|computed].
Defined.
Lemma pg_calls_end_witness : (AuthorizeNode (mkIdentity tenant1 editor1) old1 NodeCapabilityManageACL pg_demo6).1 ≠ Diverged.
Proof. apply (pg_calls_end _ pg_demo6); [apply pg_demo6_reachable|right; constructor]. Defined.
