(* ===== verification/PgOperations.v ===== *)
(** * The operation of the PostgreSQL schema: migrations and the catalog of blobs
    (src/internal/postgres/migrate.go, src/internal/recovery/postgres.go)

    The runner of the migrations works on a database of which it sees one table,
    [asteria_schema_migration]; what a script does to the rest [D] is the parameter
    [ScriptRunner]. It takes an advisory lock before it reads and keeps it to its
    end, so concurrent runs come one after the other: a run is one step. The catalog
    reads the tables of PgSchema.v for the recovery verifier. The last part is the
    export of the audit trail over the PostgreSQL repository. *)
From S2P Require Import Prelude Errors Logic GoLib Codecs Types Validation Ports Service Demo Paging Recovery RecoveryProperties.
From S2P Require Import PgCore PgSchema PgRepository PgIdempotency PgUploads PgGovernance PgGroups PgLogic PgWrites PgMethods PgConstraints.
From S2P Require Import PgTree PgRefinement PgInvariant PgAccess.
From S2P Require Import PgProperties.
From S2P Require MemoryStorage Auth WorldLogic ServiceGovernance ServerWire ServerAPI Server ServerProperties AuditProperties.

(** [asteria_schema_migration], keyed by [version]. *)
Record migration_row := mk_migration_row { sm_name : string; sm_applied_at : Time }.

(** ** The runner of the migrations *)

(** The effect of the text of a script, or its error. *)
Class ScriptRunner (D : Type) := run_script : string → D → PgErr + D.

(** An entry of the embedded directory. *)
Record DirEntry := mkDirEntry { de_Name : string; de_IsDir : bool; de_Contents : string }.

(** The database: [None] for a table that has not been created. *)
Record MigrationDB (D : Type) := mkMigrationDB { md_rest : D; md_table : option (gmap Z migration_row) }.
Arguments mkMigrationDB {D}.
Arguments md_rest {D}.
Arguments md_table {D}.
(** The connection: what is committed, what the open transaction sees, whether it
    holds the lock, the statements run. *)
Record Conn (D : Type) := mkConn {
  cn_store : MigrationDB D; cn_work : MigrationDB D; cn_locked : bool; cn_statements : nat
}.
Arguments mkConn {D}.
Arguments cn_store {D}.
Arguments cn_work {D}.
Arguments cn_locked {D}.
Arguments cn_statements {D}.

(** [strings.HasSuffix], and [strings.SplitN(s, "_", 2)[0]]. *)
Definition HasSuffix (s suffix : string) : bool :=
  let n := String.length s in let k := String.length suffix in
  (k <=? n)%nat && (String.substring (n - k) k s == suffix).
Definition before_underscore (s : string) : string :=
  match String.index 0 "_" s with Some i => String.substring 0 i s | None => s end.
Definition entry_less (x y : DirEntry) : bool := str_ltb (de_Name x) (de_Name y).
Definition is_script (e : DirEntry) : bool := negb (de_IsDir e) && HasSuffix (de_Name e) ".sql".
Definition entry_version (e : DirEntry) : option Z := ParseInt (before_underscore (de_Name e)).

Section migrate.
Context {D : Type} `{!ScriptRunner D} {env : PgEnv}.
Abbreviation M := (GoM (Conn D)) (only parsing).

(** [conn.Exec] and [conn.QueryRow] outside a transaction, and in one. *)
Definition conn_exec {A} (q : Stmt (MigrationDB D) A) : M (PgErr + A) := λ c,
  let n := cn_statements c in
  let after s := mkConn s (cn_work c) (cn_locked c) (S n) in
  let ran := match q n (cn_store c) with
             | Returns a s => (Ok (inr a), after s)
             | Fails e => (Ok (inl e), after (cn_store c))
             | Loops => (Diverged, after (cn_store c))
             end in
  match env_fault n with
  | Some f => (Ok (inl (PgFault f)), if env_applied n then ran.2 else after (cn_store c))
  | None => ran
  end.
Definition tx_exec {A} (q : Stmt (MigrationDB D) A) : M (PgErr + A) := λ c,
  let n := cn_statements c in
  let after w := mkConn (cn_store c) w (cn_locked c) (S n) in
  match env_fault n with
  | Some f => (Ok (inl (PgFault f)), after (cn_work c))
  | None => match q n (cn_work c) with
            | Returns a w => (Ok (inr a), after w)
            | Fails e => (Ok (inl e), after (cn_work c))
            | Loops => (Diverged, after (cn_work c))
            end
  end.
Definition conn_begin : M (PgErr + unit) := λ c,
  let n := cn_statements c in
  let after w := mkConn (cn_store c) w (cn_locked c) (S n) in
  match env_fault n with
  | Some f => (Ok (inl (PgFault f)), after (cn_work c))
  | None => (Ok (inr tt), after (cn_store c))
  end.
Definition conn_commit : M (PgErr + unit) := λ c,
  let n := cn_statements c in
  let after s := mkConn s (cn_work c) (cn_locked c) (S n) in
  match env_fault n with
  | Some f => (Ok (inl (PgFault f)), after (if env_applied n then cn_work c else cn_store c))
  | None => (Ok (inr tt), after (cn_work c))
  end.
Definition conn_rollback : M unit := λ c,
  (Ok tt, mkConn (cn_store c) (cn_store c) (cn_locked c) (S (cn_statements c))).

(** [if err != nil { return fmt.Errorf(message + ": %w", err) }]. *)
Definition wrapped {A} (message : string) (m : M (PgErr + A)) : M A :=
  r ← m;
  match r with
  | inl err => throw (WrapError message (as_cause err))
  | inr a => ret a
  end.

(** [pgx.Connect]; the deferred [conn.Close] ends the session and its locks. *)
Definition connect : M (PgErr + unit) := λ c,
  let n := cn_statements c in
  let opened := mkConn (cn_store c) (cn_store c) false (S n) in
  match env_fault n with Some f => (Ok (inl (PgFault f)), opened) | None => (Ok (inr tt), opened) end.
Definition close_after {A} (m : M A) : M A := λ c,
  let '(o, c') := m c in (o, mkConn (cn_store c') (cn_store c') false (cn_statements c')).

(** [pg_advisory_lock], and the deferred [pg_advisory_unlock], whose error is dropped. *)
Definition set_lock (b : bool) : M (PgErr + unit) := λ c,
  let n := cn_statements c in
  let after l := mkConn (cn_store c) (cn_work c) l (S n) in
  match env_fault n with
  | Some f => (Ok (inl (PgFault f)), after (if env_applied n then b else cn_locked c))
  | None => (Ok (inr tt), after b)
  end.
Definition unlock_after {A} (m : M A) : M A := λ c,
  let '(o, c') := m c in (o, (set_lock false c').2).

Definition create_table_statement : Stmt (MigrationDB D) unit :=
  s ← table_of;
  match md_table s with
  | Some _ => mret tt
  | None => PgCore.store (mkMigrationDB (md_rest s) (Some ∅))
  end.
Definition undefined_table : PgErr := PgFault (SQLState "42P01" "").
Definition applied_statement (version : Z) : Stmt (MigrationDB D) bool :=
  s ← table_of;
  match md_table s with
  | Some t => mret (has_key t version)
  | None => refuse undefined_table
  end.
Definition script_statement (contents : string) : Stmt (MigrationDB D) unit :=
  s ← table_of;
  match run_script contents (md_rest s) with
  | inl err => refuse err
  | inr d => PgCore.store (mkMigrationDB d (md_table s))
  end.
Definition record_statement (version : Z) (name : string) : Stmt (MigrationDB D) unit :=
  s ← table_of;
  n ← statement_number;
  match md_table s with
  | None => refuse undefined_table
  | Some t =>
    if has_key t version then refuse (unique_violation "asteria_schema_migration_pkey")
    else PgCore.store (mkMigrationDB (md_rest s)
           (Some (<[version := mk_migration_row name (pg_time (env_now n))]> t)))
  end.

(** The transaction of one script, and the body of the loop over the entries. *)
Definition apply_script (version : Z) (e : DirEntry) : M unit :=
  let name := de_Name e in
  _ ← wrapped ("begin migration " +:+ name) conn_begin;
  r ← tx_exec (script_statement (de_Contents e));
  r ← match r with
      | inl err => ret (inl err)
      | inr _ => tx_exec (record_statement version name)
      end;
  match r with
  | inl err => _ ← conn_rollback; throw (WrapError ("apply migration " +:+ name) (as_cause err))
  | inr _ => wrapped ("commit migration " +:+ name) conn_commit
  end.
Definition apply_entry (e : DirEntry) : M unit :=
  let name := de_Name e in
  if de_IsDir e || negb (HasSuffix name ".sql") then ret tt else
  match entry_version e with
  | None => throw (WrapError ("migration " +:+ name +:+ " has invalid version") (PlainError "strconv.ParseInt"))
  | Some version =>
    applied ← wrapped ("check migration " +:+ name) (conn_exec (applied_statement version));
    if applied : bool then ret tt else apply_script version e
  end.

Definition Migrate (files : list DirEntry) : M unit :=
  _ ← wrapped "connect for migration" connect;
  close_after (
    _ ← wrapped "acquire migration lock" (set_lock true);
    unlock_after (
      _ ← wrapped "create migration table" (conn_exec create_table_statement);
      for_range (sort_slice entry_less files) apply_entry)).
End migrate.

(** ** What a run leaves, whatever fails *)

Section migrated.
Context {D : Type} `{!ScriptRunner D}.
Implicit Types (s : MigrationDB D) (l : list DirEntry).

Definition recorded s : gmap Z migration_row := default ∅ (md_table s).
(** The scripts in the order of their names, and those of them not yet recorded. *)
Definition scripts (files : list DirEntry) : list DirEntry :=
  filter (λ e, is_script e = true) (sort_slice entry_less files).
Definition unrecorded s (e : DirEntry) : bool :=
  match entry_version e with Some v => negb (has_key (recorded s) v) | None => true end.
Definition to_run s l : list DirEntry := filter (λ e, is_script e && unrecorded s e = true) l.
Definition pending (files : list DirEntry) s : list DirEntry := to_run s (sort_slice entry_less files).
Definition well_named (files : list DirEntry) : Prop :=
  (∀ e, e ∈ scripts files → is_Some (entry_version e)) ∧ NoDup (entry_version <$> scripts files).
Fixpoint run_scripts l (d : D) : option D :=
  match l with
  | [] => Some d
  | e :: l => match run_script (de_Contents e) d with inl _ => None | inr d => run_scripts l d end
  end.

(** [s] is [s0] with the first [k] of the pending scripts applied and recorded. *)
Record migrated (files : list DirEntry) s0 (k : nat) s : Prop := {
  mi_rest : run_scripts (take k (pending files s0)) (md_rest s0) = Some (md_rest s);
  mi_kept : recorded s0 ⊆ recorded s;
  mi_new v : is_Some (recorded s !! v) ↔
    is_Some (recorded s0 !! v) ∨ Some v ∈ entry_version <$> take k (pending files s0);
  mi_named e v row : e ∈ take k (pending files s0) → entry_version e = Some v →
    recorded s !! v = Some row → sm_name row = de_Name e
}.

Lemma run_scripts_app l1 l2 d : run_scripts (l1 ++ l2) d = run_scripts l1 d ≫= run_scripts l2.
Proof. revert d. induction l1 as [|e l1 IH]; intros d; simpl; [done|]. by destruct (run_script _ d). Qed.

Section loop.
Context `{!PgEnv} (files : list DirEntry) (s0 : MigrationDB D) (Hnames : well_named files).
Abbreviation todo := (pending files s0).

Lemma pending_scripts : todo = filter (λ e, unrecorded s0 e = true) (scripts files).
Proof.
  unfold pending, to_run, scripts. rewrite list_filter_filter. apply list_filter_iff.
  intros e. rewrite andb_true_iff. tauto.
Qed.
Lemma pending_versions : NoDup (entry_version <$> todo).
Proof.
  rewrite pending_scripts. eapply sublist_NoDup; [apply Hnames|]. apply fmap_sublist, sublist_filter.
Qed.
Lemma pending_unrecorded e v : e ∈ todo → entry_version e = Some v → recorded s0 !! v = None.
Proof.
  rewrite pending_scripts. intros [Hu _]%list_elem_of_filter Hv. unfold unrecorded in Hu. rewrite Hv in Hu.
  apply has_key_false. by destruct (has_key _ _).
Qed.

(** The entry at hand, and its place among the pending ones. *)
Context (l1 : list DirEntry) (e : DirEntry) (l2 : list DirEntry).
Context (Hall : sort_slice entry_less files = l1 ++ e :: l2).

Lemma to_run_snoc : to_run s0 (l1 ++ [e]) = to_run s0 l1 ++ if is_script e && unrecorded s0 e then [e] else [].
Proof. unfold to_run. rewrite filter_app, filter_cons, filter_nil. case_decide as E; [by rewrite E|]. by destruct (_ && _). Qed.
Lemma pending_at : is_script e && unrecorded s0 e = true → todo !! length (to_run s0 l1) = Some e.
Proof.
  intros He. unfold pending. rewrite Hall. unfold to_run. rewrite filter_app, filter_cons.
  rewrite decide_True by done. by rewrite list_lookup_middle.
Qed.
Lemma script_version : is_script e = true → is_Some (entry_version e).
Proof.
  intros He. apply (proj1 Hnames). unfold scripts. rewrite Hall. apply list_elem_of_filter. split; [done|].
  apply elem_of_app. right. by left.
Qed.

(** Whether the version of the entry is recorded tells how far the database is. *)
Lemma entry_applied k s v : migrated files s0 k s → (length (to_run s0 l1) ≤ k)%nat → is_script e = true →
  entry_version e = Some v → is_Some (recorded s !! v) → (length (to_run s0 (l1 ++ [e])) ≤ k)%nat.
Proof.
  intros Hs Hk He Hv Hrec. rewrite to_run_snoc, He. simpl. unfold unrecorded. rewrite Hv.
  destruct (has_key (recorded s0) v) eqn:Hold; simpl; [by rewrite app_nil_r|].
  rewrite length_app. simpl. apply (mi_new _ _ _ _ Hs) in Hrec as [Hrec|Hnew].
  { apply has_key_true in Hrec. congruence. }
  assert (todo !! length (to_run s0 l1) = Some e) as Hat.
  { apply pending_at. unfold unrecorded. by rewrite He, Hv, Hold. }
  rewrite fmap_take in Hnew. apply elem_of_take in Hnew as (j & Hj & Hlt).
  assert (j = length (to_run s0 l1)) as ->; [|lia].
  eapply NoDup_lookup; [apply pending_versions|exact Hj|]. by rewrite list_lookup_fmap, Hat, <- Hv.
Qed.
Lemma entry_next k s v : migrated files s0 k s → (length (to_run s0 l1) ≤ k)%nat → is_script e = true →
  entry_version e = Some v → recorded s !! v = None → todo !! k = Some e ∧ k = length (to_run s0 l1).
Proof.
  intros Hs Hk He Hv Hnone.
  assert (recorded s0 !! v = None) as Hold.
  { destruct (recorded s0 !! v) as [row|] eqn:E; [|done]. by rewrite (lookup_weaken _ _ _ _ E (mi_kept _ _ _ _ Hs)) in Hnone. }
  assert (todo !! length (to_run s0 l1) = Some e) as Hat.
  { apply pending_at. unfold unrecorded. rewrite He, Hv. by apply has_key_false in Hold as ->. }
  assert (k ≤ length (to_run s0 l1))%nat as Hle; [|by replace k with (length (to_run s0 l1)) by lia].
  destruct (decide (k ≤ length (to_run s0 l1))%nat) as [|Hgt]; [done|]. exfalso.
  assert (is_Some (recorded s !! v)) as [? ?]; [|congruence]. apply (mi_new _ _ _ _ Hs). right.
  apply list_elem_of_fmap. exists e. split; [done|]. apply elem_of_take. eexists. split; [exact Hat|lia].
Qed.
End loop.

(** Applying and recording the next script. *)
Lemma migrated_next files s0 k s t e v d row : well_named files → migrated files s0 k s → pending files s0 !! k = Some e →
  entry_version e = Some v → md_table s = Some t → t !! v = None → run_script (de_Contents e) (md_rest s) = inr d →
  sm_name row = de_Name e → migrated files s0 (S k) (mkMigrationDB d (Some (<[v := row]> t))).
Proof.
  intros Hnames Hs He Hv Ht Hnone Hrun Hname. assert (recorded s = t) as Hrec by (unfold recorded; by rewrite Ht).
  pose proof Hs as [Hrest Hkept Hnew Hnamed]. rewrite Hrec in *.
  assert (pending files s0 !! k = Some e) as Htake by done. apply take_S_r in Htake. split; cbn [md_rest recorded md_table default].
  - rewrite Htake, run_scripts_app, Hrest. simpl. by rewrite Hrun.
  - change (recorded s0 ⊆ <[v := row]> t). etrans; [exact Hkept|by apply insert_subseteq].
  - intros w. change (is_Some (<[v := row]> t !! w) ↔ is_Some (recorded s0 !! w) ∨ Some w ∈ entry_version <$> take (S k) (pending files s0)). rewrite Htake, fmap_app, elem_of_app. simpl. rewrite list_elem_of_singleton, Hv.
    rewrite lookup_insert_is_Some'. rewrite Hnew. naive_solver.
  - intros e' w row' He' Hw Hrow. change (<[v := row]> t !! w = Some row') in Hrow. rewrite Htake in He'.
    destruct (decide (w = v)) as [->|Hne].
    + rewrite lookup_insert_eq in Hrow. injection Hrow as <-. apply elem_of_app in He' as [He'| ->%list_elem_of_singleton]; [|done].
      exfalso. assert (is_Some (t !! v)) as [? ?]; [|congruence]. apply Hnew. right. apply list_elem_of_fmap. by exists e'.
    + rewrite lookup_insert_ne in Hrow by done. apply elem_of_app in He' as [He'| ->%list_elem_of_singleton]; [by eapply Hnamed|].
      congruence.
Qed.
End migrated.

(** ** Rules for the statements of a run *)

Section rules.
Context {D : Type} `{!ScriptRunner D, !PgEnv}.
Implicit Types (c : Conn D).

Definition faulty : Prop := ∃ n, env_fault n ≠ None.
Lemma faulty_at n f : env_fault n = Some f → faulty.
Proof. intros E. exists n. by rewrite E. Qed.

Lemma wp_wrapped {A} message (m : GoM (Conn D) (PgErr + A)) Q c :
  wp m (λ o c', match o with
                | Ok (inl err) => Q (Err (WrapError message (as_cause err))) c'
                | Ok (inr a) => Q (Ok a) c'
                | Err err => Q (Err err) c' | Panicked p => Q (Panicked p) c' | Diverged => Q Diverged c'
                end) c → wp (wrapped message m) Q c.
Proof. unfold wp, wrapped, mbind, GoM_bind. by destruct (m c) as [[[]| | |] c']. Qed.

Lemma script_run contents n (s : MigrationDB D) : script_statement contents n s =
  match run_script contents (md_rest s) with
  | inl err => Fails err
  | inr d => Returns tt (mkMigrationDB d (md_table s))
  end.
Proof. unfold script_statement, mbind, Stmt_bind, table_of. by destruct (run_script _ _). Qed.
Lemma record_run version name n (s : MigrationDB D) t : md_table s = Some t → t !! version = None →
  record_statement version name n s =
  Returns tt (mkMigrationDB (md_rest s) (Some (<[version := mk_migration_row name (pg_time (env_now n))]> t))).
Proof.
  intros Ht Hnone%has_key_false. unfold record_statement, mbind, Stmt_bind, table_of, statement_number. by rewrite Ht, Hnone.
Qed.
Lemma wp_applied version t (Q : Outcome (PgErr + bool) → Conn D → Prop) c : md_table (cn_store c) = Some t →
  (∀ err c', faulty → cn_store c' = cn_store c → Q (Ok (inl err)) c') →
  (∀ c', cn_store c' = cn_store c → Q (Ok (inr (has_key t version))) c') →
  wp (conn_exec (applied_statement version)) Q c.
Proof.
  intros Ht Hf Hok. unfold wp, conn_exec, applied_statement, table_of, mbind, Stmt_bind. rewrite Ht.
  destruct (env_fault _) as [f|] eqn:E; [|by apply Hok]. apply Hf; [by eapply faulty_at|]. by destruct (env_applied _).
Qed.
Lemma wp_created (Q : Outcome (PgErr + unit) → Conn D → Prop) c :
  let s := mkMigrationDB (md_rest (cn_store c)) (Some (recorded (cn_store c))) in
  (∀ err c', faulty → cn_store c' = cn_store c ∨ cn_store c' = s → Q (Ok (inl err)) c') →
  (∀ c', cn_store c' = s → Q (Ok (inr tt)) c') →
  wp (conn_exec create_table_statement) Q c.
Proof.
  intros s Hf Hok. unfold wp, conn_exec, create_table_statement, table_of, mbind, Stmt_bind.
  destruct c as [[d t] w l n]. subst s. unfold recorded in *. simpl in *.
  destruct (env_fault n) as [f|] eqn:E, t as [t|]; simpl; try by apply Hok.
  - apply Hf; [by eapply faulty_at|]. destruct (env_applied n); auto.
  - apply Hf; [by eapply faulty_at|]. destruct (env_applied n); auto.
Qed.
Lemma wp_begin (Q : Outcome (PgErr + unit) → Conn D → Prop) c :
  (∀ err c', faulty → cn_store c' = cn_store c → Q (Ok (inl err)) c') →
  (∀ c', cn_store c' = cn_store c → cn_work c' = cn_store c → Q (Ok (inr tt)) c') → wp conn_begin Q c.
Proof.
  intros Hf Hok. unfold wp, conn_begin. destruct (env_fault _) as [f|] eqn:E; [|by apply Hok].
  apply Hf; [by eapply faulty_at|done].
Qed.
Lemma wp_tx_exec {A} (q : Stmt (MigrationDB D) A) (Q : Outcome (PgErr + A) → Conn D → Prop) c :
  (∀ err c', faulty ∨ q (cn_statements c) (cn_work c) = Fails err → cn_store c' = cn_store c → Q (Ok (inl err)) c') →
  (∀ a w c', q (cn_statements c) (cn_work c) = Returns a w → cn_store c' = cn_store c → cn_work c' = w →
    Q (Ok (inr a)) c') →
  q (cn_statements c) (cn_work c) ≠ Loops → wp (tx_exec q) Q c.
Proof.
  intros Hf Hok Hloops. unfold wp, tx_exec. destruct (env_fault _) as [f|] eqn:E.
  - apply Hf; [left; by eapply faulty_at|done].
  - destruct (q _ _) as [a w|err|]; [by eapply Hok|apply Hf; auto|done].
Qed.
Lemma wp_conn_commit (Q : Outcome (PgErr + unit) → Conn D → Prop) c :
  (∀ err c', faulty → cn_store c' = cn_store c ∨ cn_store c' = cn_work c → Q (Ok (inl err)) c') →
  (∀ c', cn_store c' = cn_work c → Q (Ok (inr tt)) c') → wp conn_commit Q c.
Proof.
  intros Hf Hok. unfold wp, conn_commit. destruct (env_fault _) as [f|] eqn:E; [|by apply Hok].
  apply Hf; [by eapply faulty_at|]. simpl. destruct (env_applied _); auto.
Qed.

(** Opening and closing, locking and unlocking leave the database alone. *)
Lemma wp_connect (Q : Outcome (PgErr + unit) → Conn D → Prop) c :
  (∀ err c', faulty → cn_store c' = cn_store c → cn_locked c' = false → Q (Ok (inl err)) c') →
  (∀ c', cn_store c' = cn_store c → Q (Ok (inr tt)) c') → wp connect Q c.
Proof.
  intros Hf Hok. unfold wp, connect. destruct (env_fault _) as [f|] eqn:E; [|by apply Hok].
  apply Hf; [by eapply faulty_at|done..].
Qed.
Lemma wp_lock b (Q : Outcome (PgErr + unit) → Conn D → Prop) c :
  (∀ err c', faulty → cn_store c' = cn_store c → Q (Ok (inl err)) c') →
  (∀ c', cn_store c' = cn_store c → Q (Ok (inr tt)) c') → wp (set_lock b) Q c.
Proof.
  intros Hf Hok. unfold wp, set_lock. destruct (env_fault _) as [f|] eqn:E; [|by apply Hok].
  apply Hf; [by eapply faulty_at|done..].
Qed.
Lemma wp_close_after {A} (m : GoM (Conn D) A) (I : Outcome A → MigrationDB D → Prop) c :
  wp m (λ o c', I o (cn_store c')) c → wp (close_after m) (λ o c', cn_locked c' = false ∧ I o (cn_store c')) c.
Proof. unfold wp, close_after. by destruct (m c). Qed.
Lemma wp_unlock_after {A} (m : GoM (Conn D) A) (I : Outcome A → MigrationDB D → Prop) c :
  wp m (λ o c', I o (cn_store c')) c → wp (unlock_after m) (λ o c', I o (cn_store c')) c.
Proof. unfold wp, unlock_after, set_lock. destruct (m c) as [o c']. by destruct (env_fault _). Qed.

(** ** One entry, and the loop *)

Context (files : list DirEntry) (s0 : MigrationDB D) (Hnames : well_named files).
Abbreviation todo := (pending files s0).
(** A run ends early only after a fault, or at a script the server refuses. *)
Definition excused : Prop := faulty ∨ run_scripts todo (md_rest s0) = None.

(** [k] scripts are applied, [n] of them at least if the code goes on. *)
Record advances (n k : nat) (o : Outcome unit) c : Prop := {
  ad_most : (k ≤ length todo)%nat;
  ad_state : migrated files s0 k (cn_store c);
  ad_table : is_Some (md_table (cn_store c));
  ad_ok : o = Ok tt ∧ (n ≤ k)%nat ∨ (∃ err, o = Err err) ∧ excused
}.

Lemma refused_script k s e err : migrated files s0 k s → todo !! k = Some e →
  run_script (de_Contents e) (md_rest s) = inl err → run_scripts todo (md_rest s0) = None.
Proof.
  intros Hs He Hrun. rewrite <- (take_drop k todo), run_scripts_app, (mi_rest _ _ _ _ Hs).
  rewrite (drop_S _ _ _ He). simpl. by rewrite Hrun.
Qed.

Lemma apply_script_advances n k c t e v : migrated files s0 k (cn_store c) → md_table (cn_store c) = Some t →
  t !! v = None → entry_version e = Some v → todo !! k = Some e → (n ≤ S k)%nat →
  wp (apply_script v e) (λ o c', ∃ k', advances n k' o c') c.
Proof.
  intros Hs Ht Hnone Hv Hat Hn. pose proof (lookup_lt_Some _ _ _ Hat) as Hmost.
  assert (∀ err c', excused → cn_store c' = cn_store c → ∃ k', advances n k' (Err err) c') as Hstop.
  { intros err c' Hex Hc. exists k. split; rewrite ?Hc; [lia|done|by exists t|]. right. eauto. }
  apply wp_bind, wp_wrapped, wp_begin; [intros err c' ??; apply Hstop; [by left|done]|].
  intros c2 Hc2 Hw2. cbn [bind_post]. apply wp_bind, wp_tx_exec; rewrite ?script_run, ?Hw2.
  - intros err c' Hbad Hc. cbn [bind_post]. apply wp_bind, wp_ret. cbn [bind_post]. apply wp_bind. unfold wp at 1. cbn. apply Hstop; [|cbn; congruence].
    destruct Hbad as [?|Hbad]; [by left|right]. destruct (run_script _ _) eqn:Hrun; [by eapply refused_script|done].
  - intros [] w c3 Hran Hc3 Hw3. cbn [bind_post]. destruct (run_script _ _) as [err|d] eqn:Hrun; [done|].
    injection Hran as <-.
    pose proof (record_run v (de_Name e) (cn_statements c3) (cn_work c3) t ltac:(by rewrite Hw3) Hnone) as Hrec.
    apply wp_bind, wp_tx_exec; rewrite Hrec; [| |done].
    + intros err c' [Hf|[=]] Hc. cbn [bind_post]. apply wp_bind. unfold wp at 1. cbn. apply Hstop; [by left|cbn; congruence].
    + intros [] w c4 [= <-] Hc4 Hw4. cbn [bind_post].
      eassert (migrated files s0 (S k) (cn_work c4)) as Hnext.
      { rewrite Hw4, Hw3. by eapply migrated_next. }
      apply wp_wrapped, wp_conn_commit.
      * intros err c5 Hf [Hc5|Hc5]; [apply Hstop; [by left|congruence]|].
        exists (S k). split; rewrite ?Hc5, ?Hw4; [lia|by rewrite <- Hw4|by eexists|]. right. split; [by eexists|by left].
      * intros c5 Hc5. exists (S k). split; rewrite ?Hc5, ?Hw4; [lia|by rewrite <- Hw4|by eexists|]. by left.
  - by destruct (run_script _ _).
Qed.

Lemma apply_entry_advances l1 e l2 k c : sort_slice entry_less files = l1 ++ e :: l2 → (k ≤ length todo)%nat →
  migrated files s0 k (cn_store c) → is_Some (md_table (cn_store c)) → (length (to_run s0 l1) ≤ k)%nat →
  wp (apply_entry e) (λ o c', ∃ k', advances (length (to_run s0 (l1 ++ [e]))) k' o c') c.
Proof.
  intros Hall Hmost Hs [t Ht] Hk. unfold apply_entry.
  assert (is_script e = negb (de_IsDir e || negb (HasSuffix (de_Name e) ".sql"))) as Hscript.
  { unfold is_script. by destruct (de_IsDir e), (HasSuffix _ _). }
  assert (∀ o c', cn_store c' = cn_store c → o = Ok tt ∧ (length (to_run s0 (l1 ++ [e])) ≤ k)%nat ∨
    (∃ err, o = Err err) ∧ excused → ∃ k', advances (length (to_run s0 (l1 ++ [e]))) k' o c') as Hstay.
  { intros o c' Hc Ho. exists k. split; rewrite ?Hc; [done|done|by exists t|done]. }
  destruct (_ || _).
  { apply wp_ret, Hstay; [done|left]. split; [done|]. rewrite to_run_snoc, Hscript. simpl. by rewrite app_nil_r. }
  destruct (script_version files Hnames l1 e l2 Hall Hscript) as [v Hv]. rewrite Hv.
  assert (recorded (cn_store c) = t) as Hrec by (unfold recorded; by rewrite Ht).
  apply wp_bind, wp_wrapped, (wp_applied v t); [done|intros err c' ??; apply Hstay; [done|right; split; [by eexists|by left]]|].
  intros c1 Hc1. cbn [bind_post]. destruct (has_key t v) eqn:Happlied.
  { apply wp_ret, Hstay; [done|left]. split; [done|].
    eapply (entry_applied files s0 Hnames l1 e l2 Hall); [done|done|done|done|]. rewrite Hrec. by apply has_key_true. }
  apply has_key_false in Happlied.
  destruct (entry_next files s0 l1 e l2 Hall k _ v Hs Hk Hscript Hv) as [Hat Hkeq]; [by rewrite Hrec|].
  eapply apply_script_advances; rewrite ?Hc1; [done|done|done|done|done|].
  rewrite to_run_snoc, length_app. destruct (_ && _); simpl; lia.
Qed.

Lemma loop_advances l1 l2 k c : sort_slice entry_less files = l1 ++ l2 → (k ≤ length todo)%nat →
  migrated files s0 k (cn_store c) → is_Some (md_table (cn_store c)) → (length (to_run s0 l1) ≤ k)%nat →
  wp (for_range l2 apply_entry) (λ o c', ∃ k', advances (length todo) k' o c') c.
Proof.
  revert l1 k c. induction l2 as [|e l2 IH]; intros l1 k c Hall Hmost Hs Ht Hk; simpl.
  - apply wp_ret. exists k. split; [done..|]. left. split; [done|]. unfold pending. by rewrite Hall, app_nil_r.
  - apply wp_bind. eapply wp_mono; [by eapply apply_entry_advances|].
    intros o c' (k' & [Hmost' Hs' Ht' [[-> Hk']|[[err ->] Hex]]]); cbn [bind_post].
    + apply (IH (l1 ++ [e]) k'); [by rewrite <- app_assoc|done..].
    + exists k'. split; [done..|]. right. eauto.
Qed.

(** ** A run *)

Lemma migrated_start : migrated files s0 0 s0.
Proof. split; rewrite ?take_0; simpl; [done|done|set_solver|set_solver]. Qed.
Lemma migrated_created k s : migrated files s0 k s → migrated files s0 k (mkMigrationDB (md_rest s) (Some (recorded s))).
Proof. by intros [????]; split. Qed.

(** What a run makes of the database. *)
Definition ends_at (o : Outcome unit) (s : MigrationDB D) : Prop :=
  ∃ k, (k ≤ length todo)%nat ∧ migrated files s0 k s ∧
    (o = Ok tt ∧ k = length todo ∨ (∃ err, o = Err err) ∧ excused).
Lemma Migrate_ends k s n : (k ≤ length todo)%nat → migrated files s0 k s →
  wp (Migrate files) (λ o c', cn_locked c' = false ∧ ends_at o (cn_store c')) (mkConn s s false n).
Proof.
  intros Hmost Hs.
  assert (∀ err s', faulty → migrated files s0 k s' → ends_at (Err err) s') as Hstop.
  { intros err s' ??. exists k. split_and!; [done..|]. right. split; [by eexists|by left]. }
  unfold Migrate. apply wp_bind, wp_wrapped, wp_connect; cbn [cn_store].
  { intros err c' ? Hc Hl. cbn [bind_post]. rewrite Hc, Hl. split; [done|by apply Hstop]. }
  intros c1 Hc1. cbn [bind_post]. apply wp_close_after, wp_bind, wp_wrapped, wp_lock; rewrite Hc1.
  { intros err c' ? Hc. cbn [bind_post]. rewrite Hc. by apply Hstop. }
  intros c2 Hc2. cbn [bind_post]. apply wp_unlock_after, wp_bind, wp_wrapped, wp_created; rewrite Hc2.
  - intros err c' Hf Hc. cbn [bind_post]. destruct Hc as [-> | ->]; [by apply Hstop|by apply Hstop, migrated_created].
  - intros c' Hc. cbn [bind_post]. eapply wp_mono.
    + apply (loop_advances [] _ k); rewrite ?Hc; [done|done|by apply migrated_created|by eexists|simpl; lia].
    + intros o c3 (k' & [H1 H2 _ H3]). exists k'. split_and!; [done..|].
      destruct H3 as [[-> ?]|?]; [left; split; [done|lia]|by right].
Qed.
End rules.

(** ** The catalog of the recovery verifier *)

(** The pool of a catalog: the database, and the statements run. *)
Record PostgresCatalog := mkPostgresCatalog {
  pc_db : DB; pc_migrations : gmap Z migration_row; pc_statements : nat
}.

Section catalog.
Context `{!PgEngine, !PgEnv}.

(** A query of the pool; the catalog runs nothing that writes. *)
Definition catalog_query {A} (q : Stmt PostgresCatalog A) : GoM PostgresCatalog (PgErr + A) := λ c,
  let n := pc_statements c in
  let o := match env_fault n with
           | Some f => Ok (inl (PgFault f))
           | None => match q n c with
                     | Returns a _ => Ok (inr a)
                     | Fails e => Ok (inl e)
                     | Loops => Diverged
                     end
           end in
  (o, mkPostgresCatalog (pc_db c) (pc_migrations c) (S n)).

(** [COALESCE(MAX(version),0)]. *)
Definition highest_version (t : gmap Z migration_row) : Z :=
  match (map_to_list t).*1 with [] => 0 | v :: l => foldr Z.max v l end.
Definition catalog_version : GoM PostgresCatalog Z :=
  r ← catalog_query (c ← table_of; mret (highest_version (pc_migrations c)));
  match r with
  | inl err => throw (WrapError "read schema version" (as_cause err))
  | inr version => ret version
  end.

(** [ORDER BY tenant_id,id], and the rows after a cursor. *)
Definition blob_place (kv : string * blob_row) : string * string := (blob_tenant_id kv.2, kv.1).
Definition place_lt : string * string → string * string → bool := lex str_ltb str_ltb.
Definition blob_before (x y : string * blob_row) : bool := place_lt (blob_place x) (blob_place y).
(** [$1='' OR (tenant_id,id) > (NULLIF($1,'')::uuid,$2::uuid)]. *)
Definition place_after (tenant id : option string) (p : string * string) : bool :=
  match tenant with
  | None => true
  | Some t => if p.1 == t then match id with Some i => str_ltb i p.2 | None => false end else str_ltb t p.1
  end.
Definition blobs_statement (tenant : string) (id : option string) (limit : Z)
    : Stmt PostgresCatalog (list (string * blob_row)) :=
  t ← uuid_null tenant;
  c ← table_of;
  limit_rows limit (sort_slice blob_before (rows_where (db_blob (pc_db c))
    (λ k b, (blob_status b == "available") && place_after t id (blob_tenant_id b, k)))).
Definition scanBlobRecord (kv : string * blob_row) : BlobRecord :=
  let '(id, b) := kv in
  mkBlobRecord id (blob_tenant_id b) (blob_bucket b) (blob_object_key b) (blob_size_bytes b)
    (mkChecksum (blob_checksum_algorithm b) (blob_checksum_value b)) (blob_checksum_status b).

(** The driver sends the statement with its parameters, and then reads the rows. *)
Definition catalog_blobs (after : BlobCursor) (limit : Z) : GoM PostgresCatalog (list BlobRecord) :=
  sent ← catalog_query (uuid_null (BlobCursor_BlobID after));
  match sent with
  | inl err => throw (WrapError "list available blobs" (as_cause err))
  | inr id =>
    _ ← make_slice limit;
    rows ← catalog_query (blobs_statement (BlobCursor_TenantID after) id limit);
    match rows with
    | inl err => throw (WrapError "iterate available blobs" (as_cause err))
    | inr rows => ret (scanBlobRecord <$> rows)
    end
  end.
#[export] Instance postgres_catalog : Catalog PostgresCatalog := {|
  SchemaVersion := catalog_version; ListAvailableBlobs := catalog_blobs
|}.
End catalog.

(** ** The rows of [blob] have identifiers in their standard form *)

Section blob_keys.
Context `{!Platform, !MapRange, !PgEngine, !PgEngineLaws _, !PgEnv, !MetadataJSON}.

Definition blob_ids (d : DB) : Prop :=
  ∀ k b, db_blob d !! k = Some b → canonical k ∧ canonical (blob_tenant_id b).

Lemma write_blob_ids k d d' : db_write k d d' → k ≠ BlobNew → blob_ids d → blob_ids d'.
Proof.
  intros Hw Hk Hd. destruct Hw; try done. intros j b' Hb'. cbn in Hb'. rewrite lookup_update_where in Hb'.
  destruct (db_blob d !! j) as [b|] eqn:Hb; [|done]. simpl in Hb'. destruct (Hd _ _ Hb) as [? ?].
  destruct (p j b); simplify_eq; [|done]. split; [done|].
  match goal with H : ∀ k b, same_blob b _ |- _ => by destruct (H j b) as [-> _] end.
Qed.
Lemma insert_commit_blob_ids blob : skeeps blob_ids (insert_commit_blob blob).
Proof.
  intros n d Hd. unfold insert_commit_blob.
  apply swp_bind, swp_uuid. intros i Hi. apply swp_bind, swp_uuid. intros t Ht.
  apply swp_insert_blob. intros d' _ k b Hb. destruct (decide (k = i)) as [->|Hne].
  - cbn in Hb. rewrite lookup_insert_eq in Hb. simplify_eq. split; by eapply canonical_in.
  - cbn in Hb. rewrite lookup_insert_ne in Hb by done. by apply (Hd k).
Qed.
(** [CommitUpload], the only method that inserts a blob, keeps its identifier canonical. *)
Lemma CommitUpload_blob_ids ctx b c : pkeeps blob_ids (PgUploads.CommitUpload ctx b c).
Proof.
  pg_unfold. pkeeps_go.
  all: lazymatch goal with |- skeeps _ (insert_commit_blob _) => apply insert_commit_blob_ids 
    | |- _ => intros m db Hdb; unfold lockActiveDirectory, audit_statement, select_upload, update_session,
        insert_commit_version, insert_commit_node; sql_writes end.
  all: try done; try (by eapply write_blob_ids).
Qed.
Lemma reachable_blob_ids s : pg_reachable s → blob_ids (pg_store s).
Proof.
  apply (reachable_kept blob_ids BlobNew); [done|by apply write_blob_ids|]. intros A ks m Hm Hks.
  destruct Hm; try (exfalso; revert Hks; by apply (bool_decide_unpack _)). apply CommitUpload_blob_ids.
Qed.
End blob_keys.

(** ** What the catalog lists *)

Section catalog_lists.
Context `{!PgEngine, !PgEngineLaws _, !PgEnv}.

Definition available_rows (d : DB) : list (string * blob_row) :=
  sort_slice blob_before (rows_where (db_blob d) (λ _ b, blob_status b == "available")).
Definition available_blobs (d : DB) : list BlobRecord := scanBlobRecord <$> available_rows d.

Lemma place_lt_key x y : place_lt x y = key_less x y.
Proof.
  unfold place_lt, lex, key_less. case_bool_decide as E; simpl; [|by rewrite orb_false_r].
  by rewrite E, str_ltb_irrefl.
Qed.
#[local] Instance blob_before_swo : StrictWeakOrder blob_before.
Proof.
  apply (swo_by_key blob_place place_lt). split; intros *; rewrite !place_lt_key; [apply less_asym|apply less_negtrans].
Qed.
Lemma rows_discrete t p : discrete blob_before (rows_where t p).
Proof.
  intros [k b] [k' b'] [Hb _]%elem_of_rows_where [Hb' _]%elem_of_rows_where. unfold blob_before.
  rewrite !place_lt_key. intros H1 H2. pose proof (key_less_tricho _ _ H1 H2) as [= _ ->]. by simplify_eq.
Qed.

Context (db : DB) (Hids : blob_ids db).

Lemma elem_of_available id b : (id, b) ∈ available_rows db ↔ db_blob db !! id = Some b ∧ blob_status b = "available".
Proof. unfold available_rows. rewrite elem_of_sort_slice, elem_of_rows_where, bool_decide_eq_true. done. Qed.
Lemma scan_place kv : blob_key (scanBlobRecord kv) = blob_place kv.
Proof. by destruct kv. Qed.
Lemma available_sorted : StronglySorted (λ x y, key_less (blob_key x) (blob_key y) = true) (available_blobs db).
Proof.
  assert (StronglySorted (λ x y, blob_before x y = true) (available_rows db)) as Hs.
  { apply strictly_sorted; [apply sort_slice_sorted; apply _| |].
    - intros x y. unfold available_rows. rewrite !elem_of_sort_slice. apply rows_discrete.
    - unfold available_rows. rewrite sort_slice_perm. eapply NoDup_fmap_1, NoDup_rows_where. }
  unfold available_blobs. induction Hs as [|kv l Hl IH Hkv]; simpl; constructor; [done|].
  apply Forall_fmap. eapply Forall_impl; [exact Hkv|]. intros y Hy. simpl. rewrite !scan_place.
  by rewrite <- place_lt_key.
Qed.
Lemma available_canonical kv : kv ∈ available_rows db → canonical kv.1 ∧ canonical (blob_tenant_id kv.2).
Proof. destruct kv as [k b]. intros [Hb _]%elem_of_available. by apply Hids. Qed.
Lemma str_ltb_empty s : s ≠ "" → str_ltb "" s = true.
Proof. by destruct s. Qed.

(** The condition of the statement selects what comes after the cursor. *)
Lemma place_after_cursor cursor t i kv : kv ∈ available_rows db →
  cursor = mkBlobCursor "" "" ∧ t = None ∨
  BlobCursor_TenantID cursor ≠ "" ∧ t = Some (BlobCursor_TenantID cursor) ∧ i = Some (BlobCursor_BlobID cursor) →
  place_after t i (blob_place kv) = true ↔ after_cursor cursor (scanBlobRecord kv).
Proof.
  intros [Hk Ht]%available_canonical Hcursor. unfold after_cursor. rewrite scan_place.
  destruct Hcursor as [[-> ->]|(Hne & -> & ->)]; simpl.
  - split; [|done]. intros _. apply key_less_spec. left. by apply str_ltb_empty, canonical_nonempty.
  - rewrite <- place_lt_key. unfold place_lt, lex. simpl.
    destruct (decide (blob_tenant_id kv.2 = BlobCursor_TenantID cursor)) as [->|Hdiff];
      [by rewrite bool_decide_eq_true_2|by rewrite !bool_decide_eq_false_2].
Qed.

Lemma scan_page (P : string * blob_row → bool) (Q : BlobRecord → Prop) `{!∀ x, Decision (Q x)} n :
  (∀ kv, kv ∈ available_rows db → P kv = true ↔ Q (scanBlobRecord kv)) →
  scanBlobRecord <$> take n (sort_slice blob_before (rows_where (db_blob db)
    (λ k b, (blob_status b == "available") && P (k, b)))) = take n (filter Q (available_blobs db)).
Proof.
  intros HPQ. rewrite fmap_take. f_equal.
  assert (rows_where (db_blob db) (λ k b, (blob_status b == "available") && P (k, b)) =
    filter (λ kv, P kv = true) (rows_where (db_blob db) (λ _ b, blob_status b == "available"))) as ->.
  { unfold rows_where. rewrite list_filter_filter. apply list_filter_iff. intros [k b]. simpl.
    rewrite andb_true_iff. tauto. }
  rewrite filter_sort_slice; [|apply _|apply rows_discrete]. unfold available_blobs. fold (available_rows db).
  revert HPQ. induction (available_rows db) as [|kv l IH]; intros HPQ; [done|]. rewrite fmap_cons, !filter_cons.
  assert (P kv = true ↔ Q (scanBlobRecord kv)) as Hkv by (apply HPQ; by left).
  specialize (IH ltac:(intros y Hy; apply HPQ; by right)).
  do 2 case_decide; try tauto. rewrite fmap_cons. by f_equal.
Qed.

Lemma uuid_null_canonical {D} u k (d : D) : canonical u → uuid_null u k d = Returns (Some u) d.
Proof.
  intros Hu. unfold uuid_null. rewrite bool_decide_eq_false_2 by by apply canonical_nonempty.
  unfold uuid, mbind, Stmt_bind. by rewrite Hu.
Qed.
(** The parameters of the statement, for the cursors of a verification. *)
Lemma cursor_parameters cursor : cursor ∈ mkBlobCursor "" "" :: (blob_cursor <$> available_blobs db) →
  ∃ t i, (∀ k (c : PostgresCatalog), uuid_null (BlobCursor_BlobID cursor) k c = Returns i c) ∧
    (∀ k (c : PostgresCatalog), uuid_null (BlobCursor_TenantID cursor) k c = Returns t c) ∧
    ∀ kv, kv ∈ available_rows db → place_after t i (blob_place kv) = true ↔ after_cursor cursor (scanBlobRecord kv).
Proof.
  intros [->|(b & -> & Hb)%list_elem_of_fmap]%elem_of_cons.
  - exists None, None. split_and!; [done..|]. intros kv Hkv. apply place_after_cursor; auto.
  - apply list_elem_of_fmap in Hb as ([k b'] & -> & Hkv). destruct (available_canonical _ Hkv) as [Hk Ht].
    exists (Some (blob_tenant_id b')), (Some k).
    split_and!; [intros; by apply uuid_null_canonical..|]. intros kv' Hkv'. apply place_after_cursor; [done|].
    right. split_and!; [by apply canonical_nonempty|done..].
Qed.

Definition reads_from (mg : gmap Z migration_row) (c : PostgresCatalog) : Prop := pc_db c = db ∧ pc_migrations c = mg.
Lemma postgres_lists mg : (∀ n, env_fault n = None) → lists (reads_from mg) (highest_version mg) (available_blobs db).
Proof.
  intros Hquiet. split.
  - apply available_sorted.
  - intros b (kv & -> & Hkv)%list_elem_of_fmap. rewrite scan_place. apply key_less_spec. left.
    by apply str_ltb_empty, canonical_nonempty, available_canonical.
  - intros c [Hdb <-]. simpl. unfold catalog_version, mbind, GoM_bind, catalog_query. rewrite Hquiet. by eexists.
  - intros c cursor n [Hdb <-] Hn Hcursor.
    exists (mkPostgresCatalog (pc_db c) (pc_migrations c) (S (S (pc_statements c)))). split; [|by split]. cbn.
    destruct (cursor_parameters _ Hcursor) as (t & i & Hi & Ht & Hafter).
    unfold catalog_blobs, mbind at 1, GoM_bind at 1, catalog_query at 1. rewrite Hquiet, Hi.
    unfold mbind at 1, GoM_bind at 1, make_slice. replace (n <? 0) with false by lia. cbn [ret].
    unfold mbind, GoM_bind, catalog_query. rewrite Hquiet. cbn. unfold blobs_statement, mbind, Stmt_bind. rewrite Ht.
    unfold table_of, limit_rows. replace (n <? 0) with false by lia. cbn. rewrite Hdb.
    by rewrite (scan_page (λ kv, place_after t i (blob_place kv)) (after_cursor cursor) _ Hafter).
Qed.
End catalog_lists.

(** ** Theorems *)

(** A run from a database leaves another one, whatever its environment. *)
Definition migrate_run {D} `{!ScriptRunner D} (files : list DirEntry) (s s' : MigrationDB D) : Prop :=
  ∃ (env : PgEnv) n, cn_store (Migrate files (mkConn s s false n)).2 = s'.

Lemma runs_migrated {D} `{!ScriptRunner D} files (s0 s : MigrationDB D) : well_named files →
  rtc (migrate_run files) s0 s → ∃ k, (k ≤ length (pending files s0))%nat ∧ migrated files s0 k s.
Proof.
  intros Hnames. apply (rtc_ind_r (λ s, ∃ k, (k ≤ length (pending files s0))%nat ∧ migrated files s0 k s)).
  - exists 0%nat. split; [lia|by apply migrated_start].
  - intros s1 s2 _ (env & n & <-) (k & Hk & Hs).
    destruct (Migrate_ends files s0 Hnames k s1 n Hk Hs) as [_ (k' & ? & ? & _)]. by exists k'.
Qed.

(** C18: However often the migrations have been run, and whatever failed, the database
    is the one before with the first of its pending scripts applied in the order of
    their names, each once and recorded under its version and name. Another run ends
    with the lock released and again in such a state, with every script applied when
    it succeeds; and it succeeds when nothing fails and the server takes the scripts. *)
Theorem migrations_converge {D} `{!ScriptRunner D} files (s0 s : MigrationDB D) `{env : !PgEnv} n :
  well_named files → rtc (migrate_run files) s0 s →
  let todo := pending files s0 in
  let '(o, c) := Migrate files (mkConn s s false n) in
  (∃ k, (k ≤ length todo)%nat ∧ migrated files s0 k s) ∧ cn_locked c = false ∧
  (∃ k, (k ≤ length todo)%nat ∧ migrated files s0 k (cn_store c)) ∧
  (o = Ok tt → migrated files s0 (length todo) (cn_store c)) ∧
  ((∀ n, env_fault n = None) → is_Some (run_scripts todo (md_rest s0)) → o = Ok tt).
Proof.
  intros Hnames Hruns todo. destruct (runs_migrated files s0 s Hnames Hruns) as (k & Hk & Hs).
  pose proof (Migrate_ends files s0 Hnames k s n Hk Hs) as Hends. unfold wp in Hends.
  destruct (Migrate files _) as [o c]. cbn [fst snd] in Hends. destruct Hends as [Hlock (k' & Hk' & Hs' & Ho)].
  split_and!; [by exists k|done|by exists k'| |].
  - intros ->. destruct Ho as [[_ ->]|[[? [=]] _]]. exact Hs'.
  - intros Hquiet [d Hd]. destruct Ho as [[-> _]|[_ [[m Hm]|Hrefused]]]; [done|by destruct Hm|].
    subst todo. congruence.
Qed.

(** The object of a blob is in the store as the row says. *)
Definition intact {T} `{!StorageProvider T, !ReadOnlyStore T} (s : T) (b : blob_row) : Prop :=
  let checksum := mkChecksum (blob_checksum_algorithm b) (blob_checksum_value b) in
  blob_bucket b = S_Bucket s ∧
  ∃ o, stat_answer s (blob_object_key b) = inr o ∧ ObjectInfo_Size o = blob_size_bytes b ∧
    (blob_checksum_status b = ChecksumVerified → blob_checksum_algorithm b ≠ "" →
      ObjectInfo_ChecksumStatus o = ChecksumVerified ∧ ObjectInfo_Checksum o = checksum) ∧
    (blob_checksum_status b = ChecksumDeclared → ObjectInfo_ChecksumStatus o = ChecksumVerified →
      ObjectInfo_Checksum o = checksum).

Lemma finding_intact {T} `{!StorageProvider T, !ReadOnlyStore T} (s : T) id b :
  blob_finding s (scanBlobRecord (id, b)) = None ↔ intact s b.
Proof.
  unfold blob_finding, intact. cbn [scanBlobRecord BlobRecord_Bucket BlobRecord_ObjectKey].
  case_bool_decide as Hbucket; cbn [negb]; [|naive_solver]. rewrite fmap_None. unfold stat_code.
  destruct (stat_answer s _) as [err|o]; [naive_solver|]. unfold object_code.
  cbn [BlobRecord_Size BlobRecord_ChecksumStatus BlobRecord_Checksum Checksum_Algorithm].
  repeat case_bool_decide; cbn; naive_solver.
Qed.

Section recovery.
Context {T : Type} `{!Platform, !MapRange, !PgEngine, !PgEngineLaws _, !MetadataJSON}.
Context `{!Runtime, !StorageProvider T, !ReadOnlyStore T, !Schedule}.

(** The blobs of a database that are to be in the store. *)
Definition available (d : DB) (id : string) (b : blob_row) : Prop :=
  db_blob d !! id = Some b ∧ blob_status b = "available".
Definition available_count (d : DB) : nat := length (rows_where (db_blob d) (λ _ b, blob_status b == "available")).

Lemma length_available d : length (available_blobs d) = available_count d.
Proof. unfold available_blobs, available_rows, available_count. by rewrite length_fmap, length_sort_slice. Qed.
Lemma elem_of_all_findings (s : T) d f : f ∈ omap (blob_finding s) (available_blobs d) ↔
  ∃ id b, available d id b ∧ blob_finding s (scanBlobRecord (id, b)) = Some f.
Proof.
  rewrite list_elem_of_omap. unfold available_blobs, available. split.
  - intros (item & ([id b] & -> & Hin%elem_of_available)%list_elem_of_fmap & Hf). by exists id, b.
  - intros (id & b & Hb & Hf). eexists. split; [|exact Hf]. apply list_elem_of_fmap. eexists. split; [done|].
    by apply elem_of_available.
Qed.

(** C17: A verification of the blobs of a PostgreSQL database, reached by any calls of
    the repository, against a store checks every available blob once and reports the
    version of the schema: the findings are those of the available blobs by tenant and
    identifier, cut at the limit with a mark and counted by their code; each names an
    available blob whose object is not as its row says, every such blob is named
    unless the report is marked, and the report is verified exactly when there is no
    such blob. The batch size and the schedule of the workers make no difference. *)
Theorem pg_recovery_is_exact (env reading : PgEnv) v fuel s (w : World PostgresCatalog T) :
  @pg_reachable _ _ _ env _ s → pc_db (w_repo w) = pg_store s → (∀ n, @env_fault reading n = None) →
  0 < v_batchSize v → 0 < v_maxFindings v → (available_count (pg_store s) < fuel)%nat →
  ∃ report w', Verify (Catalog0 := @postgres_catalog _ reading) v fuel w = (Ok report, w') ∧
    pc_db (w_repo w') = pg_store s ∧ w_storage w' = w_storage w ∧
    Report_SchemaVersion report = highest_version (pc_migrations (w_repo w)) ∧
    Report_Checked report = Z.of_nat (available_count (pg_store s)) ∧
    (let all := omap (blob_finding (w_storage w)) (available_blobs (pg_store s)) in
     Report_Findings report = take (Z.to_nat (v_maxFindings v)) all ∧
     Report_Truncated report = (v_maxFindings v <? zlen all) ∧
     ∀ code, map_get (Report_Counts report) code = occurrences code all) ∧
    (∀ f, f ∈ Report_Findings report → ∃ b, available (pg_store s) (Finding_BlobID f) b ∧
      blob_tenant_id b = Finding_TenantID f ∧ ¬ intact (w_storage w) b) ∧
    (Report_Truncated report = false → ∀ id b, available (pg_store s) id b → ¬ intact (w_storage w) b →
      ∃ code, mkFinding code (blob_tenant_id b) id ∈ Report_Findings report) ∧
    (Report_Verified report = true ↔ ∀ id b, available (pg_store s) id b → intact (w_storage w) b).
Proof.
  intros Hs Hdb Hquiet Hbatch Hmax Hfuel. pose proof (reachable_blob_ids s Hs) as Hids. rewrite <- length_available in *.
  destruct (recovery_report_is_exact (Catalog0 := @postgres_catalog _ reading) v (reads_from (pg_store s) (pc_migrations (w_repo w))) _ _ fuel w
    (postgres_lists (pg_store s) Hids _ Hquiet)) as (report & w' & Hrun & [Hdb' _] & Hst & Hversion & Hchecked & _ & Hfindings &
    Htruncated & Hcounts & Hverified); [by split|done..|].
  exists report, w'. split_and!; try done.
  - intros f Hf. rewrite Hfindings in Hf. apply elem_of_take in Hf as (i & Hf & _).
    apply list_elem_of_lookup_2, elem_of_all_findings in Hf as (id & b & Hb & Hf).
    pose proof (blob_finding_key _ _ _ Hf) as [= Ht Hid]. exists b. rewrite Hid. split_and!; [done|done|].
    rewrite <- (finding_intact _ id). by rewrite Hf.
  - intros Hshort id b Hb Hbad. rewrite Htruncated in Hshort. apply Z.ltb_ge in Hshort. rewrite Hfindings, take_ge by (unfold zlen in *; lia).
    destruct (blob_finding (w_storage w) (scanBlobRecord (id, b))) as [f|] eqn:Hf; [|by apply finding_intact in Hf].
    exists (Finding_Code f). pose proof (blob_finding_key _ _ _ Hf) as [= Ht Hid].
    apply elem_of_all_findings. exists id, b. split; [done|]. rewrite Hf. destruct f. simpl in *. by subst.
  - rewrite Hverified. split.
    + intros Hnil id b Hb. apply (finding_intact _ id). destruct (blob_finding _ _) as [f|] eqn:Hf; [|done].
      assert (f ∈ omap (blob_finding (w_storage w)) (available_blobs (pg_store s))) as Hin.
      { apply elem_of_all_findings. by exists id, b. }
      rewrite Hnil in Hin. by apply not_elem_of_nil in Hin.
    + intros Hall. apply elem_of_nil_inv. intros f (id & b & Hb & Hf)%elem_of_all_findings.
      apply Hall, (finding_intact _ id) in Hb. congruence.
Qed.
End recovery.

(** ** Witnesses *)

(** Scripts that add their text to a list; the server refuses the empty one. *)
#[local] Instance log_scripts : ScriptRunner (list string) := λ contents log,
  if contents == "" then inl (PgFault (SQLState "42601" "")) else inr (log ++ [contents]).
Definition example_files : list DirEntry :=
  [mkDirEntry "0002_more.sql" false "b"; mkDirEntry "README.md" false "text"; mkDirEntry "0001_mvp.sql" false "a";
   mkDirEntry "0010_last.sql" false "c"].
(** The connection is lost when the second script is committed. *)
Definition lost_connection : PgEnv := {|
  env_fault n := if (n =? 12)%nat then Some ContextDone else None;
  env_applied _ := false; env_now _ := 0; env_locked _ _ := false; env_gap _ := 0%nat
|}.
Definition fresh_database : MigrationDB (list string) := mkMigrationDB [] None.
Definition interrupted : MigrationDB (list string) :=
  cn_store (Migrate (env := lost_connection) example_files (mkConn fresh_database fresh_database false 0)).2.
Example interrupted_run : md_rest interrupted = ["a"] ∧ dom (recorded interrupted) = {[1]}.
Proof. by vm_compute. Qed.
Lemma example_named : well_named example_files.
Proof.
  split.
  - intros e He. change (scripts example_files) with
      [mkDirEntry "0001_mvp.sql" false "a"; mkDirEntry "0002_more.sql" false "b"; mkDirEntry "0010_last.sql" false "c"] in He.
    repeat (apply elem_of_cons in He as [->|He]; [by eexists|]). by apply not_elem_of_nil in He.
  - by apply (bool_decide_unpack _).
Qed.
Lemma migrations_converge_witness :
  let '(o, c) := Migrate (env := example_env) example_files (mkConn interrupted interrupted false 0) in
  o = Ok tt ∧ migrated example_files fresh_database 3 (cn_store c) ∧ md_rest (cn_store c) = ["a"; "b"; "c"].
Proof.
  pose proof (migrations_converge example_files fresh_database interrupted (env := example_env) 0 example_named) as Hc.
  destruct (Migrate _ _) as [o c] eqn:E. destruct Hc as (_ & _ & _ & Hall & Hok).
  { apply rtc_once. exists lost_connection, 0%nat. reflexivity. }
  assert (o = Ok tt) as ->; [apply Hok; [intros; reflexivity|exists ["a"; "b"; "c"]; vm_compute; reflexivity]|].
  assert (length (pending example_files fresh_database) = 3%nat) as Hlen by (vm_compute; reflexivity).
  rewrite <- Hlen. split_and!; [reflexivity|exact (Hall eq_refl)|]. clear -E. apply (f_equal (λ p, md_rest (cn_store p.2))) in E. by vm_compute in E.
Defined.

(** ** The export of the audit trail over the PostgreSQL repository *)

Import WorldLogic ServerWire ServerAPI AuditProperties.

Section pg_export.
Context {T : Type} `{!Platform, !MapRange, !Runtime, !TimeParser, !PgEngine, !PgEnv, !MetadataJSON, !StorageProvider T}.

(** The event a row of [audit_event] stands for. *)
Definition stored_event (kv : Z * audit_event_row) : AuditEvent :=
  scanAudit kv (default ∅ (Unmarshal_metadata (ae_metadata kv.2))).
Definition sequence_less (x y : Z * audit_event_row) : bool := x.1 <? y.1.
(** The range as the interface documents it, at the precision of the server. *)
Definition in_window (t : string) (from until : Time) (e : audit_event_row) : bool :=
  (ae_tenant_id e == t) && (pg_time from <=? ae_occurred_at e) && (ae_occurred_at e <? pg_time until).
Definition window_rows (d : DB) (t : string) (from until : Time) : list (Z * audit_event_row) :=
  sort_slice sequence_less (rows_where (db_audit_event d) (λ _ e, in_window t from until e)).

#[local] Instance sequence_less_swo : StrictWeakOrder sequence_less.
Proof. split; unfold sequence_less; intros *; lia. Qed.
Lemma sequence_discrete d p : discrete sequence_less (rows_where (db_audit_event d) p).
Proof.
  intros [k e] [k' e'] [Hk _]%elem_of_rows_where [Hk' _]%elem_of_rows_where. unfold sequence_less. simpl.
  intros. assert (k = k') as -> by lia. by simplify_eq.
Qed.
Lemma elem_of_window d t from until z e : (z, e) ∈ window_rows d t from until ↔
  db_audit_event d !! z = Some e ∧ in_window t from until e = true.
Proof. unfold window_rows. by rewrite elem_of_sort_slice, elem_of_rows_where. Qed.

(** The events have positive numbers. *)
Definition audit_numbers (d : DB) : Prop :=
  0 ≤ db_audit_sequence d ∧ ∀ z, is_Some (db_audit_event d !! z) → 0 < z.
Lemma write_audit_numbers k d d' : db_write k d d' → constraints d → audit_numbers d → audit_numbers d'.
Proof.
  intros Hw _ Hd. destruct Hw; try done. destruct Hd as [? Hz]. split; cbn; [lia|]. intros z.
  destruct (decide (z = sequence)) as [->|Hne]; [lia|]. rewrite lookup_insert_ne by done. apply Hz.
Qed.

Lemma window_sorted d t from until : StronglySorted seq_lt (stored_event <$> window_rows d t from until).
Proof.
  assert (StronglySorted (λ x y, sequence_less x y = true) (window_rows d t from until)) as Hs.
  { apply strictly_sorted; [apply sort_slice_sorted; apply _| |].
    - intros x y. unfold window_rows. rewrite !elem_of_sort_slice. apply sequence_discrete.
    - unfold window_rows. rewrite sort_slice_perm. eapply NoDup_fmap_1, NoDup_rows_where. }
  induction Hs as [|[k e] rows Hrows IH Hkv]; simpl; constructor; [done|].
  apply Forall_fmap. eapply Forall_impl; [exact Hkv|]. intros [k' e'] Hless. unfold seq_lt, sequence_less in *. simpl in *. lia.
Qed.

Lemma decode_stored rows : (∀ kv, kv ∈ rows → is_Some (Unmarshal_metadata (ae_metadata kv.2))) →
  decode_events rows = Ok (stored_event <$> rows).
Proof.
  induction rows as [|kv rows IH]; intros Hrows; [done|]. simpl. unfold stored_event at 1.
  destruct (Hrows kv) as [m ->]; [by left|]. simpl. rewrite IH by (intros; apply Hrows; by right). done.
Qed.

Lemma rows_ext d p q : (∀ k e, p k e = q k e) → rows_where (db_audit_event d) p = rows_where (db_audit_event d) q.
Proof. intros Hpq. unfold rows_where. apply list_filter_iff. intros [k e]. simpl. by rewrite Hpq. Qed.
Lemma window_later d t from until after :
  filter (later after) (stored_event <$> window_rows d t from until) =
  stored_event <$> sort_slice sequence_less (rows_where (db_audit_event d)
    (λ sequence e, in_window t from until e && (after <? sequence))).
Proof.
  assert (rows_where (db_audit_event d) (λ sequence e, in_window t from until e && (after <? sequence)) =
    filter (λ kv, after < kv.1) (rows_where (db_audit_event d) (λ _ e, in_window t from until e))) as ->.
  { unfold rows_where. rewrite list_filter_filter. apply list_filter_iff. intros [k e]. simpl.
    rewrite andb_true_iff, Z.ltb_lt. tauto. }
  rewrite (filter_sort_slice sequence_less) by apply _ || apply sequence_discrete. fold (window_rows d t from until).
  induction (window_rows d t from until) as [|[k e] rows IH]; [done|]. rewrite fmap_cons, !filter_cons.
  assert (later after (stored_event (k, e)) ↔ after < (k, e).1) as Hiff by done.
  repeat case_decide; [by rewrite fmap_cons, IH|tauto|tauto|done].
Qed.

Lemma pg_lists_trail r from until t d : (∀ n, env_fault n = None) → from ≠ 0 → until ≠ 0 →
  uuid_in (tenant_of r) = Some t → audit_numbers d → deferred_violation d = None →
  (∀ z e, db_audit_event d !! z = Some e → is_Some (Unmarshal_metadata (ae_metadata e))) →
  lists_trail (R := Pg) r from until (λ s, pg_store s = d) (stored_event <$> window_rows d t from until).
Proof.
  intros Hquiet Hfrom Huntil Ht [_ Hnum] Hd Hmeta. split.
  - apply window_sorted.
  - intros ev ([z e] & -> & [Hz _]%elem_of_window)%list_elem_of_fmap. simpl. by apply Hnum.
  - intros s after Hs _. exists (s <| pg_statements := S (pg_statements s) |>). split; [done|].
    rewrite window_later. unfold R_ListAudit. simpl. unfold PgGroups.ListAudit, must, pool_query, mbind, GoM_bind, lift. simpl.
    rewrite Hquiet, Hs. unfold uuid, table_of, Stmt_bind, mbind. rewrite Ht. simpl.
    unfold limit_rows, nullTime, IsZero. rewrite (proj2 (Z.eqb_neq from 0)), (proj2 (Z.eqb_neq until 0)) by done. simpl.
    rewrite Hd. destruct s as [st w n]. simpl in *. subst st. unfold ret. simpl.
    rewrite decode_stored.
    + rewrite <- fmap_take. do 2 f_equal. erewrite rows_ext; [reflexivity|]. intros k e. simpl. unfold in_window.
      by destruct (_ == t), (after <? k), (pg_time from <=? _), (_ <? pg_time until).
    + intros [z e] Hin%elem_of_take. destruct Hin as (i & Hi%list_elem_of_lookup_2 & _).
      rewrite elem_of_sort_slice, elem_of_rows_where in Hi. by eapply Hmeta, Hi.
Qed.

(** C12: over the PostgreSQL repository, while the database answers, an export by a
    manager of the tenant over a range of at most 31 days is answered with the events of
    the tenant in that range, the lower bound included and the upper bound not, all of
    them, each once and in the order of their numbers, or with an error when there are
    more than 10000 of them; it changes nothing. *)
Theorem pg_audit_export_complete r from until (w : World Pg T) a limit t : pg_reachable (w_repo w) →
  (∀ n, env_fault n = None) → uuid_in (tenant_of r) = Some t →
  (∀ z row, db_audit_event (pg_store (w_repo w)) !! z = Some row → is_Some (Unmarshal_metadata (ae_metadata row))) →
  parseAuditFilter r = Ok (a, from, until, limit) → export_allowed r from until →
  let events := stored_event <$> window_rows (pg_store (w_repo w)) t from until in
  ∃ repo, pg_store repo = pg_store (w_repo w) ∧ StronglySorted seq_lt events ∧
    (∀ e, e ∈ events ↔ ∃ z row, db_audit_event (pg_store (w_repo w)) !! z = Some row ∧ ae_tenant_id row = t ∧
       pg_time from ≤ ae_occurred_at row < pg_time until ∧ e = stored_event (z, row)) ∧
    (zlen events ≤ 10000 → ∃ headers, exportAuditEvents r w =
       (Ok (mkResponse StatusOK headers (toAuditResponse <$> events)), with_repo w repo)) ∧
    (10000 < zlen events → exportAuditEvents r w =
       (Err (E CodeInvalidRequest "audit export exceeds 10000 events; narrow the time range"), with_repo w repo)).
Proof.
  intros Hreach Hquiet Ht Hmeta Hparse Hallowed events. pose proof Hallowed as (_ & Hfrom & Huntil & _).
  destruct (reachable_sound audit_numbers _ Hreach) as (_ & Hd & _ & Hnum); [|apply write_audit_numbers|].
  { split; [done|]. intros z [? E]. cbn in E; by rewrite lookup_empty in E. }
  pose proof (pg_lists_trail r from until t _ Hquiet Hfrom Huntil Ht Hnum Hd Hmeta) as Hlists.
  destruct (export_lists r from until _ _ Hlists Hallowed w a limit Hparse eq_refl) as (repo & Hrepo & Hfew & Hmany).
  exists repo. split_and!; [done|apply window_sorted| |done|done].
  intros e. unfold events. rewrite list_elem_of_fmap. split.
  - intros ([z row] & -> & [Hz Hin]%elem_of_window). exists z, row. unfold in_window in Hin. go_bool. split_and!; (done || lia).
  - intros (z & row & Hz & Hrow & Hin & ->). exists (z, row). split; [done|]. apply elem_of_window. split; [done|].
    unfold in_window. rewrite (bool_decide_eq_true_2 _ Hrow). simpl. lia.
Qed.
End pg_export.

#[local] Existing Instance ServerProperties.example_times.
(** The owner of the demo exports up to the moment of the grant, which is left out. *)
Definition pg_export_request : Request :=
  mkRequest ∅ (list_to_map [("from", "1"); ("until", "104000")]) ∅ 0 ""
    (Some (Auth.mkPrincipal alice "Owner" RoleOwner)) None "req_3".
Definition pg_export_world : World Pg MemoryStorage.Storage :=
  mkWorld pg_demo8 (MemoryStorage.mkStorage "bucket" ∅ ∅ None "memory://bucket") 0 0.
Lemma pg_export_parsed : parseAuditFilter pg_export_request = Ok (0, 1, 104000, 50).
Proof. vm_compute. reflexivity. Qed.
Lemma pg_export_allowed : export_allowed pg_export_request 1 104000.
Proof. split; [vm_compute; reflexivity|]. repeat split; vm_compute; discriminate. Qed.
Definition pg_exported : list AuditEvent :=
  stored_event <$> window_rows (pg_store pg_demo8) tenant1 1 104000.
Example pg_exported_times : (λ e, AuditEvent_OccurredAt e) <$> pg_exported = [101000; 102000].
Proof. vm_compute. reflexivity. Qed.
Lemma pg_audit_export_complete_witness : ∃ headers repo, exportAuditEvents pg_export_request pg_export_world =
  (Ok (mkResponse StatusOK headers (toAuditResponse <$> pg_exported)), with_repo pg_export_world repo).
Proof.
  destruct (pg_audit_export_complete pg_export_request 1 104000 pg_export_world 0 50 tenant1
    (service_pg_reachable _ pg_demo8_reachable)) as (repo & _ & _ & _ & Hfew & _); [done|computed|by eexists|
    apply pg_export_parsed|apply pg_export_allowed|].
  destruct Hfew as [headers Hrun]; [vm_compute; discriminate|]. exists headers, repo. exact Hrun.
Defined.

(** The demo up to a committed upload, and stores with and without its object. *)
Definition pg_demo9 : Pg := pg_after (MarkUploading alice upload1 (us 110)) pg_demo8.
Definition pg_demo10 : Pg := pg_after (BeginComplete alice upload1 "digest" [] (us 111)) pg_demo9.
Definition pg_demo11 : Pg := pg_after (MarkObjectCompleted alice upload1 go_zero (us 112)) pg_demo10.
Definition pg_commit1 : CommitUploadCommand :=
  commit1 <| CommitUploadCommand_Blob :=
    mkBlob blob1 tenant1 "bucket" "blobs/1" 10 "text/plain" (mkChecksum "" "") ChecksumUnavailable BlobAvailable 1 (us 113) None |>
  <| CommitUploadCommand_Now := us 113 |>.
Definition pg_demo12 : Pg := pg_after (PgUploads.CommitUpload no_context (rnd 6) pg_commit1) pg_demo11.
Lemma pg_demo12_reachable : pg_reachable pg_demo12.
Proof.
  destruct (service_pg_reachable _ pg_demo8_reachable) as [n Hn]. exists n.
  eapply rtc_r; [|eapply step_method, call_CommitUpload].
  eapply rtc_r; [|eapply step_method, call_MarkObjectCompleted].
  eapply rtc_r; [|eapply step_method, call_BeginComplete].
  eapply rtc_r; [|eapply step_method, call_MarkUploading]. exact Hn.
Qed.
Definition catalog_of (s : Pg) : PostgresCatalog := mkPostgresCatalog (pg_store s) {[5 := mk_migration_row "0005" 0]} 0.
Definition store_of (data : string) : MemoryStorage.Storage :=
  MemoryStorage.mkStorage "bucket" ∅ {["blobs/1" := MemoryStorage.mkStoredObject data
    (mkObjectInfo "bucket" "blobs/1" (zstrlen data) "" go_zero ChecksumUnavailable)]} None "memory://bucket".
#[local] Instance reversed_schedule : Schedule.
Proof. refine {| schedule A n l := reverse l |}. intros. apply reverse_Permutation. Defined.
Lemma pg_recovery_is_exact_witness :
  (∃ report w', Verify (mkVerifier 2 16 100) 3 (mkWorld (catalog_of pg_demo12) (store_of "0123456789") 0 0) = (Ok report, w') ∧
    Report_Checked report = 1 ∧ Report_SchemaVersion report = 5) ∧
  ∀ report w', Verify (mkVerifier 2 16 100) 3 (mkWorld (catalog_of pg_demo12) (store_of "012345678") 0 0) = (Ok report, w') →
    Report_Verified report = false.
Proof.
  split.
  - destruct (pg_recovery_is_exact example_env example_env (mkVerifier 2 16 100) 3 pg_demo12
      (mkWorld (catalog_of pg_demo12) (store_of "0123456789") 0 0) pg_demo12_reachable) as
      (report & w' & Hrun & _ & _ & Hversion & Hchecked & _); [done..|apply Nat.ltb_lt; computed|].
    exists report, w'. split_and!; [exact Hrun|rewrite Hchecked; computed|rewrite Hversion; computed].
  - intros report w' Hrun. apply (f_equal fst) in Hrun. vm_compute in Hrun. by injection Hrun as <-.
Defined.
