(* ===== verification/ReleaseChecks.v ===== *)
(** * The checks of the continuous integration
    (src/internal/cicheck/openapi_compat.go, integration_report.go)

    Two gates of a release: the comparison of two OpenAPI documents, and the check of
    a test report against the manifest of required integration tests. The YAML and
    JSON decoders and the files are parameters; both gates are computed on what they
    read. *)
From S2P Require Import Prelude Errors GoLib.

(** ** Decoded YAML

    [any]: a scalar that is neither a string nor a boolean is [AOther]. A map is the
    list of its entries in the order a range over it visits them; no key occurs
    twice. *)
#[local] Unset Elimination Schemes.
Inductive Any : Type :=
| ANull
| ABool (b : bool)
| AString (s : string)
| AOther (text : string)
| AList (l : list Any)
| AMap (entries : list (string * Any)).
#[local] Set Elimination Schemes.

(** The induction on a value goes through the values of its entries. *)
Lemma Any_ind (P : Any → Prop) :
  P ANull → (∀ b, P (ABool b)) → (∀ s, P (AString s)) → (∀ s, P (AOther s)) →
  (∀ l, Forall P l → P (AList l)) → (∀ l, Forall (λ kv, P kv.2) l → P (AMap l)) → ∀ a, P a.
Proof.
  intros Hnull Hbool Hstring Hother Hlist Hmap. fix IH 1. intros [ |b|s|s|l|l]; [done|done|done|done| |].
  - apply Hlist. induction l; constructor; auto.
  - apply Hmap. induction l as [|[k v] l IHl]; constructor; [apply IH|apply IHl].
Qed.

(** A [map[string]any], [None] for the nil map; [m[k]] with and without [ok]. *)
Abbreviation AnyMap := (option (list (string * Any))) (only parsing).
Fixpoint assoc (l : list (string * Any)) (k : string) : option Any :=
  match l with
  | [] => None
  | (k', v) :: l => if k' == k then Some v else assoc l k
  end.
Definition find_key (m : AnyMap) (k : string) : option Any := m ≫= λ l, assoc l k.
Definition index (m : AnyMap) (k : string) : Any := default ANull (find_key m k).
Definition range_of (m : AnyMap) : list (string * Any) := default [] m.

Definition mapValue (value : Any) : AnyMap :=
  match value with AMap l => Some l | _ => None end.
Definition boolValue (value : Any) : bool :=
  match value with ABool b => b | _ => false end.
Definition stringValue (value : Any) : option string :=
  match value with AString s => Some s | _ => None end.
Definition listValue (value : Any) : list Any :=
  match value with AList l => l | _ => [] end.
Definition stringSet (value : Any) : gset string := list_to_set (omap stringValue (listValue value)).
Definition sort_strings (l : list string) : list string := sort_slice str_ltb l.
Definition sortedKeys (m : AnyMap) : list string := sort_strings (range_of m).*1.

(** [strings.ToUpper] of a method, which is one of [openAPIMethods]. *)
Definition upper_ascii (s : string) : string :=
  of_bytes ((λ b, if in_range 97 122 b then b - 32 else b) <$> bytes s).
Definition openAPIMethods : list string := ["delete"; "get"; "head"; "options"; "patch"; "post"; "put"; "trace"].

(** The result of [parameterMap] is a new map; a later parameter replaces one with
    the same identity. *)
Definition parameter_entry (item : Any) : option (string * AnyMap) :=
  let parameter := mapValue item in
  match stringValue (index parameter "name"), stringValue (index parameter "in") with
  | Some name, Some location => Some (name +:+ " in " +:+ location, parameter)
  | _, _ => None
  end.
Definition parameterMap (value : Any) : gmap string AnyMap :=
  foldl (λ result '(identity, parameter), <[identity := parameter]> result) ∅ (omap parameter_entry (listValue value)).

(** ** The comparison of two documents *)

Section compare.
Context `{!MapRange}.

(** [compareSchema(location, mapValue(base), mapValue(current))]. *)
Definition changed_string (base current : AnyMap) (key problem : string) : list string :=
  match stringValue (index base key) with
  | Some b => if stringValue (index current key) == Some b then [] else [problem]
  | None => []
  end.
Definition removed_required (location : string) (base current : AnyMap) : list string :=
  omap (λ name, if bool_decide (name ∈ stringSet (index current "required")) then None
                else Some ("required property " +:+ name +:+ " was removed from " +:+ location))
    (elements (stringSet (index base "required"))).
Fixpoint compareSchema (location : string) (base current : Any) : list string :=
  match base with
  | AMap entries =>
    let base := Some entries in
    match mapValue current with
    | None => ["schema was removed from " +:+ location]
    | Some currentEntries =>
      let current := Some currentEntries in
      changed_string base current "$ref" ("schema reference changed at " +:+ location) ++
      changed_string base current "type" ("schema type changed at " +:+ location) ++
      removed_required location base current ++
      (fix find l :=
         match l with
         | [] => []
         | (key, value) :: l =>
           if key == "properties" then
             match value with
             | AMap baseProperties =>
               (fix each properties :=
                  match properties with
                  | [] => []
                  | (name, baseProperty) :: properties =>
                    match find_key (mapValue (index current "properties")) name with
                    | None => ["property " +:+ name +:+ " was removed from " +:+ location]
                    | Some currentProperty => compareSchema (location +:+ "." +:+ name) baseProperty currentProperty
                    end ++ each properties
                  end) baseProperties
             | _ => []
             end
           else find l
         end) entries
    end
  | _ => []
  end.

Definition compareResponseSchema (path method status : string) (base current : AnyMap) : list string :=
  let currentContent := mapValue (index current "content") in
  range_of (mapValue (index base "content")) ≫= λ '(mediaType, baseMedia),
    match find_key currentContent mediaType with
    | None => ["response " +:+ status +:+ " media type " +:+ mediaType +:+ " was removed from " +:+
               upper_ascii method +:+ " " +:+ path]
    | Some currentMedia =>
      compareSchema ("response " +:+ status +:+ " of " +:+ upper_ascii method +:+ " " +:+ path)
        (index (mapValue baseMedia) "schema") (index (mapValue currentMedia) "schema")
    end.

Definition compare_parameter (path method : string) (currentParameters : gmap string AnyMap)
    (entry : string * AnyMap) : list string :=
  let '(identity, parameter) := entry in
  match currentParameters !! identity with
  | None => ["parameter " +:+ identity +:+ " was removed from " +:+ upper_ascii method +:+ " " +:+ path]
  | Some currentParameter =>
    if negb (boolValue (index parameter "required")) && boolValue (index currentParameter "required")
    then ["parameter " +:+ identity +:+ " became required on " +:+ upper_ascii method +:+ " " +:+ path]
    else []
  end.
Definition compare_request (path method : string) (baseRequest currentRequest : AnyMap) : list string :=
  match baseRequest, currentRequest with
  | Some _, None => ["request body was removed from " +:+ upper_ascii method +:+ " " +:+ path]
  | Some _, _ =>
    if negb (boolValue (index baseRequest "required")) && boolValue (index currentRequest "required")
    then ["request body became required on " +:+ upper_ascii method +:+ " " +:+ path] else []
  | None, _ => []
  end.
Definition compare_response (path method : string) (currentResponses : AnyMap) (entry : string * Any) : list string :=
  let '(status, response) := entry in
  match find_key currentResponses status with
  | None => ["response " +:+ status +:+ " was removed from " +:+ upper_ascii method +:+ " " +:+ path]
  | Some currentResponse => compareResponseSchema path method status (mapValue response) (mapValue currentResponse)
  end.
Definition compareOperation (path method : string) (base current : AnyMap) : list string :=
  (map_range 0 (parameterMap (index base "parameters")) ≫=
     compare_parameter path method (parameterMap (index current "parameters"))) ++
  compare_request path method (mapValue (index base "requestBody")) (mapValue (index current "requestBody")) ++
  (range_of (mapValue (index base "responses")) ≫=
     compare_response path method (mapValue (index current "responses"))).

Definition compare_method (path : string) (baseItem currentItem : AnyMap) (method : string) : list string :=
  if negb (bool_decide (method ∈ openAPIMethods)) then [] else
  match find_key currentItem method with
  | None => ["operation " +:+ upper_ascii method +:+ " " +:+ path +:+ " was removed"]
  | Some currentOperation =>
    compareOperation path method (mapValue (index baseItem method)) (mapValue currentOperation)
  end.
Definition compare_path (basePaths currentPaths : AnyMap) (path : string) : list string :=
  let baseItem := mapValue (index basePaths path) in
  match find_key currentPaths path with
  | None => ["path " +:+ path +:+ " was removed"]
  | Some currentItem => sortedKeys baseItem ≫= compare_method path baseItem (mapValue currentItem)
  end.

(** [loadOpenAPIDocument]: the decoded document of a file. *)
Class Documents := load_document : string → GoError + AnyMap.
Context `{!Documents}.

Definition newline : string := of_bytes [10].
Definition compareOpenAPICompatibility (basePath currentPath : string) : option GoError :=
  match load_document basePath with
  | inl err => Some (WrapError "load base OpenAPI document" err)
  | inr base =>
    match load_document currentPath with
    | inl err => Some (WrapError "load current OpenAPI document" err)
    | inr current =>
      let basePaths := mapValue (index base "paths") in
      let currentPaths := mapValue (index current "paths") in
      if (basePaths == None) || (currentPaths == None) then
        Some (PlainError "both OpenAPI documents must define paths")
      else
        match sortedKeys basePaths ≫= compare_path basePaths currentPaths with
        | [] => None
        | problems => Some (PlainError ("breaking OpenAPI changes:" +:+ newline +:+ "- " +:+
                        StringsJoin (sort_strings problems) (newline +:+ "- ")))
        end
    end
  end.
Definition VerifyOpenAPICompatibility (basePath currentPath : string) : option GoError :=
  compareOpenAPICompatibility basePath currentPath.
End compare.

(** ** The test report *)

Record IntegrationPackage := mkIntegrationPackage {
  IntegrationPackage_Package : string; IntegrationPackage_Tests : list string
}.
Record IntegrationManifest := mkIntegrationManifest { IntegrationManifest_Packages : list IntegrationPackage }.
Record testEvent := mkTestEvent { testEvent_Action : string; testEvent_Package : string; testEvent_Test : string }.

(** What follows the first JSON value of the manifest. *)
Inductive Trailing : Type := TrailingEOF | TrailingValue | TrailingError (err : GoError).
Class ReportJSON := {
  decode_manifest : string → GoError + IntegrationManifest * Trailing;
  unmarshal_event : string → GoError + testEvent
}.

(** The checks of the tests of a package, and of the packages, with the names seen. *)
Fixpoint validate_tests (package : string) (tests : gset string) (l : list string) : option GoError :=
  match l with
  | [] => None
  | test :: l =>
    if test == "" then Some (PlainError ("integration manifest contains an empty test for package " +:+ package))
    else if bool_decide (test ∈ tests) then
      Some (PlainError ("integration manifest repeats test " +:+ package +:+ " " +:+ test))
    else validate_tests package ({[test]} ∪ tests) l
  end.
Fixpoint validate_packages (packages : gset string) (l : list IntegrationPackage) : option GoError :=
  match l with
  | [] => None
  | requirement :: l =>
    let package := IntegrationPackage_Package requirement in
    if (package == "") || (length (IntegrationPackage_Tests requirement) =? 0)%nat then
      Some (PlainError "integration manifest package and tests are required")
    else if bool_decide (package ∈ packages) then
      Some (PlainError ("integration manifest repeats package " +:+ package))
    else
      match validate_tests package ∅ (IntegrationPackage_Tests requirement) with
      | Some err => Some err
      | None => validate_packages ({[package]} ∪ packages) l
      end
  end.
Definition validateManifest (manifest : IntegrationManifest) : option GoError :=
  if (length (IntegrationManifest_Packages manifest) =? 0)%nat then
    Some (PlainError "integration manifest must contain at least one package")
  else validate_packages ∅ (IntegrationManifest_Packages manifest).

(** [required] and [packageStatus]. *)
Record Statuses := mkStatuses { required : gmap string (gmap string string); packageStatus : gmap string string }.
#[export] Instance eta_Statuses : Eta Statuses := λ r, mkStatuses (required r) (packageStatus r).
Definition initial_statuses (manifest : IntegrationManifest) : Statuses :=
  mkStatuses (foldl (λ m requirement,
      <[IntegrationPackage_Package requirement :=
          foldl (λ tests test, <[test := "missing"]> tests) ∅ (IntegrationPackage_Tests requirement)]> m)
    ∅ (IntegrationManifest_Packages manifest)) ∅.
Definition statusOrMissing (status : string) : string := if status == "" then "missing" else status.
Definition final_action (action : string) : bool := (action == "pass") || (action == "fail") || (action == "skip").

(** One event of the report. *)
Definition record_event (s : Statuses) (event : testEvent) : Statuses :=
  let package := testEvent_Package event in
  let test := testEvent_Test event in
  let action := testEvent_Action event in
  if test == "" then
    match required s !! package with
    | Some _ => if final_action action then s <| packageStatus := <[package := action]> (packageStatus s) |> else s
    | None => s
    end
  else
    match required s !! package with
    | Some tests =>
      match tests !! test with
      | Some _ => if final_action action
                  then s <| required := <[package := <[test := action]> tests]> (required s) |> else s
      | None => s
      end
    | None => s
    end.

(** The lines a [bufio.Scanner] with a buffer of 1 MiB reads: without the line feed
    and one carriage return before it; the text after the last line feed is a line
    if it is not empty. *)
Fixpoint split_lines (acc : list Z) (l : list Z) : list (list Z) :=
  match l with
  | [] => match acc with [] => [] | _ => [reverse acc] end
  | b :: l => if b =? 10 then reverse acc :: split_lines [] l else split_lines (b :: acc) l
  end.
Definition drop_cr (line : list Z) : list Z :=
  match reverse line with b :: l => if b =? 13 then reverse l else line | [] => [] end.
Definition max_token : Z := 2 ^ 20.

Section report.
Context `{!ReportJSON}.

Definition LoadIntegrationManifest (text : string) : GoError + IntegrationManifest :=
  match decode_manifest text with
  | inl err => inl (WrapError "decode integration manifest" err)
  | inr (manifest, trailing) =>
    match trailing with
    | TrailingValue => inl (PlainError "integration manifest must contain one JSON value")
    | TrailingError err => inl (WrapError "decode trailing integration manifest data" err)
    | TrailingEOF =>
      match validateManifest manifest with Some err => inl err | None => inr manifest end
    end
  end.

Definition json_int_nat (n : nat) : string := json_int (Z.of_nat n).
(** The loop over the lines; [err] is the error of the reader after the last one. *)
Fixpoint scan_events (err : option GoError) (line : nat) (s : Statuses) (lines : list (list Z)) : GoError + Statuses :=
  match lines with
  | [] => match err with Some err => inl (WrapError "read go test report" err) | None => inr s end
  | text :: lines =>
    if max_token <=? zlen text then
      inl (WrapError "read go test report" (PlainError "bufio.Scanner: token too long"))
    else
      match unmarshal_event (of_bytes (drop_cr text)) with
      | inl err => inl (WrapError ("decode go test event at line " +:+ json_int_nat (S line)) err)
      | inr event =>
        if (testEvent_Action event == "skip") && (testEvent_Test event != "") then
          inl (PlainError ("integration report contains skipped test " +:+ testEvent_Package event +:+ " " +:+
                 testEvent_Test event))
        else scan_events err (S line) (record_event s event) lines
      end
  end.

Definition package_failures (s : Statuses) (requirement : IntegrationPackage) : list string :=
  let package := IntegrationPackage_Package requirement in
  let status := map_get (packageStatus s) package in
  (if status != "pass" then ["package " +:+ package +:+ " status=" +:+ statusOrMissing status] else []) ++
  (IntegrationPackage_Tests requirement ≫= λ test,
     let status := map_get (map_get (required s) package) test in
     if status != "pass" then ["test " +:+ package +:+ " " +:+ test +:+ " status=" +:+ statusOrMissing status] else []).
Definition VerifyIntegrationReport (text : string) (read_error : option GoError) (manifest : IntegrationManifest)
    : option GoError :=
  match scan_events read_error 0 (initial_statuses manifest) (split_lines [] (bytes text)) with
  | inl err => Some err
  | inr s =>
    match IntegrationManifest_Packages manifest ≫= package_failures s with
    | [] => None
    | failures => Some (PlainError ("integration evidence is incomplete:" +:+ newline +:+
                     StringsJoin (sort_strings failures) newline))
    end
  end.
End report.

(** ** What the comparison accepts *)

Definition kept_string (base current : AnyMap) (key : string) : Prop :=
  ∀ s, stringValue (index base key) = Some s → stringValue (index current key) = Some s.
(** A schema is kept: its reference, its type, its required properties and, in the
    same way, every property; a schema that is not a map constrains nothing. *)
Inductive keeps_schema : Any → Any → Prop :=
| keeps_any base current : mapValue base = None → keeps_schema base current
| keeps_object base current :
    let b := mapValue base in
    let c := mapValue current in
    is_Some c → kept_string b c "$ref" → kept_string b c "type" →
    stringSet (index b "required") ⊆ stringSet (index c "required") →
    (∀ name property, (name, property) ∈ range_of (mapValue (index b "properties")) →
      ∃ property', find_key (mapValue (index c "properties")) name = Some property' ∧
        keeps_schema property property') →
    keeps_schema base current.

Definition keeps_response (base current : AnyMap) : Prop :=
  ∀ mediaType media, (mediaType, media) ∈ range_of (mapValue (index base "content")) →
    ∃ media', find_key (mapValue (index current "content")) mediaType = Some media' ∧
      keeps_schema (index (mapValue media) "schema") (index (mapValue media') "schema").
Definition not_newly_required (base current : AnyMap) : Prop :=
  boolValue (index current "required") = true → boolValue (index base "required") = true.
Record keeps_operation (base current : AnyMap) : Prop := {
  ko_parameters identity parameter : parameterMap (index base "parameters") !! identity = Some parameter →
    ∃ parameter', parameterMap (index current "parameters") !! identity = Some parameter' ∧
      not_newly_required parameter parameter';
  ko_request : is_Some (mapValue (index base "requestBody")) → is_Some (mapValue (index current "requestBody")) ∧
    not_newly_required (mapValue (index base "requestBody")) (mapValue (index current "requestBody"));
  ko_responses status response : (status, response) ∈ range_of (mapValue (index base "responses")) →
    ∃ response', find_key (mapValue (index current "responses")) status = Some response' ∧
      keeps_response (mapValue response) (mapValue response')
}.
Definition keeps_item (base current : AnyMap) : Prop :=
  ∀ method operation, method ∈ openAPIMethods → find_key base method = Some operation →
    ∃ operation', find_key current method = Some operation' ∧
      keeps_operation (mapValue operation) (mapValue operation').
(** The document [current] keeps what the document [base] writes out at its paths. A
    parameter given by reference has no identity and is not looked at; a schema or
    a response given by reference is its [$ref], and what it refers to, under the
    components of the documents, is not. What [current] adds is not looked at
    either. *)
Definition compatible (base current : AnyMap) : Prop :=
  is_Some (mapValue (index base "paths")) ∧ is_Some (mapValue (index current "paths")) ∧
  ∀ path item, find_key (mapValue (index base "paths")) path = Some item →
    ∃ item', find_key (mapValue (index current "paths")) path = Some item' ∧
      keeps_item (mapValue item) (mapValue item').

Lemma bind_nil {A B} (f : A → list B) l : l ≫= f = [] ↔ ∀ x, x ∈ l → f x = [].
Proof.
  induction l as [|x l IH]; simpl; [set_solver|]. rewrite app_nil, IH. setoid_rewrite elem_of_cons. naive_solver.
Qed.
Lemma assoc_elem l k v : assoc l k = Some v → (k, v) ∈ l.
Proof.
  induction l as [|[k' v'] l IH]; simpl; [done|]. case_bool_decide as E; [|right; auto].
  intros [= ->]. subst. by left.
Qed.
Lemma find_elem m k v : find_key m k = Some v → (k, v) ∈ range_of m.
Proof. destruct m; [apply assoc_elem|done]. Qed.

Section gate.
Context {mr : MapRange}.




Context `{!Documents}.

End gate.

(** ** Documents accepted one after the other *)

Lemma kept_string_trans a b c key : kept_string a b key → kept_string b c key → kept_string a c key.
Proof. unfold kept_string. auto. Qed.
Lemma not_newly_required_trans a b c : not_newly_required a b → not_newly_required b c → not_newly_required a c.
Proof. unfold not_newly_required. auto. Qed.
Lemma keeps_schema_trans a : ∀ b c, keeps_schema a b → keeps_schema b c → keeps_schema a c.
Proof.
  enough ((∀ b c, keeps_schema a b → keeps_schema b c → keeps_schema a c) ∧
    ∀ name p, (name, p) ∈ range_of (mapValue a) → ∀ b c, keeps_schema p b → keeps_schema b c → keeps_schema p c) by tauto.
  assert (∀ a, mapValue a = None → (∀ b c, keeps_schema a b → keeps_schema b c → keeps_schema a c) ∧
    ∀ name p, (name, p) ∈ range_of (mapValue a) → ∀ b c, keeps_schema p b → keeps_schema b c → keeps_schema p c) as Hscalar.
  { intros x Hx. rewrite Hx. split; [intros; by apply keeps_any|by intros name p ?%not_elem_of_nil]. }
  induction a as [| | | |l _|entries IH] using Any_ind; try by apply Hscalar.
  rewrite Forall_forall in IH. split; [|by intros name p Hp; apply (IH (name, p) Hp)].
  intros b c Hab Hbc. inversion Hab as [|? ? a' b' Hb Href Htype Hreq Hall]; [done|]. subst a' b'. subst.
  inversion Hbc as [? ? Hnone|? ? b' c' Hc Href' Htype' Hreq' Hall']; subst; [by rewrite Hnone in Hb; destruct Hb|].
  apply keeps_object; [done|by eapply kept_string_trans|by eapply kept_string_trans|by etrans|].
  intros name p Hp. destruct (Hall _ _ Hp) as (p' & Hp' & Hkeeps).
  destruct (Hall' _ _ (find_elem _ _ _ Hp')) as (p'' & Hp'' & Hkeeps'). exists p''. split; [done|].
  cbn [mapValue] in Hp. unfold index in Hp. destruct (find_key (Some entries) "properties") as [props|] eqn:E; [|by apply not_elem_of_nil in Hp].
  eapply (IH (_, props) (find_elem _ _ _ E)); [exact Hp|done|done].
Qed.
Lemma keeps_response_trans a b c : keeps_response a b → keeps_response b c → keeps_response a c.
Proof.
  intros Hab Hbc mediaType media Hm. destruct (Hab _ _ Hm) as (media' & Hm' & Hkeeps).
  destruct (Hbc _ _ (find_elem _ _ _ Hm')) as (media'' & Hm'' & Hkeeps'). exists media''.
  split; [done|]. by eapply keeps_schema_trans.
Qed.
Lemma keeps_operation_trans a b c : keeps_operation a b → keeps_operation b c → keeps_operation a c.
Proof.
  intros [Hparams Hrequest Hresponses] [Hparams' Hrequest' Hresponses']. split.
  - intros identity p Hp. destruct (Hparams _ _ Hp) as (p' & Hp' & Hreq). destruct (Hparams' _ _ Hp') as (p'' & Hp'' & Hreq').
    exists p''. split; [done|]. by eapply not_newly_required_trans.
  - intros Ha. destruct (Hrequest Ha) as [Hb Hreq]. destruct (Hrequest' Hb) as [Hc Hreq'].
    split; [done|]. by eapply not_newly_required_trans.
  - intros status r Hr. destruct (Hresponses _ _ Hr) as (r' & Hr' & Hkeeps).
    destruct (Hresponses' _ _ (find_elem _ _ _ Hr')) as (r'' & Hr'' & Hkeeps'). exists r''. split; [done|].
    by eapply keeps_response_trans.
Qed.
#[export] Instance compatible_trans : Transitive compatible.
Proof.
  intros a b c (Ha & Hb & Hab) (_ & Hc & Hbc). split_and!; [done..|]. intros path item Hitem.
  destruct (Hab _ _ Hitem) as (item' & Hitem' & Hkeeps). destruct (Hbc _ _ Hitem') as (item'' & Hitem'' & Hkeeps').
  exists item''. split; [done|]. intros method op Hmethod Hop.
  destruct (Hkeeps _ _ Hmethod Hop) as (op' & Hop' & Ho). destruct (Hkeeps' _ _ Hmethod Hop') as (op'' & Hop'' & Ho').
  exists op''. split; [done|]. by eapply keeps_operation_trans.
Qed.


(** Parameters without a name and a location, such as references, are not compared. *)
Definition has_identity (item : Any) : Prop := is_Some (parameter_entry item).
#[local] Instance has_identity_dec item : Decision (has_identity item).
Proof. unfold has_identity. apply _. Defined.



(** ** What the check of the report accepts *)

(** The outcome the report gives a test, or a package for the empty test: its last
    final event. *)
Definition about (package test : string) (event : testEvent) : Prop :=
  testEvent_Package event = package ∧ testEvent_Test event = test ∧ final_action (testEvent_Action event) = true.
#[local] Instance about_dec package test event : Decision (about package test event).
Proof. unfold about. apply _. Defined.
Definition outcome (events : list testEvent) (package test : string) : option string :=
  testEvent_Action <$> last (filter (about package test) events).
Definition skipped (event : testEvent) : Prop := testEvent_Action event = "skip" ∧ testEvent_Test event ≠ "".
(** The events of the lines, when every line is short enough and decodes. *)
Definition read_line `{!ReportJSON} (text : list Z) : option testEvent :=
  if max_token <=? zlen text then None else
  match unmarshal_event (of_bytes (drop_cr text)) with inl _ => None | inr event => Some event end.
Definition events_of `{!ReportJSON} (text : string) : option (list testEvent) :=
  mapM read_line (split_lines [] (bytes text)).

Section statuses.
Implicit Types (s : Statuses) (events : list testEvent).

Definition test_status s (package test : string) : option string := required s !! package ≫= λ tests, tests !! test.
Definition run_events s events : Statuses := foldl record_event s events.

Lemma record_known s e package : is_Some (required (record_event s e) !! package) ↔ is_Some (required s !! package).
Proof.
  unfold record_event. repeat case_match; try done. cbn.
  destruct (decide (package = testEvent_Package e)) as [->|]; [rewrite lookup_insert_eq|by rewrite lookup_insert_ne].
  naive_solver.
Qed.
Lemma run_known s events package : is_Some (required (run_events s events) !! package) ↔ is_Some (required s !! package).
Proof.
  revert s. induction events as [|e events IH]; intros s; [done|]. cbn. unfold run_events in IH. by rewrite IH, record_known.
Qed.
Lemma record_package s e package : is_Some (required s !! package) →
  packageStatus (record_event s e) !! package =
  if decide (about package "" e) then Some (testEvent_Action e) else packageStatus s !! package.
Proof.
  intros [tests Hreq]. unfold record_event. destruct (decide (testEvent_Package e = package)) as [<-|Hne].
  - rewrite Hreq. case_bool_decide as Ht.
    + destruct (final_action _) eqn:Hf; [rewrite decide_True by (by unfold about); cbn; apply lookup_insert_eq|].
      rewrite decide_False by (intros (?&?&?); congruence). done.
    + rewrite decide_False by (intros (?&?&?); congruence). by repeat case_match.
  - rewrite decide_False by (intros (?&?&?); congruence). repeat case_match; try done. cbn. by rewrite lookup_insert_ne.
Qed.
Lemma record_test s e package test : test ≠ "" → is_Some (test_status s package test) →
  test_status (record_event s e) package test =
  if decide (about package test e) then Some (testEvent_Action e) else test_status s package test.
Proof.
  unfold test_status, record_event. intros Hne Hsome. destruct (required s !! package) as [tests|] eqn:Hreq; [|by destruct Hsome].
  cbn in Hsome. case_bool_decide as Ht.
  { rewrite decide_False by (intros (?&?&?); congruence). by repeat case_match; cbn; rewrite ?Hreq. }
  destruct (decide (testEvent_Package e = package)) as [<-|Hp].
  - rewrite Hreq. destruct (decide (testEvent_Test e = test)) as [<-|Htest].
    + destruct Hsome as [x Hx]. rewrite Hx. destruct (final_action _) eqn:Hf.
      * rewrite decide_True by (by unfold about). cbn. by rewrite lookup_insert_eq; cbn; rewrite lookup_insert_eq.
      * rewrite decide_False by (intros (?&?&?); congruence). by rewrite Hreq.
    + rewrite decide_False by (intros (?&?&?); congruence). repeat case_match; cbn; rewrite ?Hreq; try done.
      by rewrite lookup_insert_eq; cbn; rewrite lookup_insert_ne.
  - rewrite decide_False by (intros (?&?&?); congruence). repeat case_match; cbn; rewrite ?Hreq; try done.
    by rewrite lookup_insert_ne, Hreq.
Qed.
Lemma outcome_snoc events e package test : outcome (events ++ [e]) package test =
  if decide (about package test e) then Some (testEvent_Action e) else outcome events package test.
Proof.
  unfold outcome. rewrite filter_app, filter_cons, filter_nil. case_decide; [by rewrite last_snoc|by rewrite app_nil_r].
Qed.
Lemma run_package s events package : is_Some (required s !! package) → packageStatus s !! package = None →
  packageStatus (run_events s events) !! package = outcome events package "".
Proof.
  intros Hreq Hnone. induction events as [|e events IH] using rev_ind; [done|].
  unfold run_events in *. rewrite foldl_snoc, record_package, outcome_snoc, IH; [done|]. by apply run_known.
Qed.
Lemma run_test s events package test : test ≠ "" → test_status s package test = Some "missing" →
  test_status (run_events s events) package test = Some (default "missing" (outcome events package test)).
Proof.
  intros Hne Hmissing. induction events as [|e events IH] using rev_ind; [done|].
  unfold run_events in *. rewrite foldl_snoc, record_test, outcome_snoc, IH; [by case_decide|done|]. rewrite IH. done.
Qed.
End statuses.

Definition package_names (manifest : IntegrationManifest) : list string :=
  IntegrationPackage_Package <$> IntegrationManifest_Packages manifest.
Definition initial_tests (tests : list string) : gmap string string :=
  foldl (λ tests test, <[test := "missing"]> tests) ∅ tests.
Lemma initial_tests_lookup tests test : test ∈ tests → initial_tests tests !! test = Some "missing".
Proof.
  unfold initial_tests. induction tests as [|x tests IH] using rev_ind; [by intros ?%not_elem_of_nil|].
  rewrite foldl_snoc, elem_of_app, list_elem_of_singleton. intros Hin.
  destruct (decide (test = x)) as [->|Hne]; [apply lookup_insert_eq|]. rewrite lookup_insert_ne by done.
  apply IH. naive_solver.
Qed.
Lemma initial_lookup manifest r : NoDup (package_names manifest) → r ∈ IntegrationManifest_Packages manifest →
  required (initial_statuses manifest) !! IntegrationPackage_Package r = Some (initial_tests (IntegrationPackage_Tests r)).
Proof.
  unfold package_names, initial_statuses. cbn. generalize (IntegrationManifest_Packages manifest) as l.
  induction l as [|x l IH] using rev_ind; [by intros _ ?%not_elem_of_nil|].
  rewrite fmap_app, foldl_snoc, elem_of_app, list_elem_of_singleton. intros (Hnd & Hx & _)%NoDup_app Hr.
  destruct Hr as [Hr| ->]; [|apply lookup_insert_eq]. rewrite lookup_insert_ne; [by apply IH|].
  intros E. apply (Hx (IntegrationPackage_Package r)); [by apply list_elem_of_fmap_2|]. rewrite <- E. by left.
Qed.

(** A manifest that passes [validateManifest]. *)
Lemma validate_tests_named package seen l : validate_tests package seen l = None → "" ∉ l.
Proof.
  revert seen. induction l as [|test l IH]; intros seen; [intros _ ?%not_elem_of_nil; done|]. cbn [validate_tests].
  case_bool_decide; [done|]. case_bool_decide; [done|]. intros Hl. apply not_elem_of_cons. split; [done|by eapply IH].
Qed.
Lemma validate_packages_named seen l : validate_packages seen l = None →
  NoDup (IntegrationPackage_Package <$> l) ∧ (∀ r, r ∈ l → IntegrationPackage_Package r ∉ seen) ∧
  ∀ r, r ∈ l → "" ∉ IntegrationPackage_Tests r.
Proof.
  revert seen. induction l as [|r l IH]; intros seen.
  - intros _. split_and!; [constructor|by intros ? ?%not_elem_of_nil..].
  - cbn [validate_packages]. destruct (_ || _); [done|]. case_bool_decide as Hseen; [done|].
    destruct (validate_tests _ _ _) eqn:Htests; [done|]. intros (Hnd & Hfresh & Hnamed)%IH.
    rewrite fmap_cons. split_and!.
    + constructor; [|done]. intros (r' & E & Hr')%list_elem_of_fmap. apply (Hfresh r' Hr'). rewrite <- E. set_solver.
    + intros r' [->|Hr']%elem_of_cons; [done|]. specialize (Hfresh r' Hr'). set_solver.
    + intros r' [->|Hr']%elem_of_cons; [by eapply validate_tests_named|by apply Hnamed].
Qed.
Lemma validateManifest_named manifest : validateManifest manifest = None →
  NoDup (package_names manifest) ∧ ∀ r, r ∈ IntegrationManifest_Packages manifest → "" ∉ IntegrationPackage_Tests r.
Proof. unfold validateManifest. destruct (_ =? _)%nat; [done|]. by intros (? & _ & ?)%validate_packages_named. Qed.

Section report_gate.
Context `{!ReportJSON}.

Lemma scan_events_ok err n s lines s' : scan_events err n s lines = inr s' ↔
  err = None ∧ ∃ events, mapM read_line lines = Some events ∧ (∀ e, e ∈ events → ¬ skipped e) ∧ s' = run_events s events.
Proof.
  revert n s. induction lines as [|text lines IH]; intros n s; cbn [scan_events].
  - destruct err; [split; [done|by intros [? _]]|]. split; [|by intros (_ & ? & [= <-] & _ & ->)].
    intros [= <-]. split; [done|]. exists []. split_and!; [done|by intros ? ?%not_elem_of_nil|done].
  - change (mapM read_line (text :: lines)) with (read_line text ≫= λ e, mapM read_line lines ≫= λ l, Some (e :: l)).
    replace (read_line text) with (if max_token <=? zlen text then None else
      match unmarshal_event (of_bytes (drop_cr text)) with inl _ => None | inr event => Some event end) by done.
    destruct (max_token <=? _); [split; [done|by intros (_ & ? & [=] & _)]|].
    destruct (unmarshal_event _) as [|event]; [split; [done|by intros (_ & ? & [=] & _)]|]. cbn.
    assert ((testEvent_Action event == "skip") && (testEvent_Test event != "") = true ↔ skipped event) as Hskip.
    { unfold skipped. rewrite andb_true_iff, negb_true_iff, bool_decide_eq_true, bool_decide_eq_false. done. }
    destruct (_ && _) eqn:Hs.
    + split; [done|]. intros (_ & events & He & Hno & _). destruct (mapM _ lines) as [l|]; [|done]. cbn in He. simplify_eq.
      destruct (Hno event); [by left|by apply Hskip].
    + rewrite IH. assert (¬ skipped event) as Hevent by (rewrite <- Hskip; congruence). split.
      * intros (-> & events & -> & Hno & ->). split; [done|]. exists (event :: events). split_and!; [done| |done].
        intros e [->|He]%elem_of_cons; auto.
      * intros (-> & events & He & Hno & ->). split; [done|]. destruct (mapM _ lines) as [l|]; [|done]. cbn in He. simplify_eq.
        exists l. split_and!; [done| |done]. intros e He. apply Hno. by right.
Qed.

Lemma package_failures_nil s r : package_failures s r = [] ↔
  packageStatus s !! IntegrationPackage_Package r = Some "pass" ∧
  ∀ test, test ∈ IntegrationPackage_Tests r → test_status s (IntegrationPackage_Package r) test = Some "pass".
Proof.
  assert (∀ (m : gmap string string) k (problem : string), (if map_get m k != "pass" then [problem] else []) = [] ↔ m !! k = Some "pass") as Hget.
  { intros m k problem. unfold map_get. destruct (m !! k) as [x|]; cbn; case_bool_decide; naive_solver. }
  unfold package_failures. rewrite app_nil, Hget, bind_nil. setoid_rewrite Hget. unfold test_status, map_get at 1.
  destruct (required s !! _) as [tests|]; cbn; [done|]. 
  split; (intros [? Hall]; split; [done|]; intros test Htest; by specialize (Hall test Htest)).
Qed.
End report_gate.

(** C40: The gate on the tests accepts a report against a valid manifest exactly when
    the report is read to its end, every line is an event, no event skips a test, and
    for every required package and every required test in it the last final event
    is a pass. *)
Theorem integration_gate_exact `{!ReportJSON} text read_error manifest : validateManifest manifest = None →
  VerifyIntegrationReport text read_error manifest = None ↔
  read_error = None ∧ ∃ events, events_of text = Some events ∧ (∀ e, e ∈ events → ¬ skipped e) ∧
    ∀ r, r ∈ IntegrationManifest_Packages manifest →
      outcome events (IntegrationPackage_Package r) "" = Some "pass" ∧
      ∀ test, test ∈ IntegrationPackage_Tests r → outcome events (IntegrationPackage_Package r) test = Some "pass".
Proof.
  intros [Hnd Hnamed]%validateManifest_named. unfold VerifyIntegrationReport, events_of.
  assert (∀ events r, r ∈ IntegrationManifest_Packages manifest →
    package_failures (run_events (initial_statuses manifest) events) r = [] ↔
    outcome events (IntegrationPackage_Package r) "" = Some "pass" ∧
    ∀ test, test ∈ IntegrationPackage_Tests r → outcome events (IntegrationPackage_Package r) test = Some "pass") as Hr.
  { intros events r Hr. pose proof (initial_lookup _ _ Hnd Hr) as Hinit.
    rewrite package_failures_nil, run_package by (done || by eexists).
    assert (∀ test, test ∈ IntegrationPackage_Tests r →
      test_status (run_events (initial_statuses manifest) events) (IntegrationPackage_Package r) test = Some "pass" ↔
      outcome events (IntegrationPackage_Package r) test = Some "pass") as Htest; [|naive_solver].
    intros test Htest. rewrite run_test; [destruct (outcome _ _ _); naive_solver| |].
    - intros ->. by apply (Hnamed r).
    - unfold test_status. rewrite Hinit. by apply initial_tests_lookup. }
  destruct (scan_events _ _ _ _) as [err|s] eqn:Hscan.
  - split; [done|]. intros (-> & events & Hevents & Hno & _).
    assert (scan_events None 0 (initial_statuses manifest) (split_lines [] (bytes text)) =
      inr (run_events (initial_statuses manifest) events)) as E by (apply scan_events_ok; eauto). congruence.
  - apply scan_events_ok in Hscan as (-> & events & -> & Hno & ->).
    transitivity (IntegrationManifest_Packages manifest ≫= package_failures (run_events (initial_statuses manifest) events) = []).
    { by destruct (_ ≫= _). }
    rewrite bind_nil. split.
    + intros Hall. split; [done|]. exists events. split_and!; [done..|]. intros r Hin. by apply Hr, Hall.
    + intros (_ & ? & [= <-] & _ & Hall) r Hin. by apply Hr, Hall.
Qed.

(** ** Examples *)

#[local] Existing Instance canonical_range.

Definition a_schema (properties : list (string * Any)) : Any :=
  AMap [("type", AString "object"); ("required", AList [AString "id"]); ("properties", AMap properties)].
Definition a_document (parameters : list Any) (properties : list (string * Any)) (more : list (string * Any)) : AnyMap :=
  Some [("openapi", AString "3.1.0");
        ("paths", AMap ([("/files", AMap [("get", AMap [
            ("parameters", AList parameters);
            ("responses", AMap [("200", AMap [("content", AMap [("application/json",
              AMap [("schema", a_schema properties)])])])])])])] ++ more))].
Definition property_id : string * Any := ("id", AMap [("type", AString "string")]).
Definition property_name : string * Any := ("name", AMap [("type", AString "string")]).
Definition health : string * Any := ("/healthz", AMap [("get", AMap [])]).
Definition parameter_of (name : string) (req : bool) : Any :=
  AMap [("name", AString name); ("in", AString "query"); ("required", ABool req)].
#[local] Instance example_documents : Documents := λ path,
  if path == "v1" then inr (a_document [] [property_id] [])
  else if path == "v2" then inr (a_document [parameter_of "limit" false] [property_id; property_name] [])
  else if path == "v3" then inr (a_document [parameter_of "limit" false] [property_name; property_id] [health])
  else if path == "removed" then inr (a_document [] [property_name] [])
  else if path == "stricter" then inr (a_document [parameter_of "limit" true] [property_id] [])
  else inl (PlainError "file does not exist").

Example gate_reports : VerifyOpenAPICompatibility "v2" "removed" =
  Some (PlainError ("breaking OpenAPI changes:" +:+ newline +:+
    "- parameter limit in query was removed from GET /files" +:+ newline +:+
    "- property id was removed from response 200 of GET /files")).
Proof. vm_compute. reflexivity. Qed.

(** The gate looks at the parameters of the first document only: one that the second
    document adds, and requires, is accepted, although requests made for the first
    document do not send it. *)
Theorem gate_accepts_new_required_parameter :
  VerifyOpenAPICompatibility "v1" "stricter" = None ∧
  ∃ parameter, parameterMap (index (mapValue (index (mapValue (index (mapValue (index
    (a_document [parameter_of "limit" true] [property_id] []) "paths")) "/files")) "get")) "parameters")
    !! "limit in query" = Some parameter ∧ boolValue (index parameter "required") = true.
Proof. split; [vm_compute; reflexivity|]. eexists. split; vm_compute; reflexivity. Qed.

(** What is removed behind a reference is accepted: a parameter of the operation that
    was given by reference, and a property of the schema a response refers to. *)
Definition reference (target : string) : Any := AMap [("$ref", AString target)].
Definition referring_document (parameters : list Any) (properties : list (string * Any)) : AnyMap :=
  Some [("paths", AMap [("/files", AMap [("get", AMap [
           ("parameters", AList parameters);
           ("responses", AMap [("200", AMap [("content", AMap [("application/json",
             AMap [("schema", reference "#/components/schemas/File")])])])])])])]);
        ("components", AMap [
           ("parameters", AMap [("Limit", parameter_of "limit" false)]);
           ("schemas", AMap [("File", a_schema properties)])])].
Definition referring_documents : Documents := λ path,
  if path == "base" then inr (referring_document [reference "#/components/parameters/Limit"] [property_id; property_name])
  else inr (referring_document [] [property_id]).
Theorem gate_accepts_removal_behind_references :
  @VerifyOpenAPICompatibility _ referring_documents "base" "current" = None.
Proof. vm_compute. reflexivity. Qed.

(** A report of three lines; the first outcome of the test is replaced. *)
#[local] Instance example_events : ReportJSON := {|
  decode_manifest _ := inl (PlainError "");
  unmarshal_event line :=
    if line == "fail" then inr (mkTestEvent "fail" "example/s3" "TestStorage")
    else if line == "pass" then inr (mkTestEvent "pass" "example/s3" "TestStorage")
    else if line == "end" then inr (mkTestEvent "pass" "example/s3" "")
    else inl (PlainError "invalid character")
|}.
Definition example_manifest : IntegrationManifest := mkIntegrationManifest [mkIntegrationPackage "example/s3" ["TestStorage"]].
Definition lines (l : list string) : string := StringsJoin l newline.
Example report_refused :
  VerifyIntegrationReport (lines ["pass"; "fail"; "end"]) None example_manifest =
    Some (PlainError ("integration evidence is incomplete:" +:+ newline +:+ "test example/s3 TestStorage status=fail")) ∧
  VerifyIntegrationReport (lines ["pass"]) None example_manifest =
    Some (PlainError ("integration evidence is incomplete:" +:+ newline +:+ "package example/s3 status=missing")).
Proof. split; vm_compute; reflexivity. Qed.
Lemma integration_gate_exact_witness :
  VerifyIntegrationReport (lines ["fail"; "pass"; "end"]) None example_manifest = None.
Proof.
  apply (integration_gate_exact _ None example_manifest); [vm_compute; reflexivity|]. split; [done|].
  exists [mkTestEvent "fail" "example/s3" "TestStorage"; mkTestEvent "pass" "example/s3" "TestStorage"; mkTestEvent "pass" "example/s3" ""].
  split_and!; [vm_compute; reflexivity| |].
  - intros e He. repeat (apply elem_of_cons in He as [->|He]; [by intros [? _]|]). by apply not_elem_of_nil in He.
  - intros r Hr. apply list_elem_of_singleton in Hr as ->. split; [vm_compute; reflexivity|].
    intros test Ht. apply list_elem_of_singleton in Ht as ->. vm_compute. reflexivity.
Defined.
